(** * pyzstd, CFFI implementation: the streaming engine of [src/cffi/cffi_pyzstd.py]

    A shallow embedding of the output-buffer manager, the dictionary object,
    the parameter translator, the incremental compressor and decompressor and
    the stream pump, over an abstract zstd library (the cffi module [m]).

    Python integers are [Z]; byte strings and C [char[]] arrays are
    [list byte]; C arrays live in a heap indexed by allocation order, so that
    a block reached through [self.list] and through [out.dst] is one object.
    Every method is a function of the state it can change; an exception keeps
    the state reached when it was raised. [while True] loops take fuel; a loop
    that runs out of fuel yields [None]. The per-instance lock is taken and
    released around every public method and calls are sequential here, so it
    is left out. *)

From Stdlib Require Import ZArith List Bool Lia.
From Stdlib Require Import Init.Byte.
From stdpp Require Import base list gmap.

Local Open Scope Z_scope.

(** ** Values, exceptions, events *)

Definition bytes : Type := list byte.

(** Python's [len], as an integer. *)
Definition len {A : Type} (l : list A) : Z := Z.of_nat (length l).

(** The operation named in a codec error (class [_ErrorType]). *)
Inductive _ErrorType : Type :=
| ERR_DECOMPRESS | ERR_COMPRESS
| ERR_LOAD_D_DICT | ERR_LOAD_C_DICT
| ERR_GET_FRAME_SIZE | ERR_GET_C_BOUNDS | ERR_GET_D_BOUNDS | ERR_SET_C_LEVEL
| ERR_TRAIN_DICT | ERR_FINALIZE_DICT.

(** The [ValueError]s of the module, by the place that raises them. *)
Inductive value_error : Type :=
| VE_dict_too_short        (* 'Zstd dictionary content should at least 8 bytes.' *)
| VE_dict_not_valid        (* 'The dict_content argument is not a valid zstd dictionary ...' *)
| VE_int32_level | VE_int32_key | VE_int32_value   (* _check_int32_value *)
| VE_mode                  (* 'mode argument wrong value ...' *)
| VE_read_write_size
| VE_pledged_input_size
| VE_readinto_returned
| VE_write_returned.

(** The [ZstdError]s of the module. *)
Inductive zstd_error : Type :=
| ZE_code (type : _ErrorType) (zstd_code : Z)      (* _set_zstd_error *)
| ZE_parameter (is_compress : bool) (pos key value : Z)  (* _set_parameter_error *)
| ZE_create_cctx | ZE_create_dctx
| ZE_create_cdict | ZE_create_ddict
| ZE_incomplete_frame (decompressed : Z)
| ZE_incomplete_stream (total_input total_output : Z).

Inductive exn : Type :=
| MemoryError
| AssertionError
| IndexError
| EOFError
| TypeError
| ValueError (why : value_error)
| ZstdError (why : zstd_error).

(** Calls that leave the module and act on something: the library calls
    that take a compression or decompression context, the calls to the
    streams and to the callback, and the warning. The log holds them newest
    first. Library calls that take no context ([ZSTD_isError],
    [ZSTD_getFrameContentSize], [ZSTD_compressBound], [ZDICT_getDictID],
    the bounds, the creation of contexts and of digested dictionaries) are
    functions of their arguments and leave no event. *)
Inductive event : Type :=
| E_CCtx_setParameter (key value : Z)
| E_DCtx_setParameter (key value : Z)
| E_CCtx_refCDict
| E_DCtx_refDDict
| E_CCtx_setPledgedSrcSize (size : Z)
| E_compressStream2 (end_directive : Z)
| E_decompressStream
| E_CCtx_reset
| E_DCtx_reset
| E_freeCCtx
| E_freeDCtx
| E_warn
| E_readinto
| E_write (data : bytes)
| E_callback (total_input total_output : Z) (in_view out_view : bytes).

(** ** The heap of [char[]] arrays and the state monad *)

Record World : Type := mkWorld {
  heap : list bytes;      (* heap !! p : the array allocated p-th *)
  allocs : nat;           (* number of allocation requests so far *)
  log : list event
}.

Definition World0 : World := {| heap := []; allocs := 0; log := [] |}.

Inductive result (A : Type) : Type :=
| Ok (a : A)
| Raise (e : exn).
Arguments Ok {A} a.
Arguments Raise {A} e.

(** A computation over a state [S]: [None] when a loop ran out of fuel. *)
Definition M (S A : Type) : Type := S -> option (result A * S).

Definition ret {S A : Type} (a : A) : M S A := fun s => Some (Ok a, s).
Definition raise {S A : Type} (e : exn) : M S A := fun s => Some (Raise e, s).
Definition bind {S A B : Type} (c : M S A) (k : A -> M S B) : M S B :=
  fun s => match c s with
           | Some (Ok a, s') => k a s'
           | Some (Raise e, s') => Some (Raise e, s')
           | None => None
           end.
Definition get {S : Type} : M S S := fun s => Some (Ok s, s).
Definition modify {S : Type} (f : S -> S) : M S unit := fun s => Some (Ok tt, f s).

(** [try: body / except: handler e; raise]: the handler always re-raises. *)
Definition try_except_reraise {S A : Type} (body : M S A) (handler : M S unit) : M S A :=
  fun s => match body s with
           | Some (Raise e, s') =>
               match handler s' with
               | Some (Ok _, s'') => Some (Raise e, s'')
               | Some (Raise e', s'') => Some (Raise e', s'')
               | None => None
               end
           | r => r
           end.

(** [try: body / finally: cleanup], for a cleanup that cannot raise. *)
Definition try_finally {S A : Type} (body : M S A) (cleanup : S -> S) : M S A :=
  fun s => match body s with
           | Some (r, s') => Some (r, cleanup s')
           | None => None
           end.

(** Run a computation on a part of the state. *)
Definition zoom {S T A : Type} (proj : S -> T) (inj : T -> S -> S) (c : M T A) : M S A :=
  fun s => match c (proj s) with
           | Some (r, t') => Some (r, inj t' s)
           | None => None
           end.

Declare Scope py_scope.
Delimit Scope py_scope with py.
Notation "x <- c ;; k" := (bind c (fun x => k))
  (at level 100, c at next level, right associativity) : py_scope.
Notation "c ;;; k" := (bind c (fun _ => k))
  (at level 100, right associativity) : py_scope.
Local Open Scope py_scope.

Definition assert {S : Type} (b : bool) : M S unit :=
  if b then ret tt else raise AssertionError.

Definition emit (e : event) : M World unit :=
  modify (fun w => {| heap := heap w; allocs := allocs w; log := e :: log w |}).

(** Unfolding of the monad's operations, in the goal and in a hypothesis. *)
Ltac mred :=
  cbv beta iota delta [bind ret raise assert get modify emit zoom
                       try_finally try_except_reraise].
Ltac mred_in H :=
  cbv beta iota delta [bind ret raise assert get modify emit zoom
                       try_finally try_except_reraise] in H.

(** ** cffi: allocation and memory *)

(** What the allocator does is not fixed by the module: whether the n-th
    request fails, and what the fresh (not cleared) memory holds. *)
Class Ffi : Type := {
  alloc_fails : nat -> bool;
  uninit : nat -> nat -> byte
}.

(** The contents of array [p]; no array, no bytes. *)
Definition memread (w : World) (p : nat) : bytes := default [] (heap w !! p).

(** [l] with [data] written at offset [off]. *)
Definition write_at (l : bytes) (off : nat) (data : bytes) : bytes :=
  take off l ++ data ++ drop (off + length data)%nat l.

Definition memwrite (p : nat) (off : Z) (data : bytes) (w : World) : World :=
  {| heap := <[p := write_at (memread w p) (Z.to_nat off) data]> (heap w);
     allocs := allocs w; log := log w |}.

(** [ffi.memmove(dst + doff, src, n)] with the source given by its bytes. *)
Definition memmove (dst : nat) (doff : Z) (src : bytes) (n : Z) : M World unit :=
  modify (memwrite dst doff (take (Z.to_nat n) src)).

Section WithFfi.
Context {ffi : Ffi}.

(** [_new_nonzero('char[]', n)]: the new array, or [None] for [ffi.NULL]. *)
Definition _new_nonzero (n : Z) : M World (option nat) := fun w =>
  if alloc_fails (allocs w)
  then Some (Ok None, {| heap := heap w; allocs := S (allocs w); log := log w |})
  else Some (Ok (Some (length (heap w))),
             {| heap := heap w ++ [map (uninit (allocs w)) (seq 0 (Z.to_nat n))];
                allocs := S (allocs w); log := log w |}).

(** [_new_nonzero("ZSTD_inBuffer *")] and [_new_nonzero("ZSTD_outBuffer *")]:
    the struct itself is a value here, the request can still fail. *)
Definition _new_nonzero_struct : M World bool := fun w =>
  Some (Ok (negb (alloc_fails (allocs w))),
        {| heap := heap w; allocs := S (allocs w); log := log w |}).

End WithFfi.

(** ** The zstd library, as the module sees it through cffi ([lib as m]) *)

(** What a streaming step did: the context after it, its return code, the
    bytes it wrote at [out.dst + out.pos] and how far it advanced [in.pos]. *)
Record step (C : Type) : Type := mkStep {
  st_ctx : C;
  st_ret : Z;
  st_written : bytes;
  st_consumed : nat
}.
Arguments mkStep {C}.
Arguments st_ctx {C}.
Arguments st_ret {C}.
Arguments st_written {C}.
Arguments st_consumed {C}.

Class ZstdLib : Type := {
  ZSTD_CCtx : Type;
  ZSTD_DCtx : Type;
  ZSTD_CDict : Type;
  ZSTD_DDict : Type;
  (* constants of the C header *)
  ZSTD_e_continue : Z;
  ZSTD_e_flush : Z;
  ZSTD_e_end : Z;
  ZSTD_c_compressionLevel : Z;
  ZSTD_c_nbWorkers : Z;
  ZSTD_c_jobSize : Z;
  ZSTD_c_overlapLog : Z;
  ZSTD_CONTENTSIZE_UNKNOWN : Z;
  ZSTD_CONTENTSIZE_ERROR : Z;
  ZSTD_versionNumber : Z;
  ZSTD_minCLevel : Z;
  (* (lowerBound, upperBound) of a compression parameter *)
  ZSTD_cParam_getBounds : Z -> Z * Z;
  ZSTD_isError : Z -> bool;
  (* contexts and parameters; [None] is a NULL result *)
  ZSTD_createCCtx : option ZSTD_CCtx;
  ZSTD_createDCtx : option ZSTD_DCtx;
  ZSTD_CCtx_setParameter : ZSTD_CCtx -> Z -> Z -> ZSTD_CCtx * Z;
  ZSTD_DCtx_setParameter : ZSTD_DCtx -> Z -> Z -> ZSTD_DCtx * Z;
  ZSTD_CCtx_setPledgedSrcSize : ZSTD_CCtx -> Z -> ZSTD_CCtx * Z;
  ZSTD_CCtx_reset : ZSTD_CCtx -> ZSTD_CCtx;
  ZSTD_DCtx_reset : ZSTD_DCtx -> ZSTD_DCtx;
  ZSTD_compressBound : Z -> Z;
  (* dictionaries *)
  ZDICT_getDictID : bytes -> Z;
  ZSTD_createCDict : bytes -> Z -> option ZSTD_CDict;
  ZSTD_createDDict : bytes -> option ZSTD_DDict;
  ZSTD_CCtx_refCDict : ZSTD_CCtx -> ZSTD_CDict -> ZSTD_CCtx * Z;
  ZSTD_DCtx_refDDict : ZSTD_DCtx -> ZSTD_DDict -> ZSTD_DCtx * Z;
  (* frames *)
  ZSTD_getFrameContentSize : bytes -> Z;
  (* streaming steps: context, room left in the output buffer
     (out.size - out.pos), unread input (in.src[in.pos:in.size]) *)
  ZSTD_compressStream2 : ZSTD_CCtx -> nat -> bytes -> Z -> step ZSTD_CCtx;
  ZSTD_decompressStream : ZSTD_DCtx -> nat -> bytes -> step ZSTD_DCtx
}.

(** The C structs [ZSTD_inBuffer] and [ZSTD_outBuffer]. *)
Record ZSTD_inBuffer : Type := mkIn {
  in_src : bytes;     (* the bytes from [src] on *)
  in_size : Z;
  in_pos : Z
}.

Record ZSTD_outBuffer : Type := mkOut {
  out_dst : nat;      (* the array written to *)
  out_size : Z;
  out_pos : Z
}.

(** ** class _BlocksOutputBuffer *)

Definition KB : Z := 1024.
Definition MB : Z := 1024 * 1024.
Definition BUFFER_BLOCK_SIZE : list Z :=
  [ 32*KB; 64*KB; 256*KB; 1*MB; 4*MB; 8*MB; 16*MB; 16*MB;
    32*MB; 32*MB; 32*MB; 32*MB; 64*MB; 64*MB; 128*MB; 128*MB;
    256*MB ].

Record _BlocksOutputBuffer : Type := mkBuf {
  blist : list nat;       (* self.list: the blocks, oldest first *)
  allocated : Z;
  max_length : Z
}.

Section OutputBuffer.
Context {ffi : Ffi}.

Definition initAndGrow (max_length : Z) : M World (_BlocksOutputBuffer * ZSTD_outBuffer) :=
  let block_size :=
    if (0 <=? max_length) && (max_length <? nth 0 BUFFER_BLOCK_SIZE 0)
    then max_length
    else nth 0 BUFFER_BLOCK_SIZE 0 in
  block <- _new_nonzero block_size ;;
  match block with
  | None => raise MemoryError
  | Some block =>
      ret ({| blist := [block]; allocated := block_size; max_length := max_length |},
           {| out_dst := block; out_size := block_size; out_pos := 0 |})
  end.

Definition initWithSize (init_size : Z) : M World (_BlocksOutputBuffer * ZSTD_outBuffer) :=
  block <- _new_nonzero init_size ;;
  match block with
  | None => raise MemoryError
  | Some block =>
      ret ({| blist := [block]; allocated := init_size; max_length := -1 |},
           {| out_dst := block; out_size := init_size; out_pos := 0 |})
  end.

Definition grow (self : _BlocksOutputBuffer) (out : ZSTD_outBuffer)
  : M World (_BlocksOutputBuffer * ZSTD_outBuffer) :=
  assert (out_pos out =? out_size out) ;;;
  let list_len := length (blist self) in
  let block_size :=
    if (list_len <? length BUFFER_BLOCK_SIZE)%nat
    then nth list_len BUFFER_BLOCK_SIZE 0
    else List.last BUFFER_BLOCK_SIZE 0 in
  block_size <-
    (if max_length self >=? 0 then
       let rest := max_length self - allocated self in
       assert (rest >? 0) ;;;
       ret (if block_size >? rest then rest else block_size)
     else ret block_size) ;;
  b <- _new_nonzero block_size ;;
  match b with
  | None => raise MemoryError
  | Some b =>
      ret ({| blist := blist self ++ [b];
              allocated := allocated self + block_size;
              max_length := max_length self |},
           {| out_dst := b; out_size := block_size; out_pos := 0 |})
  end.

Definition reachedMaxLength (self : _BlocksOutputBuffer) (out : ZSTD_outBuffer)
  : M World bool :=
  assert (out_pos out =? out_size out) ;;;
  ret (allocated self =? max_length self).

(** The copy loop of [finish]: [for block in self.list[:-1]]. *)
Fixpoint finish_copy (final : nat) (posi : Z) (blocks : list nat) : M World Z :=
  match blocks with
  | [] => ret posi
  | block :: rest =>
      w <- get ;;
      memmove final posi (memread w block) (len (memread w block)) ;;;
      finish_copy final (posi + len (memread w block)) rest
  end.

Definition finish (self : _BlocksOutputBuffer) (out : ZSTD_outBuffer) : M World bytes :=
  if ((length (blist self) =? 1)%nat && (out_pos out =? out_size out))
     || ((length (blist self) =? 2)%nat && (out_pos out =? 0))
  then
    match blist self with
    | block0 :: _ => w <- get ;; ret (memread w block0)
    | [] => raise IndexError
    end
  else
    let data_size := allocated self - (out_size out - out_pos out) in
    final <- _new_nonzero data_size ;;
    match final with
    | None => raise MemoryError
    | Some final =>
        posi <- finish_copy final 0 (removelast (blist self)) ;;
        match last (blist self) with
        | None => raise IndexError
        | Some last_block =>
            w <- get ;;
            memmove final posi (memread w last_block) (out_pos out) ;;;
            w <- get ;;
            ret (memread w final)
        end
    end.

End OutputBuffer.

(** ** Calls into the library *)

(** State seen by code that drives a context: the context and the world. *)
Definition liftW {X A : Type} (c : M World A) : M (X * World) A :=
  zoom snd (fun w s => (fst s, w)) c.

(** Run [c] on the object [o]; the object it leaves is returned with the
    result and dropped with an exception. *)
Definition with_obj {O A : Type} (o : O) (c : M (O * World) A) : M World (A * O) :=
  fun w => match c (o, w) with
           | Some (Ok a, (o', w')) => Some (Ok (a, o'), w')
           | Some (Raise e, (_, w')) => Some (Raise e, w')
           | None => None
           end.

(** [in.src[in.pos:in.size]]: what a streaming step may read. *)
Definition unread (i : ZSTD_inBuffer) : bytes :=
  take (Z.to_nat (in_size i - in_pos i)) (drop (Z.to_nat (in_pos i)) (in_src i)).

(** A write of [data] through [out]: at [out.dst + out.pos], advancing
    [out.pos] (what a streaming step does to its output buffer). *)
Definition out_write (out : ZSTD_outBuffer) (data : bytes) : M World ZSTD_outBuffer :=
  modify (memwrite (out_dst out) (out_pos out) data) ;;;
  ret {| out_dst := out_dst out; out_size := out_size out;
         out_pos := out_pos out + len data |}.

Definition advance (i : ZSTD_inBuffer) (n : nat) : ZSTD_inBuffer :=
  {| in_src := in_src i; in_size := in_size i; in_pos := in_pos i + Z.of_nat n |}.

Section Library.
Context {ffi : Ffi} {m : ZstdLib}.

(** [_set_zstd_error(type, zstd_code)] *)
Definition _set_zstd_error {S A : Type} (type : _ErrorType) (zstd_code : Z) : M S A :=
  assert (ZSTD_isError zstd_code) ;;;
  raise (ZstdError (ZE_code type zstd_code)).

(** [_set_parameter_error(is_compress, pos, key, value)]: always raises. *)
Definition _set_parameter_error {S A : Type} (is_compress : bool) (pos key value : Z) : M S A :=
  raise (ZstdError (ZE_parameter is_compress pos key value)).

(** [m.ZSTD_compressStream2(cctx, out_buf, in_buf, end_directive)] *)
Definition compressStream2 (out_buf : ZSTD_outBuffer) (in_buf : ZSTD_inBuffer)
  (end_directive : Z) : M (ZSTD_CCtx * World) (Z * ZSTD_outBuffer * ZSTD_inBuffer) :=
  s <- get ;;
  let r := ZSTD_compressStream2 (fst s) (Z.to_nat (out_size out_buf - out_pos out_buf))
             (unread in_buf) end_directive in
  modify (fun s => (st_ctx r, snd s)) ;;;
  liftW (emit (E_compressStream2 end_directive)) ;;;
  out_buf' <- liftW (out_write out_buf (st_written r)) ;;
  ret (st_ret r, out_buf', advance in_buf (st_consumed r)).

(** [m.ZSTD_decompressStream(dctx, out_buf, in_buf)] *)
Definition decompressStream (out_buf : ZSTD_outBuffer) (in_buf : ZSTD_inBuffer)
  : M (ZSTD_DCtx * World) (Z * ZSTD_outBuffer * ZSTD_inBuffer) :=
  s <- get ;;
  let r := ZSTD_decompressStream (fst s) (Z.to_nat (out_size out_buf - out_pos out_buf))
             (unread in_buf) in
  modify (fun s => (st_ctx r, snd s)) ;;;
  liftW (emit E_decompressStream) ;;;
  out_buf' <- liftW (out_write out_buf (st_written r)) ;;
  ret (st_ret r, out_buf', advance in_buf (st_consumed r)).

Definition CCtx_setParameter (key value : Z) : M (ZSTD_CCtx * World) Z :=
  s <- get ;;
  let r := ZSTD_CCtx_setParameter (fst s) key value in
  modify (fun s => (fst r, snd s)) ;;;
  liftW (emit (E_CCtx_setParameter key value)) ;;;
  ret (snd r).

Definition DCtx_setParameter (key value : Z) : M (ZSTD_DCtx * World) Z :=
  s <- get ;;
  let r := ZSTD_DCtx_setParameter (fst s) key value in
  modify (fun s => (fst r, snd s)) ;;;
  liftW (emit (E_DCtx_setParameter key value)) ;;;
  ret (snd r).

Definition CCtx_refCDict (c_dict : ZSTD_CDict) : M (ZSTD_CCtx * World) Z :=
  s <- get ;;
  let r := ZSTD_CCtx_refCDict (fst s) c_dict in
  modify (fun s => (fst r, snd s)) ;;;
  liftW (emit E_CCtx_refCDict) ;;;
  ret (snd r).

Definition DCtx_refDDict (d_dict : ZSTD_DDict) : M (ZSTD_DCtx * World) Z :=
  s <- get ;;
  let r := ZSTD_DCtx_refDDict (fst s) d_dict in
  modify (fun s => (fst r, snd s)) ;;;
  liftW (emit E_DCtx_refDDict) ;;;
  ret (snd r).

Definition CCtx_setPledgedSrcSize (size : Z) : M (ZSTD_CCtx * World) Z :=
  s <- get ;;
  let r := ZSTD_CCtx_setPledgedSrcSize (fst s) size in
  modify (fun s => (fst r, snd s)) ;;;
  liftW (emit (E_CCtx_setPledgedSrcSize size)) ;;;
  ret (snd r).

(** [m.ZSTD_CCtx_reset(cctx, m.ZSTD_reset_session_only)] *)
Definition CCtx_reset : M (ZSTD_CCtx * World) unit :=
  modify (fun s => (ZSTD_CCtx_reset (fst s), snd s)) ;;;
  liftW (emit E_CCtx_reset).

(** [m.ZSTD_DCtx_reset(dctx, m.ZSTD_reset_session_only)] *)
Definition DCtx_reset : M (ZSTD_DCtx * World) unit :=
  modify (fun s => (ZSTD_DCtx_reset (fst s), snd s)) ;;;
  liftW (emit E_DCtx_reset).

(** ** Module constants *)

Definition _int_zstd_ver : Z := ZSTD_versionNumber.
Definition _min_level : Z := ZSTD_minCLevel.

(** [_SUPPORT_MULTITHREAD = (CParameter.nbWorkers.bounds() != (0, 0))] *)
Definition _SUPPORT_MULTITHREAD : bool :=
  negb ((fst (ZSTD_cParam_getBounds ZSTD_c_nbWorkers) =? 0)
        && (snd (ZSTD_cParam_getBounds ZSTD_c_nbWorkers) =? 0)).

(** ** class ZstdDict *)

(** The caches are part of the value: a method that fills one returns the
    dictionary it leaves. *)
Record ZstdDict : Type := mkZstdDict {
  dict_content : bytes;
  dict_id : Z;
  cdicts : gmap Z ZSTD_CDict;
  ddict : option ZSTD_DDict
}.

(** A bytes-like object, as [ZstdDict.__init__] uses one: [py_len] is
    what [len()] returns, the number of items, and [py_bytes] what
    [bytes()] returns, the memory [ffi.from_buffer] points to. The two
    agree only when the items are single bytes: [array.array('Q', [x])]
    has [len()] 1 and 8 bytes. *)
Record bytes_like : Type := mkBytesLike {
  py_len : Z;
  py_bytes : bytes
}.

(** A [bytes] or [bytearray] object. *)
Definition of_bytes (b : bytes) : bytes_like := {| py_len := len b; py_bytes := b |}.

(** [ZstdDict.__init__(dict_content, is_raw)], for a bytes-like argument:
    the length test and the size handed to [ZDICT_getDictID] are
    [len(dict_content)], the content kept is [bytes(dict_content)]. *)
Definition ZstdDict__init__ (dict_content : bytes_like) (is_raw : bool) : result ZstdDict :=
  if py_len dict_content <? 8 then Raise (ValueError VE_dict_too_short)
  else
    let dict_id :=
      ZDICT_getDictID (take (Z.to_nat (py_len dict_content)) (py_bytes dict_content)) in
    if negb is_raw && (dict_id =? 0) then Raise (ValueError VE_dict_not_valid)
    else Ok {| dict_content := py_bytes dict_content; dict_id := dict_id;
               cdicts := ∅; ddict := None |}.

Definition _get_cdict {S : Type} (self : ZstdDict) (level : Z) : M S (ZSTD_CDict * ZstdDict) :=
  match cdicts self !! level with
  | Some cdict => ret (cdict, self)
  | None =>
      match ZSTD_createCDict (dict_content self) level with
      | None => raise (ZstdError ZE_create_cdict)
      | Some cdict =>
          ret (cdict, {| dict_content := dict_content self; dict_id := dict_id self;
                         cdicts := <[level := cdict]> (cdicts self);
                         ddict := ddict self |})
      end
  end.

Definition _get_ddict {S : Type} (self : ZstdDict) : M S (ZSTD_DDict * ZstdDict) :=
  match ddict self with
  | Some d => ret (d, self)
  | None =>
      match ZSTD_createDDict (dict_content self) with
      | None => raise (ZstdError ZE_create_ddict)
      | Some d =>
          ret (d, {| dict_content := dict_content self; dict_id := dict_id self;
                     cdicts := cdicts self; ddict := Some d |})
      end
  end.

(** ** Parameters *)

Definition _check_int32_value {S : Type} (value : Z) (name : value_error) : M S unit :=
  if (-2147483648 <=? value) && (value <=? 2147483647) then ret tt
  else raise (ValueError name).

(** The [level_or_option] argument: an [int], a [dict] (its items in
    insertion order), or something else. *)
Inductive level_or_option_t : Type :=
| LO_int (level : Z)
| LO_dict (items : list (Z * Z))
| LO_other.

Definition clamp_compression_level (level : Z) : Z :=
  if _int_zstd_ver <? 10407 then
    if level <? _min_level then _min_level else level
  else level.

(** The [for posi, (key, value) in enumerate(level_or_option.items(), 1)]
    loop of [_set_c_parameters]. *)
Fixpoint _set_c_parameters_items (posi : Z) (items : list (Z * Z))
  (level : Z) (use_multithread : bool) : M (ZSTD_CCtx * World) (Z * bool) :=
  match items with
  | [] => ret (level, use_multithread)
  | (key, value) :: items =>
      _check_int32_value key VE_int32_key ;;;
      _check_int32_value value VE_int32_value ;;;
      let '(value, level, use_multithread) :=
        if key =? ZSTD_c_compressionLevel
        then (clamp_compression_level value, clamp_compression_level value,
              use_multithread)
        else if key =? ZSTD_c_nbWorkers
        then (if value >? 1 then (value, level, true)
              else if value =? 1 then (0, level, use_multithread)
              else (value, level, use_multithread))
        else (value, level, use_multithread) in
      vu <-
        (if negb _SUPPORT_MULTITHREAD
            && ((key =? ZSTD_c_nbWorkers) || (key =? ZSTD_c_jobSize)
                || (key =? ZSTD_c_overlapLog))
            && (value >? 0)
         then
           if key =? ZSTD_c_nbWorkers
           then liftW (emit E_warn) ;;; ret (0, false)
           else ret (0, use_multithread)
         else ret (value, use_multithread)) ;;
      zstd_ret <- CCtx_setParameter key (fst vu) ;;
      if ZSTD_isError zstd_ret
      then _set_parameter_error true posi key (fst vu)
      else _set_c_parameters_items (posi + 1) items level (snd vu)
  end.

Definition _set_c_parameters (level_or_option : level_or_option_t)
  : M (ZSTD_CCtx * World) (Z * bool) :=
  match level_or_option with
  | LO_int level_or_option =>
      _check_int32_value level_or_option VE_int32_level ;;;
      let level := clamp_compression_level level_or_option in
      zstd_ret <- CCtx_setParameter ZSTD_c_compressionLevel level ;;
      if ZSTD_isError zstd_ret
      then _set_zstd_error ERR_SET_C_LEVEL zstd_ret
      else ret (level, false)
  | LO_dict items => _set_c_parameters_items 1 items 0 false
  | LO_other => raise TypeError
  end.

(** [_set_d_parameters(dctx, option)], for a [dict] argument. *)
Fixpoint _set_d_parameters_items (posi : Z) (items : list (Z * Z))
  : M (ZSTD_DCtx * World) unit :=
  match items with
  | [] => ret tt
  | (key, value) :: items =>
      _check_int32_value key VE_int32_key ;;;
      _check_int32_value value VE_int32_value ;;;
      zstd_ret <- DCtx_setParameter key value ;;
      if ZSTD_isError zstd_ret
      then _set_parameter_error false posi key value
      else _set_d_parameters_items (posi + 1) items
  end.

Definition _set_d_parameters (option : list (Z * Z)) : M (ZSTD_DCtx * World) unit :=
  _set_d_parameters_items 1 option.

Definition _load_c_dict (zstd_dict : ZstdDict) (level : Z)
  : M (ZSTD_CCtx * World) ZstdDict :=
  cd <- _get_cdict zstd_dict level ;;
  zstd_ret <- CCtx_refCDict (fst cd) ;;
  if ZSTD_isError zstd_ret
  then _set_zstd_error ERR_LOAD_C_DICT zstd_ret
  else ret (snd cd).

Definition _load_d_dict (zstd_dict : ZstdDict) : M (ZSTD_DCtx * World) ZstdDict :=
  dd <- _get_ddict zstd_dict ;;
  zstd_ret <- DCtx_refDDict (fst dd) ;;
  if ZSTD_isError zstd_ret
  then _set_zstd_error ERR_LOAD_D_DICT zstd_ret
  else ret (snd dd).

(** ** class _Compressor, class ZstdCompressor *)

Record ZstdCompressor : Type := mkZstdCompressor {
  _use_multithreaded : bool;
  _cctx : ZSTD_CCtx;
  c__dict : option ZstdDict;      (* self.__dict *)
  __last_mode : Z
}.

Definition set_cctx (c : ZSTD_CCtx) (self : ZstdCompressor) : ZstdCompressor :=
  {| _use_multithreaded := _use_multithreaded self; _cctx := c;
     c__dict := c__dict self; __last_mode := __last_mode self |}.

Definition set_last_mode (mode : Z) (self : ZstdCompressor) : ZstdCompressor :=
  {| _use_multithreaded := _use_multithreaded self; _cctx := _cctx self;
     c__dict := c__dict self; __last_mode := mode |}.

(** Code of [_Compressor] that works on [self._cctx]. *)
Definition on_cctx {A : Type} (c : M (ZSTD_CCtx * World) A) : M (ZstdCompressor * World) A :=
  zoom (fun s => (_cctx (fst s), snd s))
       (fun t s => (set_cctx (fst t) (fst s), snd t)) c.

(** [_Compressor.__init__] followed by [ZstdCompressor.__init__]. *)
Definition ZstdCompressor__init__ (level_or_option : option level_or_option_t)
  (zstd_dict : option ZstdDict) : M World ZstdCompressor :=
  match ZSTD_createCCtx with
  | None => raise (ZstdError ZE_create_cctx)
  | Some cctx =>
      r <- with_obj cctx
             (lu <- match level_or_option with
                    | Some level_or_option => _set_c_parameters level_or_option
                    | None => ret (0, false)
                    end ;;
              d <- match zstd_dict with
                   | Some zstd_dict =>
                       d <- _load_c_dict zstd_dict (fst lu) ;; ret (Some d)
                   | None => ret None
                   end ;;
              ret (snd lu, d)) ;;
      ret {| _use_multithreaded := fst (fst r); _cctx := snd r;
             c__dict := snd (fst r); __last_mode := ZSTD_e_end |}
  end.

(** The [while True] loop of [_compress_impl]. *)
Fixpoint _compress_impl_loop (fuel : nat) (out : _BlocksOutputBuffer)
  (out_buf : ZSTD_outBuffer) (in_buf : ZSTD_inBuffer) (end_directive : Z)
  : M (ZSTD_CCtx * World) bytes :=
  match fuel with
  | O => fun _ => None
  | S fuel =>
      r <- compressStream2 out_buf in_buf end_directive ;;
      let zstd_ret := fst (fst r) in
      let out_buf := snd (fst r) in
      let in_buf := snd r in
      if ZSTD_isError zstd_ret then _set_zstd_error ERR_COMPRESS zstd_ret
      else if zstd_ret =? 0 then liftW (finish out out_buf)
      else
        assert (out_pos out_buf =? out_size out_buf) ;;;
        oo <- (if out_pos out_buf =? out_size out_buf
               then liftW (grow out out_buf)
               else ret (out, out_buf)) ;;
        _compress_impl_loop fuel (fst oo) (snd oo) in_buf end_directive
  end.

Definition _compress_impl (fuel : nat) (data : bytes) (end_directive : Z)
  (rich_mem : bool) : M (ZSTD_CCtx * World) bytes :=
  ok <- liftW _new_nonzero_struct ;;
  if negb ok then raise MemoryError else
  let in_buf := {| in_src := data; in_size := len data; in_pos := 0 |} in
  ok <- liftW _new_nonzero_struct ;;
  if negb ok then raise MemoryError else
  oo <- liftW (if rich_mem
               then initWithSize (ZSTD_compressBound (len data))
               else initAndGrow (-1)) ;;
  _compress_impl_loop fuel (fst oo) (snd oo) in_buf end_directive.

(** The inner [while True] loop of [_compress_mt_continue_impl]. *)
Fixpoint _compress_mt_continue_inner (fuel : nat) (out_buf : ZSTD_outBuffer)
  (in_buf : ZSTD_inBuffer) : M (ZSTD_CCtx * World) (Z * ZSTD_outBuffer * ZSTD_inBuffer) :=
  match fuel with
  | O => fun _ => None
  | S fuel =>
      r <- compressStream2 out_buf in_buf ZSTD_e_continue ;;
      let zstd_ret := fst (fst r) in
      let out_buf := snd (fst r) in
      let in_buf := snd r in
      if (out_pos out_buf =? out_size out_buf)
         || (in_pos in_buf =? in_size in_buf)
         || ZSTD_isError zstd_ret
      then ret r
      else _compress_mt_continue_inner fuel out_buf in_buf
  end.

(** The outer loop of [_compress_mt_continue_impl]. *)
Fixpoint _compress_mt_continue_loop (fuel : nat) (out : _BlocksOutputBuffer)
  (out_buf : ZSTD_outBuffer) (in_buf : ZSTD_inBuffer) : M (ZSTD_CCtx * World) bytes :=
  match fuel with
  | O => fun _ => None
  | S fuel =>
      r <- _compress_mt_continue_inner fuel out_buf in_buf ;;
      let zstd_ret := fst (fst r) in
      let out_buf := snd (fst r) in
      let in_buf := snd r in
      if ZSTD_isError zstd_ret then _set_zstd_error ERR_COMPRESS zstd_ret
      else if in_pos in_buf =? in_size in_buf then liftW (finish out out_buf)
      else
        assert (out_pos out_buf =? out_size out_buf) ;;;
        oo <- (if out_pos out_buf =? out_size out_buf
               then liftW (grow out out_buf)
               else ret (out, out_buf)) ;;
        _compress_mt_continue_loop fuel (fst oo) (snd oo) in_buf
  end.

Definition _compress_mt_continue_impl (fuel : nat) (data : bytes)
  : M (ZSTD_CCtx * World) bytes :=
  ok <- liftW _new_nonzero_struct ;;
  if negb ok then raise MemoryError else
  let in_buf := {| in_src := data; in_size := len data; in_pos := 0 |} in
  ok <- liftW _new_nonzero_struct ;;
  if negb ok then raise MemoryError else
  oo <- liftW (initAndGrow (-1)) ;;
  _compress_mt_continue_loop fuel (fst oo) (snd oo) in_buf.

Definition CONTINUE : Z := ZSTD_e_continue.
Definition FLUSH_BLOCK : Z := ZSTD_e_flush.
Definition FLUSH_FRAME : Z := ZSTD_e_end.

(** [ZstdCompressor.compress(data, mode)] *)
Definition ZstdCompressor_compress (fuel : nat) (data : bytes) (mode : Z)
  : M (ZstdCompressor * World) bytes :=
  if negb ((mode =? CONTINUE) || (mode =? FLUSH_BLOCK) || (mode =? FLUSH_FRAME))
  then raise (ValueError VE_mode)
  else
    try_except_reraise
      (s <- get ;;
       r <- (if _use_multithreaded (fst s) && (mode =? CONTINUE)
             then on_cctx (_compress_mt_continue_impl fuel data)
             else on_cctx (_compress_impl fuel data mode false)) ;;
       modify (fun s => (set_last_mode mode (fst s), snd s)) ;;;
       ret r)
      (modify (fun s => (set_last_mode ZSTD_e_end (fst s), snd s)) ;;;
       on_cctx CCtx_reset).

(** [ZstdCompressor.flush(mode)] *)
Definition ZstdCompressor_flush (fuel : nat) (mode : Z)
  : M (ZstdCompressor * World) bytes :=
  if negb ((mode =? FLUSH_BLOCK) || (mode =? FLUSH_FRAME))
  then raise (ValueError VE_mode)
  else
    try_except_reraise
      (r <- on_cctx (_compress_impl fuel [] mode false) ;;
       modify (fun s => (set_last_mode mode (fst s), snd s)) ;;;
       ret r)
      (modify (fun s => (set_last_mode ZSTD_e_end (fst s), snd s)) ;;;
       on_cctx CCtx_reset).

(** [compress(data, level_or_option, zstd_dict)] *)
Definition compress (fuel : nat) (data : bytes)
  (level_or_option : option level_or_option_t) (zstd_dict : option ZstdDict)
  : M World bytes :=
  comp <- ZstdCompressor__init__ level_or_option zstd_dict ;;
  r <- with_obj comp (ZstdCompressor_compress fuel data FLUSH_FRAME) ;;
  ret (fst r).

(** ** class _Decompressor, ZstdDecompressor, EndlessZstdDecompressor *)

Inductive _Decompressor_type : Type :=
| DECOMPRESSOR
| ENDLESS_DECOMPRESSOR.

(** One record for both subclasses: [_eof] and [_unused_data] are read only
    when [_type] is [DECOMPRESSOR], [_at_frame_edge] only when it is
    [ENDLESS_DECOMPRESSOR]. *)
Record _Decompressor : Type := mkDecompressor {
  _type : _Decompressor_type;
  _needs_input : bool;
  _input_buffer : option nat;       (* None: ffi.NULL *)
  _input_buffer_size : Z;
  _in_begin : Z;
  _in_end : Z;
  _dctx : ZSTD_DCtx;
  d__dict : option ZstdDict;        (* self.__dict *)
  _eof : bool;
  _unused_data : option bytes;
  _at_frame_edge : bool
}.

Definition set_needs_input (v : bool) (self : _Decompressor) : _Decompressor :=
  {| _type := _type self; _needs_input := v; _input_buffer := _input_buffer self;
     _input_buffer_size := _input_buffer_size self; _in_begin := _in_begin self;
     _in_end := _in_end self; _dctx := _dctx self; d__dict := d__dict self;
     _eof := _eof self; _unused_data := _unused_data self;
     _at_frame_edge := _at_frame_edge self |}.

Definition set_input_buffer (p : option nat) (size : Z) (self : _Decompressor) : _Decompressor :=
  {| _type := _type self; _needs_input := _needs_input self; _input_buffer := p;
     _input_buffer_size := size; _in_begin := _in_begin self;
     _in_end := _in_end self; _dctx := _dctx self; d__dict := d__dict self;
     _eof := _eof self; _unused_data := _unused_data self;
     _at_frame_edge := _at_frame_edge self |}.

Definition set_in_begin (v : Z) (self : _Decompressor) : _Decompressor :=
  {| _type := _type self; _needs_input := _needs_input self;
     _input_buffer := _input_buffer self;
     _input_buffer_size := _input_buffer_size self; _in_begin := v;
     _in_end := _in_end self; _dctx := _dctx self; d__dict := d__dict self;
     _eof := _eof self; _unused_data := _unused_data self;
     _at_frame_edge := _at_frame_edge self |}.

Definition set_in_end (v : Z) (self : _Decompressor) : _Decompressor :=
  {| _type := _type self; _needs_input := _needs_input self;
     _input_buffer := _input_buffer self;
     _input_buffer_size := _input_buffer_size self; _in_begin := _in_begin self;
     _in_end := v; _dctx := _dctx self; d__dict := d__dict self;
     _eof := _eof self; _unused_data := _unused_data self;
     _at_frame_edge := _at_frame_edge self |}.

Definition set_dctx (c : ZSTD_DCtx) (self : _Decompressor) : _Decompressor :=
  {| _type := _type self; _needs_input := _needs_input self;
     _input_buffer := _input_buffer self;
     _input_buffer_size := _input_buffer_size self; _in_begin := _in_begin self;
     _in_end := _in_end self; _dctx := c; d__dict := d__dict self;
     _eof := _eof self; _unused_data := _unused_data self;
     _at_frame_edge := _at_frame_edge self |}.

Definition set_eof (v : bool) (self : _Decompressor) : _Decompressor :=
  {| _type := _type self; _needs_input := _needs_input self;
     _input_buffer := _input_buffer self;
     _input_buffer_size := _input_buffer_size self; _in_begin := _in_begin self;
     _in_end := _in_end self; _dctx := _dctx self; d__dict := d__dict self;
     _eof := v; _unused_data := _unused_data self;
     _at_frame_edge := _at_frame_edge self |}.

Definition set_at_frame_edge (v : bool) (self : _Decompressor) : _Decompressor :=
  {| _type := _type self; _needs_input := _needs_input self;
     _input_buffer := _input_buffer self;
     _input_buffer_size := _input_buffer_size self; _in_begin := _in_begin self;
     _in_end := _in_end self; _dctx := _dctx self; d__dict := d__dict self;
     _eof := _eof self; _unused_data := _unused_data self;
     _at_frame_edge := v |}.

(** An attribute assignment [self.x = v]. *)
Definition setattr {O : Type} (f : O -> O) : M (O * World) unit :=
  modify (fun s => (f (fst s), snd s)).

(** Code of [_Decompressor] that works on [self._dctx]. *)
Definition on_dctx {A : Type} (c : M (ZSTD_DCtx * World) A) : M (_Decompressor * World) A :=
  zoom (fun s => (_dctx (fst s), snd s))
       (fun t s => (set_dctx (fst t) (fst s), snd t)) c.

(** [_Decompressor.__init__(zstd_dict, option)] and the subclass's
    [__init__]. *)
Definition _Decompressor__init__ (type : _Decompressor_type)
  (zstd_dict : option ZstdDict) (option : option (list (Z * Z))) : M World _Decompressor :=
  match ZSTD_createDCtx with
  | None => raise (ZstdError ZE_create_dctx)
  | Some dctx =>
      r <- with_obj dctx
             (d <- match zstd_dict with
                   | Some zstd_dict => d <- _load_d_dict zstd_dict ;; ret (Some d)
                   | None => ret None
                   end ;;
              match option with
              | Some option => _set_d_parameters option
              | None => ret tt
              end ;;;
              ret d) ;;
      ret {| _type := type; _needs_input := true; _input_buffer := None;
             _input_buffer_size := 0; _in_begin := 0; _in_end := 0;
             _dctx := snd r; d__dict := fst r;
             _eof := false; _unused_data := None; _at_frame_edge := true |}
  end.

Definition ZstdDecompressor__init__ := _Decompressor__init__ DECOMPRESSOR.
Definition EndlessZstdDecompressor__init__ := _Decompressor__init__ ENDLESS_DECOMPRESSOR.

Definition is_endless (self : _Decompressor) : bool :=
  match _type self with ENDLESS_DECOMPRESSOR => true | DECOMPRESSOR => false end.

(** The [while True] loop of [_decompress_impl]; [None] stands for the
    [break]s, after which [finish] runs. *)
Fixpoint _decompress_impl_loop (fuel : nat) (out : _BlocksOutputBuffer)
  (out_buf : ZSTD_outBuffer) (in_buf : ZSTD_inBuffer)
  : M (_Decompressor * World) (_BlocksOutputBuffer * ZSTD_outBuffer * ZSTD_inBuffer) :=
  match fuel with
  | O => fun _ => None
  | S fuel =>
      r <- on_dctx (decompressStream out_buf in_buf) ;;
      let zstd_ret := fst (fst r) in
      let out_buf := snd (fst r) in
      let in_buf := snd r in
      if ZSTD_isError zstd_ret then _set_zstd_error ERR_DECOMPRESS zstd_ret
      else
        s <- get ;;
        stop <-
          (if negb (is_endless (fst s)) then
             if zstd_ret =? 0 then setattr (set_eof true) ;;; ret true
             else ret false
           else
             setattr (set_at_frame_edge (zstd_ret =? 0)) ;;;
             ret ((zstd_ret =? 0) && (in_pos in_buf =? in_size in_buf))) ;;
        if (stop : bool) then ret (out, out_buf, in_buf)
        else if out_pos out_buf =? out_size out_buf then
          reached <- liftW (reachedMaxLength out out_buf) ;;
          if (reached : bool) then ret (out, out_buf, in_buf)
          else
            oo <- liftW (grow out out_buf) ;;
            _decompress_impl_loop fuel (fst oo) (snd oo) in_buf
        else if in_pos in_buf =? in_size in_buf then ret (out, out_buf, in_buf)
        else _decompress_impl_loop fuel out out_buf in_buf
  end.

(** [_decompress_impl(in_buf, max_length, decompressed_size)]; [in_buf] is
    a struct the caller reads afterwards, so it is returned too. *)
Definition _decompress_impl (fuel : nat) (in_buf : ZSTD_inBuffer) (max_length : Z)
  (decompressed_size : Z) : M (_Decompressor * World) (bytes * ZSTD_inBuffer) :=
  s <- get ;;
  if is_endless (fst s) && _at_frame_edge (fst s) && (in_pos in_buf =? in_size in_buf)
  then ret ([], in_buf)
  else
    ok <- liftW _new_nonzero_struct ;;
    if negb ok then raise MemoryError else
    oo <- liftW (if (decompressed_size =? ZSTD_CONTENTSIZE_UNKNOWN)
                    || (decompressed_size =? ZSTD_CONTENTSIZE_ERROR)
                 then initAndGrow max_length
                 else initWithSize decompressed_size) ;;
    r <- _decompress_impl_loop fuel (fst oo) (snd oo) in_buf ;;
    b <- liftW (finish (fst (fst r)) (snd (fst r))) ;;
    ret (b, snd r).

(** The bytes at [self._input_buffer + off]. *)
Definition input_buffer_from (self : _Decompressor) (off : Z) (w : World) : bytes :=
  match _input_buffer self with
  | Some p => drop (Z.to_nat off) (memread w p)
  | None => []
  end.

(** [ffi.memmove(self._input_buffer + off, src, n)] *)
Definition memmove_input_buffer (self : _Decompressor) (off : Z) (src : bytes) (n : Z)
  : M World unit :=
  match _input_buffer self with
  | Some p => memmove p off src n
  | None => ret tt
  end.

(** The [try] of [_stream_decompress], first part: the [.eof] check or the
    read of the frame's content size, then "Prepare input buffer w/wo
    unconsumed data". It yields [decompressed_size], [use_input_buffer] and
    [in_buf]. [m.ZSTD_getFrameContentSize] takes no context: it is a
    function of [data] and leaves no event in the log. *)
Definition _stream_decompress_prepare (data : bytes) (max_length : Z)
  : M (_Decompressor * World) (Z * bool * ZSTD_inBuffer) :=
  ok <- liftW _new_nonzero_struct ;;
  if negb ok then raise MemoryError else
  s <- get ;;
  decompressed_size <-
    (if negb (is_endless (fst s)) then
       if _eof (fst s) then raise EOFError else ret ZSTD_CONTENTSIZE_UNKNOWN
     else
       if _at_frame_edge (fst s) && (max_length <? 0)
          && (_in_begin (fst s) =? _in_end (fst s))
       then ret (ZSTD_getFrameContentSize data)
       else ret ZSTD_CONTENTSIZE_UNKNOWN) ;;
  ui <-
    (if _in_begin (fst s) =? _in_end (fst s) then
       ret (false, {| in_src := data; in_size := len data; in_pos := 0 |})
     else if len data =? 0 then
       assert (_in_begin (fst s) <? _in_end (fst s)) ;;;
       ret (true, {| in_src := input_buffer_from (fst s) (_in_begin (fst s)) (snd s);
                     in_size := _in_end (fst s) - _in_begin (fst s);
                     in_pos := 0 |})
     else
       let used_now := _in_end (fst s) - _in_begin (fst s) in
       let avail_now := _input_buffer_size (fst s) - _in_end (fst s) in
       let avail_total := _input_buffer_size (fst s) - used_now in
       assert ((used_now >? 0) && (avail_now >=? 0) && (avail_total >=? 0)) ;;;
       (if avail_total <? len data then
          let new_size := used_now + len data in
          tmp <- liftW (_new_nonzero new_size) ;;
          match tmp with
          | None => raise MemoryError
          | Some tmp =>
              liftW (memmove tmp 0
                       (input_buffer_from (fst s) (_in_begin (fst s)) (snd s)) used_now) ;;;
              setattr (set_input_buffer (Some tmp) new_size) ;;;
              setattr (set_in_begin 0) ;;;
              setattr (set_in_end used_now)
          end
        else if avail_now <? len data then
          liftW (memmove_input_buffer (fst s) 0
                   (input_buffer_from (fst s) (_in_begin (fst s)) (snd s)) used_now) ;;;
          setattr (set_in_begin 0) ;;;
          setattr (set_in_end used_now)
        else ret tt) ;;;
       s1 <- get ;;
       liftW (memmove_input_buffer (fst s1) (_in_end (fst s1)) data (len data)) ;;;
       setattr (set_in_end (_in_end (fst s1) + len data)) ;;;
       s2 <- get ;;
       ret (true, {| in_src := input_buffer_from (fst s2) (_in_begin (fst s2)) (snd s2);
                     in_size := used_now + len data;
                     in_pos := 0 |})) ;;
  assert (in_pos (snd ui) =? 0) ;;;
  ret (decompressed_size, fst ui, snd ui).

(** The [try] of [_stream_decompress], last part: "Unconsumed input data",
    with [ret] and [in_buf] as [_decompress_impl] left them. *)
Definition _stream_decompress_finish (use_input_buffer : bool) (in_buf : ZSTD_inBuffer)
  (ret_ : bytes) (max_length : Z) : M (_Decompressor * World) unit :=
  s <- get ;;
  if in_pos in_buf =? in_size in_buf then
    (if negb (is_endless (fst s)) then
       if (len ret_ =? max_length) || _eof (fst s)
       then setattr (set_needs_input false)
       else setattr (set_needs_input true)
     else
       if (len ret_ =? max_length) && negb (_at_frame_edge (fst s))
       then setattr (set_needs_input false)
       else setattr (set_needs_input true)) ;;;
    (if use_input_buffer then
       setattr (set_in_begin 0) ;;;
       setattr (set_in_end 0)
     else ret tt)
  else
    let data_size := in_size in_buf - in_pos in_buf in
    setattr (set_needs_input false) ;;;
    (if is_endless (fst s) then setattr (set_at_frame_edge false) else ret tt) ;;;
    if negb use_input_buffer then
      (if match _input_buffer (fst s) with None => true | Some _ => false end
          || (_input_buffer_size (fst s) <? data_size)
       then
         p <- liftW (_new_nonzero data_size) ;;
         setattr (set_input_buffer p (_input_buffer_size (fst s))) ;;;
         match p with
         | None => raise MemoryError
         | Some _ => setattr (set_input_buffer p data_size)
         end
       else ret tt) ;;;
      s1 <- get ;;
      liftW (memmove_input_buffer (fst s1) 0
               (drop (Z.to_nat (in_pos in_buf)) (in_src in_buf)) data_size) ;;;
      setattr (set_in_begin 0) ;;;
      setattr (set_in_end data_size)
    else
      s1 <- get ;;
      setattr (set_in_begin (_in_begin (fst s1) + in_pos in_buf)).

(** The body of the [try] in [_stream_decompress]. *)
Definition _stream_decompress_try (fuel : nat) (data : bytes) (max_length : Z)
  : M (_Decompressor * World) bytes :=
  p <- _stream_decompress_prepare data max_length ;;
  ri <- _decompress_impl fuel (snd p) max_length (fst (fst p)) ;;
  _stream_decompress_finish (snd (fst p)) (snd ri) (fst ri) max_length ;;;
  ret (fst ri).

(** The [except] clause of [_stream_decompress]. *)
Definition _stream_decompress_except : M (_Decompressor * World) unit :=
  setattr (set_in_begin 0) ;;;
  setattr (set_in_end 0) ;;;
  setattr (set_needs_input true) ;;;
  s <- get ;;
  (if negb (is_endless (fst s)) then setattr (set_eof false)
   else setattr (set_at_frame_edge true)) ;;;
  on_dctx DCtx_reset.

(** [_Decompressor._stream_decompress(data, max_length)], which both
    [ZstdDecompressor.decompress] and [EndlessZstdDecompressor.decompress]
    return. *)
Definition _stream_decompress (fuel : nat) (data : bytes) (max_length : Z)
  : M (_Decompressor * World) bytes :=
  try_except_reraise (_stream_decompress_try fuel data max_length)
                     _stream_decompress_except.

Definition ZstdDecompressor_decompress := _stream_decompress.
Definition EndlessZstdDecompressor_decompress := _stream_decompress.

(** [decompress(data, zstd_dict, option)] *)
Definition decompress (fuel : nat) (data : bytes) (zstd_dict : option ZstdDict)
  (option : option (list (Z * Z))) : M World bytes :=
  decomp <- EndlessZstdDecompressor__init__ zstd_dict option ;;
  r <- with_obj decomp (EndlessZstdDecompressor_decompress fuel data (-1)) ;;
  if negb (_at_frame_edge (snd r))
  then raise (ZstdError (ZE_incomplete_frame (len (fst r))))
  else ret (fst r).

(** ** The stream pump: compress_stream *)

(** The caller's stream objects. [readinto st b] gives the stream after the
    call, what the call returned ([None], or an [int]) and [b] after it;
    [write st b] gives the stream after the call and what it returned. *)
Class Streams : Type := {
  IStream : Type;
  OStream : Type;
  readinto : IStream -> bytes -> IStream * option Z * bytes;
  write : OStream -> bytes -> OStream * option Z
}.

Section Pump.
Context {io : Streams}.

(** What [compress_stream] works on: the two streams, its context and the
    world. *)
Record pump : Type := mkPump {
  p_in : IStream;
  p_out : OStream;
  p_cctx : ZSTD_CCtx;
  p_world : World
}.

Definition pumpW {A : Type} (c : M World A) : M pump A :=
  zoom p_world (fun w s => {| p_in := p_in s; p_out := p_out s;
                              p_cctx := p_cctx s; p_world := w |}) c.

Definition pumpC {A : Type} (c : M (ZSTD_CCtx * World) A) : M pump A :=
  zoom (fun s => (p_cctx s, p_world s))
       (fun t s => {| p_in := p_in s; p_out := p_out s;
                      p_cctx := fst t; p_world := snd t |}) c.

(** [input_stream.readinto(input_block)] *)
Definition call_readinto (input_block : bytes) : M pump (option Z * bytes) :=
  s <- get ;;
  let r := readinto (p_in s) input_block in
  modify (fun s => {| p_in := fst (fst r); p_out := p_out s;
                      p_cctx := p_cctx s; p_world := p_world s |}) ;;;
  pumpW (emit E_readinto) ;;;
  ret (snd (fst r), snd r).

(** [output_stream.write(b)] *)
Definition call_write (b : bytes) : M pump (option Z) :=
  s <- get ;;
  let r := write (p_out s) b in
  modify (fun s => {| p_in := p_in s; p_out := fst r;
                      p_cctx := p_cctx s; p_world := p_world s |}) ;;;
  pumpW (emit (E_write b)) ;;;
  ret (snd r).

(** [bytearray(n)] handed to cffi with [ffi.from_buffer]: a zeroed array. *)
Definition bytearray (n : Z) : M World nat := fun w =>
  Some (Ok (length (heap w)),
        {| heap := heap w ++ [repeat "000"%byte (Z.to_nat n)];
           allocs := allocs w; log := log w |}).

(** [_write_to_output(output_stream, out_mv, out_buf)] *)
Fixpoint _write_to_output (fuel : nat) (out_buf : ZSTD_outBuffer) (write_pos : Z)
  : M pump unit :=
  match fuel with
  | O => fun _ => None
  | S fuel =>
      if write_pos <? out_pos out_buf then
        let left_bytes := out_pos out_buf - write_pos in
        s <- get ;;
        write_bytes <- call_write
          (take (Z.to_nat left_bytes)
             (drop (Z.to_nat write_pos) (memread (p_world s) (out_dst out_buf)))) ;;
        match write_bytes with
        | None => _write_to_output fuel out_buf write_pos
        | Some write_bytes =>
            if (write_bytes <? 0) || (write_bytes >? left_bytes)
            then raise (ValueError VE_write_returned)
            else _write_to_output fuel out_buf (write_pos + write_bytes)
        end
      else ret tt
  end.

(** [_invoke_callback(...)]: the new [callback_read_pos]. *)
Definition _invoke_callback (input_block : bytes) (in_buf : ZSTD_inBuffer)
  (callback_read_pos : Z) (out_buf : ZSTD_outBuffer)
  (total_input_size total_output_size : Z) : M pump Z :=
  let in_size_ := in_size in_buf - callback_read_pos in
  s <- get ;;
  pumpW (emit (E_callback total_input_size total_output_size
                 (take (Z.to_nat in_size_) input_block)
                 (take (Z.to_nat (out_pos out_buf))
                    (memread (p_world s) (out_dst out_buf))))) ;;;
  ret (in_size in_buf).

(** The innermost loop of [compress_stream], on the multi-threaded path. *)
Fixpoint compress_stream_mt (fuel : nat) (out_buf : ZSTD_outBuffer)
  (in_buf : ZSTD_inBuffer) : M pump (Z * ZSTD_outBuffer * ZSTD_inBuffer) :=
  match fuel with
  | O => fun _ => None
  | S fuel =>
      r <- pumpC (compressStream2 out_buf in_buf ZSTD_e_continue) ;;
      let zstd_ret := fst (fst r) in
      let out_buf := snd (fst r) in
      let in_buf := snd r in
      if (out_pos out_buf =? out_size out_buf)
         || (in_pos in_buf =? in_size in_buf)
         || ZSTD_isError zstd_ret
      then ret r
      else compress_stream_mt fuel out_buf in_buf
  end.

(** The "Compress & write" loop of [compress_stream]: the new
    [total_output_size]. *)
Fixpoint compress_stream_write (fuel : nat) (use_multithreaded has_output has_callback : bool)
  (input_block : bytes) (out_buf : ZSTD_outBuffer) (in_buf : ZSTD_inBuffer)
  (end_directive callback_read_pos total_input_size total_output_size : Z) : M pump Z :=
  match fuel with
  | O => fun _ => None
  | S fuel =>
      let out_buf := {| out_dst := out_dst out_buf; out_size := out_size out_buf;
                        out_pos := 0 |} in
      r <- (if use_multithreaded && (end_directive =? ZSTD_e_continue)
            then compress_stream_mt fuel out_buf in_buf
            else pumpC (compressStream2 out_buf in_buf end_directive)) ;;
      let zstd_ret := fst (fst r) in
      let out_buf := snd (fst r) in
      let in_buf := snd r in
      if ZSTD_isError zstd_ret then _set_zstd_error ERR_COMPRESS zstd_ret else
      let total_output_size := total_output_size + out_pos out_buf in
      (if has_output then _write_to_output fuel out_buf 0 else ret tt) ;;;
      callback_read_pos <-
        (if has_callback
         then _invoke_callback input_block in_buf callback_read_pos out_buf
                total_input_size total_output_size
         else ret callback_read_pos) ;;
      if (if end_directive =? ZSTD_e_continue
          then in_pos in_buf =? in_size in_buf
          else zstd_ret =? 0)
      then ret total_output_size
      else compress_stream_write fuel use_multithreaded has_output has_callback
             input_block out_buf in_buf end_directive callback_read_pos
             total_input_size total_output_size
  end.

(** The "Read" loop of [compress_stream]. *)
Fixpoint compress_stream_read (fuel : nat) (use_multithreaded has_output has_callback : bool)
  (read_size : Z) (input_block : bytes) (out_buf : ZSTD_outBuffer)
  (total_input_size total_output_size : Z) : M pump (Z * Z) :=
  match fuel with
  | O => fun _ => None
  | S fuel =>
      r <- call_readinto input_block ;;
      let input_block := snd r in
      match fst r with
      | None =>
          compress_stream_read fuel use_multithreaded has_output has_callback
            read_size input_block out_buf total_input_size total_output_size
      | Some read_bytes =>
          if (read_bytes <? 0) || (read_bytes >? read_size)
          then raise (ValueError VE_readinto_returned)
          else if (read_bytes =? 0) && (total_input_size =? 0)
          then ret (total_input_size, total_output_size)
          else
            let total_input_size := total_input_size + read_bytes in
            let in_buf := {| in_src := input_block; in_size := read_bytes; in_pos := 0 |} in
            let callback_read_pos := 0 in
            let end_directive :=
              if read_bytes =? 0 then ZSTD_e_end else ZSTD_e_continue in
            total_output_size <-
              compress_stream_write fuel use_multithreaded has_output has_callback
                input_block out_buf in_buf end_directive callback_read_pos
                total_input_size total_output_size ;;
            if read_bytes =? 0
            then ret (total_input_size, total_output_size)
            else compress_stream_read fuel use_multithreaded has_output has_callback
                   read_size input_block out_buf total_input_size total_output_size
      end
  end.

(** [compress_stream], from the creation of the context to the first
    [readinto]: the multi-threading flag, the input block and the output
    buffer the loops start with. *)
Definition compress_stream_setup (level_or_option : option level_or_option_t)
  (zstd_dict : option ZstdDict) (pledged_input_size : option Z)
  (read_size write_size : Z) : M pump (bool * bytes * ZSTD_outBuffer) :=
  lu <- match level_or_option with
        | Some level_or_option => pumpC (_set_c_parameters level_or_option)
        | None => ret (0, false)
        end ;;
  match zstd_dict with
  | Some zstd_dict => pumpC (_load_c_dict zstd_dict (fst lu)) ;;; ret tt
  | None => ret tt
  end ;;;
  match pledged_input_size with
  | Some pledged_input_size =>
      zstd_ret <- pumpC (CCtx_setPledgedSrcSize pledged_input_size) ;;
      if ZSTD_isError zstd_ret then _set_zstd_error ERR_COMPRESS zstd_ret else ret tt
  | None => ret tt
  end ;;;
  ok <- pumpW _new_nonzero_struct ;;
  if negb ok then raise MemoryError else
  let input_block := repeat "000"%byte (Z.to_nat read_size) in
  ok <- pumpW _new_nonzero_struct ;;
  if negb ok then raise MemoryError else
  output_block <- pumpW (bytearray write_size) ;;
  ret (snd lu, input_block,
       {| out_dst := output_block; out_size := write_size; out_pos := 0 |}).

(** [compress_stream(input_stream, output_stream, level_or_option=...,
    zstd_dict=..., pledged_input_size=..., read_size=..., write_size=...,
    callback=...)]. The two stream objects are the first two components
    of the state; [output_stream] is [None] when [has_output] is false,
    [callback] is [None] when [has_callback] is false. *)
Definition compress_stream (fuel : nat) (has_output has_callback : bool)
  (level_or_option : option level_or_option_t) (zstd_dict : option ZstdDict)
  (pledged_input_size : option Z) (read_size write_size : Z)
  : M (IStream * OStream * World) (Z * Z) := fun s0 =>
  let w0 := snd s0 in
  if negb has_output && negb has_callback then Some (Raise TypeError, s0)
  else if (read_size <=? 0) || (write_size <=? 0)
  then Some (Raise (ValueError VE_read_write_size), s0)
  else if match pledged_input_size with
          | Some p => negb ((0 <=? p) && (p <=? 2^64 - 1))
          | None => false
          end
  then Some (Raise (ValueError VE_pledged_input_size), s0)
  else
    match ZSTD_createCCtx with
    | None =>
        match emit E_freeCCtx w0 with
        | Some (_, w1) => Some (Raise (ZstdError ZE_create_cctx), (fst s0, w1))
        | None => None
        end
    | Some cctx =>
        match
          try_finally
            (su <- compress_stream_setup level_or_option zstd_dict
                     pledged_input_size read_size write_size ;;
             compress_stream_read fuel (fst (fst su)) has_output has_callback
               read_size (snd (fst su)) (snd su) 0 0)
            (fun s => {| p_in := p_in s; p_out := p_out s; p_cctx := p_cctx s;
                         p_world := {| heap := heap (p_world s);
                                       allocs := allocs (p_world s);
                                       log := E_freeCCtx :: log (p_world s) |} |})
            {| p_in := fst (fst s0); p_out := snd (fst s0); p_cctx := cctx; p_world := w0 |}
        with
        | Some (r, s) => Some (r, (p_in s, p_out s, p_world s))
        | None => None
        end
    end.

End Pump.

(** ** ZstdDecompressor.unused_data *)

Definition set_unused_data (v : option bytes) (self : _Decompressor) : _Decompressor :=
  {| _type := _type self; _needs_input := _needs_input self;
     _input_buffer := _input_buffer self;
     _input_buffer_size := _input_buffer_size self; _in_begin := _in_begin self;
     _in_end := _in_end self; _dctx := _dctx self; d__dict := d__dict self;
     _eof := _eof self; _unused_data := v;
     _at_frame_edge := _at_frame_edge self |}.

(** A bound [i] of a slice of a sequence of [n] items, as Python adjusts
    it: counted from the end when negative, then clipped to [0, n]. *)
Definition py_slice_index (n i : Z) : Z :=
  if i <? 0 then (if i + n <? 0 then 0 else i + n)
  else if i >? n then n else i.

(** [l[start:stop]] *)
Definition py_slice (l : bytes) (start stop : Z) : bytes :=
  take (Z.to_nat (py_slice_index (len l) stop - py_slice_index (len l) start))
       (drop (Z.to_nat (py_slice_index (len l) start)) l).

(** The property [ZstdDecompressor.unused_data]; it fills the cache
    [self._unused_data] the first time it is read at [eof]. *)
Definition ZstdDecompressor_unused_data : M (_Decompressor * World) bytes :=
  s <- get ;;
  if negb (_eof (fst s)) then ret []
  else
    match _unused_data (fst s) with
    | None =>
        let tmp :=
          match _input_buffer (fst s) with
          | None => []
          | Some p => py_slice (memread (snd s) p) (_in_begin (fst s)) (_in_end (fst s))
          end in
        setattr (set_unused_data (Some tmp)) ;;;
        ret tmp
    | Some unused_data => ret unused_data
    end.

(** ** class RichMemZstdCompressor *)

(** [RichMemZstdCompressor] has the attributes of [_Compressor] only. *)
Record RichMemZstdCompressor : Type := mkRichMemZstdCompressor {
  r_use_multithreaded : bool;     (* self._use_multithreaded *)
  r_cctx : ZSTD_CCtx;             (* self._cctx *)
  r__dict : option ZstdDict       (* self.__dict *)
}.

Definition on_r_cctx {A : Type} (c : M (ZSTD_CCtx * World) A)
  : M (RichMemZstdCompressor * World) A :=
  zoom (fun s => (r_cctx (fst s), snd s))
       (fun t s => ({| r_use_multithreaded := r_use_multithreaded (fst s);
                       r_cctx := fst t; r__dict := r__dict (fst s) |}, snd t)) c.

(** [_Compressor.__init__], then the warning of
    [RichMemZstdCompressor.__init__]. *)
Definition RichMemZstdCompressor__init__ (level_or_option : option level_or_option_t)
  (zstd_dict : option ZstdDict) : M World RichMemZstdCompressor :=
  match ZSTD_createCCtx with
  | None => raise (ZstdError ZE_create_cctx)
  | Some cctx =>
      r <- with_obj cctx
             (lu <- match level_or_option with
                    | Some level_or_option => _set_c_parameters level_or_option
                    | None => ret (0, false)
                    end ;;
              d <- match zstd_dict with
                   | Some zstd_dict =>
                       d <- _load_c_dict zstd_dict (fst lu) ;; ret (Some d)
                   | None => ret None
                   end ;;
              ret (snd lu, d)) ;;
      (if fst (fst r) then emit E_warn else ret tt) ;;;
      ret {| r_use_multithreaded := fst (fst r); r_cctx := snd r;
             r__dict := snd (fst r) |}
  end.

(** [RichMemZstdCompressor.compress(data)] *)
Definition RichMemZstdCompressor_compress (fuel : nat) (data : bytes)
  : M (RichMemZstdCompressor * World) bytes :=
  try_except_reraise
    (on_r_cctx (_compress_impl fuel data ZSTD_e_end true))
    (on_r_cctx CCtx_reset).

(** [richmem_compress(data, level_or_option, zstd_dict)] *)
Definition richmem_compress (fuel : nat) (data : bytes)
  (level_or_option : option level_or_option_t) (zstd_dict : option ZstdDict)
  : M World bytes :=
  comp <- RichMemZstdCompressor__init__ level_or_option zstd_dict ;;
  r <- with_obj comp (RichMemZstdCompressor_compress fuel data) ;;
  ret (fst r).

(** ** The stream pump: decompress_stream *)

Section DPump.
Context {io : Streams}.

(** What [decompress_stream] works on: the two streams, its context and
    the world. *)
Record dpump : Type := mkDPump {
  q_in : IStream;
  q_out : OStream;
  q_dctx : ZSTD_DCtx;
  q_world : World
}.

Definition dpumpW {A : Type} (c : M World A) : M dpump A :=
  zoom q_world (fun w s => {| q_in := q_in s; q_out := q_out s;
                              q_dctx := q_dctx s; q_world := w |}) c.

Definition dpumpD {A : Type} (c : M (ZSTD_DCtx * World) A) : M dpump A :=
  zoom (fun s => (q_dctx s, q_world s))
       (fun t s => {| q_in := q_in s; q_out := q_out s;
                      q_dctx := fst t; q_world := snd t |}) c.

(** [input_stream.readinto(input_block)], as [decompress_stream] calls it. *)
Definition d_call_readinto (input_block : bytes) : M dpump (option Z * bytes) :=
  s <- get ;;
  let r := readinto (q_in s) input_block in
  modify (fun s => {| q_in := fst (fst r); q_out := q_out s;
                      q_dctx := q_dctx s; q_world := q_world s |}) ;;;
  dpumpW (emit E_readinto) ;;;
  ret (snd (fst r), snd r).

(** [output_stream.write(b)], as [decompress_stream] calls it. *)
Definition d_call_write (b : bytes) : M dpump (option Z) :=
  s <- get ;;
  let r := write (q_out s) b in
  modify (fun s => {| q_in := q_in s; q_out := fst r;
                      q_dctx := q_dctx s; q_world := q_world s |}) ;;;
  dpumpW (emit (E_write b)) ;;;
  ret (snd r).

(** [_write_to_output(output_stream, out_mv, out_buf)], run on the state
    of [decompress_stream]. *)
Fixpoint d_write_to_output (fuel : nat) (out_buf : ZSTD_outBuffer) (write_pos : Z)
  : M dpump unit :=
  match fuel with
  | O => fun _ => None
  | S fuel =>
      if write_pos <? out_pos out_buf then
        let left_bytes := out_pos out_buf - write_pos in
        s <- get ;;
        write_bytes <- d_call_write
          (take (Z.to_nat left_bytes)
             (drop (Z.to_nat write_pos) (memread (q_world s) (out_dst out_buf)))) ;;
        match write_bytes with
        | None => d_write_to_output fuel out_buf write_pos
        | Some write_bytes =>
            if (write_bytes <? 0) || (write_bytes >? left_bytes)
            then raise (ValueError VE_write_returned)
            else d_write_to_output fuel out_buf (write_pos + write_bytes)
        end
      else ret tt
  end.

(** [_invoke_callback(...)], run on the state of [decompress_stream]: the
    new [callback_read_pos]. *)
Definition d_invoke_callback (input_block : bytes) (in_buf : ZSTD_inBuffer)
  (callback_read_pos : Z) (out_buf : ZSTD_outBuffer)
  (total_input_size total_output_size : Z) : M dpump Z :=
  let in_size_ := in_size in_buf - callback_read_pos in
  s <- get ;;
  dpumpW (emit (E_callback total_input_size total_output_size
                  (take (Z.to_nat in_size_) input_block)
                  (take (Z.to_nat (out_pos out_buf))
                     (memread (q_world s) (out_dst out_buf))))) ;;;
  ret (in_size in_buf).

(** The "Decompress & write" loop of [decompress_stream]: the new
    [at_frame_edge] and [total_output_size]. *)
Fixpoint decompress_stream_write (fuel : nat) (has_output has_callback : bool)
  (input_block : bytes) (out_buf : ZSTD_outBuffer) (in_buf : ZSTD_inBuffer)
  (at_frame_edge : bool) (callback_read_pos total_input_size total_output_size : Z)
  : M dpump (bool * Z) :=
  match fuel with
  | O => fun _ => None
  | S fuel =>
      if at_frame_edge && (in_pos in_buf =? in_size in_buf)
      then ret (at_frame_edge, total_output_size)
      else
        let out_buf := {| out_dst := out_dst out_buf; out_size := out_size out_buf;
                          out_pos := 0 |} in
        r <- dpumpD (decompressStream out_buf in_buf) ;;
        let zstd_ret := fst (fst r) in
        let out_buf := snd (fst r) in
        let in_buf := snd r in
        if ZSTD_isError zstd_ret then _set_zstd_error ERR_DECOMPRESS zstd_ret else
        let at_frame_edge := zstd_ret =? 0 in
        let total_output_size := total_output_size + out_pos out_buf in
        (if has_output then d_write_to_output fuel out_buf 0 else ret tt) ;;;
        callback_read_pos <-
          (if has_callback
           then d_invoke_callback input_block in_buf callback_read_pos out_buf
                  total_input_size total_output_size
           else ret callback_read_pos) ;;
        if in_pos in_buf =? in_size in_buf
        then ret (at_frame_edge, total_output_size)
        else decompress_stream_write fuel has_output has_callback input_block
               out_buf in_buf at_frame_edge callback_read_pos
               total_input_size total_output_size
  end.

(** The "Read" loop of [decompress_stream]. *)
Fixpoint decompress_stream_read (fuel : nat) (has_output has_callback : bool)
  (read_size : Z) (input_block : bytes) (out_buf : ZSTD_outBuffer)
  (at_frame_edge : bool) (total_input_size total_output_size : Z) : M dpump (Z * Z) :=
  match fuel with
  | O => fun _ => None
  | S fuel =>
      r <- d_call_readinto input_block ;;
      let input_block := snd r in
      match fst r with
      | None =>
          decompress_stream_read fuel has_output has_callback read_size input_block
            out_buf at_frame_edge total_input_size total_output_size
      | Some read_bytes =>
          if (read_bytes <? 0) || (read_bytes >? read_size)
          then raise (ValueError VE_readinto_returned)
          else
            let total_input_size := total_input_size + read_bytes in
            let in_buf := {| in_src := input_block; in_size := read_bytes; in_pos := 0 |} in
            let callback_read_pos := 0 in
            ao <- decompress_stream_write fuel has_output has_callback input_block
                    out_buf in_buf at_frame_edge callback_read_pos
                    total_input_size total_output_size ;;
            let at_frame_edge := fst ao in
            let total_output_size := snd ao in
            if read_bytes =? 0 then
              if negb at_frame_edge
              then raise (ZstdError (ZE_incomplete_stream total_input_size
                                       total_output_size))
              else ret (total_input_size, total_output_size)
            else decompress_stream_read fuel has_output has_callback read_size
                   input_block out_buf at_frame_edge total_input_size total_output_size
      end
  end.

(** [decompress_stream], from the creation of the context to the first
    [readinto]: the input block and the output buffer the loops start
    with. *)
Definition decompress_stream_setup (zstd_dict : option ZstdDict)
  (option : option (list (Z * Z))) (read_size write_size : Z)
  : M dpump (bytes * ZSTD_outBuffer) :=
  match zstd_dict with
  | Some zstd_dict => dpumpD (_load_d_dict zstd_dict) ;;; ret tt
  | None => ret tt
  end ;;;
  match option with
  | Some option => dpumpD (_set_d_parameters option)
  | None => ret tt
  end ;;;
  ok <- dpumpW _new_nonzero_struct ;;
  if negb ok then raise MemoryError else
  let input_block := repeat "000"%byte (Z.to_nat read_size) in
  ok <- dpumpW _new_nonzero_struct ;;
  if negb ok then raise MemoryError else
  output_block <- dpumpW (bytearray write_size) ;;
  ret (input_block,
       {| out_dst := output_block; out_size := write_size; out_pos := 0 |}).

(** [decompress_stream(input_stream, output_stream, zstd_dict=...,
    option=..., read_size=..., write_size=..., callback=...)]. The two
    stream objects are the first two components of the state;
    [output_stream] is [None] when [has_output] is false, [callback] is
    [None] when [has_callback] is false. *)
Definition decompress_stream (fuel : nat) (has_output has_callback : bool)
  (zstd_dict : option ZstdDict) (option : option (list (Z * Z)))
  (read_size write_size : Z)
  : M (IStream * OStream * World) (Z * Z) := fun s0 =>
  let w0 := snd s0 in
  if negb has_output && negb has_callback then Some (Raise TypeError, s0)
  else if (read_size <=? 0) || (write_size <=? 0)
  then Some (Raise (ValueError VE_read_write_size), s0)
  else
    match ZSTD_createDCtx with
    | None =>
        match emit E_freeDCtx w0 with
        | Some (_, w1) => Some (Raise (ZstdError ZE_create_dctx), (fst s0, w1))
        | None => None
        end
    | Some dctx =>
        match
          try_finally
            (su <- decompress_stream_setup zstd_dict option read_size write_size ;;
             decompress_stream_read fuel has_output has_callback
               read_size (fst su) (snd su) true 0 0)
            (fun s => {| q_in := q_in s; q_out := q_out s; q_dctx := q_dctx s;
                         q_world := {| heap := heap (q_world s);
                                       allocs := allocs (q_world s);
                                       log := E_freeDCtx :: log (q_world s) |} |})
            {| q_in := fst (fst s0); q_out := snd (fst s0); q_dctx := dctx;
               q_world := w0 |}
        with
        | Some (r, s) => Some (r, (q_in s, q_out s, q_world s))
        | None => None
        end
    end.

End DPump.

End Library.

(** ** A small library to run the module against

    A codec with zstd's streaming interface and a format of its own: a
    frame is, for each byte [x] of the content, the two bytes [01 x], then
    the byte [00]. The constants are those of zstd.h. *)
Module Toy.

Record cctx : Type := mkC {
  c_pending : bytes;            (* produced, not yet flushed *)
  c_ending : bool;              (* the end of the frame is among them *)
  c_params : list (Z * Z)
}.

Record dctx : Type := mkD {
  d_payload : bool;             (* a tag 01 was read, its byte is due *)
  d_params : list (Z * Z)
}.

Definition e_continue : Z := 0.
Definition e_flush : Z := 1.
Definition e_end : Z := 2.
Definition c_compressionLevel : Z := 100.
Definition c_nbWorkers : Z := 400.
Definition c_jobSize : Z := 401.
Definition c_overlapLog : Z := 402.
Definition d_windowLogMax : Z := 100.
Definition CONTENTSIZE_UNKNOWN : Z := 2^64 - 1.
Definition CONTENTSIZE_ERROR : Z := 2^64 - 2.

(** Error codes are the top of the [size_t] range. *)
Definition error (code : Z) : Z := 2^64 - code.
Definition isError (code : Z) : bool := code >? 2^64 - 120.

Definition cParam_getBounds (key : Z) : Z * Z :=
  if key =? c_compressionLevel then (-131072, 22)
  else if key =? c_nbWorkers then (0, 200)
  else if key =? c_jobSize then (0, 1073741824)
  else if key =? c_overlapLog then (0, 9)
  else (0, 0).

Definition CCtx_setParameter (c : cctx) (key value : Z) : cctx * Z :=
  if (key =? c_compressionLevel) || (key =? c_nbWorkers) || (key =? c_jobSize)
     || (key =? c_overlapLog)
  then
    if (fst (cParam_getBounds key) <=? value) && (value <=? snd (cParam_getBounds key))
    then ({| c_pending := c_pending c; c_ending := c_ending c;
             c_params := (key, value) :: c_params c |}, 0)
    else (c, error 42)
  else (c, error 40).

Definition DCtx_setParameter (d : dctx) (key value : Z) : dctx * Z :=
  if key =? d_windowLogMax
  then if (10 <=? value) && (value <=? 31)
       then ({| d_payload := d_payload d; d_params := (key, value) :: d_params d |}, 0)
       else (d, error 42)
  else (d, error 40).

Definition encode (input : bytes) : bytes :=
  flat_map (fun x => ["001"%byte; x]) input.

Definition compressStream2 (c : cctx) (room : nat) (input : bytes) (directive : Z)
  : step cctx :=
  let queued := c_pending c ++ encode input
                ++ (if (directive =? e_end) && negb (c_ending c)
                    then ["000"%byte] else []) in
  let rest := drop room queued in
  {| st_ctx := {| c_pending := rest;
                  c_ending := if directive =? e_end
                              then negb (length rest =? 0)%nat
                              else c_ending c;
                  c_params := c_params c |};
     st_ret := len rest;
     st_written := take room queued;
     st_consumed := length input |}.

(** The decoder: whether a content byte is due afterwards, the return code,
    the bytes written and the number of bytes read. *)
Fixpoint decode (payload : bool) (room : nat) (input : bytes) : bool * Z * bytes * nat :=
  match input with
  | [] => (payload, 1, [], 0%nat)
  | x :: rest =>
      if payload then
        match room with
        | O => (true, 1, [], 0%nat)
        | S room =>
            let r := decode false room rest in
            (fst (fst (fst r)), snd (fst (fst r)), x :: snd (fst r), S (snd r))
        end
      else if Byte.eqb x "001" then
        let r := decode true room rest in
        (fst (fst (fst r)), snd (fst (fst r)), snd (fst r), S (snd r))
      else if Byte.eqb x "000" then (false, 0, [], 1%nat)
      else (false, error 20, [], 0%nat)
  end.

Definition decompressStream (d : dctx) (room : nat) (input : bytes) : step dctx :=
  let r := decode (d_payload d) room input in
  {| st_ctx := {| d_payload := fst (fst (fst r)); d_params := d_params d |};
     st_ret := snd (fst (fst r));
     st_written := snd (fst r);
     st_consumed := snd r |}.

(** Little-endian 32-bit value of the first four bytes. *)
Definition le32 (b : bytes) : Z :=
  match b with
  | b0 :: b1 :: b2 :: b3 :: _ =>
      Z.of_N (Byte.to_N b0) + 2^8 * Z.of_N (Byte.to_N b1)
      + 2^16 * Z.of_N (Byte.to_N b2) + 2^24 * Z.of_N (Byte.to_N b3)
  | _ => 0
  end.

(** zstd's ZDICT_getDictID: 0 unless the content starts with the
    dictionary magic number, else the identifier that follows it. *)
Definition getDictID (content : bytes) : Z :=
  if len content <? 8 then 0
  else if le32 content =? 3962610743 (* 0xEC30A437 *) then le32 (drop 4 content)
  else 0.

Definition lib : ZstdLib := {|
  ZSTD_CCtx := cctx;
  ZSTD_DCtx := dctx;
  ZSTD_CDict := bytes;
  ZSTD_DDict := bytes;
  ZSTD_e_continue := e_continue;
  ZSTD_e_flush := e_flush;
  ZSTD_e_end := e_end;
  ZSTD_c_compressionLevel := c_compressionLevel;
  ZSTD_c_nbWorkers := c_nbWorkers;
  ZSTD_c_jobSize := c_jobSize;
  ZSTD_c_overlapLog := c_overlapLog;
  ZSTD_CONTENTSIZE_UNKNOWN := CONTENTSIZE_UNKNOWN;
  ZSTD_CONTENTSIZE_ERROR := CONTENTSIZE_ERROR;
  ZSTD_versionNumber := 10505;
  ZSTD_minCLevel := -131072;
  ZSTD_cParam_getBounds := cParam_getBounds;
  ZSTD_isError := isError;
  ZSTD_createCCtx := Some {| c_pending := []; c_ending := false; c_params := [] |};
  ZSTD_createDCtx := Some {| d_payload := false; d_params := [] |};
  ZSTD_CCtx_setParameter := CCtx_setParameter;
  ZSTD_DCtx_setParameter := DCtx_setParameter;
  ZSTD_CCtx_setPledgedSrcSize := fun c _ => (c, 0);
  ZSTD_CCtx_reset := fun c =>
    {| c_pending := []; c_ending := false; c_params := c_params c |};
  ZSTD_DCtx_reset := fun d => {| d_payload := false; d_params := d_params d |};
  ZSTD_compressBound := fun n => 2 * n + 1;
  ZDICT_getDictID := getDictID;
  ZSTD_createCDict := fun content _ => Some content;
  ZSTD_createDDict := fun content => Some content;
  ZSTD_CCtx_refCDict := fun c _ => (c, 0);
  ZSTD_DCtx_refDDict := fun d _ => (d, 0);
  ZSTD_getFrameContentSize := fun data =>
    if len data =? 0 then CONTENTSIZE_ERROR else CONTENTSIZE_UNKNOWN;
  ZSTD_compressStream2 := compressStream2;
  ZSTD_decompressStream := decompressStream
|}.

(** Streams over lists: the input stream hands out its chunks one per
    call, then reports the end; the output stream keeps what it is given. *)
Definition io : Streams := {|
  IStream := list bytes;
  OStream := bytes;
  readinto := fun st b =>
    match st with
    | [] => ([], Some 0, b)
    | chunk :: st => (st, Some (len chunk), chunk ++ drop (length chunk) b)
    end;
  write := fun st b => (st ++ b, Some (len b))
|}.

End Toy.

(** ** The output buffer: what a run of allocations and writes leaves *)

(** The blocks [ps], end to end. *)
Definition block_data (w : World) (ps : list nat) : bytes :=
  concat (map (memread w) ps).

(** Every block before the last, whole, then the first [out.pos] bytes of
    the last one. *)
Definition buffer_contents (w : World) (self : _BlocksOutputBuffer) (out : ZSTD_outBuffer) : bytes :=
  block_data w (removelast (blist self))
  ++ take (Z.to_nat (out_pos out)) (memread w (out_dst out)).

Section BufferRuns.
Context {ffi : Ffi}.

(** [buffer_run w self out data]: the buffer was initialised, then written
    through [out] and grown some number of times, in any order the methods
    allow; [data] is what was written, in order. *)
Inductive buffer_run : World -> _BlocksOutputBuffer -> ZSTD_outBuffer -> bytes -> Prop :=
| run_initAndGrow (max_length : Z) (w0 w : World) self out :
    initAndGrow max_length w0 = Some (Ok (self, out), w) ->
    buffer_run w self out []
| run_initWithSize (init_size : Z) (w0 w : World) self out :
    0 <= init_size ->
    initWithSize init_size w0 = Some (Ok (self, out), w) ->
    buffer_run w self out []
| run_write w self out data (d : bytes) out' w' :
    buffer_run w self out data ->
    out_pos out + len d <= out_size out ->
    out_write out d w = Some (Ok out', w') ->
    buffer_run w' self out' (data ++ d)
| run_grow w self out data self' out' w' :
    buffer_run w self out data ->
    grow self out w = Some (Ok (self', out'), w') ->
    buffer_run w' self' out' data
| run_emit w self out data (e : event) w' :
    buffer_run w self out data ->
    emit e w = Some (Ok tt, w') ->
    buffer_run w' self out data.

(** The representation invariant of the buffer. *)
Record buffer_inv (w : World) (self : _BlocksOutputBuffer) (out : ZSTD_outBuffer)
  (data : bytes) : Prop := {
  inv_last : exists init, blist self = init ++ [out_dst out] /\ out_dst out ∉ init;
  inv_bound : Forall (fun p => (p < length (heap w))%nat) (blist self);
  inv_pos : 0 <= out_pos out <= out_size out;
  inv_size : len (memread w (out_dst out)) = out_size out;
  inv_alloc : allocated self = len (block_data w (blist self));
  inv_max : 0 <= max_length self -> allocated self <= max_length self;
  inv_data : data = buffer_contents w self out
}.

(** The fast-path test of [finish]. *)
Definition finish_fast (self : _BlocksOutputBuffer) (out : ZSTD_outBuffer) : bool :=
  ((length (blist self) =? 1)%nat && (out_pos out =? out_size out))
  || ((length (blist self) =? 2)%nat && (out_pos out =? 0)).

End BufferRuns.

(** ** Concrete allocators *)

(** An allocator that never fails and hands out zeroed memory. *)
Definition plain_ffi : Ffi :=
  {| alloc_fails := fun _ => false; uninit := fun _ _ => "000"%byte |}.

(** An allocator out of memory from its [n]-th request on. *)
Definition failing_ffi (n : nat) : Ffi :=
  {| alloc_fails := fun k => (n <=? k)%nat; uninit := fun _ _ => "000"%byte |}.

(** ** Outcomes of the compressor's methods *)

Section Outcomes.
Context {m : ZstdLib}.

(** What a [compress] or [flush] call that got past its argument check
    leaves: [last_mode] is [mode] when it returned; when it raised,
    [last_mode] is [FLUSH_FRAME] and the session reset is the last thing
    that happened to the context and to the world. *)
Definition compress_outcome (mode : Z) (r : result bytes)
  (self' : ZstdCompressor) (w' : World) : Prop :=
  match r with
  | Ok _ => __last_mode self' = mode
  | Raise _ =>
      __last_mode self' = FLUSH_FRAME
      /\ exists c w1, _cctx self' = ZSTD_CCtx_reset c
           /\ w' = {| heap := heap w1; allocs := allocs w1;
                      log := E_CCtx_reset :: log w1 |}
  end.

(** The [except] clause of [compress] and [flush]. *)
Definition compress_except (s : ZstdCompressor * World) : ZstdCompressor * World :=
  (set_cctx (ZSTD_CCtx_reset (_cctx (fst s))) (set_last_mode ZSTD_e_end (fst s)),
   {| heap := heap (snd s); allocs := allocs (snd s);
      log := E_CCtx_reset :: log (snd s) |}).

(** What the [except] clause of [_stream_decompress] does. *)
Definition decompress_except (s : _Decompressor * World) : _Decompressor * World :=
  let self := set_needs_input true (set_in_end 0 (set_in_begin 0 (fst s))) in
  let self := if negb (is_endless self) then set_eof false self
              else set_at_frame_edge true self in
  (set_dctx (ZSTD_DCtx_reset (_dctx self)) self,
   {| heap := heap (snd s); allocs := allocs (snd s);
      log := E_DCtx_reset :: log (snd s) |}).

(** [preserves R c]: every run of [c] that ends, by returning or by
    raising, takes a state to one related to it by [R]. *)
Definition preserves {S A : Type} (R : S -> S -> Prop) (c : M S A) : Prop :=
  forall s r s', c s = Some (r, s') -> R s s'.

(** The decompressor keeps its kind. *)
Definition same_type (s s' : _Decompressor * World) : Prop :=
  _type (fst s') = _type (fst s).

(** The events of the set-up of a compression context. *)
Definition is_setup_event (e : event) : bool :=
  match e with
  | E_CCtx_setParameter _ _ | E_CCtx_refCDict | E_CCtx_setPledgedSrcSize _
  | E_warn => true
  | _ => false
  end.

(** [c] grew the log by set-up events only. *)
Definition logged_setup (w w' : World) : Prop :=
  exists new, log w' = new ++ log w /\ forallb is_setup_event new = true.

Definition cctx_setup (t t' : ZSTD_CCtx * World) : Prop :=
  logged_setup (snd t) (snd t').

(** The library never writes past the room it is given. *)
Definition writes_within_room : Prop :=
  forall d room inp,
    (length (st_written (ZSTD_decompressStream d room inp)) <= room)%nat.

(** The library never reads past the input it is given. *)
Definition reads_within_input : Prop :=
  forall d room inp,
    (st_consumed (ZSTD_decompressStream d room inp) <= length inp)%nat.

(** The bytes [b], ..., [e - 1] of [l]. *)
Definition window (l : bytes) (b e : Z) : bytes :=
  take (Z.to_nat (e - b)) (drop (Z.to_nat b) l).

(** The carry-over: the bytes of [_input_buffer] in [[_in_begin, _in_end)]. *)
Definition carry_over (self : _Decompressor) (w : World) : bytes :=
  take (Z.to_nat (_in_end self - _in_begin self))
       (input_buffer_from self (_in_begin self) w).

(** The carry-over window lies inside the storage, when there is storage;
    with none, the window is empty. *)
Definition carry_over_inv (self : _Decompressor) (w : World) : Prop :=
  0 <= _in_begin self <= _in_end self
  /\ match _input_buffer self with
     | Some p =>
         (p < length (heap w))%nat
         /\ len (memread w p) = _input_buffer_size self
         /\ _in_end self <= _input_buffer_size self
     | None => _in_begin self = _in_end self
     end.

(** What [needs_input] is after a call that consumed all its input and
    returned [ret_]. *)
Definition needs_input_when_consumed (self' : _Decompressor) (ret_ : bytes)
  (max_length : Z) : bool :=
  match _type self' with
  | DECOMPRESSOR => negb ((len ret_ =? max_length) || _eof self')
  | ENDLESS_DECOMPRESSOR => negb ((len ret_ =? max_length) && negb (_at_frame_edge self'))
  end.

(** What the first part of the [try] leaves: the input view is the
    carry-over followed by [data]; when the view is in the storage, the
    storage's window is the view. *)
Definition prepare_post (self : _Decompressor) (w : World) (data : bytes)
  (use_input_buffer : bool) (in_buf : ZSTD_inBuffer)
  (self1 : _Decompressor) (w1 : World) : Prop :=
  in_pos in_buf = 0
  /\ in_size in_buf = len (carry_over self w ++ data)
  /\ take (Z.to_nat (in_size in_buf)) (in_src in_buf) = carry_over self w ++ data
  /\ carry_over_inv self1 w1
  /\ _type self1 = _type self
  /\ (if use_input_buffer
      then carry_over self1 w1 = carry_over self w ++ data
      else _in_begin self1 = _in_end self1).

(** The arrays allocated before the [n]-th are in [w'] what they are in [w]. *)
Definition untouched_below (n : nat) (w w' : World) : Prop :=
  (n <= length (heap w'))%nat /\ forall p, (p < n)%nat -> heap w' !! p = heap w !! p.

(** [self'] has the kind, the carry-over storage and the window of [self]. *)
Definition same_storage (self self' : _Decompressor) : Prop :=
  _type self' = _type self /\ _input_buffer self' = _input_buffer self
  /\ _input_buffer_size self' = _input_buffer_size self
  /\ _in_begin self' = _in_begin self /\ _in_end self' = _in_end self.

(** The value [_set_c_parameters] hands to the library for the entry
    [(key, value)] of the mapping, on a build that supports
    multi-threading: the clamped level for a compression level, 0 for a
    worker count of 1, the entry's value otherwise. *)
Definition c_value (key value : Z) : Z :=
  if key =? ZSTD_c_compressionLevel then clamp_compression_level value
  else if key =? ZSTD_c_nbWorkers
  then (if value >? 1 then value else if value =? 1 then 0 else value)
  else value.

(** The library call made for an entry of the mapping. *)
Definition c_call (kv : Z * Z) : event :=
  E_CCtx_setParameter (fst kv) (c_value (fst kv) (snd kv)).

(** The context after the calls for the entries [items], made in order
    on [c]. *)
Definition c_applied (c : ZSTD_CCtx) (items : list (Z * Z)) : ZSTD_CCtx :=
  fold_left (fun c kv => fst (ZSTD_CCtx_setParameter c (fst kv)
                                (c_value (fst kv) (snd kv)))) items c.

(** Whether the library accepts the call for the entry [kv] on [c]. *)
Definition c_accepts (c : ZSTD_CCtx) (kv : Z * Z) : bool :=
  negb (ZSTD_isError (snd (ZSTD_CCtx_setParameter c (fst kv)
                             (c_value (fst kv) (snd kv))))).

(** The log of [w'] is the log of [w]. *)
Definition same_log (w w' : World) : Prop := log w' = log w.

(** What a [decompress] call may do to its context besides its
    bookkeeping: decompression steps. The dictionary, the cache of
    [unused_data] and the kind of the decompressor stay. *)
Definition only_steps (s s' : _Decompressor * World) : Prop :=
  (exists n : nat, log (snd s') = repeat E_decompressStream n ++ log (snd s))
  /\ _unused_data (fst s') = _unused_data (fst s)
  /\ d__dict (fst s') = d__dict (fst s)
  /\ _type (fst s') = _type (fst s).

(** The library call made for an entry of the [option] mapping. *)
Definition d_call (kv : Z * Z) : event := E_DCtx_setParameter (fst kv) (snd kv).

Definition is_int32 (v : Z) : Prop := -2147483648 <= v <= 2147483647.

(** What a run of [_set_d_parameters] on [option] that applied the first
    [n] entries ends with. *)
Definition d_parameters_outcome (option : list (Z * Z)) (n : nat) (r : result unit)
  : Prop :=
  match r with
  | Ok _ => n = length option
  | Raise (ZstdError (ZE_parameter false pos key value)) =>
      (1 <= n)%nat /\ pos = Z.of_nat n /\ option !! (n - 1)%nat = Some (key, value)
  | Raise (ValueError VE_int32_key) =>
      exists key value, option !! n = Some (key, value) /\ ~ is_int32 key
  | Raise (ValueError VE_int32_value) =>
      exists key value, option !! n = Some (key, value) /\ is_int32 key /\ ~ is_int32 value
  | Raise _ => False
  end.

(** An event of [_set_c_parameters] on a build without multi-threading:
    a warning, or a parameter set, to at most 0 when it is one of the
    three multi-threading parameters. *)
Definition single_threaded_call (e : event) : Prop :=
  match e with
  | E_warn => True
  | E_CCtx_setParameter key value =>
      key = ZSTD_c_nbWorkers \/ key = ZSTD_c_jobSize \/ key = ZSTD_c_overlapLog ->
      value <= 0
  | _ => False
  end.

(** The level [_Compressor.__init__] digests a dictionary at: the clamped
    level argument, or the clamped value of the last [compressionLevel]
    entry of the mapping, or 0. *)
Definition digest_level (level_or_option : option level_or_option_t) : Z :=
  match level_or_option with
  | Some (LO_int level) => clamp_compression_level level
  | Some (LO_dict items) =>
      fold_left (fun level kv =>
                   if fst kv =? ZSTD_c_compressionLevel
                   then clamp_compression_level (snd kv) else level) items 0
  | _ => 0
  end.

(** The library never writes past the room it is given, when compressing. *)
Definition compress_writes_within_room : Prop :=
  forall c room inp directive,
    (length (st_written (ZSTD_compressStream2 c room inp directive)) <= room)%nat.

(** [compress_session directive c input c' output rest ret]: one or more
    compression steps that report no error, each made on the context the
    step before left and fed the input the step before did not consume,
    take the context [c] to [c'] and write [output], in order; [rest] is
    the input not consumed and [ret] what the last step returned. *)
Inductive compress_session (directive : Z)
  : ZSTD_CCtx -> bytes -> ZSTD_CCtx -> bytes -> bytes -> Z -> Prop :=
| cs_last (c : ZSTD_CCtx) (input : bytes) (room : nat) :
    ZSTD_isError (st_ret (ZSTD_compressStream2 c room input directive)) = false ->
    compress_session directive c input
      (st_ctx (ZSTD_compressStream2 c room input directive))
      (st_written (ZSTD_compressStream2 c room input directive))
      (drop (st_consumed (ZSTD_compressStream2 c room input directive)) input)
      (st_ret (ZSTD_compressStream2 c room input directive))
| cs_more (c : ZSTD_CCtx) (input : bytes) (room : nat) c' output rest ret :
    ZSTD_isError (st_ret (ZSTD_compressStream2 c room input directive)) = false ->
    compress_session directive
      (st_ctx (ZSTD_compressStream2 c room input directive))
      (drop (st_consumed (ZSTD_compressStream2 c room input directive)) input)
      c' output rest ret ->
    compress_session directive c input c'
      (st_written (ZSTD_compressStream2 c room input directive) ++ output) rest ret.

(** The call left the decompression context alone. *)
Definition same_dctx (s s' : _Decompressor * World) : Prop :=
  _dctx (fst s') = _dctx (fst s).

(** The call left [eof] and [at_frame_edge] alone. *)
Definition same_flags (s s' : _Decompressor * World) : Prop :=
  _eof (fst s') = _eof (fst s) /\ _at_frame_edge (fst s') = _at_frame_edge (fst s).

(** Sizes that the library reports are not negative. *)
Definition content_size_nonneg : Prop :=
  forall data, 0 <= ZSTD_getFrameContentSize data.

(** [decompress_session d input d' output rest last]: zero or more
    decompression steps that report no error, each made on the context the
    step before left and fed the input the step before did not consume,
    take the context [d] to [d'] and write [output], in order; [rest] is
    the input not consumed and [last] what the last step returned, if
    there was a step. *)
Inductive decompress_session
  : ZSTD_DCtx -> bytes -> ZSTD_DCtx -> bytes -> bytes -> option Z -> Prop :=
| ds_none (d : ZSTD_DCtx) (input : bytes) : decompress_session d input d [] input None
| ds_step (d : ZSTD_DCtx) (input : bytes) d1 output rest last (room : nat) :
    decompress_session d input d1 output rest last ->
    ZSTD_isError (st_ret (ZSTD_decompressStream d1 room rest)) = false ->
    decompress_session d input
      (st_ctx (ZSTD_decompressStream d1 room rest))
      (output ++ st_written (ZSTD_decompressStream d1 room rest))
      (drop (st_consumed (ZSTD_decompressStream d1 room rest)) rest)
      (Some (st_ret (ZSTD_decompressStream d1 room rest))).

(** What the flags of a decompressor of kind [type] are after a call whose
    last step returned [last] and that left the carry-over [carry]: [eof]
    says that the step ended the frame; [at_frame_edge] says that it did
    and that no input is left. A call without a step is one on an endless
    decompressor at a frame edge. *)
Definition flags_after (type : _Decompressor_type) (last : option Z) (carry : bytes)
  (self' : _Decompressor) : Prop :=
  match last, type with
  | Some z, DECOMPRESSOR => _eof self' = (z =? 0)
  | Some z, ENDLESS_DECOMPRESSOR =>
      _at_frame_edge self' = (z =? 0) && match carry with [] => true | _ => false end
  | None, DECOMPRESSOR => False
  | None, ENDLESS_DECOMPRESSOR => _at_frame_edge self' = true
  end.

(** The [except] clause of [RichMemZstdCompressor.compress]. *)
Definition richmem_except (s : RichMemZstdCompressor * World)
  : RichMemZstdCompressor * World :=
  ({| r_use_multithreaded := r_use_multithreaded (fst s);
      r_cctx := ZSTD_CCtx_reset (r_cctx (fst s)); r__dict := r__dict (fst s) |},
   {| heap := heap (snd s); allocs := allocs (snd s);
      log := E_CCtx_reset :: log (snd s) |}).

(** [step_chain d d' n last]: zero or more decompression steps that
    report no error, each made on the context the step before left, take
    the context [d] to [d'] and write [n] bytes in all; [last] is what the
    last step returned, if there was a step. *)
Inductive step_chain : ZSTD_DCtx -> ZSTD_DCtx -> Z -> option Z -> Prop :=
| sc_none (d : ZSTD_DCtx) : step_chain d d 0 None
| sc_step (d d1 : ZSTD_DCtx) (n : Z) (last : option Z) (room : nat) (input : bytes) :
    step_chain d d1 n last ->
    ZSTD_isError (st_ret (ZSTD_decompressStream d1 room input)) = false ->
    step_chain d (st_ctx (ZSTD_decompressStream d1 room input))
      (n + len (st_written (ZSTD_decompressStream d1 room input)))
      (Some (st_ret (ZSTD_decompressStream d1 room input))).

(** Whether the library is at the edge of a frame after a chain of steps
    that started at one. *)
Definition at_edge (last : option Z) : bool :=
  match last with Some z => z =? 0 | None => true end.







End Outcomes.

Section PumpOutcomes.
Context {m : ZstdLib} {io : Streams}.

(** The pump left both streams alone and logged set-up events only. *)
Definition pump_setup (s s' : pump) : Prop :=
  p_in s' = p_in s /\ p_out s' = p_out s /\ logged_setup (p_world s) (p_world s').





End PumpOutcomes.

(** ** Instances to run *)

(** A fresh [ZstdCompressor()] over the small library. *)
Definition toy_compressor : @ZstdCompressor Toy.lib :=
  @mkZstdCompressor Toy.lib false (Toy.mkC [] false []) None Toy.e_end.

(** A fresh [ZstdDecompressor()] or [EndlessZstdDecompressor()] over the
    small library. *)
Definition toy_decompressor (type : _Decompressor_type) : @_Decompressor Toy.lib :=
  @mkDecompressor Toy.lib type true None 0 0 0 (Toy.mkD false []) None false None true.

(** A [ZstdDecompressor] over the small library whose frame has ended. *)
Definition toy_decompressor_at_eof : @_Decompressor Toy.lib :=
  @mkDecompressor Toy.lib DECOMPRESSOR false None 0 0 0 (Toy.mkD false []) None true None
    true.

(** A fresh [RichMemZstdCompressor()] over the small library. *)
Definition toy_richmem : @RichMemZstdCompressor Toy.lib :=
  @mkRichMemZstdCompressor Toy.lib false (Toy.mkC [] false []) None.

(** A raw-content dictionary of eight bytes over the small library. *)
Definition toy_dict : @ZstdDict Toy.lib :=
  @mkZstdDict Toy.lib (repeat "007"%byte 8) 0 ∅ None.

(** The small library built without multi-threading: the bounds of the
    three multi-threading parameters are (0, 0). *)
Definition toy_single_threaded : ZstdLib := {|
  ZSTD_CCtx := Toy.cctx;
  ZSTD_DCtx := Toy.dctx;
  ZSTD_CDict := bytes;
  ZSTD_DDict := bytes;
  ZSTD_e_continue := Toy.e_continue;
  ZSTD_e_flush := Toy.e_flush;
  ZSTD_e_end := Toy.e_end;
  ZSTD_c_compressionLevel := Toy.c_compressionLevel;
  ZSTD_c_nbWorkers := Toy.c_nbWorkers;
  ZSTD_c_jobSize := Toy.c_jobSize;
  ZSTD_c_overlapLog := Toy.c_overlapLog;
  ZSTD_CONTENTSIZE_UNKNOWN := Toy.CONTENTSIZE_UNKNOWN;
  ZSTD_CONTENTSIZE_ERROR := Toy.CONTENTSIZE_ERROR;
  ZSTD_versionNumber := 10505;
  ZSTD_minCLevel := -131072;
  ZSTD_cParam_getBounds := fun key =>
    if key =? Toy.c_compressionLevel then (-131072, 22) else (0, 0);
  ZSTD_isError := Toy.isError;
  ZSTD_createCCtx := Some (Toy.mkC [] false []);
  ZSTD_createDCtx := Some (Toy.mkD false []);
  ZSTD_CCtx_setParameter := fun c key value =>
    if key =? Toy.c_compressionLevel
    then if (-131072 <=? value) && (value <=? 22)
         then (Toy.mkC (Toy.c_pending c) (Toy.c_ending c)
                 ((key, value) :: Toy.c_params c), 0)
         else (c, Toy.error 42)
    else if (key =? Toy.c_nbWorkers) || (key =? Toy.c_jobSize)
            || (key =? Toy.c_overlapLog)
    then if value =? 0
         then (Toy.mkC (Toy.c_pending c) (Toy.c_ending c)
                 ((key, value) :: Toy.c_params c), 0)
         else (c, Toy.error 42)
    else (c, Toy.error 40);
  ZSTD_DCtx_setParameter := Toy.DCtx_setParameter;
  ZSTD_CCtx_setPledgedSrcSize := fun c _ => (c, 0);
  ZSTD_CCtx_reset := fun c => Toy.mkC [] false (Toy.c_params c);
  ZSTD_DCtx_reset := fun d => Toy.mkD false (Toy.d_params d);
  ZSTD_compressBound := fun n => 2 * n + 1;
  ZDICT_getDictID := Toy.getDictID;
  ZSTD_createCDict := fun content _ => Some content;
  ZSTD_createDDict := fun content => Some content;
  ZSTD_CCtx_refCDict := fun c _ => (c, 0);
  ZSTD_DCtx_refDDict := fun d _ => (d, 0);
  ZSTD_getFrameContentSize := fun data =>
    if len data =? 0 then Toy.CONTENTSIZE_ERROR else Toy.CONTENTSIZE_UNKNOWN;
  ZSTD_compressStream2 := Toy.compressStream2;
  ZSTD_decompressStream := Toy.decompressStream
|}.

(** The bytes [hel] and their frame. *)
Definition hel : bytes := ["h"; "e"; "l"]%byte.
Definition hel_frame : bytes := ["001"; "h"; "001"; "e"; "001"; "l"; "000"]%byte.

(** Whether a run returned, and whether it raised. *)
Definition returned {A S : Type} (r : option (result A * S)) : bool :=
  match r with Some (Ok _, _) => true | _ => false end.

Definition raised {A S : Type} (r : option (result A * S)) : bool :=
  match r with Some (Raise _, _) => true | _ => false end.

Definition ended {A S : Type} (r : option (result A * S)) : bool :=
  match r with Some _ => true | None => false end.
(** * Proofs *)

(** ** Memory lemmas *)

Lemma length_write_at (l : bytes) (off : nat) (data : bytes) :
  (off + length data <= length l)%nat ->
  length (write_at l off data) = length l.
Proof.
  intros H. unfold write_at.
  rewrite !length_app, length_take, length_drop. lia.
Qed.

Lemma take_write_at (l : bytes) (off : nat) (data : bytes) :
  (off <= length l)%nat ->
  take (off + length data) (write_at l off data) = take off l ++ data.
Proof.
  intros H. unfold write_at.
  rewrite app_assoc.
  apply take_app_length'.
  rewrite length_app, length_take. lia.
Qed.

Lemma take_off_write_at (l : bytes) (off : nat) (data : bytes) :
  (off <= length l)%nat ->
  take off (write_at l off data) = take off l.
Proof.
  intros H. unfold write_at.
  apply take_app_length'. rewrite length_take. lia.
Qed.

Lemma memread_memwrite_eq (w : World) (p : nat) (off : Z) (d : bytes) :
  (p < length (heap w))%nat ->
  memread (memwrite p off d w) p = write_at (memread w p) (Z.to_nat off) d.
Proof.
  intros H. unfold memread at 1, memwrite. simpl.
  rewrite list_lookup_insert_eq by exact H. reflexivity.
Qed.

Lemma memread_memwrite_ne (w : World) (p q : nat) (off : Z) (d : bytes) :
  p <> q -> memread (memwrite p off d w) q = memread w q.
Proof.
  intros H. unfold memread, memwrite. simpl.
  rewrite list_lookup_insert_ne by exact H. reflexivity.
Qed.

Lemma heap_memwrite (w : World) (p : nat) (off : Z) (d : bytes) :
  length (heap (memwrite p off d w)) = length (heap w).
Proof. unfold memwrite. simpl. apply length_insert. Qed.

Lemma memread_app_old (h : list bytes) (x : bytes) (a : nat) (l : list event) (p : nat) :
  (p < length h)%nat ->
  memread {| heap := h ++ [x]; allocs := a; log := l |} p = default [] (h !! p).
Proof.
  intros H. unfold memread. simpl. rewrite lookup_app_l by exact H. reflexivity.
Qed.

Lemma memread_app_new (h : list bytes) (x : bytes) (a : nat) (l : list event) :
  memread {| heap := h ++ [x]; allocs := a; log := l |} (length h) = x.
Proof.
  unfold memread. simpl. rewrite list_lookup_middle by reflexivity. reflexivity.
Qed.

Section BufferProofs.
Context {ffi : Ffi}.

Lemma block_data_app (w : World) (ps qs : list nat) :
  block_data w (ps ++ qs) = block_data w ps ++ block_data w qs.
Proof. unfold block_data. rewrite map_app, concat_app. reflexivity. Qed.

Lemma block_data_ext (w w' : World) (ps : list nat) :
  Forall (fun p => memread w' p = memread w p) ps ->
  block_data w' ps = block_data w ps.
Proof.
  unfold block_data. induction 1 as [|p ps Hp _ IH]; simpl; [reflexivity|].
  rewrite Hp, IH. reflexivity.
Qed.

Lemma block_data_single (w : World) (p : nat) : block_data w [p] = memread w p.
Proof. unfold block_data. simpl. apply app_nil_r. Qed.

Lemma len_app {A : Type} (l k : list A) : len (l ++ k) = len l + len k.
Proof. unfold len. rewrite length_app. lia. Qed.

Lemma len_nonneg {A : Type} (l : list A) : 0 <= len l.
Proof. unfold len. lia. Qed.

Lemma len_fresh (k : nat) (n : Z) :
  0 <= n -> len (map (uninit k) (seq 0 (Z.to_nat n))) = n.
Proof. intros H. unfold len. rewrite length_map, length_seq. lia. Qed.

Lemma first_block_size_nonneg (ml : Z) :
  0 <= (if (0 <=? ml) && (ml <? nth 0 BUFFER_BLOCK_SIZE 0) then ml
        else nth 0 BUFFER_BLOCK_SIZE 0).
Proof.
  destruct (Z.leb_spec 0 ml); cbn [andb]; [|vm_compute; discriminate].
  destruct (_ <? _); [lia | vm_compute; discriminate].
Qed.

Lemma first_block_size_max (ml : Z) :
  0 <= ml ->
  (if (0 <=? ml) && (ml <? nth 0 BUFFER_BLOCK_SIZE 0) then ml
   else nth 0 BUFFER_BLOCK_SIZE 0) <= ml.
Proof.
  intros H. destruct (Z.leb_spec 0 ml); cbn [andb]; [|lia].
  destruct (Z.ltb_spec ml (nth 0 BUFFER_BLOCK_SIZE 0)); lia.
Qed.

Lemma table_positive (i : nat) :
  0 < (if (i <? length BUFFER_BLOCK_SIZE)%nat then nth i BUFFER_BLOCK_SIZE 0
       else List.last BUFFER_BLOCK_SIZE 0).
Proof.
  destruct (i <? length BUFFER_BLOCK_SIZE)%nat eqn:E.
  - apply Nat.ltb_lt in E.
    do 17 (destruct i as [|i]; [vm_compute; reflexivity|]).
    simpl in E. lia.
  - vm_compute. reflexivity.
Qed.

(** A fresh single-block buffer satisfies the invariant. *)
Lemma buffer_inv_init (w0 : World) (block_size ml : Z) :
  0 <= block_size ->
  (0 <= ml -> block_size <= ml) ->
  alloc_fails (allocs w0) = false ->
  buffer_inv
    {| heap := heap w0 ++ [map (uninit (allocs w0)) (seq 0 (Z.to_nat block_size))];
       allocs := S (allocs w0); log := log w0 |}
    {| blist := [length (heap w0)]; allocated := block_size; max_length := ml |}
    {| out_dst := length (heap w0); out_size := block_size; out_pos := 0 |} [].
Proof.
  intros Hn Hml _. split; simpl.
  - exists []. split; [reflexivity | apply not_elem_of_nil].
  - constructor; [|constructor]. rewrite length_app. simpl. lia.
  - lia.
  - rewrite memread_app_new. apply len_fresh, Hn.
  - unfold block_data. simpl. rewrite memread_app_new, app_nil_r.
    symmetry. apply len_fresh, Hn.
  - exact Hml.
  - unfold buffer_contents. reflexivity.
Qed.

Lemma removelast_snoc {A : Type} (l : list A) (x : A) : removelast (l ++ [x]) = l.
Proof. apply removelast_last. Qed.

Lemma buffer_inv_write w self out data d :
  buffer_inv w self out data ->
  out_pos out + len d <= out_size out ->
  buffer_inv (memwrite (out_dst out) (out_pos out) d w) self
    {| out_dst := out_dst out; out_size := out_size out; out_pos := out_pos out + len d |}
    (data ++ d).
Proof.
  intros [Hlast Hbound Hpos Hsize Halloc Hmax Hdata] Hroom.
  destruct Hlast as (init & Hl & Hni).
  assert (Hlt : (out_dst out < length (heap w))%nat).
  { rewrite Hl in Hbound. apply Forall_app in Hbound as [_ Hb].
    inversion Hb; assumption. }
  assert (Hinit : Forall (fun p => memread (memwrite (out_dst out) (out_pos out) d w) p
                                   = memread w p) init).
  { apply Forall_forall. intros p Hp. apply memread_memwrite_ne.
    intros E. apply Hni. rewrite E. exact Hp. }
  assert (Hlenw : length (write_at (memread w (out_dst out)) (Z.to_nat (out_pos out)) d)
                  = length (memread w (out_dst out))).
  { apply length_write_at. unfold len in *. lia. }
  split; cbn [blist allocated max_length out_dst out_size out_pos].
  - exists init. split; assumption.
  - rewrite heap_memwrite. exact Hbound.
  - pose proof (len_nonneg d). lia.
  - rewrite memread_memwrite_eq by exact Hlt. unfold len. rewrite Hlenw. exact Hsize.
  - rewrite Halloc, Hl, !block_data_app, !len_app.
    rewrite (block_data_ext _ _ _ Hinit). f_equal.
    unfold block_data. simpl. rewrite !app_nil_r.
    rewrite memread_memwrite_eq by exact Hlt. unfold len. rewrite Hlenw. reflexivity.
  - exact Hmax.
  - rewrite Hdata. unfold buffer_contents.
    cbn [blist allocated max_length out_dst out_size out_pos].
    rewrite Hl, removelast_snoc, (block_data_ext _ _ _ Hinit).
    rewrite <- app_assoc. f_equal.
    rewrite memread_memwrite_eq by exact Hlt.
    replace (Z.to_nat (out_pos out + len d))
      with (Z.to_nat (out_pos out) + length d)%nat by (unfold len; lia).
    symmetry. apply take_write_at. unfold len in *. lia.
Qed.

Lemma buffer_inv_emit w self out data e :
  buffer_inv w self out data ->
  buffer_inv {| heap := heap w; allocs := allocs w; log := e :: log w |} self out data.
Proof. intros [H1 H2 H3 H4 H5 H6 H7]. split; assumption. Qed.

(** What a successful [grow] did. *)
Lemma grow_ok w self out self' out' w' :
  grow self out w = Some (Ok (self', out'), w') ->
  exists block_size,
    out_pos out = out_size out /\ 0 < block_size /\
    (0 <= max_length self -> allocated self + block_size <= max_length self) /\
    self' = {| blist := blist self ++ [length (heap w)];
               allocated := allocated self + block_size;
               max_length := max_length self |} /\
    out' = {| out_dst := length (heap w); out_size := block_size; out_pos := 0 |} /\
    w' = {| heap := heap w ++ [map (uninit (allocs w)) (seq 0 (Z.to_nat block_size))];
            allocs := S (allocs w); log := log w |}.
Proof.
  unfold grow. mred.
  destruct (Z.eqb_spec (out_pos out) (out_size out)) as [Hfull|]; mred; [|discriminate].
  pose proof (table_positive (length (blist self))) as Htab.
  set (bs := if (length (blist self) <? length BUFFER_BLOCK_SIZE)%nat
             then nth (length (blist self)) BUFFER_BLOCK_SIZE 0
             else List.last BUFFER_BLOCK_SIZE 0) in *.
  destruct (Z.geb_spec (max_length self) 0) as [Hml|Hml]; mred.
  - destruct (Z.gtb_spec (max_length self - allocated self) 0) as [Hrest|]; mred;
      [|discriminate].
    unfold _new_nonzero.
    destruct (alloc_fails (allocs w)); mred; [discriminate|].
    intros H. injection H as <- <- <-.
    eexists. split; [exact Hfull|]. split; [|split; [|repeat split]].
    + destruct (Z.gtb_spec bs (max_length self - allocated self)); lia.
    + intros _. destruct (Z.gtb_spec bs (max_length self - allocated self)); lia.
  - unfold _new_nonzero.
    destruct (alloc_fails (allocs w)); mred; [discriminate|].
    intros H. injection H as <- <- <-.
    exists bs. split; [exact Hfull|]. split; [exact Htab|]. split; [lia|repeat split].
Qed.

Lemma buffer_inv_grow w self out data self' out' w' :
  buffer_inv w self out data ->
  grow self out w = Some (Ok (self', out'), w') ->
  buffer_inv w' self' out' data.
Proof.
  intros [Hlast Hbound Hpos Hsize Halloc Hmax Hdata] Hg.
  apply grow_ok in Hg as (bs & Hfull & Hbs & Hroom & -> & -> & ->).
  destruct Hlast as (init & Hl & Hni).
  assert (Hold : Forall (fun p =>
            memread {| heap := heap w ++ [map (uninit (allocs w)) (seq 0 (Z.to_nat bs))];
                       allocs := S (allocs w); log := log w |} p = memread w p) (blist self)).
  { eapply Forall_impl; [exact Hbound|]. intros p Hp. cbn beta in Hp.
    rewrite memread_app_old by exact Hp. reflexivity. }
  split; cbn [blist allocated max_length out_dst out_size out_pos].
  - exists (blist self). split; [reflexivity|].
    intros Hin. rewrite Forall_forall in Hbound. apply Hbound in Hin. lia.
  - apply Forall_app. split.
    + eapply Forall_impl; [exact Hbound|]. intros p Hp. cbn beta in *.
      cbn [heap]. rewrite length_app. simpl. lia.
    + constructor; [|constructor]. cbn [heap]. rewrite length_app. simpl. lia.
  - lia.
  - rewrite memread_app_new. apply len_fresh. lia.
  - rewrite block_data_app, len_app, (block_data_ext _ _ _ Hold), <- Halloc.
    f_equal. unfold block_data. cbn [map concat]. rewrite app_nil_r, memread_app_new.
    symmetry. apply len_fresh. lia.
  - intros H. apply Hroom, H.
  - rewrite Hdata. unfold buffer_contents.
    cbn [blist allocated max_length out_dst out_size out_pos].
    rewrite removelast_snoc, (block_data_ext _ _ _ Hold).
    change (Z.to_nat 0) with 0%nat. rewrite take_0, app_nil_r.
    rewrite Hl, removelast_snoc, block_data_app. f_equal.
    unfold block_data. cbn [map concat]. rewrite app_nil_r.
    apply take_ge. unfold len in Hsize. lia.
Qed.

(** Every run leaves the invariant. *)
Lemma buffer_run_inv w self out data :
  buffer_run w self out data -> buffer_inv w self out data.
Proof.
  induction 1 as [ml w0 w self out Hi | n w0 w self out Hn Hi
                 | w self out data d out' w' _ IH Hroom Hw
                 | w self out data self' out' w' _ IH Hg
                 | w self out data e w' _ IH He].
  - unfold initAndGrow, _new_nonzero in Hi. mred_in Hi.
    destruct (alloc_fails (allocs w0)) eqn:Ea; mred_in Hi; [discriminate|].
    injection Hi as <- <- <-.
    apply buffer_inv_init; [apply first_block_size_nonneg | apply first_block_size_max | exact Ea].
  - unfold initWithSize, _new_nonzero in Hi. mred_in Hi.
    destruct (alloc_fails (allocs w0)) eqn:Ea; mred_in Hi; [discriminate|].
    injection Hi as <- <- <-.
    apply buffer_inv_init; [exact Hn | simpl; lia | exact Ea].
  - unfold out_write in Hw. mred_in Hw. injection Hw as <- <-.
    apply buffer_inv_write; assumption.
  - eapply buffer_inv_grow; eassumption.
  - mred_in He. injection He as <-.
    apply buffer_inv_emit, IH.
Qed.

(** *** [finish] *)

Lemma write_at_nil (l : bytes) (off : nat) : write_at l off [] = l.
Proof.
  unfold write_at. simpl. rewrite Nat.add_0_r. apply take_drop.
Qed.

Lemma write_at_write_at (l : bytes) (off : nat) (a b : bytes) :
  (off + length a <= length l)%nat ->
  write_at (write_at l off a) (off + length a) b = write_at l off (a ++ b).
Proof.
  intros H. unfold write_at at 1.
  rewrite take_write_at by lia.
  unfold write_at. rewrite <- !app_assoc. do 2 f_equal.
  rewrite length_app. f_equal.
  rewrite (app_assoc (take off l) a).
  rewrite drop_app_ge; rewrite length_app, length_take; [|lia].
  rewrite drop_drop. f_equal. lia.
Qed.

Lemma memwrite_nil (w : World) (p : nat) (off : Z) : memwrite p off [] w = w.
Proof.
  unfold memwrite. rewrite write_at_nil. destruct w as [h a l]. simpl. f_equal.
  unfold memread. simpl.
  destruct (h !! p) as [x|] eqn:E; simpl.
  - apply list_insert_id, E.
  - apply list_insert_ge. apply lookup_ge_None. exact E.
Qed.

Lemma memwrite_memwrite (w : World) (p : nat) (off : Z) (a b : bytes) :
  0 <= off ->
  (p < length (heap w))%nat ->
  off + len a <= len (memread w p) ->
  memwrite p (off + len a) b (memwrite p off a w) = memwrite p off (a ++ b) w.
Proof.
  intros Hoff Hp Hlen. unfold memwrite at 1.
  rewrite memread_memwrite_eq by exact Hp.
  unfold memwrite. cbn [heap allocs log]. f_equal.
  rewrite list_insert_insert_eq. f_equal.
  replace (Z.to_nat (off + len a)) with (Z.to_nat off + length a)%nat
    by (unfold len; lia).
  apply write_at_write_at. unfold len in Hlen. lia.
Qed.

(** The copy loop writes the blocks end to end and touches nothing else. *)
Lemma finish_copy_spec (blocks : list nat) (final : nat) (posi : Z) (w : World) :
  0 <= posi ->
  (final < length (heap w))%nat ->
  final ∉ blocks ->
  posi + len (block_data w blocks) <= len (memread w final) ->
  finish_copy final posi blocks w =
    Some (Ok (posi + len (block_data w blocks)),
          memwrite final posi (block_data w blocks) w).
Proof.
  revert posi w. induction blocks as [|b blocks IH]; intros posi w Hposi Hf Hni Hlen.
  - cbn [finish_copy]. mred. unfold block_data. simpl.
    rewrite memwrite_nil. unfold len. simpl. rewrite Z.add_0_r. reflexivity.
  - cbn [finish_copy]. mred. unfold memmove. mred.
    apply not_elem_of_cons in Hni as [Hne Hni].
    change (block_data w (b :: blocks)) with (memread w b ++ block_data w blocks) in *.
    rewrite len_app in Hlen. pose proof (len_nonneg (memread w b)).
    pose proof (len_nonneg (block_data w blocks)).
    replace (take (Z.to_nat (len (memread w b))) (memread w b)) with (memread w b)
      by (symmetry; apply take_ge; unfold len; lia).
    set (w1 := memwrite final posi (memread w b) w).
    assert (Hext : block_data w1 blocks = block_data w blocks).
    { apply block_data_ext, Forall_forall. intros p Hp.
      apply memread_memwrite_ne. intros ->. exact (Hni Hp). }
    rewrite IH; try assumption.
    + rewrite Hext, len_app, Z.add_assoc. subst w1.
      rewrite memwrite_memwrite; [reflexivity | assumption | assumption | lia].
    + lia.
    + subst w1. rewrite heap_memwrite. exact Hf.
    + rewrite Hext. subst w1. rewrite memread_memwrite_eq by exact Hf.
      unfold len at 3. rewrite length_write_at by (unfold len in *; lia).
      fold (len (memread w final)). lia.
Qed.

Lemma len_buffer_contents w self out data :
  buffer_inv w self out data ->
  len data = allocated self - (out_size out - out_pos out).
Proof.
  intros [Hlast Hbound Hpos Hsize Halloc Hmax Hdata].
  destruct Hlast as (init & Hl & Hni).
  rewrite Hdata, Halloc. unfold buffer_contents.
  rewrite Hl, removelast_snoc, block_data_app, !len_app, block_data_single, Hsize.
  unfold len at 2. rewrite length_take. unfold len in Hsize. lia.
Qed.

(** On the fast path the first block is the data, and [finish] returns it
    with the world as it was. *)
Lemma finish_fast_spec w self out data :
  buffer_inv w self out data ->
  finish_fast self out = true ->
  exists block0, blist self !! 0%nat = Some block0
    /\ memread w block0 = data
    /\ finish self out w = Some (Ok (memread w block0), w).
Proof.
  intros Hinv Hfast.
  pose proof Hinv as [Hlast Hbound Hpos Hsize Halloc Hmax Hdata].
  destruct Hlast as (init & Hl & Hni).
  unfold finish. fold (finish_fast self out). rewrite Hfast.
  unfold finish_fast in Hfast.
  apply orb_true_iff in Hfast as [H|H]; apply andb_true_iff in H as [H1 H2];
    apply Nat.eqb_eq in H1; apply Z.eqb_eq in H2; rewrite Hl in H1 |- *;
    rewrite length_app in H1; simpl in H1.
  - destruct init as [|? init]; [|simpl in H1; lia]. simpl.
    exists (out_dst out). split; [reflexivity|]. split; [|reflexivity].
    rewrite Hdata. unfold buffer_contents. rewrite Hl. simpl.
    symmetry. apply take_ge. unfold len in Hsize. lia.
  - destruct init as [|b0 [|? init]]; simpl in H1; try lia. simpl.
    exists b0. split; [reflexivity|]. split; [|reflexivity].
    rewrite Hdata. unfold buffer_contents. rewrite Hl, H2. simpl.
    rewrite take_0, app_nil_r. symmetry. apply block_data_single.
Qed.

(** Off the fast path [finish] allocates the result and copies into it. *)
Lemma finish_slow_spec w self out data :
  buffer_inv w self out data ->
  finish_fast self out = false ->
  alloc_fails (allocs w) = false ->
  exists w', finish self out w = Some (Ok data, w')
    /\ allocs w' = S (allocs w) /\ log w' = log w.
Proof.
  intros Hinv Hfast Halloc_ok.
  pose proof (len_buffer_contents _ _ _ _ Hinv) as Hlen.
  pose proof Hinv as [Hlast Hbound Hpos Hsize Halloc Hmax Hdata].
  destruct Hlast as (init & Hl & Hni).
  unfold finish. fold (finish_fast self out). rewrite Hfast.
  unfold _new_nonzero. mred. rewrite Halloc_ok. mred.
  set (n := allocated self - (out_size out - out_pos out)) in *.
  set (fresh := map (uninit (allocs w)) (seq 0 (Z.to_nat n))).
  set (w1 := {| heap := heap w ++ [fresh]; allocs := S (allocs w); log := log w |}).
  assert (Hn : 0 <= n) by (rewrite <- Hlen; apply len_nonneg).
  assert (Hold : Forall (fun p => memread w1 p = memread w p) (blist self)).
  { eapply Forall_impl; [exact Hbound|]. intros p Hp. cbn beta in Hp.
    subst w1. rewrite memread_app_old by exact Hp. reflexivity. }
  assert (Hfresh : memread w1 (length (heap w)) = fresh) by apply memread_app_new.
  assert (Hlf : len fresh = n) by (apply len_fresh, Hn).
  assert (Hfin : length (heap w) ∉ blist self).
  { intros Hin. rewrite Forall_forall in Hbound. apply Hbound in Hin. lia. }
  rewrite Hl in Hold, Hfin. apply Forall_app in Hold as [Hold_init Hold_last].
  apply not_elem_of_app in Hfin as [Hfin_init Hfin_last].
  pose proof (Forall_inv Hold_last) as Hlast_eq. cbn beta in Hlast_eq.
  rewrite Hl, removelast_snoc, last_snoc.
  assert (Hbd : block_data w1 init = block_data w init) by (apply block_data_ext, Hold_init).
  assert (Hsplit : len data = len (block_data w init) + out_pos out).
  { rewrite Hdata. unfold buffer_contents. rewrite Hl, removelast_snoc, len_app.
    f_equal. unfold len. rewrite length_take. unfold len in Hsize. lia. }
  rewrite finish_copy_spec; try assumption.
  - unfold memmove. mred.
    set (w2 := memwrite (length (heap w)) 0 (block_data w1 init) w1).
    assert (Hw2 : memread w2 (out_dst out) = memread w (out_dst out)).
    { subst w2. rewrite memread_memwrite_ne; [exact Hlast_eq|].
      intros E. apply Hfin_last. rewrite E. apply list_elem_of_singleton. reflexivity. }
    rewrite Hw2, Hbd.
    match goal with
    | |- exists w', Some (Ok (memread ?X ?f), ?X) = _ /\ _ =>
        assert (Hres : memread X f = data); [|exists X; rewrite Hres; repeat split]
    end.
    subst w2. rewrite Hbd.
    rewrite (memwrite_memwrite w1 (length (heap w)) 0 (block_data w init));
      [| lia | subst w1; cbn [heap]; rewrite length_app; simpl; lia
       | rewrite Hfresh, Hlf; lia ].
    rewrite memread_memwrite_eq
      by (subst w1; cbn [heap]; rewrite length_app; simpl; lia).
    rewrite Hfresh. change (Z.to_nat 0) with 0%nat.
    unfold write_at. rewrite take_0. cbn [app].
    rewrite drop_ge.
    + rewrite app_nil_r, Hdata. unfold buffer_contents.
      rewrite Hl, removelast_snoc. reflexivity.
    + fold (buffer_contents w self out) in *.
      unfold len in *. rewrite length_app in *.
      rewrite length_take. lia.
  - lia.
  - subst w1. cbn [heap]. rewrite length_app. simpl. lia.
  - rewrite Hfresh, Hlf, Hbd. lia.
Qed.

(** [finish] on a failed allocation of the result. *)
Lemma finish_oom_spec w self out :
  finish_fast self out = false ->
  alloc_fails (allocs w) = true ->
  exists w', finish self out w = Some (Raise MemoryError, w').
Proof.
  intros Hfast Hoom. unfold finish. fold (finish_fast self out). rewrite Hfast.
  unfold _new_nonzero. mred. rewrite Hoom. mred. eexists. reflexivity.
Qed.

(** Whenever [finish] returns, it returns the data written. *)
Lemma finish_returns_data w self out data b w' :
  buffer_inv w self out data ->
  finish self out w = Some (Ok b, w') ->
  b = data.
Proof.
  intros Hinv Hf. destruct (finish_fast self out) eqn:Hfast.
  - destruct (finish_fast_spec _ _ _ _ Hinv Hfast) as (b0 & _ & Hd & Hf').
    rewrite Hf' in Hf. injection Hf as <- _. exact Hd.
  - destruct (alloc_fails (allocs w)) eqn:Ha.
    + destruct (finish_oom_spec _ _ _ Hfast Ha) as (w1 & Hf').
      rewrite Hf' in Hf. discriminate Hf.
    + destruct (finish_slow_spec _ _ _ _ Hinv Hfast Ha) as (w1 & Hf' & _).
      rewrite Hf' in Hf. injection Hf as <- _. reflexivity.
Qed.

(** C3. After any run of block allocations and writes, with [data] the
    bytes written, in order: [data] is every block before the last, whole,
    followed by the first [out.pos] bytes of the last block; its length is
    [allocated - (out.size - out.pos)]; and [finish] returns [data]. When
    the list has one block and it is full, or two blocks and the second is
    empty, [finish] returns the first block whole and leaves the world as it
    was (no result buffer is allocated, nothing is copied). Otherwise it
    allocates the result and copies; it raises [MemoryError] exactly when
    that allocation fails. *)
Theorem C3_finish_concatenates_blocks w self out data :
  buffer_run w self out data ->
  last (blist self) = Some (out_dst out)
  /\ data = block_data w (removelast (blist self))
            ++ take (Z.to_nat (out_pos out)) (memread w (out_dst out))
  /\ len data = allocated self - (out_size out - out_pos out)
  /\ (if ((length (blist self) =? 1)%nat && (out_pos out =? out_size out))
         || ((length (blist self) =? 2)%nat && (out_pos out =? 0))
      then exists block0, blist self !! 0%nat = Some block0
             /\ memread w block0 = data
             /\ finish self out w = Some (Ok (memread w block0), w)
      else if alloc_fails (allocs w)
      then exists w', finish self out w = Some (Raise MemoryError, w')
      else exists w', finish self out w = Some (Ok data, w')).
Proof.
  intros Hrun. apply buffer_run_inv in Hrun as Hinv.
  split; [|split; [|split]].
  - destruct (inv_last _ _ _ _ Hinv) as (init & Hl & _).
    rewrite Hl. apply last_snoc.
  - exact (inv_data _ _ _ _ Hinv).
  - eapply len_buffer_contents, Hinv.
  - fold (finish_fast self out).
    destruct (finish_fast self out) eqn:Hfast.
    + eapply finish_fast_spec; eassumption.
    + destruct (alloc_fails (allocs w)) eqn:Ha.
      * apply finish_oom_spec; assumption.
      * destruct (finish_slow_spec _ _ _ _ Hinv Hfast Ha) as (w' & Hf & _).
        exists w'. exact Hf.
Qed.

End BufferProofs.

(** C3 on a three-byte block holding two written bytes. *)
Lemma C3_finish_concatenates_blocks_witness :
  exists w',
    @finish plain_ffi
      {| blist := [0%nat]; allocated := 3; max_length := 3 |}
      {| out_dst := 0; out_size := 3; out_pos := 2 |}
      {| heap := [["001"; "002"; "000"]%byte]; allocs := 1; log := [] |}
    = Some (Ok ["001"; "002"]%byte, w').
Proof.
  assert (Hrun : @buffer_run plain_ffi
            {| heap := [["001"; "002"; "000"]%byte]; allocs := 1; log := [] |}
            {| blist := [0%nat]; allocated := 3; max_length := 3 |}
            {| out_dst := 0; out_size := 3; out_pos := 2 |}
            ([] ++ ["001"; "002"]%byte)).
  { eapply (@run_write plain_ffi _ _ {| out_dst := 0; out_size := 3; out_pos := 0 |}).
    - eapply (@run_initAndGrow plain_ffi 3 World0). reflexivity.
    - vm_compute. discriminate.
    - reflexivity. }
  destruct (@C3_finish_concatenates_blocks plain_ffi _ _ _ _ Hrun)
    as (_ & _ & _ & Hf).
  exact Hf.
Defined.

(** ** The dictionary object and the parameter translator *)

Section ParameterProofs.
Context {ffi : Ffi} {m : ZstdLib}.

(** C4. For every bytes-like [dict_content], [ZstdDict(dict_content,
    is_raw)] raises the size error when [len(dict_content) < 8], the
    not-a-dictionary error when [len(dict_content)] is at least 8, [is_raw]
    is false and the extracted identifier is 0, and in no other case; when
    it does not raise, [dict_id] is the extracted identifier, which is 0
    only in raw mode, and the content kept is [bytes(dict_content)]. The
    identifier is extracted from the first [len(dict_content)] bytes of the
    object's memory; [len] counts items, so that it is the number of bytes
    when the items are single bytes. *)
Theorem C4_ZstdDict_validity (content : bytes_like) (is_raw : bool) :
  let extracted :=
    ZDICT_getDictID (take (Z.to_nat (py_len content)) (py_bytes content)) in
  match ZstdDict__init__ content is_raw with
  | Raise e =>
      (py_len content < 8 /\ e = ValueError VE_dict_too_short)
      \/ (8 <= py_len content /\ is_raw = false /\ extracted = 0
          /\ e = ValueError VE_dict_not_valid)
  | Ok d =>
      ~ (py_len content < 8 \/ (is_raw = false /\ extracted = 0))
      /\ dict_id d = extracted
      /\ dict_content d = py_bytes content
      /\ (dict_id d = 0 -> is_raw = true)
  end.
Proof.
  intros extracted. unfold ZstdDict__init__. fold extracted.
  destruct (Z.ltb_spec (py_len content) 8) as [Hlen|Hlen].
  - left. split; [exact Hlen | reflexivity].
  - destruct is_raw; cbn [negb andb].
    + cbn [dict_id dict_content]. repeat split; try reflexivity.
      intros [H|[H _]]; [lia | discriminate].
    + destruct (Z.eqb_spec extracted 0) as [Hid|Hid].
      * right. repeat split; assumption.
      * cbn [dict_id dict_content]. repeat split; try reflexivity.
        -- intros [H|[_ H]]; [lia | contradiction].
        -- intros H. contradiction.
Qed.

Lemma int32_test (v : Z) :
  (-2147483648 <=? v) && (v <=? 2147483647) = true <-> is_int32 v.
Proof. unfold is_int32. rewrite andb_true_iff, !Z.leb_le. reflexivity. Qed.

Lemma c_applied_cons (c : ZSTD_CCtx) (kv : Z * Z) (items : list (Z * Z)) :
  c_applied c (kv :: items)
  = c_applied (fst (ZSTD_CCtx_setParameter c (fst kv) (c_value (fst kv) (snd kv)))) items.
Proof. reflexivity. Qed.

(** A run of the items loop: the calls it makes, the context it leaves,
    when it returns and what each exception says. *)
Lemma _set_c_parameters_items_outcome (items : list (Z * Z)) :
  _SUPPORT_MULTITHREAD = true ->
  ZSTD_c_nbWorkers <> ZSTD_c_compressionLevel ->
  forall (posi level : Z) (mt : bool) (c : ZSTD_CCtx) (w : World),
  exists (n : nat) r c' w',
    _set_c_parameters_items posi items level mt (c, w) = Some (r, (c', w'))
    /\ (n <= length items)%nat
    /\ log w' = rev (map c_call (take n items)) ++ log w
    /\ c' = c_applied c (take n items)
    /\ ((exists lm, r = Ok lm) <->
        forall (i : nat) kv, items !! i = Some kv ->
          is_int32 (fst kv) /\ is_int32 (snd kv)
          /\ c_accepts (c_applied c (take i items)) kv = true)
    /\ match r with
       | Ok (level', mt') =>
           n = length items
           /\ (mt' = true <->
               mt = true \/ exists value, (ZSTD_c_nbWorkers, value) ∈ items /\ 1 < value)
       | Raise (ZstdError (ZE_parameter true pos key value)) =>
           (1 <= n)%nat /\ pos = posi + Z.of_nat n - 1
           /\ exists k v,
                items !! (n - 1)%nat = Some (k, v) /\ key = k /\ value = c_value k v
                /\ c_accepts (c_applied c (take (n - 1) items)) (k, v) = false
       | Raise (ValueError VE_int32_key) =>
           exists k v, items !! n = Some (k, v) /\ ~ is_int32 k
       | Raise (ValueError VE_int32_value) =>
           exists k v, items !! n = Some (k, v) /\ is_int32 k /\ ~ is_int32 v
       | Raise _ => False
       end.
Proof.
  intros Hmt Hne. induction items as [|[key value] items IH]; intros posi level mt c w.
  - exists 0%nat, (Ok (level, mt)), c, w. cbn [_set_c_parameters_items]. mred.
    split; [reflexivity|]. split; [simpl; lia|]. split; [reflexivity|].
    split; [reflexivity|]. split.
    + split; [intros _ i kv H; rewrite lookup_nil in H; discriminate H|].
      intros _. eexists. reflexivity.
    + split; [reflexivity|]. split.
      * intros H. left. exact H.
      * intros [H|(v & Hin & _)]; [exact H|].
        apply elem_of_nil in Hin. contradiction.
  - cbn [_set_c_parameters_items]. unfold _check_int32_value. mred.
    destruct ((-2147483648 <=? key) && (key <=? 2147483647)) eqn:Ek; mred.
    2:{ assert (Hk : ~ is_int32 key).
        { intros H. apply int32_test in H. congruence. }
        exists 0%nat, (Raise (ValueError VE_int32_key)), c, w.
        split; [reflexivity|]. split; [simpl; lia|]. split; [reflexivity|].
        split; [reflexivity|]. split.
        - split; [intros (lm & H); discriminate H|].
          intros H. destruct (H 0%nat (key, value) eq_refl) as (H1 & _). contradiction.
        - exists key, value. split; [reflexivity | exact Hk]. }
    apply int32_test in Ek.
    destruct ((-2147483648 <=? value) && (value <=? 2147483647)) eqn:Ev; mred.
    2:{ assert (Hv : ~ is_int32 value).
        { intros H. apply int32_test in H. congruence. }
        exists 0%nat, (Raise (ValueError VE_int32_value)), c, w.
        split; [reflexivity|]. split; [simpl; lia|]. split; [reflexivity|].
        split; [reflexivity|]. split.
        - split; [intros (lm & H); discriminate H|].
          intros H. destruct (H 0%nat (key, value) eq_refl) as (_ & H1 & _). contradiction.
        - exists key, value. split; [reflexivity|]. split; [exact Ek | exact Hv]. }
    apply int32_test in Ev.
    rewrite Hmt. cbn [negb andb].
    (* the value applied, the level and the flag after the if/elif *)
    set (t := if key =? ZSTD_c_compressionLevel
              then (clamp_compression_level value, clamp_compression_level value, mt)
              else if key =? ZSTD_c_nbWorkers
              then (if value >? 1 then (value, level, true)
                    else if value =? 1 then (0, level, mt) else (value, level, mt))
              else (value, level, mt)).
    assert (Ht : fst (fst t) = c_value key value
                 /\ (snd t = true <-> mt = true \/ (key = ZSTD_c_nbWorkers /\ 1 < value))).
    { subst t. unfold c_value.
      destruct (Z.eqb_spec key ZSTD_c_compressionLevel) as [Hk|Hk];
        [|destruct (Z.eqb_spec key ZSTD_c_nbWorkers) as [Hw|Hw];
          [destruct (Z.gtb_spec value 1) as [Hv|Hv];
           [|destruct (Z.eqb_spec value 1) as [Hv1|Hv1]]|]];
        cbn [fst snd]; intuition (try lia; try congruence). }
    destruct t as [[value' level'] mt'] eqn:Et. cbn [fst snd] in Ht.
    destruct Ht as (Hval & Hflag). subst value'.
    unfold CCtx_setParameter, liftW. mred. cbn [fst snd].
    destruct (ZSTD_CCtx_setParameter c key (c_value key value)) as [c1 zstd_ret] eqn:Eset.
    cbn [fst snd].
    set (w1 := {| heap := heap w; allocs := allocs w;
                  log := E_CCtx_setParameter key (c_value key value) :: log w |}).
    assert (Hc1 : c_applied c [(key, value)] = c1).
    { unfold c_applied. cbn [fold_left fst snd]. rewrite Eset. reflexivity. }
    destruct (ZSTD_isError zstd_ret) eqn:Eerr.
    + unfold _set_parameter_error. mred.
      assert (Hrej : c_accepts c (key, value) = false).
      { unfold c_accepts. cbn [fst snd]. rewrite Eset. cbn [snd]. rewrite Eerr.
        reflexivity. }
      exists 1%nat, (Raise (ZstdError (ZE_parameter true posi key (c_value key value)))),
             c1, w1.
      split; [reflexivity|]. split; [simpl; lia|]. split; [reflexivity|].
      split; [cbn [take]; symmetry; exact Hc1|]. split.
      * split; [intros (lm & H); discriminate H|].
        intros H. destruct (H 0%nat (key, value) eq_refl) as (_ & _ & H1).
        cbn [take] in H1. unfold c_applied in H1. cbn [fold_left] in H1. congruence.
      * split; [lia|]. split; [lia|]. exists key, value.
        split; [reflexivity|]. split; [reflexivity|]. split; [reflexivity|].
        cbn [take]. exact Hrej.
    + assert (Hacc : c_accepts c (key, value) = true).
      { unfold c_accepts. cbn [fst snd]. rewrite Eset. cbn [snd]. rewrite Eerr.
        reflexivity. }
      assert (Hstep : forall l, c_applied c ((key, value) :: l) = c_applied c1 l).
      { intros l. rewrite c_applied_cons. cbn [fst snd]. rewrite Eset. reflexivity. }
      destruct (IH (posi + 1) level' mt' c1 w1)
        as (n & r & c' & w' & Hrun & Hlen & Hlog & Hctx & Hiff & Hres).
      exists (S n), r, c', w'.
      split; [exact Hrun|]. split; [simpl; lia|]. split; [|split; [|split]].
      * rewrite Hlog. subst w1. cbn [log take map rev]. rewrite <- app_assoc.
        reflexivity.
      * cbn [take]. rewrite Hstep. exact Hctx.
      * rewrite Hiff. split.
        -- intros H [|i] kv Hi.
           ++ cbn in Hi. injection Hi as <-. cbn [fst snd take].
              split; [exact Ek|]. split; [exact Ev | exact Hacc].
           ++ cbn in Hi. cbn [take]. rewrite Hstep. exact (H i kv Hi).
        -- intros H i kv Hi. specialize (H (S i) kv Hi). cbn [take] in H.
           rewrite Hstep in H. exact H.
      * destruct r as [[lv um]|e].
        -- destruct Hres as (Hl & Hum). split; [simpl; lia|].
           rewrite Hum, Hflag. split.
           ++ intros [[H|[Hk Hv]]|(v & Hin & Hv)].
              ** left. exact H.
              ** right. exists value. split; [|exact Hv]. rewrite Hk.
                 apply list_elem_of_here.
              ** right. exists v. split; [|exact Hv]. apply list_elem_of_further, Hin.
           ++ intros [H|(v & Hin & Hv)].
              ** left. left. exact H.
              ** apply elem_of_cons in Hin as [Heq|Hin].
                 --- injection Heq as <- <-. left. right. split; [reflexivity | exact Hv].
                 --- right. exists v. split; assumption.
        -- destruct e as [| | | | |ve|ze]; try contradiction.
           ++ destruct ve; try contradiction.
              ** destruct Hres as (k & v & Hi & Hn). exists k, v.
                 split; [exact Hi | exact Hn].
              ** destruct Hres as (k & v & Hi & Hn). exists k, v.
                 split; [exact Hi | exact Hn].
           ++ destruct ze as [|[|] pos k0 v0| | | | | |]; try contradiction.
              destruct Hres as (Hn1 & Hp & k & v & Hi & Hk & Hv & Hrej).
              split; [lia|]. split; [lia|]. exists k, v.
              replace (S n - 1)%nat with (S (n - 1)) by lia.
              cbn [take]. rewrite Hstep.
              split; [exact Hi|]. split; [exact Hk|]. split; [exact Hv | exact Hrej].
Qed.

(** C5. With parameters given as a mapping on a build that supports
    multi-threading, [_set_c_parameters] ends, and: the library sees one
    setParameter call per entry, in order, each on the context the call
    before left, up to the first entry that cannot be applied; for a
    worker-count entry the value passed is 0 when the entry's value is 1
    and the entry's value otherwise. The call returns exactly when every
    key and value is a 32-bit signed integer and the library accepts every
    call; it then has made a call for every entry, and its flag is true
    exactly when some worker-count entry has a value greater than 1.
    Otherwise it raises: the parameter error, naming the 1-based position
    and the value passed, for the entry the library rejected, which was the
    last one handed over; or [ValueError] for the first entry whose key, or
    else value, is out of range, which was not handed over. *)
Theorem C5_nbWorkers_one_applied_as_zero (items : list (Z * Z)) (c : ZSTD_CCtx) (w : World) :
  _SUPPORT_MULTITHREAD = true ->
  ZSTD_c_nbWorkers <> ZSTD_c_compressionLevel ->
  c_value ZSTD_c_nbWorkers 1 = 0
  /\ (forall value, value <> 1 -> c_value ZSTD_c_nbWorkers value = value)
  /\ exists (n : nat) r c' w',
       _set_c_parameters (LO_dict items) (c, w) = Some (r, (c', w'))
       /\ (n <= length items)%nat
       /\ log w' = rev (map c_call (take n items)) ++ log w
       /\ c' = c_applied c (take n items)
       /\ ((exists lm, r = Ok lm) <->
           forall (i : nat) kv, items !! i = Some kv ->
             is_int32 (fst kv) /\ is_int32 (snd kv)
             /\ c_accepts (c_applied c (take i items)) kv = true)
       /\ match r with
          | Ok (level, use_multithread) =>
              n = length items
              /\ (use_multithread = true <->
                  exists value, (ZSTD_c_nbWorkers, value) ∈ items /\ 1 < value)
          | Raise (ZstdError (ZE_parameter true pos key value)) =>
              (1 <= n)%nat /\ pos = Z.of_nat n
              /\ exists k v,
                   items !! (n - 1)%nat = Some (k, v) /\ key = k /\ value = c_value k v
                   /\ c_accepts (c_applied c (take (n - 1) items)) (k, v) = false
          | Raise (ValueError VE_int32_key) =>
              exists k v, items !! n = Some (k, v) /\ ~ is_int32 k
          | Raise (ValueError VE_int32_value) =>
              exists k v, items !! n = Some (k, v) /\ is_int32 k /\ ~ is_int32 v
          | Raise _ => False
          end.
Proof.
  intros Hmt Hne.
  assert (Hk : (ZSTD_c_nbWorkers =? ZSTD_c_compressionLevel) = false)
    by (apply Z.eqb_neq; exact Hne).
  split.
  { unfold c_value. rewrite Hk, Z.eqb_refl. reflexivity. }
  split.
  { intros value Hv. unfold c_value. rewrite Hk, Z.eqb_refl.
    destruct (value >? 1); [reflexivity|].
    destruct (Z.eqb_spec value 1); [contradiction | reflexivity]. }
  destruct (_set_c_parameters_items_outcome items Hmt Hne 1 0 false c w)
    as (n & r & c' & w' & Hrun & Hlen & Hlog & Hctx & Hiff & Hres).
  exists n, r, c', w'. cbn [_set_c_parameters].
  split; [exact Hrun|]. split; [exact Hlen|]. split; [exact Hlog|].
  split; [exact Hctx|]. split; [exact Hiff|].
  destruct r as [[lv um]|e].
  - destruct Hres as (Hl & Hum). split; [exact Hl|]. rewrite Hum. split.
    + intros [H|H]; [discriminate | exact H].
    + intros H. right. exact H.
  - destruct e as [| | | | |ve|ze]; try contradiction; [exact Hres|].
    destruct ze as [|[|] pos k0 v0| | | | | |]; try contradiction.
    destruct Hres as (Hn1 & Hp & Hrest). split; [exact Hn1|]. split; [lia | exact Hrest].
Qed.

End ParameterProofs.

(** ** Error paths of the compressor and the decompressor *)

Section ErrorPaths.
Context {ffi : Ffi} {m : ZstdLib}.

(** What [try: body / except: handler; raise] leaves, for a handler that
    cannot fail. *)
Lemma try_except_reraise_inv {S A : Type} (body : M S A) (handler : M S unit)
  (h : S -> S) (s : S) (r : result A) (s' : S) :
  (forall s1, handler s1 = Some (Ok tt, h s1)) ->
  try_except_reraise body handler s = Some (r, s') ->
  match r with
  | Ok a => body s = Some (Ok a, s')
  | Raise e => exists s1, body s = Some (Raise e, s1) /\ s' = h s1
  end.
Proof.
  intros Hh. unfold try_except_reraise.
  destruct (body s) as [[[a|e] s1]|]; [| |discriminate].
  - intros H. injection H as <- <-. reflexivity.
  - rewrite Hh. intros H. injection H as <- <-. exists s1. split; reflexivity.
Qed.

(** [r = body; self.x = v; return r] leaves [self.x = v] when it returns. *)
Lemma bind_modify_ret_inv {S A : Type} (c : M S A) (f : S -> S) (s : S) (a : A) (s' : S) :
  (r <- c ;; modify f ;;; ret r) s = Some (Ok a, s') ->
  exists s1, c s = Some (Ok a, s1) /\ s' = f s1.
Proof.
  mred. destruct (c s) as [[[a1|e] s1]|]; try discriminate.
  intros H. injection H as <- <-. exists s1. split; reflexivity.
Qed.

Lemma compress_except_run (s : ZstdCompressor * World) :
  (modify (fun s => (set_last_mode ZSTD_e_end (fst s), snd s)) ;;;
   on_cctx CCtx_reset) s = Some (Ok tt, compress_except s).
Proof. destruct s as [self w]. reflexivity. Qed.

Lemma compress_outcome_of_try (body : M (ZstdCompressor * World) bytes) (mode : Z)
  (s : ZstdCompressor * World) r self' w' :
  try_except_reraise
    (r <- body ;; modify (fun s => (set_last_mode mode (fst s), snd s)) ;;; ret r)
    (modify (fun s => (set_last_mode ZSTD_e_end (fst s), snd s)) ;;;
     on_cctx CCtx_reset) s = Some (r, (self', w')) ->
  compress_outcome mode r self' w'.
Proof.
  intros H. apply (try_except_reraise_inv _ _ compress_except) in H;
    [|apply compress_except_run].
  destruct r as [a|e]; cbn [compress_outcome].
  - apply bind_modify_ret_inv in H as (s1 & _ & Hs). injection Hs as -> _. reflexivity.
  - destruct H as ([self1 w1] & _ & Hs). injection Hs as -> ->.
    split; [reflexivity|]. exists (_cctx (set_last_mode ZSTD_e_end self1)), w1.
    split; reflexivity.
Qed.

(** C6, as the code has it. [compress] and [flush] check their [mode]
    argument first: a wrong value raises [ValueError] and leaves the
    instance and the library untouched. Past that check, a call that raises
    leaves [last_mode = FLUSH_FRAME] and its last call into the library is
    the session reset; a call that returns leaves [last_mode = mode]. *)
Theorem C6_compress_flush_outcome (fuel : nat) (data : bytes) (mode : Z)
  (self : ZstdCompressor) (w : World) :
  (if (mode =? CONTINUE) || (mode =? FLUSH_BLOCK) || (mode =? FLUSH_FRAME)
   then forall r self' w',
          ZstdCompressor_compress fuel data mode (self, w) = Some (r, (self', w')) ->
          compress_outcome mode r self' w'
   else ZstdCompressor_compress fuel data mode (self, w)
        = Some (Raise (ValueError VE_mode), (self, w)))
  /\
  (if (mode =? FLUSH_BLOCK) || (mode =? FLUSH_FRAME)
   then forall r self' w',
          ZstdCompressor_flush fuel mode (self, w) = Some (r, (self', w')) ->
          compress_outcome mode r self' w'
   else ZstdCompressor_flush fuel mode (self, w)
        = Some (Raise (ValueError VE_mode), (self, w))).
Proof.
  split.
  - unfold ZstdCompressor_compress.
    destruct ((mode =? CONTINUE) || (mode =? FLUSH_BLOCK) || (mode =? FLUSH_FRAME));
      cbn [negb]; [|reflexivity].
    intros r self' w' H.
    eapply (compress_outcome_of_try
              (fun s => (if _use_multithreaded (fst s) && (mode =? CONTINUE)
                         then on_cctx (_compress_mt_continue_impl fuel data)
                         else on_cctx (_compress_impl fuel data mode false)) s)).
    exact H.
  - unfold ZstdCompressor_flush.
    destruct ((mode =? FLUSH_BLOCK) || (mode =? FLUSH_FRAME)); cbn [negb]; [|reflexivity].
    intros r self' w' H.
    eapply compress_outcome_of_try. exact H.
Qed.

End ErrorPaths.

(** ** Relations kept by every run *)

Section Preservation.
Context {S : Type} (R : S -> S -> Prop).
Hypothesis R_refl : forall s, R s s.
Hypothesis R_trans : forall s1 s2 s3, R s1 s2 -> R s2 s3 -> R s1 s3.

Lemma preserves_ret {A : Type} (a : A) : preserves R (ret a).
Proof using R_refl. intros s r s' H. injection H as _ <-. apply R_refl. Qed.

Lemma preserves_raise {A : Type} (e : exn) : preserves R (@raise S A e).
Proof using R_refl. intros s r s' H. injection H as _ <-. apply R_refl. Qed.

Lemma preserves_get : preserves R (@get S).
Proof using R_refl. intros s r s' H. injection H as _ <-. apply R_refl. Qed.

Lemma preserves_assert (b : bool) : preserves R (@assert S b).
Proof using R_refl.
  destruct b; [apply preserves_ret | apply preserves_raise].
Qed.

Lemma preserves_stuck {A : Type} : preserves R (fun _ : S => @None (result A * S)).
Proof. intros s r s' H. discriminate H. Qed.

Lemma preserves_modify (f : S -> S) : (forall s, R s (f s)) -> preserves R (modify f).
Proof. intros Hf s r s' H. injection H as _ <-. apply Hf. Qed.

Lemma preserves_bind {A B : Type} (c : M S A) (k : A -> M S B) :
  preserves R c -> (forall a, preserves R (k a)) -> preserves R (bind c k).
Proof using R_trans.
  intros Hc Hk s r s'. unfold bind.
  destruct (c s) as [[[a|e] s1]|] eqn:E; [| |discriminate].
  - intros H. eapply R_trans; [eapply Hc, E | eapply Hk, H].
  - intros H. injection H as _ <-. eapply Hc, E.
Qed.

Lemma preserves_try_except_reraise {A : Type} (body : M S A) (handler : M S unit) :
  preserves R body -> preserves R handler ->
  preserves R (try_except_reraise body handler).
Proof using R_trans.
  intros Hb Hh s r s'. unfold try_except_reraise.
  destruct (body s) as [[[a|e] s1]|] eqn:E; [| |discriminate].
  - intros H. injection H as _ <-. eapply Hb, E.
  - destruct (handler s1) as [[[[]|e'] s2]|] eqn:E2; [| |discriminate];
      intros H; injection H as _ <-;
      (eapply R_trans; [eapply Hb, E | eapply Hh, E2]).
Qed.

End Preservation.

Lemma preserves_zoom {S T A : Type} (R : S -> S -> Prop) (Q : T -> T -> Prop)
  (proj : S -> T) (inj : T -> S -> S) (c : M T A) :
  preserves Q c ->
  (forall s t', Q (proj s) t' -> R s (inj t' s)) ->
  preserves R (zoom proj inj c).
Proof.
  intros Hc Hinj s r s'. unfold zoom.
  destruct (c (proj s)) as [[r1 t']|] eqn:E; [|discriminate].
  intros H. injection H as _ <-. apply Hinj. eapply Hc, E.
Qed.

(** Steps of a proof that a method keeps a relation: one rule per
    construct of the monad. *)
Ltac preserves_step Rrefl Rtrans :=
  lazymatch goal with
  | |- preserves _ (bind _ _) => apply (preserves_bind _ Rtrans); [|intros ?]
  | |- preserves _ (ret _) => apply (preserves_ret _ Rrefl)
  | |- preserves _ (raise _) => apply (preserves_raise _ Rrefl)
  | |- preserves _ get => apply (preserves_get _ Rrefl)
  | |- preserves _ (assert _) => apply (preserves_assert _ Rrefl)
  | |- preserves _ (_set_zstd_error _ _) =>
      unfold _set_zstd_error
  | |- preserves _ (_set_parameter_error _ _ _ _) =>
      unfold _set_parameter_error
  | |- preserves _ (_check_int32_value _ _) =>
      unfold _check_int32_value
  | |- preserves _ (fun _ => None) => apply preserves_stuck
  | |- preserves _ (if ?b then _ else _) => destruct b
  | |- preserves _ (match ?x with Some _ => _ | None => _ end) => destruct x
  | |- preserves _ (match ?x with pair _ _ => _ end) => destruct x
  | |- preserves _ (let _ := _ in _) => cbv zeta
  end.

Section DecompressorErrors.
Context {ffi : Ffi} {m : ZstdLib}.

Lemma same_type_refl (s : _Decompressor * World) : same_type s s.
Proof. reflexivity. Qed.

Lemma same_type_trans (s1 s2 s3 : _Decompressor * World) :
  same_type s1 s2 -> same_type s2 s3 -> same_type s1 s3.
Proof. unfold same_type. congruence. Qed.

Lemma same_type_liftW {A : Type} (c : M World A) : preserves same_type (liftW c).
Proof.
  intros s r s'. unfold liftW, zoom. destruct (c (snd s)) as [[r1 w1]|]; [|discriminate].
  intros H. injection H as _ <-. reflexivity.
Qed.

Lemma same_type_on_dctx {A : Type} (c : M (ZSTD_DCtx * World) A) :
  preserves same_type (on_dctx c).
Proof.
  intros s r s'. unfold on_dctx, zoom.
  destruct (c (_dctx (fst s), snd s)) as [[r1 t1]|]; [|discriminate].
  intros H. injection H as _ <-. reflexivity.
Qed.

Lemma same_type_setattr (f : _Decompressor -> _Decompressor) :
  (forall self, _type (f self) = _type self) -> preserves same_type (setattr f).
Proof. intros Hf. apply preserves_modify. intros s. apply Hf. Qed.

Ltac same_type_tac :=
  repeat first
    [ apply same_type_liftW
    | apply same_type_on_dctx
    | apply same_type_setattr; intros ?; reflexivity
    | preserves_step same_type_refl same_type_trans ].

Lemma same_type_decompress_impl_loop (fuel : nat) :
  forall out out_buf in_buf,
    preserves same_type (_decompress_impl_loop fuel out out_buf in_buf).
Proof.
  induction fuel as [|fuel IH]; intros out out_buf in_buf; cbn [_decompress_impl_loop].
  - apply preserves_stuck.
  - same_type_tac; apply IH.
Qed.

Lemma same_type_decompress_impl fuel in_buf max_length decompressed_size :
  preserves same_type (_decompress_impl fuel in_buf max_length decompressed_size).
Proof.
  unfold _decompress_impl. same_type_tac; apply same_type_decompress_impl_loop.
Qed.

Lemma same_type_prepare data max_length :
  preserves same_type (_stream_decompress_prepare data max_length).
Proof. unfold _stream_decompress_prepare. same_type_tac. Qed.

Lemma same_type_finish use_input_buffer in_buf ret_ max_length :
  preserves same_type (_stream_decompress_finish use_input_buffer in_buf ret_ max_length).
Proof. unfold _stream_decompress_finish. same_type_tac. Qed.

Lemma same_type_try fuel data max_length :
  preserves same_type (_stream_decompress_try fuel data max_length).
Proof.
  unfold _stream_decompress_try. same_type_tac.
  - apply same_type_prepare.
  - apply same_type_decompress_impl.
  - apply same_type_finish.
Qed.

Lemma decompress_except_run (s : _Decompressor * World) :
  _stream_decompress_except s = Some (Ok tt, decompress_except s).
Proof.
  destruct s as [self w]. unfold _stream_decompress_except, decompress_except.
  destruct self as [ty ? ? ? ? ? ? ? ? ? ?]. destruct ty; reflexivity.
Qed.

(** C8. A [decompress] call that raises, on either kind of decompressor,
    leaves the carry-over window empty ([in_begin = in_end = 0]),
    [needs_input] true, [eof] false on a single-frame decompressor and
    [at_frame_edge] true on an endless one, and its last call into the
    library is the session reset, made on the context as the failure left
    it. The kind of the decompressor is the one it had. *)
Theorem C8_decompress_error_resets (fuel : nat) (data : bytes) (max_length : Z)
  (self : _Decompressor) (w : World) (e : exn) (self' : _Decompressor) (w' : World) :
  _stream_decompress fuel data max_length (self, w) = Some (Raise e, (self', w')) ->
  _in_begin self' = 0 /\ _in_end self' = 0
  /\ _needs_input self' = true
  /\ _type self' = _type self
  /\ match _type self with
     | DECOMPRESSOR => _eof self' = false
     | ENDLESS_DECOMPRESSOR => _at_frame_edge self' = true
     end
  /\ exists self1 w1,
       _stream_decompress_try fuel data max_length (self, w) = Some (Raise e, (self1, w1))
       /\ _dctx self' = ZSTD_DCtx_reset (_dctx self1)
       /\ w' = {| heap := heap w1; allocs := allocs w1; log := E_DCtx_reset :: log w1 |}.
Proof.
  intros H. unfold _stream_decompress in H.
  apply (try_except_reraise_inv _ _ decompress_except) in H;
    [|apply decompress_except_run].
  destruct H as ([self1 w1] & Hbody & Hs).
  pose proof (same_type_try _ _ _ _ _ _ Hbody) as Hty. unfold same_type in Hty.
  cbn [fst] in Hty. rewrite <- Hty.
  unfold decompress_except in Hs. cbn [fst snd] in Hs.
  injection Hs as -> ->.
  destruct self1 as [ty ? ? ? ? ? ? ? ? ? ?]. destruct ty; cbn.
  - repeat split. eexists _, _. split; [exact Hbody|]. split; reflexivity.
  - repeat split. eexists _, _. split; [exact Hbody|]. split; reflexivity.
Qed.

End DecompressorErrors.

Section FrameEdge.
Context {ffi : Ffi} {m : ZstdLib}.

(** C10. On an endless decompressor at a frame edge with an empty
    carry-over window, [decompress(b'')] returns [b''] for any
    [max_length], whatever the fuel; the library is not called for a
    decompression step (the log is as it was); [needs_input] is true
    afterwards and no other attribute has changed, [at_frame_edge] among
    them. The one allocation request, for the input struct, is assumed to
    succeed. *)
Theorem C10_empty_input_at_frame_edge (fuel : nat) (max_length : Z)
  (self : _Decompressor) (w : World) :
  _type self = ENDLESS_DECOMPRESSOR ->
  _at_frame_edge self = true ->
  _in_begin self = _in_end self ->
  alloc_fails (allocs w) = false ->
  _stream_decompress fuel [] max_length (self, w)
  = Some (Ok [], (set_needs_input true self,
                  {| heap := heap w; allocs := S (allocs w); log := log w |}))
  /\ _at_frame_edge (set_needs_input true self) = true
  /\ _needs_input (set_needs_input true self) = true.
Proof.
  intros Hty Hafe Hwin Halloc.
  split; [|split; [exact Hafe | reflexivity]].
  destruct self as [ty ni ib ibs b e dc dd eof ud afe].
  cbn in Hty, Hafe, Hwin. subst ty afe b.
  unfold _stream_decompress, try_except_reraise, _stream_decompress_try,
    _stream_decompress_prepare, _decompress_impl, _stream_decompress_finish,
    liftW, zoom, _new_nonzero_struct, setattr, is_endless.
  mred.
  cbn [fst snd allocs heap log _type _eof _at_frame_edge _in_begin _in_end
       in_pos in_size negb andb].
  rewrite Halloc.
  destruct (max_length <? 0);
    repeat (cbn [fst snd allocs heap log _type _eof _at_frame_edge _in_begin _in_end
                 in_pos in_size negb andb len length Z.of_nat];
            rewrite ?Z.eqb_refl, ?andb_true_r, ?andb_false_r);
    reflexivity.
Qed.

End FrameEdge.

(** ** The stream pump on an input that is empty from the start *)

Section PumpProofs.
Context {ffi : Ffi} {m : ZstdLib} {io : Streams}.

Lemma logged_setup_refl (w : World) : logged_setup w w.
Proof. exists []. split; reflexivity. Qed.

Lemma logged_setup_trans (w1 w2 w3 : World) :
  logged_setup w1 w2 -> logged_setup w2 w3 -> logged_setup w1 w3.
Proof.
  intros (n1 & H1 & F1) (n2 & H2 & F2). exists (n2 ++ n1). split.
  - rewrite H2, H1. apply app_assoc.
  - rewrite forallb_app, F1, F2. reflexivity.
Qed.

Lemma logged_setup_emit (e : event) (w : World) :
  is_setup_event e = true ->
  logged_setup w {| heap := heap w; allocs := allocs w; log := e :: log w |}.
Proof. intros H. exists [e]. split; [reflexivity|]. simpl. rewrite H. reflexivity. Qed.

Lemma cctx_setup_refl (t : ZSTD_CCtx * World) : cctx_setup t t.
Proof. apply logged_setup_refl. Qed.

Lemma cctx_setup_trans (t1 t2 t3 : ZSTD_CCtx * World) :
  cctx_setup t1 t2 -> cctx_setup t2 t3 -> cctx_setup t1 t3.
Proof. apply logged_setup_trans. Qed.

Lemma cctx_setup_setParameter key value : preserves cctx_setup (CCtx_setParameter key value).
Proof.
  intros [c w] r s' H. unfold CCtx_setParameter, liftW in H. mred_in H.
  injection H as _ <-. apply logged_setup_emit. reflexivity.
Qed.

Lemma cctx_setup_refCDict cd : preserves cctx_setup (CCtx_refCDict cd).
Proof.
  intros [c w] r s' H. unfold CCtx_refCDict, liftW in H. mred_in H.
  injection H as _ <-. apply logged_setup_emit. reflexivity.
Qed.

Lemma cctx_setup_setPledgedSrcSize size :
  preserves cctx_setup (CCtx_setPledgedSrcSize size).
Proof.
  intros [c w] r s' H. unfold CCtx_setPledgedSrcSize, liftW in H. mred_in H.
  injection H as _ <-. apply logged_setup_emit. reflexivity.
Qed.

Lemma cctx_setup_warn : preserves cctx_setup (liftW (emit E_warn)).
Proof.
  intros [c w] r s' H. unfold liftW in H. mred_in H.
  injection H as _ <-. apply logged_setup_emit. reflexivity.
Qed.

Ltac cctx_setup_tac :=
  repeat first
    [ apply cctx_setup_setParameter
    | apply cctx_setup_refCDict
    | apply cctx_setup_setPledgedSrcSize
    | apply cctx_setup_warn
    | preserves_step cctx_setup_refl cctx_setup_trans ].

Lemma cctx_setup_items (items : list (Z * Z)) :
  forall posi level mt,
    preserves cctx_setup (_set_c_parameters_items posi items level mt).
Proof.
  induction items as [|[key value] items IH]; intros posi level mt;
    cbn [_set_c_parameters_items].
  - cctx_setup_tac.
  - cctx_setup_tac; apply IH.
Qed.

Lemma cctx_setup_set_c_parameters lo : preserves cctx_setup (_set_c_parameters lo).
Proof.
  destruct lo; cbn [_set_c_parameters]; cctx_setup_tac. apply cctx_setup_items.
Qed.

Lemma cctx_setup_load_c_dict zd level : preserves cctx_setup (_load_c_dict zd level).
Proof.
  unfold _load_c_dict, _get_cdict. cctx_setup_tac.
Qed.

Lemma pump_setup_refl (s : pump) : pump_setup s s.
Proof. repeat split. apply logged_setup_refl. Qed.

Lemma pump_setup_trans (s1 s2 s3 : pump) :
  pump_setup s1 s2 -> pump_setup s2 s3 -> pump_setup s1 s3.
Proof.
  intros (A1 & B1 & C1) (A2 & B2 & C2). split; [congruence|]. split; [congruence|].
  eapply logged_setup_trans; eassumption.
Qed.

Lemma pump_setup_pumpC {A : Type} (c : M (ZSTD_CCtx * World) A) :
  preserves cctx_setup c -> preserves pump_setup (pumpC c).
Proof.
  intros Hc. apply (preserves_zoom _ cctx_setup); [exact Hc|].
  intros s t' H. repeat split. exact H.
Qed.

Lemma pump_setup_struct : preserves pump_setup (pumpW _new_nonzero_struct).
Proof.
  intros s r s' H. unfold pumpW, zoom, _new_nonzero_struct in H.
  injection H as _ <-. repeat split. exists []. split; reflexivity.
Qed.

Lemma pump_setup_bytearray n : preserves pump_setup (pumpW (bytearray n)).
Proof.
  intros s r s' H. unfold pumpW, zoom, bytearray in H.
  injection H as _ <-. repeat split. exists []. split; reflexivity.
Qed.

Lemma pump_setup_setup lo zd pledged read_size write_size :
  preserves pump_setup (compress_stream_setup lo zd pledged read_size write_size).
Proof.
  unfold compress_stream_setup.
  repeat first
    [ apply pump_setup_struct
    | apply pump_setup_bytearray
    | apply pump_setup_pumpC;
      first [ apply cctx_setup_set_c_parameters
            | apply cctx_setup_load_c_dict
            | apply cctx_setup_setPledgedSrcSize ]
    | preserves_step pump_setup_refl pump_setup_trans ].
Qed.

(** The set-up of [compress_stream] has no loop: it ends. *)
Lemma items_total (items : list (Z * Z)) :
  forall posi level mt t, exists r t',
    _set_c_parameters_items posi items level mt t = Some (r, t').
Proof.
  induction items as [|[key value] items IH]; intros posi level mt [c w];
    cbn [_set_c_parameters_items].
  - eexists _, _. reflexivity.
  - unfold _check_int32_value, CCtx_setParameter, _set_parameter_error, liftW. mred.
    repeat match goal with
           | |- context [if ?b then _ else _] => destruct b; mred; cbn [fst snd]
           end;
      try (eexists _, _; reflexivity); apply IH.
Qed.

Lemma set_c_parameters_total lo t : exists r t', _set_c_parameters lo t = Some (r, t').
Proof.
  destruct lo as [level|items|]; cbn [_set_c_parameters].
  - destruct t as [c w].
    unfold _check_int32_value, CCtx_setParameter, _set_zstd_error, liftW. mred.
    repeat match goal with
           | |- context [if ?b then _ else _] => destruct b; mred; cbn [fst snd]
           end;
      eexists _, _; reflexivity.
  - apply items_total.
  - eexists _, _. reflexivity.
Qed.

Lemma load_c_dict_total zd level t : exists r t', _load_c_dict zd level t = Some (r, t').
Proof.
  destruct t as [c w].
  unfold _load_c_dict, _get_cdict, CCtx_refCDict, _set_zstd_error, liftW. mred.
  destruct (cdicts zd !! level); mred; cbn [fst snd].
  - repeat match goal with
           | |- context [if ?b then _ else _] => destruct b; mred; cbn [fst snd]
           end;
      eexists _, _; reflexivity.
  - destruct (ZSTD_createCDict (dict_content zd) level); mred; cbn [fst snd].
    + repeat match goal with
             | |- context [if ?b then _ else _] => destruct b; mred; cbn [fst snd]
             end;
        eexists _, _; reflexivity.
    + eexists _, _. reflexivity.
Qed.

Lemma pumpC_total {A : Type} (c : M (ZSTD_CCtx * World) A) (s : pump) :
  (forall t, exists r t', c t = Some (r, t')) ->
  exists r s', pumpC c s = Some (r, s').
Proof.
  intros Hc. unfold pumpC, zoom.
  destruct (Hc (p_cctx s, p_world s)) as (r & t' & ->). eexists _, _. reflexivity.
Qed.

(** The set-up ends; when it returns, the input block is [read_size]
    zero bytes. *)
Lemma setup_total lo zd pledged read_size write_size (s : pump) :
  exists r s',
    compress_stream_setup lo zd pledged read_size write_size s = Some (r, s')
    /\ forall su, r = Ok su -> snd (fst su) = repeat "000"%byte (Z.to_nat read_size).
Proof.
  unfold compress_stream_setup.
  assert (H1 : exists r s', match lo with
                            | Some lo => pumpC (_set_c_parameters lo)
                            | None => ret (0, false)
                            end s = Some (r, s')).
  { destruct lo; [|eexists _, _; reflexivity].
    apply pumpC_total. intros t. apply set_c_parameters_total. }
  destruct H1 as (r1 & s1 & E1). unfold bind at 1. rewrite E1.
  destruct r1 as [lu|e]; [|eexists _, _; split; [reflexivity | discriminate]].
  assert (H2 : exists r s', match zd with
                            | Some zd => pumpC (_load_c_dict zd (fst lu)) ;;; ret tt
                            | None => ret tt
                            end s1 = Some (r, s')).
  { destruct zd; [|eexists _, _; reflexivity].
    destruct (pumpC_total (_load_c_dict z (fst lu)) s1) as (r & s' & E);
      [intros t; apply load_c_dict_total|].
    unfold bind. rewrite E. destruct r; eexists _, _; reflexivity. }
  destruct H2 as (r2 & s2 & E2). unfold bind at 1. rewrite E2.
  destruct r2 as [[]|e]; [|eexists _, _; split; [reflexivity | discriminate]].
  assert (H3 : exists r s', match pledged with
                            | Some p =>
                                zstd_ret <- pumpC (CCtx_setPledgedSrcSize p) ;;
                                if ZSTD_isError zstd_ret
                                then _set_zstd_error ERR_COMPRESS zstd_ret
                                else ret tt
                            | None => ret tt
                            end s2 = Some (r, s')).
  { destruct pledged; [|eexists _, _; reflexivity].
    unfold pumpC, zoom, CCtx_setPledgedSrcSize, _set_zstd_error, liftW. mred.
    cbn [fst snd].
    repeat match goal with
           | |- context [if ?b then _ else _] => destruct b; mred; cbn [fst snd]
           end;
      eexists _, _; reflexivity. }
  destruct H3 as (r3 & s3 & E3). unfold bind at 1. rewrite E3.
  destruct r3 as [[]|e]; [|eexists _, _; split; [reflexivity | discriminate]].
  unfold pumpW, zoom, _new_nonzero_struct, bytearray. mred.
  cbn [p_world allocs heap log p_in p_out p_cctx].
  destruct (alloc_fails (allocs (p_world s3))); cbn [negb]; mred;
    cbn [p_world allocs heap log p_in p_out p_cctx];
    [eexists _, _; split; [reflexivity | discriminate]|].
  destruct (alloc_fails (S (allocs (p_world s3)))); cbn [negb]; mred;
    cbn [p_world allocs heap log p_in p_out p_cctx];
    [eexists _, _; split; [reflexivity | discriminate]|].
  eexists _, _. split; [reflexivity|].
  intros su H. injection H as <-. reflexivity.
Qed.

(** C9. When the input stream's first [readinto] returns 0,
    [compress_stream] ends (one unit of fuel is enough for the read loop),
    leaves the output stream as it was and calls the library only to set the
    context up and to free it: no compression step and no [write] is in the
    log. When its arguments pass the checks, the context is created and the
    set-up returns, it reads once and returns [(0, 0)]. It raises only
    before reading, without a call of [readinto]: [TypeError] without
    output stream and callback, [ValueError] for a size that is not
    positive or a pledged size out of range, the error of a context that
    cannot be created, or what the set-up raised. *)
Theorem C9_empty_input_no_frame (fuel : nat) (has_output has_callback : bool)
  (lo : option level_or_option_t) (zd : option ZstdDict) (pledged : option Z)
  (read_size write_size : Z)
  (input_stream : IStream) (output_stream : OStream) (w : World) :
  snd (fst (readinto input_stream (repeat "000"%byte (Z.to_nat read_size)))) = Some 0 ->
  exists r is' w' new,
    compress_stream (S fuel) has_output has_callback lo zd pledged read_size write_size
      (input_stream, output_stream, w) = Some (r, (is', output_stream, w'))
    /\ forallb is_setup_event new = true
    /\ match r with
       | Ok t =>
           t = (0, 0)
           /\ log w' = E_freeCCtx :: E_readinto :: new ++ log w
           /\ is' = fst (fst (readinto input_stream
                                (repeat "000"%byte (Z.to_nat read_size))))
       | Raise e =>
           is' = input_stream
           /\ ((has_output = false /\ has_callback = false /\ e = TypeError /\ w' = w)
               \/ ((read_size <= 0 \/ write_size <= 0)
                   /\ e = ValueError VE_read_write_size /\ w' = w)
               \/ ((exists p, pledged = Some p /\ ~ 0 <= p <= 2 ^ 64 - 1)
                   /\ e = ValueError VE_pledged_input_size /\ w' = w)
               \/ (ZSTD_createCCtx = None /\ e = ZstdError ZE_create_cctx
                   /\ log w' = E_freeCCtx :: log w)
               \/ (exists cctx s1,
                     ZSTD_createCCtx = Some cctx
                     /\ compress_stream_setup lo zd pledged read_size write_size
                          {| p_in := input_stream; p_out := output_stream;
                             p_cctx := cctx; p_world := w |} = Some (Raise e, s1)
                     /\ log w' = E_freeCCtx :: new ++ log w))
       end
    /\ ((has_output || has_callback) = true ->
        0 < read_size -> 0 < write_size ->
        (forall p, pledged = Some p -> 0 <= p <= 2 ^ 64 - 1) ->
        forall cctx su s1,
          ZSTD_createCCtx = Some cctx ->
          compress_stream_setup lo zd pledged read_size write_size
            {| p_in := input_stream; p_out := output_stream;
               p_cctx := cctx; p_world := w |} = Some (Ok su, s1) ->
          r = Ok (0, 0)).
Proof.
  intros Hread. unfold compress_stream. cbn [fst snd].
  destruct has_output, has_callback; cbn [negb andb orb].
  4:{ exists (Raise TypeError), input_stream, w, [].
      split; [reflexivity|]. split; [reflexivity|]. split.
      - split; [reflexivity|]. left. repeat split.
      - intros H. discriminate H. }
  all: destruct (Z.leb_spec read_size 0) as [Hrs|Hrs]; cbn [orb].
  all: try (exists (Raise (ValueError VE_read_write_size)), input_stream, w, [];
            split; [reflexivity|]; split; [reflexivity|]; split;
            [split; [reflexivity|]; right; left; split; [left; exact Hrs|];
             split; reflexivity
            |intros _ H; lia]).
  all: destruct (Z.leb_spec write_size 0) as [Hws|Hws].
  all: try (exists (Raise (ValueError VE_read_write_size)), input_stream, w, [];
            split; [reflexivity|]; split; [reflexivity|]; split;
            [split; [reflexivity|]; right; left; split; [right; exact Hws|];
             split; reflexivity
            |intros _ _ H; lia]).
  all: destruct (match pledged with
                 | Some p => negb ((0 <=? p) && (p <=? 2 ^ 64 - 1))
                 | None => false
                 end) eqn:Epl.
  all: try (destruct pledged as [p|]; [|discriminate Epl];
            apply negb_true_iff, andb_false_iff in Epl;
            assert (Hp : ~ 0 <= p <= 2 ^ 64 - 1)
              by (destruct Epl as [Epl|Epl];
                  [apply Z.leb_gt in Epl | apply Z.leb_gt in Epl]; lia);
            exists (Raise (ValueError VE_pledged_input_size)), input_stream, w, [];
            split; [reflexivity|]; split; [reflexivity|]; split;
            [split; [reflexivity|]; right; right; left;
             split; [exists p; split; [reflexivity | exact Hp]|]; split; reflexivity
            |intros _ _ _ H; specialize (H p eq_refl); contradiction]).
  all: destruct ZSTD_createCCtx as [cctx|].
  all: try (mred; exists (Raise (ZstdError ZE_create_cctx)), input_stream,
              {| heap := heap w; allocs := allocs w; log := E_freeCCtx :: log w |}, [];
            split; [reflexivity|]; split; [reflexivity|]; split;
            [split; [reflexivity|]; right; right; right; left; repeat split
            |intros _ _ _ _ cctx su s1 H; discriminate H]).
  all: set (s0 := {| p_in := input_stream; p_out := output_stream;
                     p_cctx := cctx; p_world := w |}).
  all: destruct (setup_total lo zd pledged read_size write_size s0)
         as (r1 & s1 & Esetup & Hblock).
  all: destruct (pump_setup_setup _ _ _ _ _ _ _ _ Esetup)
         as (Hin & Hout & new & Hlog & Hnew).
  all: cbn [p_in p_out p_world s0] in Hin, Hout, Hlog.
  all: unfold try_finally, bind at 1; rewrite Esetup.
  all: destruct r1 as [su|e].
  all: try (specialize (Hblock su eq_refl);
            cbn [compress_stream_read]; unfold call_readinto, pumpW, zoom; mred;
            rewrite Hblock, Hin;
            destruct (readinto input_stream (repeat "000"%byte (Z.to_nat read_size)))
              as [[is1 rb] blk] eqn:Er;
            cbn [fst snd] in Hread |- *; subst rb;
            cbn [p_in p_out p_world p_cctx heap allocs log];
            change (0 <? 0) with false; cbn [orb];
            destruct (Z.gtb_spec 0 read_size) as [Hc|_]; [lia|];
            change (0 =? 0) with true; cbn [andb];
            exists (Ok (0, 0)), is1,
              {| heap := heap (p_world s1); allocs := allocs (p_world s1);
                 log := E_freeCCtx :: E_readinto :: log (p_world s1) |}, new;
            rewrite Hout, Hlog;
            split; [reflexivity|]; split; [exact Hnew|]; split;
            [repeat split | intros; reflexivity]).
  all: exists (Raise e), input_stream,
         {| heap := heap (p_world s1); allocs := allocs (p_world s1);
            log := E_freeCCtx :: log (p_world s1) |}, new.
  all: cbn [p_in p_out p_world]; rewrite Hin, Hout, Hlog.
  all: split; [reflexivity|]; split; [exact Hnew|]; split.
  all: try (split; [reflexivity|]; right; right; right; right;
            exists cctx, s1; split; [reflexivity|]; split; [exact Esetup | reflexivity]).
  all: intros _ _ _ _ cctx' su s1' Hc Hs; injection Hc as <-;
       fold s0 in Hs; rewrite Esetup in Hs; discriminate Hs.
Qed.

End PumpProofs.

(** ** The decompression loop *)

Section DecompressLoop.
Context {ffi : Ffi} {m : ZstdLib}.

(** What one call of the decompression step does to the caller's state. *)
Lemma decompressStream_run (out_buf : ZSTD_outBuffer) (in_buf : ZSTD_inBuffer)
  (self : _Decompressor) (w : World) :
  let r := ZSTD_decompressStream (_dctx self)
             (Z.to_nat (out_size out_buf - out_pos out_buf)) (unread in_buf) in
  on_dctx (decompressStream out_buf in_buf) (self, w)
  = Some (Ok (st_ret r,
              {| out_dst := out_dst out_buf; out_size := out_size out_buf;
                 out_pos := out_pos out_buf + len (st_written r) |},
              advance in_buf (st_consumed r)),
          (set_dctx (st_ctx r) self,
           memwrite (out_dst out_buf) (out_pos out_buf) (st_written r)
             {| heap := heap w; allocs := allocs w;
                log := E_decompressStream :: log w |})).
Proof. reflexivity. Qed.

(** One turn of the loop of [_decompress_impl], with the monad unfolded. *)
Lemma _decompress_impl_loop_unfold (fuel : nat) (out : _BlocksOutputBuffer)
  (out_buf : ZSTD_outBuffer) (in_buf : ZSTD_inBuffer) (self : _Decompressor) (w : World) :
  let r := ZSTD_decompressStream (_dctx self)
             (Z.to_nat (out_size out_buf - out_pos out_buf)) (unread in_buf) in
  let out_buf1 := {| out_dst := out_dst out_buf; out_size := out_size out_buf;
                     out_pos := out_pos out_buf + len (st_written r) |} in
  let in_buf1 := advance in_buf (st_consumed r) in
  let w1 := memwrite (out_dst out_buf) (out_pos out_buf) (st_written r)
              {| heap := heap w; allocs := allocs w;
                 log := E_decompressStream :: log w |} in
  let self1 := set_dctx (st_ctx r) self in
  let self2 := if is_endless self then set_at_frame_edge (st_ret r =? 0) self1
               else if st_ret r =? 0 then set_eof true self1 else self1 in
  let stop := if is_endless self
              then (st_ret r =? 0) && (in_pos in_buf1 =? in_size in_buf1)
              else st_ret r =? 0 in
  _decompress_impl_loop (S fuel) out out_buf in_buf (self, w)
  = if ZSTD_isError (st_ret r)
    then Some (Raise (ZstdError (ZE_code ERR_DECOMPRESS (st_ret r))), (self1, w1))
    else if stop then Some (Ok (out, out_buf1, in_buf1), (self2, w1))
    else if out_pos out_buf1 =? out_size out_buf1 then
      if allocated out =? max_length out
      then Some (Ok (out, out_buf1, in_buf1), (self2, w1))
      else match grow out out_buf1 w1 with
           | Some (Ok oo, w2) =>
               _decompress_impl_loop fuel (fst oo) (snd oo) in_buf1 (self2, w2)
           | Some (Raise e, w2) => Some (Raise e, (self2, w2))
           | None => None
           end
    else if in_pos in_buf1 =? in_size in_buf1
    then Some (Ok (out, out_buf1, in_buf1), (self2, w1))
    else _decompress_impl_loop fuel out out_buf1 in_buf1 (self2, w1).
Proof.
  intros r out_buf1 in_buf1 w1 self1 self2 stop.
  cbn [_decompress_impl_loop]. unfold bind at 1.
  rewrite decompressStream_run. fold r. cbv beta iota. cbn [fst snd].
  fold out_buf1 in_buf1 w1 self1.
  unfold _set_zstd_error. mred.
  destruct (ZSTD_isError (st_ret r)) eqn:Eerr; [reflexivity|].
  cbn [fst snd].
  assert (Hend : is_endless self1 = is_endless self) by reflexivity.
  rewrite Hend. subst stop self2.
  unfold setattr, liftW, zoom, reachedMaxLength. mred. cbn [fst snd].
  destruct (is_endless self); cbn [negb].
  - destruct ((st_ret r =? 0) && (in_pos in_buf1 =? in_size in_buf1)); [reflexivity|].
    destruct (out_pos out_buf1 =? out_size out_buf1) eqn:Efull.
    + mred. cbn [fst snd].
      destruct (allocated out =? max_length out); [reflexivity|].
      cbv beta iota. cbn [fst snd].
      destruct (grow out out_buf1 w1) as [[[oo|e] w2]|]; reflexivity.
    + destruct (in_pos in_buf1 =? in_size in_buf1); reflexivity.
  - destruct (st_ret r =? 0); [reflexivity|].
    destruct (out_pos out_buf1 =? out_size out_buf1) eqn:Efull.
    + mred. cbn [fst snd].
      destruct (allocated out =? max_length out); [reflexivity|].
      cbv beta iota. cbn [fst snd].
      destruct (grow out out_buf1 w1) as [[[oo|e] w2]|]; reflexivity.
    + destruct (in_pos in_buf1 =? in_size in_buf1); reflexivity.
Qed.


Lemma bind_Ok_inv {S A B : Type} (c : M S A) (k : A -> M S B) (s : S) (b : B) (s' : S) :
  bind c k s = Some (Ok b, s') ->
  exists a s1, c s = Some (Ok a, s1) /\ k a s1 = Some (Ok b, s').
Proof.
  unfold bind. destruct (c s) as [[[a|e] s1]|]; try discriminate.
  intros H. exists a, s1. split; [reflexivity | exact H].
Qed.

(** After a decompression step the buffer is still one that a run of
    writes and allocations produced. *)
Lemma buffer_run_step w out out_buf data (written : bytes) :
  buffer_run w out out_buf data ->
  (length written <= Z.to_nat (out_size out_buf - out_pos out_buf))%nat ->
  buffer_run
    (memwrite (out_dst out_buf) (out_pos out_buf) written
       {| heap := heap w; allocs := allocs w; log := E_decompressStream :: log w |})
    out
    {| out_dst := out_dst out_buf; out_size := out_size out_buf;
       out_pos := out_pos out_buf + len written |}
    (data ++ written).
Proof.
  intros Hrun Hroom.
  pose proof (inv_pos _ _ _ _ (buffer_run_inv _ _ _ _ Hrun)) as Hpos.
  eapply run_write.
  - eapply run_emit; [exact Hrun | reflexivity].
  - unfold len. lia.
  - reflexivity.
Qed.

(** The loop of [_decompress_impl] leaves a buffer with the length cap it
    started with. *)
Lemma _decompress_impl_loop_buffer (fuel : nat) :
  writes_within_room ->
  forall out out_buf in_buf self w data res s',
    buffer_run w out out_buf data ->
    _decompress_impl_loop fuel out out_buf in_buf (self, w) = Some (Ok res, s') ->
    exists data',
      buffer_run (snd s') (fst (fst res)) (snd (fst res)) data'
      /\ max_length (fst (fst res)) = max_length out.
Proof.
  intros Hb. induction fuel as [|fuel IH]; intros out out_buf in_buf self w data res s' Hrun H.
  - discriminate H.
  - rewrite _decompress_impl_loop_unfold in H. cbv zeta in H.
    set (r := ZSTD_decompressStream (_dctx self)
                (Z.to_nat (out_size out_buf - out_pos out_buf)) (unread in_buf)) in *.
    pose proof (buffer_run_step _ _ _ _ (st_written r) Hrun (Hb _ _ _)) as Hrun1.
    fold r in Hrun1.
    destruct (ZSTD_isError (st_ret r)); [discriminate H|].
    match type of H with
    | (if ?stop then _ else _) = _ => destruct stop
    end.
    { injection H as <- <-. eexists. split; [exact Hrun1 | reflexivity]. }
    match type of H with
    | (if ?full then _ else _) = _ => destruct full
    end.
    + destruct (allocated out =? max_length out).
      { injection H as <- <-. eexists. split; [exact Hrun1 | reflexivity]. }
      match type of H with
      | match ?g with _ => _ end = _ => destruct g as [[[oo|e] w2]|] eqn:Eg
      end; try discriminate H.
      destruct oo as [out2 out_buf2].
      pose proof (run_grow _ _ _ _ _ _ _ Hrun1 Eg) as Hrun2.
      destruct (IH _ _ _ _ _ _ _ _ Hrun2 H) as (data' & Hr & Hm).
      exists data'. split; [exact Hr|]. rewrite Hm.
      apply grow_ok in Eg as (bs & _ & _ & _ & -> & _). reflexivity.
    + match type of H with
      | (if ?c then _ else _) = _ => destruct c
      end.
      { injection H as <- <-. eexists. split; [exact Hrun1 | reflexivity]. }
      exact (IH _ _ _ _ _ _ _ _ Hrun1 H).
Qed.

(** With a length cap, [_stream_decompress] asks for no content size. *)
Lemma prepare_unknown_size (data : bytes) (max_length : Z) s p s1 :
  0 <= max_length ->
  _stream_decompress_prepare data max_length s = Some (Ok p, s1) ->
  fst (fst p) = ZSTD_CONTENTSIZE_UNKNOWN.
Proof.
  intros Hml H. unfold _stream_decompress_prepare in H.
  apply bind_Ok_inv in H as (ok & s0 & _ & H).
  destruct (negb ok); [discriminate H|].
  apply bind_Ok_inv in H as (sg & s0' & _ & H).
  apply bind_Ok_inv in H as (ds & s2 & Hds & H).
  apply bind_Ok_inv in H as (ui & s3 & _ & H).
  apply bind_Ok_inv in H as (u & s4 & _ & H).
  injection H as <- _. cbn [fst].
  destruct (Z.ltb_spec max_length 0) as [Hc|_]; [lia|].
  rewrite andb_false_r in Hds. cbn [andb] in Hds.
  destruct (negb (is_endless (fst sg))).
  - destruct (_eof (fst sg)); [discriminate Hds|]. injection Hds as <- _. reflexivity.
  - injection Hds as <- _. reflexivity.
Qed.

(** C2. With [max_length = N >= 0], a [decompress] call that returns, on
    either kind of decompressor and for any input and any fuel, returns at
    most [N] bytes, provided the library never writes past the room it is
    given in the output buffer. *)
Theorem C2_decompress_bounded_output (fuel : nat) (data : bytes) (N : Z)
  (self : _Decompressor) (w : World) (r : bytes) (s' : _Decompressor * World) :
  writes_within_room ->
  0 <= N ->
  _stream_decompress fuel data N (self, w) = Some (Ok r, s') ->
  len r <= N.
Proof.
  intros Hb HN H. unfold _stream_decompress in H.
  apply (try_except_reraise_inv _ _ decompress_except) in H;
    [|apply decompress_except_run].
  unfold _stream_decompress_try in H.
  apply bind_Ok_inv in H as (p & s1 & Hprep & H).
  apply bind_Ok_inv in H as (ri & s2 & Himpl & H).
  apply bind_Ok_inv in H as (u & s3 & _ & H).
  injection H as <- _.
  rewrite (prepare_unknown_size _ _ _ _ _ HN Hprep) in Himpl.
  unfold _decompress_impl in Himpl.
  apply bind_Ok_inv in Himpl as (sg & s1' & _ & Himpl).
  destruct (is_endless (fst sg) && _at_frame_edge (fst sg)
            && (in_pos (snd p) =? in_size (snd p))).
  { injection Himpl as <- _. cbn [fst]. unfold len. simpl. exact HN. }
  apply bind_Ok_inv in Himpl as (ok & s4 & _ & Himpl).
  destruct (negb ok); [discriminate Himpl|].
  rewrite Z.eqb_refl in Himpl. cbn [orb] in Himpl.
  apply bind_Ok_inv in Himpl as ([out out_buf] & [self5 w5] & Hinit & Himpl).
  apply bind_Ok_inv in Himpl as (res & [self6 w6] & Hloop & Himpl).
  apply bind_Ok_inv in Himpl as (b & s7 & Hfin & Himpl).
  injection Himpl as <- _. cbn [fst].
  (* the buffer after initAndGrow *)
  unfold liftW, zoom in Hinit. cbn [fst snd] in Hinit.
  destruct (initAndGrow N (snd s4)) as [[[oo|e] w5']|] eqn:Ei; try discriminate Hinit.
  injection Hinit as -> <- <-.
  pose proof (run_initAndGrow _ _ _ _ _ Ei) as Hrun.
  assert (Hcap : max_length out = N).
  { unfold initAndGrow, _new_nonzero in Ei. mred_in Ei.
    destruct (alloc_fails (allocs (snd s4))); mred_in Ei; [discriminate Ei|].
    injection Ei as <- _ _. reflexivity. }
  cbn [fst snd] in Hloop.
  destruct (_decompress_impl_loop_buffer fuel Hb _ _ _ _ _ _ _ _ Hrun Hloop)
    as (data' & Hrun' & Hcap').
  cbn [snd] in Hrun'.
  (* finish returns the data, which fits under the cap *)
  unfold liftW, zoom in Hfin. cbn [fst snd] in Hfin.
  destruct (finish (fst (fst res)) (snd (fst res)) w6) as [[[b'|e] w7]|] eqn:Ef;
    try discriminate Hfin.
  injection Hfin as -> _.
  pose proof (buffer_run_inv _ _ _ _ Hrun') as Hinv.
  pose proof (len_buffer_contents _ _ _ _ Hinv) as Hlen.
  assert (Hb' : b = data') by (eapply finish_returns_data; eassumption).
  subst b. rewrite Hlen.
  pose proof (inv_pos _ _ _ _ Hinv) as Hpos.
  pose proof (inv_max _ _ _ _ Hinv) as Hmax.
  rewrite Hcap', Hcap in Hmax. specialize (Hmax HN). lia.
Qed.

End DecompressLoop.

(** ** The carry-over of unconsumed input *)

Lemma window_split (l : bytes) (b e : Z) :
  0 <= b <= e -> e <= len l ->
  exists A C, l = A ++ window l b e ++ C /\ len A = b /\ len (window l b e) = e - b.
Proof.
  intros Hb He. exists (take (Z.to_nat b) l), (drop (Z.to_nat e) l).
  unfold window, len in *. split; [|split].
  - rewrite <- (take_drop (Z.to_nat b) l) at 1. f_equal.
    rewrite <- (take_drop (Z.to_nat (e - b)) (drop (Z.to_nat b) l)) at 1. f_equal.
    rewrite drop_drop. f_equal. lia.
  - rewrite length_take. lia.
  - rewrite length_take, length_drop. lia.
Qed.

Lemma window_app (A B C : bytes) (b e : Z) :
  b = len A -> e = len A + len B -> window (A ++ B ++ C) b e = B.
Proof.
  intros -> ->. unfold window, len.
  rewrite drop_app_length' by lia.
  apply take_app_length'. lia.
Qed.

Lemma write_at_app (A B C d : bytes) (off : nat) :
  off = length A -> length B = length d ->
  write_at (A ++ B ++ C) off d = A ++ d ++ C.
Proof.
  intros -> HB. unfold write_at.
  rewrite take_app_length. f_equal. f_equal.
  rewrite <- HB, app_assoc. apply drop_app_length'. rewrite length_app. lia.
Qed.

Lemma window_write_at_end (l d : bytes) (b e : Z) :
  0 <= b <= e -> e + len d <= len l ->
  window (write_at l (Z.to_nat e) d) b (e + len d) = window l b e ++ d.
Proof.
  intros Hb He. pose proof (len_nonneg d).
  destruct (window_split l b e) as (A & C & Hl & HA & HB); [lia|lia|].
  set (B := window l b e) in *.
  assert (HC : len d <= len C).
  { rewrite Hl in He. rewrite !len_app in He. lia. }
  rewrite <- (take_drop (length d) C) in Hl.
  rewrite Hl at 1.
  replace (A ++ B ++ take (length d) C ++ drop (length d) C)
    with ((A ++ B) ++ take (length d) C ++ drop (length d) C)
    by (rewrite <- app_assoc; reflexivity).
  rewrite write_at_app.
  - rewrite <- app_assoc. rewrite (app_assoc B d).
    apply window_app; [lia|]. rewrite len_app. lia.
  - unfold len in *. rewrite length_app. lia.
  - rewrite length_take. unfold len in *. lia.
Qed.

Lemma window_write_at_start (l c : bytes) (n : Z) :
  n = len c -> (length c <= length l)%nat ->
  window (write_at l 0 c) 0 n = c.
Proof.
  intros -> H. unfold window, write_at, len. rewrite Z.sub_0_r, Nat2Z.id.
  change (Z.to_nat 0) with 0%nat. rewrite take_0, drop_0. cbn [app].
  apply take_app_length.
Qed.

Lemma window_drop (l : bytes) (b e k : Z) :
  0 <= b -> 0 <= k ->
  window l (b + k) e = drop (Z.to_nat k) (window l b e).
Proof.
  intros Hb Hk. unfold window.
  rewrite skipn_firstn_comm, drop_drop. f_equal; [lia|]. f_equal. lia.
Qed.

Lemma length_window (l : bytes) (b e : Z) :
  0 <= b <= e -> e <= len l -> len (window l b e) = e - b.
Proof.
  intros Hb He. unfold window, len in *. rewrite length_take, length_drop. lia.
Qed.

Lemma take_len (l : bytes) : take (Z.to_nat (len l)) l = l.
Proof. apply take_ge. unfold len. lia. Qed.

Section CarryOver.
Context {ffi : Ffi} {m : ZstdLib}.

Lemma carry_over_window (self : _Decompressor) (w : World) :
  carry_over self w =
  match _input_buffer self with
  | Some p => window (memread w p) (_in_begin self) (_in_end self)
  | None => []
  end.
Proof.
  unfold carry_over, input_buffer_from, window.
  destruct (_input_buffer self); [reflexivity | apply take_nil].
Qed.

Lemma carry_over_empty (self : _Decompressor) (w : World) :
  _in_begin self = _in_end self -> carry_over self w = [].
Proof. intros H. unfold carry_over. rewrite H, Z.sub_diag. reflexivity. Qed.

Lemma prepare_spec (data : bytes) (max_length : Z) (self : _Decompressor) (w : World)
  ds uib in_buf self1 w1 :
  carry_over_inv self w ->
  _stream_decompress_prepare data max_length (self, w)
    = Some (Ok (ds, uib, in_buf), (self1, w1)) ->
  prepare_post self w data uib in_buf self1 w1.
Proof.
  intros Hinv H. unfold _stream_decompress_prepare in H.
  apply bind_Ok_inv in H as (ok & [self0 w0] & Hok & H).
  unfold liftW, zoom, _new_nonzero_struct in Hok. cbn [fst snd] in Hok.
  injection Hok as <- <- <-.
  destruct (negb (negb (alloc_fails (allocs w)))); [discriminate H|].
  apply bind_Ok_inv in H as (sg & s0' & Hg & H). injection Hg as <- <-.
  apply bind_Ok_inv in H as (ds' & s2 & Hds & H).
  assert (Hs2 : s2 = (self, {| heap := heap w; allocs := S (allocs w); log := log w |})).
  { cbn [fst snd] in Hds.
    repeat match type of Hds with
           | (if ?b then _ else _) _ = _ => destruct b
           end; try discriminate Hds; injection Hds as _ <-; reflexivity. }
  subst s2. clear Hds.
  apply bind_Ok_inv in H as ([uib' in_buf'] & s3 & Hui & H).
  apply bind_Ok_inv in H as (u & s4 & Ha & H).
  cbn [fst snd] in Ha, H.
  destruct (in_pos in_buf' =? 0) eqn:Epos; [|discriminate Ha].
  mred_in Ha. injection Ha as _ <-. mred_in H. injection H as _ <- <- ->.
  apply Z.eqb_eq in Epos.
  cbn [fst snd] in Hui.
  pose proof Hinv as (Hbe & Hbuf).
  destruct (Z.eqb_spec (_in_begin self) (_in_end self)) as [Hwin|Hwin].
  - (* no unconsumed data *)
    injection Hui as <- <- <- <-.
    unfold prepare_post. rewrite (carry_over_empty self w Hwin). cbn [app in_pos in_size in_src].
    split; [reflexivity|]. split; [reflexivity|]. split; [apply take_len|].
    split; [exact Hinv|]. split; [reflexivity | exact Hwin].
  - destruct (Z.eqb_spec (len data) 0) as [Hd|Hd].
    + (* unconsumed data, b'' *)
      mred_in Hui. destruct (Z.ltb_spec (_in_begin self) (_in_end self)) as [Hlt|]; 
        [|discriminate Hui].
      injection Hui as <- <- <- <-.
      assert (data = []) as -> by (destruct data; [reflexivity | unfold len in Hd; simpl in Hd; lia]).
      destruct (_input_buffer self) as [p|] eqn:Ep; [|lia].
      destruct Hbuf as (Hp & Hlen & Hend).
      unfold prepare_post. rewrite app_nil_r. cbn [in_pos in_size in_src].
      assert (Hco : carry_over self w = window (memread w p) (_in_begin self) (_in_end self)).
      { rewrite carry_over_window, Ep. reflexivity. }
      split; [reflexivity|].
      split; [rewrite Hco; symmetry; apply length_window; lia|].
      split; [reflexivity|]. split; [exact Hinv|]. split; reflexivity.
    + (* unconsumed data, and more *)
      destruct (_input_buffer self) as [p|] eqn:Ep; [|lia].
      destruct Hbuf as (Hp & Hlen & Hend).
      assert (Hco : carry_over self w = window (memread w p) (_in_begin self) (_in_end self)).
      { rewrite carry_over_window, Ep. reflexivity. }
      assert (Hcl : len (carry_over self w) = _in_end self - _in_begin self).
      { rewrite Hco. apply length_window; lia. }
      assert (Hcw : forall w', heap w' = heap w ->
                take (Z.to_nat (_in_end self - _in_begin self))
                  (input_buffer_from self (_in_begin self) w') = carry_over self w).
      { intros w' Hh. unfold carry_over, input_buffer_from, memread. rewrite Hh. reflexivity. }
      set (used_now := _in_end self - _in_begin self) in *.
      pose proof (len_nonneg data) as Hdn.
      apply bind_Ok_inv in Hui as (u1 & s5 & Has & Hui).
      destruct ((used_now >? 0) && (_input_buffer_size self - _in_end self >=? 0)
                && (_input_buffer_size self - used_now >=? 0)); [|discriminate Has].
      mred_in Has. injection Has as _ <-.
      apply bind_Ok_inv in Hui as (u2 & [selfm wm] & Hmid & Hui).
      assert (Hm : carry_over selfm wm = carry_over self w
                   /\ carry_over_inv selfm wm
                   /\ _in_end selfm - _in_begin selfm = used_now
                   /\ _in_end selfm + len data <= _input_buffer_size selfm
                   /\ _type selfm = _type self).
      { destruct (Z.ltb_spec (_input_buffer_size self - used_now) (len data)) as [Ht|Ht].
        - (* a larger storage *)
          unfold liftW, zoom, _new_nonzero, memmove, setattr in Hmid.
          mred_in Hmid. cbn [fst snd allocs heap log] in Hmid.
          destruct (alloc_fails (S (allocs w))); mred_in Hmid; [discriminate Hmid|].
          cbn [fst snd] in Hmid. rewrite Hcw in Hmid by reflexivity.
          injection Hmid as _ <- <-.
          set (fresh := map (uninit (S (allocs w)))
                          (seq 0 (Z.to_nat (used_now + len data)))).
          set (wf := {| heap := heap w ++ [fresh]; allocs := S (S (allocs w));
                        log := log w |}).
          assert (Hfl : len fresh = used_now + len data).
          { apply len_fresh. lia. }
          assert (Hmr : memread (memwrite (length (heap w)) 0 (carry_over self w) wf)
                          (length (heap w))
                        = write_at fresh 0 (carry_over self w)).
          { rewrite memread_memwrite_eq
              by (subst wf; cbn [heap]; rewrite length_app; simpl; lia).
            subst wf. rewrite memread_app_new. reflexivity. }
          assert (Hfit : (0 + length (carry_over self w) <= length fresh)%nat).
          { unfold len in *. lia. }
          split; [|split; [|split; [|split]]].
          + rewrite carry_over_window. cbn. rewrite Hmr.
            apply window_write_at_start; [lia | lia].
          + split; [cbn; lia|]. cbn [_input_buffer set_in_end set_in_begin set_input_buffer
                                      _input_buffer_size _in_end].
            split; [|split].
            * rewrite heap_memwrite. subst wf. cbn [heap]. rewrite length_app. simpl. lia.
            * rewrite Hmr. unfold len. rewrite length_write_at by exact Hfit.
              exact Hfl.
            * lia.
          + cbn. lia.
          + cbn. lia.
          + reflexivity.
        - destruct (Z.ltb_spec (_input_buffer_size self - _in_end self) (len data)) as [Hn|Hn].
          + (* move to the beginning *)
            unfold liftW, zoom, memmove_input_buffer, memmove, setattr in Hmid.
            rewrite Ep in Hmid.
            mred_in Hmid. cbn [fst snd] in Hmid. rewrite Hcw in Hmid by reflexivity.
            injection Hmid as _ <- <-.
            set (w0 := {| heap := heap w; allocs := S (allocs w); log := log w |}).
            assert (Hmr : memread (memwrite p 0 (carry_over self w) w0) p
                          = write_at (memread w p) 0 (carry_over self w)).
            { rewrite memread_memwrite_eq by exact Hp. reflexivity. }
            assert (Hfit : (0 + length (carry_over self w) <= length (memread w p))%nat).
            { unfold len in *. lia. }
            split; [|split; [|split; [|split]]].
            * rewrite carry_over_window. cbn. rewrite Ep, Hmr.
              apply window_write_at_start; [lia | lia].
            * split; [cbn; lia|]. cbn [_input_buffer set_in_end set_in_begin
                                        _input_buffer_size _in_end]. rewrite Ep.
              split; [|split].
              -- rewrite heap_memwrite. exact Hp.
              -- rewrite Hmr. unfold len. rewrite length_write_at by exact Hfit.
                 exact Hlen.
              -- lia.
            * cbn. lia.
            * cbn. lia.
            * reflexivity.
          + (* room at the end *)
            mred_in Hmid. injection Hmid as _ <- <-.
            split; [reflexivity|]. split; [|split; [|split]].
            * split; [exact Hbe|]. rewrite Ep. repeat split; assumption.
            * reflexivity.
            * lia.
            * reflexivity. }
      destruct Hm as (Hcm & (Hbem & Hbufm) & Hused & Hroom & Htym).
      destruct (_input_buffer selfm) as [pm|] eqn:Epm; [|lia].
      destruct Hbufm as (Hpm & Hlenm & Hendm).
      unfold liftW, zoom, memmove_input_buffer, memmove, setattr in Hui.
      mred_in Hui. cbn [fst snd] in Hui. rewrite Epm in Hui.
      rewrite take_len in Hui.
      injection Hui as <- <- <- <-.
      assert (Hmr : memread (memwrite pm (_in_end selfm) data wm) pm
                    = write_at (memread wm pm) (Z.to_nat (_in_end selfm)) data).
      { apply memread_memwrite_eq, Hpm. }
      assert (Hc2 : carry_over (set_in_end (_in_end selfm + len data) selfm)
                      (memwrite pm (_in_end selfm) data wm)
                    = carry_over self w ++ data).
      { rewrite carry_over_window. cbn [_input_buffer set_in_end _in_begin _in_end].
        rewrite Epm, Hmr, <- Hcm, (carry_over_window selfm), Epm.
        apply window_write_at_end; lia. }
      unfold prepare_post. cbn [in_pos in_size in_src].
      split; [reflexivity|]. split; [rewrite len_app; lia|].
      split; [|split; [|split; [exact Htym | exact Hc2]]].
      * rewrite <- Hc2. unfold carry_over.
        cbn [_input_buffer set_in_end _in_begin _in_end]. f_equal. lia.
      * split; [cbn; lia|]. cbn [_input_buffer set_in_end _input_buffer_size _in_end].
        rewrite Epm. split; [|split].
        -- rewrite heap_memwrite. exact Hpm.
        -- rewrite Hmr. unfold len. rewrite length_write_at by (unfold len in *; lia).
           exact Hlenm.
        -- lia.
Qed.


Lemma untouched_refl (n : nat) (w : World) :
  (n <= length (heap w))%nat -> untouched_below n w w.
Proof. intros H. split; [exact H | reflexivity]. Qed.

Lemma untouched_memwrite (n : nat) (w0 w : World) (q : nat) (off : Z) (d : bytes) :
  untouched_below n w0 w -> (n <= q)%nat -> untouched_below n w0 (memwrite q off d w).
Proof.
  intros [Hl Hp] Hq. split.
  - rewrite heap_memwrite. exact Hl.
  - intros p Hlt. unfold memwrite. cbn [heap].
    rewrite list_lookup_insert_ne by lia. apply Hp, Hlt.
Qed.

Lemma untouched_alloc (n : nat) (w0 w : World) (x : bytes) (a : nat) (l : list event) :
  untouched_below n w0 w ->
  untouched_below n w0 {| heap := heap w ++ [x]; allocs := a; log := l |}.
Proof.
  intros [Hl Hp]. split; cbn [heap].
  - rewrite length_app. lia.
  - intros p Hlt. rewrite lookup_app_l by lia. apply Hp, Hlt.
Qed.

Lemma untouched_meta (n : nat) (w0 w : World) (a : nat) (l : list event) :
  untouched_below n w0 w ->
  untouched_below n w0 {| heap := heap w; allocs := a; log := l |}.
Proof. intros H. exact H. Qed.

Lemma untouched_memread (n : nat) (w0 w : World) (p : nat) :
  untouched_below n w0 w -> (p < n)%nat -> memread w p = memread w0 p.
Proof. intros [_ Hp] Hlt. unfold memread. rewrite Hp by exact Hlt. reflexivity. Qed.

Lemma new_nonzero_untouched (n : nat) (w0 w : World) (size : Z) p w' :
  _new_nonzero size w = Some (Ok p, w') ->
  untouched_below n w0 w ->
  untouched_below n w0 w'
  /\ match p with
     | Some q => q = length (heap w) /\ (n <= q)%nat
                 /\ memread w' q = map (uninit (allocs w)) (seq 0 (Z.to_nat size))
     | None => heap w' = heap w
     end.
Proof.
  unfold _new_nonzero. intros H Hu.
  destruct (alloc_fails (allocs w)); injection H as <- <-.
  - split; [exact Hu | reflexivity].
  - split; [apply untouched_alloc, Hu|].
    split; [reflexivity|]. split; [apply Hu | apply memread_app_new].
Qed.

Lemma finish_copy_untouched (n : nat) (w0 : World) (final : nat) (blocks : list nat) :
  (n <= final)%nat ->
  forall posi w r w',
    finish_copy final posi blocks w = Some (r, w') ->
    untouched_below n w0 w -> untouched_below n w0 w'.
Proof.
  intros Hf. induction blocks as [|b blocks IH]; intros posi w r w' H Hu.
  - injection H as _ <-. exact Hu.
  - cbn [finish_copy] in H. unfold memmove in H. mred_in H.
    eapply IH; [exact H|]. apply untouched_memwrite; assumption.
Qed.

Lemma finish_untouched (n : nat) (w0 : World) self out w r w' :
  finish self out w = Some (r, w') ->
  untouched_below n w0 w -> untouched_below n w0 w'.
Proof.
  unfold finish. intros H Hu.
  destruct (_ || _).
  - destruct (blist self); mred_in H; injection H as _ <-; exact Hu.
  - unfold bind at 1 in H.
    destruct (_new_nonzero _ w) as [[[p|e] w1]|] eqn:En; try discriminate H.
    2:{ unfold _new_nonzero in En. destruct (alloc_fails _); discriminate En. }
    destruct (new_nonzero_untouched n w0 w _ _ _ En Hu) as (Hu1 & Hp).
    destruct p as [final|]; [|injection H as _ <-; exact Hu1].
    destruct Hp as (_ & Hge & _).
    unfold bind at 1 in H.
    destruct (finish_copy final 0 (removelast (blist self)) w1) as [[[posi|e] w2]|] eqn:Ec;
      try discriminate H.
    + pose proof (finish_copy_untouched n w0 final _ Hge _ _ _ _ Ec Hu1) as Hu2.
      destruct (last (blist self)); [|injection H as _ <-; exact Hu2].
      unfold memmove in H. mred_in H. injection H as _ <-.
      apply untouched_memwrite; assumption.
    + injection H as _ <-.
      exact (finish_copy_untouched n w0 final _ Hge _ _ _ _ Ec Hu1).
Qed.

Lemma initAndGrow_untouched (n : nat) (w0 w : World) (ml : Z) out out_buf w' :
  initAndGrow ml w = Some (Ok (out, out_buf), w') ->
  untouched_below n w0 w ->
  untouched_below n w0 w' /\ (n <= out_dst out_buf)%nat.
Proof.
  unfold initAndGrow. intros H Hu. unfold bind in H.
  destruct (_new_nonzero _ w) as [[[[b|]|e] w1]|] eqn:En; try discriminate H.
  mred_in H. injection H as _ <- <-.
  destruct (new_nonzero_untouched n w0 w _ _ _ En Hu) as (Hu1 & _ & Hge & _).
  split; assumption.
Qed.

Lemma initWithSize_untouched (n : nat) (w0 w : World) (size : Z) out out_buf w' :
  initWithSize size w = Some (Ok (out, out_buf), w') ->
  untouched_below n w0 w ->
  untouched_below n w0 w' /\ (n <= out_dst out_buf)%nat.
Proof.
  unfold initWithSize. intros H Hu. unfold bind in H.
  destruct (_new_nonzero _ w) as [[[[b|]|e] w1]|] eqn:En; try discriminate H.
  mred_in H. injection H as _ <- <-.
  destruct (new_nonzero_untouched n w0 w _ _ _ En Hu) as (Hu1 & _ & Hge & _).
  split; assumption.
Qed.

Lemma length_unread (i : ZSTD_inBuffer) :
  0 <= in_pos i <= in_size i -> Z.of_nat (length (unread i)) <= in_size i - in_pos i.
Proof. intros H. unfold unread. rewrite length_take. lia. Qed.

Lemma same_storage_refl (self : _Decompressor) : same_storage self self.
Proof. repeat split. Qed.

Lemma _decompress_impl_loop_frame (n : nat) (w0 : World) (fuel : nat) :
  reads_within_input ->
  forall out out_buf in_buf self w res self' w',
    untouched_below n w0 w ->
    (n <= out_dst out_buf)%nat ->
    0 <= in_pos in_buf <= in_size in_buf ->
    _decompress_impl_loop fuel out out_buf in_buf (self, w) = Some (Ok res, (self', w')) ->
    untouched_below n w0 w'
    /\ same_storage self self'
    /\ in_src (snd res) = in_src in_buf
    /\ in_size (snd res) = in_size in_buf
    /\ in_pos in_buf <= in_pos (snd res) <= in_size in_buf.
Proof.
  intros Hr. induction fuel as [|fuel IH];
    intros out out_buf in_buf self w res self' w' Hu Hdst Hpos H.
  - discriminate H.
  - rewrite _decompress_impl_loop_unfold in H. cbv zeta in H.
    set (r := ZSTD_decompressStream (_dctx self)
                (Z.to_nat (out_size out_buf - out_pos out_buf)) (unread in_buf)) in *.
    pose proof (Hr (_dctx self) (Z.to_nat (out_size out_buf - out_pos out_buf))
                  (unread in_buf)) as Hcons. fold r in Hcons.
    pose proof (length_unread in_buf Hpos) as Hlen.
    set (w1 := memwrite (out_dst out_buf) (out_pos out_buf) (st_written r)
                 {| heap := heap w; allocs := allocs w;
                    log := E_decompressStream :: log w |}) in *.
    assert (Hu1 : untouched_below n w0 w1).
    { apply untouched_memwrite; [exact Hu | exact Hdst]. }
    set (self2 := if is_endless self
                  then set_at_frame_edge (st_ret r =? 0) (set_dctx (st_ctx r) self)
                  else if st_ret r =? 0 then set_eof true (set_dctx (st_ctx r) self)
                       else set_dctx (st_ctx r) self) in *.
    assert (Hs2 : same_storage self self2).
    { subst self2. destruct (is_endless self); [|destruct (st_ret r =? 0)];
        repeat split. }
    assert (Hpos1 : 0 <= in_pos (advance in_buf (st_consumed r))
                    <= in_size (advance in_buf (st_consumed r))).
    { cbn [advance in_pos in_size]. lia. }
    assert (Hdone : untouched_below n w0 w1 /\ same_storage self self2
                    /\ in_src (advance in_buf (st_consumed r)) = in_src in_buf
                    /\ in_size (advance in_buf (st_consumed r)) = in_size in_buf
                    /\ in_pos in_buf <= in_pos (advance in_buf (st_consumed r))
                       <= in_size in_buf).
    { split; [exact Hu1|]. split; [exact Hs2|]. cbn [advance in_src in_size in_pos].
      split; [reflexivity|]. split; [reflexivity|]. lia. }
    assert (Hnext : forall out2 out_buf2 w2,
               untouched_below n w0 w2 -> (n <= out_dst out_buf2)%nat ->
               _decompress_impl_loop fuel out2 out_buf2 (advance in_buf (st_consumed r))
                 (self2, w2) = Some (Ok res, (self', w')) ->
               untouched_below n w0 w'
               /\ same_storage self self'
               /\ in_src (snd res) = in_src in_buf
               /\ in_size (snd res) = in_size in_buf
               /\ in_pos in_buf <= in_pos (snd res) <= in_size in_buf).
    { intros out2 out_buf2 w2 Hu2 Hd2 Hl.
      destruct (IH _ _ _ _ _ _ _ _ Hu2 Hd2 Hpos1 Hl) as (Ha & Hb & Hc & Hd & He).
      split; [exact Ha|]. split.
      - destruct Hs2 as (T1 & T2 & T3 & T4 & T5), Hb as (U1 & U2 & U3 & U4 & U5).
        unfold same_storage. rewrite U1, U2, U3, U4, U5. repeat split; assumption.
      - rewrite Hc, Hd. cbn [advance in_src in_size in_pos] in *.
        split; [reflexivity|]. split; [reflexivity|]. lia. }
    destruct (ZSTD_isError (st_ret r)); [discriminate H|].
    match type of H with
    | (if ?stop then _ else _) = _ => destruct stop
    end.
    { injection H as <- <- <-. exact Hdone. }
    match type of H with
    | (if ?full then _ else _) = _ => destruct full
    end.
    + destruct (allocated out =? max_length out).
      { injection H as <- <- <-. exact Hdone. }
      match type of H with
      | match ?g with _ => _ end = _ => destruct g as [[[oo|e] w2]|] eqn:Eg
      end; try discriminate H.
      destruct oo as [out2 out_buf2].
      apply grow_ok in Eg as (bs & _ & _ & _ & _ & -> & ->).
      refine (Hnext _ _ _ _ _ H); [apply untouched_alloc, Hu1 | exact (proj1 Hu1)].
    + match type of H with
      | (if ?c then _ else _) = _ => destruct c
      end.
      { injection H as <- <- <-. exact Hdone. }
      refine (Hnext _ _ _ Hu1 _ H). exact Hdst.
Qed.


Lemma _decompress_impl_frame (fuel : nat) (in_buf : ZSTD_inBuffer) (ml ds : Z)
  (self : _Decompressor) (w : World) b in_buf' self' w' :
  reads_within_input ->
  0 <= in_pos in_buf <= in_size in_buf ->
  _decompress_impl fuel in_buf ml ds (self, w) = Some (Ok (b, in_buf'), (self', w')) ->
  untouched_below (length (heap w)) w w'
  /\ same_storage self self'
  /\ in_src in_buf' = in_src in_buf
  /\ in_size in_buf' = in_size in_buf
  /\ in_pos in_buf <= in_pos in_buf' <= in_size in_buf.
Proof.
  intros Hr Hpos H. unfold _decompress_impl in H.
  apply bind_Ok_inv in H as (sg & s0 & Hg & H). injection Hg as <- <-.
  cbn [fst snd] in H.
  destruct (is_endless self && _at_frame_edge self && (in_pos in_buf =? in_size in_buf)).
  { injection H as _ <- <- <-.
    split; [apply untouched_refl; lia|]. split; [apply same_storage_refl|].
    split; [reflexivity|]. split; [reflexivity|]. lia. }
  apply bind_Ok_inv in H as (ok & [self0 w1] & Hok & H).
  unfold liftW, zoom, _new_nonzero_struct in Hok. cbn [fst snd] in Hok.
  injection Hok as <- <- <-.
  destruct (negb (negb (alloc_fails (allocs w)))); [discriminate H|].
  apply bind_Ok_inv in H as ([out out_buf] & [self1 w2] & Hinit & H).
  apply bind_Ok_inv in H as (res & [self2 w3] & Hloop & H).
  apply bind_Ok_inv in H as (b' & [self3 w4] & Hfin & H).
  injection H as <- <- <- <-.
  set (n := length (heap w)).
  assert (Hu1 : untouched_below n w {| heap := heap w; allocs := S (allocs w); log := log w |}).
  { apply untouched_meta, untouched_refl. subst n. lia. }
  unfold liftW, zoom in Hinit. cbn [fst snd] in Hinit.
  assert (Hu2 : untouched_below n w w2 /\ (n <= out_dst out_buf)%nat /\ self1 = self).
  { destruct (_ || _).
    - destruct (initAndGrow ml _) as [[[[o ob]|e] wi]|] eqn:Ei; try discriminate Hinit.
      injection Hinit as -> -> <- <-.
      destruct (initAndGrow_untouched n w _ _ _ _ _ Ei Hu1) as (Ha & Hb).
      split; [exact Ha|]. split; [exact Hb | reflexivity].
    - destruct (initWithSize ds _) as [[[[o ob]|e] wi]|] eqn:Ei; try discriminate Hinit.
      injection Hinit as -> -> <- <-.
      destruct (initWithSize_untouched n w _ _ _ _ _ Ei Hu1) as (Ha & Hb).
      split; [exact Ha|]. split; [exact Hb | reflexivity]. }
  destruct Hu2 as (Hu2 & Hdst & ->).
  cbn [fst snd] in Hloop.
  destruct (_decompress_impl_loop_frame n w fuel Hr _ _ _ _ _ _ _ _ Hu2 Hdst Hpos Hloop)
    as (Hu3 & Hss & Hsrc & Hsize & Hp).
  unfold liftW, zoom in Hfin. cbn [fst snd] in Hfin.
  destruct (finish _ _ w3) as [[[bf|e] wf]|] eqn:Ef; try discriminate Hfin.
  injection Hfin as _ <- <-.
  split; [exact (finish_untouched n w _ _ _ _ _ Ef Hu3)|].
  split; [exact Hss|]. split; [exact Hsrc|]. split; [exact Hsize | exact Hp].
Qed.

Lemma drop_len_nil (l : bytes) : drop (Z.to_nat (len l)) l = [].
Proof. apply drop_ge. unfold len. lia. Qed.

Lemma finish_phase_spec (uib : bool) (in_buf : ZSTD_inBuffer) (ret_ : bytes) (ml : Z)
  (self : _Decompressor) (w : World) (u : unit) self' w' (merged : bytes) :
  _stream_decompress_finish uib in_buf ret_ ml (self, w) = Some (Ok u, (self', w')) ->
  carry_over_inv self w ->
  0 <= in_pos in_buf <= in_size in_buf ->
  in_size in_buf = len merged ->
  take (Z.to_nat (in_size in_buf)) (in_src in_buf) = merged ->
  (if uib then carry_over self w = merged else _in_begin self = _in_end self) ->
  carry_over self' w' = drop (Z.to_nat (in_pos in_buf)) merged
  /\ carry_over_inv self' w'
  /\ _needs_input self'
     = (if in_pos in_buf =? in_size in_buf
        then needs_input_when_consumed self' ret_ ml else false).
Proof.
  intros H Hinv Hpos Hsize Hsrc Huib.
  unfold _stream_decompress_finish in H.
  apply bind_Ok_inv in H as (sg & s0 & Hg & H). injection Hg as <- <-.
  cbn [fst snd] in H.
  pose proof Hinv as (Hbe & Hbuf).
  destruct (Z.eqb_spec (in_pos in_buf) (in_size in_buf)) as [Hall|Hleft].
  - (* all the input consumed *)
    apply bind_Ok_inv in H as (u1 & [selfa wa] & Hni & H).
    assert (Ha : wa = w
                 /\ selfa = set_needs_input (needs_input_when_consumed self ret_ ml) self).
    { unfold needs_input_when_consumed, is_endless in *.
      destruct (_type self); cbn [negb] in Hni.
      - destruct ((len ret_ =? ml) || _eof self); injection Hni as _ <- <-;
          split; reflexivity.
      - destruct ((len ret_ =? ml) && negb (_at_frame_edge self)); injection Hni as _ <- <-;
          split; reflexivity. }
    destruct Ha as (-> & ->).
    rewrite Hall, Hsize, drop_len_nil.
    destruct uib.
    + unfold setattr in H. mred_in H. injection H as _ <- <-.
      split; [apply carry_over_empty; reflexivity|]. split; [|reflexivity].
      split; [cbn; lia|]. cbn [_input_buffer set_in_end set_in_begin set_needs_input
                               _input_buffer_size _in_begin _in_end].
      destruct (_input_buffer self) as [p|]; [|reflexivity].
      destruct Hbuf as (Hp & Hlen & Hend). split; [exact Hp|]. split; [exact Hlen | lia].
    + injection H as _ <- <-.
      split; [apply carry_over_empty; exact Huib|]. split; [exact Hinv | reflexivity].
  - (* some input left *)
    set (data_size := in_size in_buf - in_pos in_buf) in *.
    assert (Hds : 0 < data_size) by (subst data_size; lia).
    apply bind_Ok_inv in H as (u0 & [selfa wa] & H0 & H).
    unfold setattr in H0. mred_in H0. cbn [fst snd] in H0. injection H0 as _ <- <-.
    apply bind_Ok_inv in H as (u1 & [selfn wn] & H1 & H).
    assert (Hsn : wn = w /\ same_storage self selfn /\ _needs_input selfn = false).
    { destruct (is_endless self); injection H1 as _ <- <-; repeat split. }
    clear H1. destruct Hsn as (-> & (T1 & T2 & T3 & T4 & T5) & Hnf).
    assert (Hdrop : take (Z.to_nat data_size) (drop (Z.to_nat (in_pos in_buf)) (in_src in_buf))
                    = drop (Z.to_nat (in_pos in_buf)) merged).
    { rewrite <- Hsrc. rewrite skipn_firstn_comm. f_equal. subst data_size. lia. }
    assert (Hdl : len (drop (Z.to_nat (in_pos in_buf)) merged) = data_size).
    { unfold len in *. rewrite length_drop. subst data_size. lia. }
    destruct uib; cbn [negb] in H.
    + (* the view is in the storage: move the window's start *)
      unfold setattr in H. mred_in H. cbn [fst snd] in H.
      injection H as _ <- <-.
      split; [|split].
      * rewrite carry_over_window. cbn [_input_buffer set_in_begin _in_begin _in_end].
        rewrite T2, T4, T5. rewrite <- Huib, carry_over_window.
        destruct (_input_buffer self) as [p|]; [|rewrite drop_nil; reflexivity].
        apply window_drop; lia.
      * assert (Hcl : len merged = _in_end self - _in_begin self).
        { rewrite <- Huib, carry_over_window.
          destruct (_input_buffer self) as [p|].
          - destruct Hbuf as (Hp & Hlen & Hend). apply length_window; lia.
          - rewrite Hbuf, Z.sub_diag. reflexivity. }
        split; [cbn [set_in_begin _in_begin _in_end]; rewrite T4, T5; lia|].
        cbn [_input_buffer set_in_begin _input_buffer_size _in_end]. rewrite T2, T3, T5.
        destruct (_input_buffer self) as [p|]; [exact Hbuf|].
        cbn [set_in_begin _in_begin _in_end]. lia.
      * cbn [set_in_begin _needs_input]. exact Hnf.
    + (* the view is the caller's data: copy what is left to the storage *)
      apply bind_Ok_inv in H as (u2 & [selfb wb] & Hst & H).
      assert (Hb : exists p, _input_buffer selfb = Some p
                   /\ (p < length (heap wb))%nat
                   /\ len (memread wb p) = _input_buffer_size selfb
                   /\ data_size <= _input_buffer_size selfb
                   /\ _needs_input selfb = false).
      {         destruct (_input_buffer self) as [p|] eqn:Ep; cbn [orb] in Hst.
        2:{ unfold liftW, zoom, _new_nonzero, setattr in Hst. mred_in Hst.
            cbn [fst snd] in Hst.
            destruct (alloc_fails (allocs w)); mred_in Hst; [discriminate Hst|].
            injection Hst as _ <- <-. eexists. split; [reflexivity|].
            cbn [heap]. rewrite length_app. simpl.
            split; [lia|]. split; [|split; [lia | exact Hnf]].
            rewrite memread_app_new. apply len_fresh. lia. }
        destruct Hbuf as (Hp & Hlen & Hend).
        destruct (Z.ltb_spec (_input_buffer_size self) data_size) as [Hsmall|Hbig].
        - unfold liftW, zoom, _new_nonzero, setattr in Hst. mred_in Hst.
          cbn [fst snd] in Hst.
          destruct (alloc_fails (allocs w)); mred_in Hst; [discriminate Hst|].
          injection Hst as _ <- <-. eexists. split; [reflexivity|].
          cbn [heap]. rewrite length_app. simpl.
          split; [lia|]. split; [|split; [lia | exact Hnf]].
          rewrite memread_app_new. apply len_fresh. lia.
        - injection Hst as _ <- <-. exists p. rewrite T2, T3.
          repeat split; assumption. }
      destruct Hb as (p & Ep & Hp & Hlen & Hfit & Hnb).
      unfold liftW, zoom, memmove_input_buffer, memmove, setattr in H.
      mred_in H. cbn [fst snd] in H. rewrite Ep in H.
      injection H as _ <- <-.
      rewrite Hdrop.
      assert (Hmr : memread (memwrite p 0 (drop (Z.to_nat (in_pos in_buf)) merged) wb) p
                    = write_at (memread wb p) 0 (drop (Z.to_nat (in_pos in_buf)) merged)).
      { apply memread_memwrite_eq, Hp. }
      assert (Hroom : (0 + length (drop (Z.to_nat (in_pos in_buf)) merged)
                       <= length (memread wb p))%nat).
      { unfold len in *. lia. }
      split; [|split].
      * rewrite carry_over_window.
        cbn [_input_buffer set_in_end set_in_begin _in_begin _in_end].
        rewrite Ep, Hmr. apply window_write_at_start; [lia | lia].
      * split; [cbn [set_in_end set_in_begin _in_begin _in_end]; lia|].
        cbn [_input_buffer set_in_end set_in_begin _input_buffer_size _in_end].
        rewrite Ep. split; [rewrite heap_memwrite; exact Hp|].
        split; [|exact Hfit].
        rewrite Hmr. unfold len. rewrite length_write_at by exact Hroom. exact Hlen.
      * cbn [set_in_end set_in_begin _needs_input]. exact Hnb.
Qed.


Lemma carry_over_frame (self1 self2 : _Decompressor) (w1 w2 : World) :
  untouched_below (length (heap w1)) w1 w2 ->
  same_storage self1 self2 ->
  carry_over_inv self1 w1 ->
  carry_over_inv self2 w2 /\ carry_over self2 w2 = carry_over self1 w1.
Proof.
  intros Hu (T1 & T2 & T3 & T4 & T5) (Hbe & Hbuf). split.
  - split; [rewrite T4, T5; exact Hbe|]. rewrite T2, T3, T4, T5.
    destruct (_input_buffer self1) as [p|]; [|exact Hbuf].
    destruct Hbuf as (Hp & Hlen & Hend).
    split; [pose proof (proj1 Hu); lia|].
    split; [|exact Hend]. rewrite (untouched_memread _ _ _ _ Hu Hp). exact Hlen.
  - rewrite !carry_over_window, T2, T4, T5.
    destruct (_input_buffer self1) as [p|]; [|reflexivity].
    destruct Hbuf as (Hp & _). rewrite (untouched_memread _ _ _ _ Hu Hp). reflexivity.
Qed.

(** What a returning [_stream_decompress] did with its input. *)
Lemma stream_decompress_returns_spec (fuel : nat) (data : bytes) (max_length : Z)
  (self : _Decompressor) (w : World) (r : bytes) (self' : _Decompressor) (w' : World) :
  reads_within_input ->
  carry_over_inv self w ->
  _stream_decompress fuel data max_length (self, w) = Some (Ok r, (self', w')) ->
  exists eaten,
    carry_over self w ++ data = eaten ++ carry_over self' w'
    /\ carry_over_inv self' w'
    /\ _needs_input self'
       = match carry_over self' w' with
         | [] => needs_input_when_consumed self' r max_length
         | _ => false
         end.
Proof.
  intros Hr Hinv H. unfold _stream_decompress in H.
  apply (try_except_reraise_inv _ _ decompress_except) in H;
    [|apply decompress_except_run].
  unfold _stream_decompress_try in H.
  apply bind_Ok_inv in H as ([[ds uib] in_buf] & [self1 w1] & Hprep & H).
  apply bind_Ok_inv in H as ([b in_buf'] & [self2 w2] & Himpl & H).
  apply bind_Ok_inv in H as (u & s3 & Hfin & H).
  injection H as <- ->. cbn [fst snd] in *.
  set (merged := carry_over self w ++ data) in *.
  destruct (prepare_spec _ _ _ _ _ _ _ _ _ Hinv Hprep)
    as (Hpos & Hsize & Hsrc & Hinv1 & _ & Huib).
  fold merged in Hsize, Hsrc, Huib.
  pose proof (len_nonneg merged) as Hmn.
  assert (Hpos0 : 0 <= in_pos in_buf <= in_size in_buf) by lia.
  destruct (_decompress_impl_frame _ _ _ _ _ _ _ _ _ _ Hr Hpos0 Himpl)
    as (Hu & Hss & Hsrc' & Hsize' & Hpos').
  destruct (carry_over_frame _ _ _ _ Hu Hss Hinv1) as (Hinv2 & Hco2).
  assert (Huib2 : if uib then carry_over self2 w2 = merged
                  else _in_begin self2 = _in_end self2).
  { destruct uib; [rewrite Hco2; exact Huib|].
    destruct Hss as (_ & _ & _ & -> & ->). exact Huib. }
  destruct (finish_phase_spec _ _ _ _ _ _ _ _ _ merged Hfin Hinv2) as (Hc & Hi & Hn).
  - lia.
  - rewrite Hsize'. exact Hsize.
  - rewrite Hsize', Hsrc'. exact Hsrc.
  - exact Huib2.
  - exists (take (Z.to_nat (in_pos in_buf')) merged).
    split; [rewrite Hc; symmetry; apply take_drop|]. split; [exact Hi|].
    rewrite Hn, Hc.
    destruct (Z.eqb_spec (in_pos in_buf') (in_size in_buf')) as [E|E].
    + rewrite E, Hsize', Hsize, drop_len_nil. reflexivity.
    + destruct (drop (Z.to_nat (in_pos in_buf')) merged) eqn:Ed; [|reflexivity].
      apply (f_equal (@length byte)) in Ed. rewrite length_drop in Ed.
      unfold len in *. simpl in Ed. lia.
Qed.

End CarryOver.

Section Trace.
Context {ffi : Ffi} {m : ZstdLib}.

Lemma same_log_refl (w : World) : same_log w w.
Proof. reflexivity. Qed.

Lemma same_log_trans (w1 w2 w3 : World) : same_log w1 w2 -> same_log w2 w3 -> same_log w1 w3.
Proof. unfold same_log. congruence. Qed.

Lemma same_log_new_nonzero (n : Z) : preserves same_log (_new_nonzero n).
Proof.
  intros w r w'. unfold _new_nonzero.
  destruct (alloc_fails (allocs w)); intros H; injection H as _ <-; reflexivity.
Qed.

Lemma same_log_new_nonzero_struct : preserves same_log _new_nonzero_struct.
Proof. intros w r w' H. injection H as _ <-. reflexivity. Qed.

Lemma same_log_memmove dst doff src n : preserves same_log (memmove dst doff src n).
Proof. apply preserves_modify. intros w. reflexivity. Qed.

Ltac same_log_tac :=
  repeat first
    [ apply same_log_new_nonzero
    | apply same_log_new_nonzero_struct
    | apply same_log_memmove
    | preserves_step same_log_refl same_log_trans ].

Lemma same_log_initAndGrow ml : preserves same_log (initAndGrow ml).
Proof. unfold initAndGrow. same_log_tac. Qed.

Lemma same_log_initWithSize n : preserves same_log (initWithSize n).
Proof. unfold initWithSize. same_log_tac. Qed.

Lemma same_log_grow self out : preserves same_log (grow self out).
Proof. unfold grow. same_log_tac. Qed.

Lemma same_log_reachedMaxLength self out : preserves same_log (reachedMaxLength self out).
Proof. unfold reachedMaxLength. same_log_tac. Qed.

Lemma same_log_finish_copy final blocks :
  forall posi, preserves same_log (finish_copy final posi blocks).
Proof.
  induction blocks as [|b blocks IH]; intros posi; cbn [finish_copy].
  - same_log_tac.
  - same_log_tac. apply IH.
Qed.

Lemma same_log_finish self out : preserves same_log (finish self out).
Proof.
  unfold finish. same_log_tac;
    try apply same_log_finish_copy;
    try (destruct (blist self); same_log_tac).
Qed.

Lemma same_log_memmove_input_buffer (self : _Decompressor) off src n :
  preserves same_log (memmove_input_buffer self off src n).
Proof. unfold memmove_input_buffer. same_log_tac. Qed.

Lemma only_steps_refl (s : _Decompressor * World) : only_steps s s.
Proof. split; [exists 0%nat; reflexivity | repeat split]. Qed.

Lemma only_steps_trans (s1 s2 s3 : _Decompressor * World) :
  only_steps s1 s2 -> only_steps s2 s3 -> only_steps s1 s3.
Proof.
  intros ((n1 & H1) & A1 & B1 & C1) ((n2 & H2) & A2 & B2 & C2).
  split; [|repeat split; congruence].
  exists (n2 + n1)%nat. rewrite H2, H1, repeat_app, <- app_assoc. reflexivity.
Qed.

Lemma only_steps_liftW {A : Type} (c : M World A) :
  preserves same_log c -> preserves only_steps (liftW c).
Proof.
  intros Hc s r s'. unfold liftW, zoom.
  destruct (c (snd s)) as [[r1 w1]|] eqn:E; [|discriminate].
  intros H. injection H as _ <-. apply Hc in E.
  split; [exists 0%nat; exact E | repeat split].
Qed.

Lemma only_steps_setattr (f : _Decompressor -> _Decompressor) :
  (forall self, _unused_data (f self) = _unused_data self
                /\ d__dict (f self) = d__dict self /\ _type (f self) = _type self) ->
  preserves only_steps (setattr f).
Proof.
  intros Hf. apply preserves_modify. intros s.
  split; [exists 0%nat; reflexivity | apply Hf].
Qed.

Lemma only_steps_decompressStream out_buf in_buf :
  preserves only_steps (on_dctx (decompressStream out_buf in_buf)).
Proof.
  intros [self w] r s'. rewrite decompressStream_run. intros H. injection H as _ <-.
  split; [exists 1%nat; reflexivity | repeat split].
Qed.

Ltac only_steps_tac :=
  repeat first
    [ apply only_steps_decompressStream
    | apply only_steps_liftW
    | apply only_steps_setattr; intros ?; repeat split
    | preserves_step only_steps_refl only_steps_trans ].

Lemma only_steps_loop (fuel : nat) :
  forall out out_buf in_buf,
    preserves only_steps (_decompress_impl_loop fuel out out_buf in_buf).
Proof.
  induction fuel as [|fuel IH]; intros out out_buf in_buf; cbn [_decompress_impl_loop].
  - apply preserves_stuck.
  - only_steps_tac; try apply IH;
      first [apply same_log_reachedMaxLength | apply same_log_grow].
Qed.

Lemma only_steps_impl fuel in_buf max_length decompressed_size :
  preserves only_steps (_decompress_impl fuel in_buf max_length decompressed_size).
Proof.
  unfold _decompress_impl. only_steps_tac;
    first [ apply only_steps_loop | apply same_log_new_nonzero_struct
          | apply same_log_initAndGrow | apply same_log_initWithSize
          | apply same_log_finish ].
Qed.

Lemma only_steps_prepare data max_length :
  preserves only_steps (_stream_decompress_prepare data max_length).
Proof.
  unfold _stream_decompress_prepare. only_steps_tac;
    first [ apply same_log_new_nonzero_struct | apply same_log_new_nonzero
          | apply same_log_memmove | apply same_log_memmove_input_buffer ].
Qed.

Lemma only_steps_finish use_input_buffer in_buf ret_ max_length :
  preserves only_steps (_stream_decompress_finish use_input_buffer in_buf ret_ max_length).
Proof.
  unfold _stream_decompress_finish. only_steps_tac;
    first [ apply same_log_new_nonzero | apply same_log_memmove_input_buffer ].
Qed.

Lemma only_steps_try fuel data max_length :
  preserves only_steps (_stream_decompress_try fuel data max_length).
Proof.
  unfold _stream_decompress_try. only_steps_tac.
  - apply only_steps_prepare.
  - apply only_steps_impl.
  - apply only_steps_finish.
Qed.

(** X3. Whatever a [decompress] call does, on either kind of
    decompressor and whether it returns or raises: the only calls it makes
    on a context, which are the library calls the log records, are
    decompression steps, followed by one session reset exactly when it
    raises; it sets no parameter, loads no dictionary, frees nothing and
    calls no stream, and it leaves the dictionary, the cache of
    [unused_data] and the kind of the decompressor as they were. The
    queries that take no context, [ZSTD_isError] and, on the fast path of
    an endless decompressor, [ZSTD_getFrameContentSize], are functions of
    their arguments and are not in the log. *)
Theorem X3_decompress_calls_only_steps (fuel : nat) (data : bytes) (max_length : Z)
  (self : _Decompressor) (w : World) (r : result bytes) (self' : _Decompressor)
  (w' : World) :
  _stream_decompress fuel data max_length (self, w) = Some (r, (self', w')) ->
  (exists steps : nat,
     log w' = match r with Ok _ => [] | Raise _ => [E_DCtx_reset] end
              ++ repeat E_decompressStream steps ++ log w)
  /\ d__dict self' = d__dict self
  /\ _unused_data self' = _unused_data self
  /\ _type self' = _type self.
Proof.
  intros H. unfold _stream_decompress in H.
  apply (try_except_reraise_inv _ _ decompress_except) in H;
    [|apply decompress_except_run].
  destruct r as [b|e].
  - apply only_steps_try in H. destruct H as ((n & Hl) & Hu & Hd & Ht).
    cbn [fst snd] in *. split; [exists n; exact Hl|]. repeat split; assumption.
  - destruct H as ([self1 w1] & Hbody & Hs).
    apply only_steps_try in Hbody. destruct Hbody as ((n & Hl) & Hu & Hd & Ht).
    cbn [fst snd] in *. unfold decompress_except in Hs. cbn [fst snd] in Hs.
    injection Hs as -> ->. cbn [log]. rewrite Hl.
    split; [exists n; reflexivity|].
    rewrite <- Hd, <- Hu, <- Ht.
    destruct self1 as [ty ? ? ? ? ? ? ? ? ? ?]. destruct ty; repeat split.
Qed.

End Trace.

Section UnusedData.
Context {ffi : Ffi} {m : ZstdLib}.

Lemma py_slice_index_id (n i : Z) : 0 <= i <= n -> py_slice_index n i = i.
Proof.
  intros H. unfold py_slice_index.
  destruct (Z.ltb_spec i 0); [lia|]. destruct (Z.gtb_spec i n); [lia | reflexivity].
Qed.

Lemma py_slice_window (l : bytes) (b e : Z) :
  0 <= b <= e -> e <= len l -> py_slice l b e = window l b e.
Proof.
  intros Hb He. unfold py_slice, window.
  rewrite !py_slice_index_id by lia. reflexivity.
Qed.

(** What [unused_data] reads when the cache is empty is the carry-over. *)
Lemma unused_data_tmp (self : _Decompressor) (w : World) :
  carry_over_inv self w ->
  match _input_buffer self with
  | None => []
  | Some p => py_slice (memread w p) (_in_begin self) (_in_end self)
  end = carry_over self w.
Proof.
  intros (Hbe & Hbuf). rewrite carry_over_window.
  destruct (_input_buffer self) as [p|]; [|reflexivity].
  destruct Hbuf as (_ & Hlen & Hend). apply py_slice_window; lia.
Qed.

(** X4. On a [ZstdDecompressor] whose frame has ended, [decompress]
    raises [EOFError] for any [data], [max_length] and fuel, without a
    decompression step: the one call into the library is the session
    reset of the [except] clause. The call leaves [eof] false, [needs_input]
    true and the carry-over window empty, so the object then accepts a new
    frame. The allocation of the input struct is assumed to succeed. *)
Theorem X4_decompress_at_eof_raises_EOFError (fuel : nat) (data : bytes) (max_length : Z)
  (self : _Decompressor) (w : World) :
  _type self = DECOMPRESSOR ->
  _eof self = true ->
  alloc_fails (allocs w) = false ->
  exists self' w',
    _stream_decompress fuel data max_length (self, w) = Some (Raise EOFError, (self', w'))
    /\ log w' = E_DCtx_reset :: log w
    /\ heap w' = heap w
    /\ _dctx self' = ZSTD_DCtx_reset (_dctx self)
    /\ _eof self' = false
    /\ _needs_input self' = true
    /\ _in_begin self' = 0 /\ _in_end self' = 0
    /\ _unused_data self' = _unused_data self.
Proof.
  intros Hty Heof Halloc.
  destruct self as [ty ni ib ibs b e dc dd eof ud afe].
  cbn in Hty, Heof. subst ty eof.
  set (self := {| _type := DECOMPRESSOR; _needs_input := ni; _input_buffer := ib;
                  _input_buffer_size := ibs; _in_begin := b; _in_end := e; _dctx := dc;
                  d__dict := dd; _eof := true; _unused_data := ud;
                  _at_frame_edge := afe |}).
  set (w1 := {| heap := heap w; allocs := S (allocs w); log := log w |}).
  assert (Hbody : _stream_decompress_try fuel data max_length (self, w)
                  = Some (Raise EOFError, (self, w1))).
  { unfold _stream_decompress_try, _stream_decompress_prepare, liftW, zoom,
      _new_nonzero_struct. mred. cbn [fst snd]. rewrite Halloc. reflexivity. }
  eexists _, _. split.
  - unfold _stream_decompress, try_except_reraise. rewrite Hbody.
    rewrite decompress_except_run. reflexivity.
  - cbn. repeat split.
Qed.

End UnusedData.

Section Parameters.
Context {ffi : Ffi} {m : ZstdLib}.

Lemma int32_check (v : Z) :
  (-2147483648 <=? v) && (v <=? 2147483647) = true <-> is_int32 v.
Proof. unfold is_int32. rewrite andb_true_iff, !Z.leb_le. reflexivity. Qed.

Lemma _set_d_parameters_items_spec (items : list (Z * Z)) :
  forall (posi : Z) (d : ZSTD_DCtx) (w : World) r d' w',
    _set_d_parameters_items posi items (d, w) = Some (r, (d', w')) ->
    exists n : nat,
      (n <= length items)%nat
      /\ log w' = rev (map d_call (take n items)) ++ log w
      /\ match r with
         | Ok _ => n = length items
         | Raise (ZstdError (ZE_parameter false pos key value)) =>
             (1 <= n)%nat /\ pos = posi + Z.of_nat n - 1
             /\ items !! (n - 1)%nat = Some (key, value)
         | Raise (ValueError VE_int32_key) =>
             exists key value, items !! n = Some (key, value) /\ ~ is_int32 key
         | Raise (ValueError VE_int32_value) =>
             exists key value,
               items !! n = Some (key, value) /\ is_int32 key /\ ~ is_int32 value
         | Raise _ => False
         end.
Proof.
  induction items as [|[key value] items IH]; intros posi d w r d' w' H.
  - injection H as <- _ <-. exists 0%nat. split; [simpl; lia|]. split; reflexivity.
  - cbn [_set_d_parameters_items] in H. unfold _check_int32_value in H. mred_in H.
    destruct ((-2147483648 <=? key) && (key <=? 2147483647)) eqn:Ek; mred_in H.
    2:{ injection H as <- _ <-. exists 0%nat. split; [simpl; lia|]. split; [reflexivity|].
        exists key, value. split; [reflexivity|].
        rewrite <- int32_check, Ek. discriminate. }
    destruct ((-2147483648 <=? value) && (value <=? 2147483647)) eqn:Ev; mred_in H.
    2:{ injection H as <- _ <-. exists 0%nat. split; [simpl; lia|]. split; [reflexivity|].
        exists key, value. split; [reflexivity|].
        rewrite <- !int32_check, Ek, Ev. split; [reflexivity | discriminate]. }
    unfold DCtx_setParameter, liftW in H. mred_in H. cbn [fst snd] in H.
    destruct (ZSTD_DCtx_setParameter d key value) as [d1 zstd_ret].
    cbn [fst snd] in H.
    destruct (ZSTD_isError zstd_ret).
    + unfold _set_parameter_error in H. mred_in H. injection H as <- _ <-.
      exists 1%nat. split; [simpl; lia|]. split; [reflexivity|].
      split; [lia|]. split; [lia | reflexivity].
    + apply IH in H as (n & Hn & Hlog & Hr).
      exists (S n). split; [simpl; lia|]. split.
      * rewrite Hlog. cbn [take map rev log]. rewrite <- app_assoc. reflexivity.
      * destruct r as [u|e]; [simpl; lia|].
        destruct e as [| | | | |ve|ze]; try contradiction.
        -- destruct ve; try contradiction; exact Hr.
        -- destruct ze as [|[|] pos k v| | | | | |]; try contradiction.
           destruct Hr as (H1 & Hp & Hl). split; [lia|]. split; [lia|].
           replace (S n - 1)%nat with (S (n - 1)) by lia. exact Hl.
Qed.

(** X5. [_set_d_parameters(dctx, option)] hands the entries of [option]
    to the library one by one, in order, and stops at the first entry it
    cannot apply. When it returns, every entry was applied. When it raises
    the parameter error, the position the error names is the 1-based index
    of the entry the library rejected, and that entry was the last one
    handed over. When it raises [ValueError], the entry after the ones
    applied has a key, or else a value, outside the 32-bit signed range,
    and was not handed to the library. It raises nothing else. *)
Theorem X5_set_d_parameters_outcome (option : list (Z * Z)) (d : ZSTD_DCtx) (w : World)
  (r : result unit) (d' : ZSTD_DCtx) (w' : World) :
  _set_d_parameters option (d, w) = Some (r, (d', w')) ->
  exists n : nat,
    (n <= length option)%nat
    /\ log w' = rev (map d_call (take n option)) ++ log w
    /\ d_parameters_outcome option n r.
Proof.
  intros H. unfold _set_d_parameters in H.
  apply _set_d_parameters_items_spec in H as (n & Hn & Hlog & Hr).
  exists n. split; [exact Hn|]. split; [exact Hlog|].
  unfold d_parameters_outcome.
  destruct r as [u|e]; [exact Hr|].
  destruct e as [| | | | |ve|ze]; try contradiction; [exact Hr|].
  destruct ze as [|[|] pos k v| | | | | |]; try contradiction.
  destruct Hr as (H1 & Hp & Hl). split; [exact H1|]. split; [lia | exact Hl].
Qed.

Lemma _set_c_parameters_items_single_threaded (items : list (Z * Z)) :
  _SUPPORT_MULTITHREAD = false ->
  forall (posi level : Z) (c : ZSTD_CCtx) (w : World) r c' w',
    _set_c_parameters_items posi items level false (c, w) = Some (r, (c', w')) ->
    (exists new, log w' = new ++ log w /\ Forall single_threaded_call new)
    /\ forall level' use_multithread, r = Ok (level', use_multithread) ->
         use_multithread = false.
Proof.
  intros Hmt. induction items as [|[key value] items IH]; intros posi level c w r c' w' H.
  - injection H as <- _ <-. split; [exists []; split; [reflexivity | constructor]|].
    intros l u E. injection E as _ <-. reflexivity.
  - cbn [_set_c_parameters_items] in H. unfold _check_int32_value in H. mred_in H.
    destruct ((-2147483648 <=? key) && (key <=? 2147483647)); mred_in H.
    2:{ injection H as <- _ <-. split; [exists []; split; [reflexivity | constructor]|].
        intros ? ? E. discriminate E. }
    destruct ((-2147483648 <=? value) && (value <=? 2147483647)); mred_in H.
    2:{ injection H as <- _ <-. split; [exists []; split; [reflexivity | constructor]|].
        intros ? ? E. discriminate E. }
    rewrite Hmt in H. cbn [negb andb] in H.
    set (t := if key =? ZSTD_c_compressionLevel
              then (clamp_compression_level value, clamp_compression_level value, false)
              else if key =? ZSTD_c_nbWorkers
              then (if value >? 1 then (value, level, true)
                    else if value =? 1 then (0, level, false) else (value, level, false))
              else (value, level, false)) in H.
    assert (Ht : snd t = true -> key = ZSTD_c_nbWorkers /\ (fst (fst t) >? 0) = true).
    { subst t. destruct (key =? ZSTD_c_compressionLevel); [discriminate|].
      destruct (Z.eqb_spec key ZSTD_c_nbWorkers) as [Hk|Hk]; [|discriminate].
      destruct (Z.gtb_spec value 1) as [Hv|Hv].
      - intros _. split; [exact Hk|]. cbn [fst]. apply Z.gtb_lt. lia.
      - destruct (value =? 1); discriminate. }
    destruct t as [[value' level'] mt']. cbn [fst snd] in Ht, H.
    set (mtkey := (key =? ZSTD_c_nbWorkers) || (key =? ZSTD_c_jobSize)
                  || (key =? ZSTD_c_overlapLog)) in H.
    assert (Hkey : key = ZSTD_c_nbWorkers \/ key = ZSTD_c_jobSize \/ key = ZSTD_c_overlapLog
                   -> mtkey = true).
    { subst mtkey. intros [Hk|[Hk|Hk]]; rewrite Hk, Z.eqb_refl; cbn [orb];
        rewrite ?orb_true_r; reflexivity. }
    (* the value applied, the events of this entry, the flag after it *)
    assert (Hstep : exists applied evs w1,
              Forall single_threaded_call evs
              /\ log w1 = evs ++ log w
              /\ (if ZSTD_isError (snd (ZSTD_CCtx_setParameter c key applied))
                  then fun s => Some (Raise (ZstdError (ZE_parameter true posi key applied)), s)
                  else _set_c_parameters_items (posi + 1) items level' false)
                   (fst (ZSTD_CCtx_setParameter c key applied), w1)
                 = Some (r, (c', w'))).
    { destruct (mtkey && (value' >? 0)) eqn:Econd.
      - (* the value is replaced by 0 *)
        apply andb_true_iff in Econd as (Hk & Hv).
        destruct (key =? ZSTD_c_nbWorkers) eqn:Enb.
        + unfold CCtx_setParameter, _set_parameter_error in H. unfold liftW in H. mred_in H.
          cbn [fst snd heap allocs log] in H.
          eexists 0, [E_CCtx_setParameter key 0; E_warn], _.
          split; [|split; [|exact H]].
          * constructor; [intros _; lia|]. constructor; [exact I | constructor].
          * reflexivity.
        + unfold CCtx_setParameter, _set_parameter_error in H. unfold liftW in H. mred_in H.
          cbn [fst snd heap allocs log] in H.
          assert (mt' = false) as ->.
          { destruct mt'; [|reflexivity]. destruct (Ht eq_refl) as (-> & _).
            rewrite Z.eqb_refl in Enb. discriminate Enb. }
          eexists 0, [E_CCtx_setParameter key 0], _.
          split; [|split; [|exact H]].
          * constructor; [intros _; lia | constructor].
          * reflexivity.
      - unfold CCtx_setParameter, _set_parameter_error in H. unfold liftW in H. mred_in H.
        cbn [fst snd heap allocs log] in H.
        assert (mt' = false) as ->.
        { destruct mt'; [|reflexivity]. destruct (Ht eq_refl) as (Hk & Hv).
          rewrite (Hkey (or_introl Hk)), Hv in Econd. discriminate Econd. }
        eexists value', [E_CCtx_setParameter key value'], _.
        split; [|split; [|exact H]].
        + constructor; [|constructor]. intros Hk. apply Hkey in Hk.
          rewrite Hk in Econd. cbn [andb] in Econd.
          destruct (Z.gtb_spec value' 0); [discriminate | lia].
        + reflexivity. }
    destruct Hstep as (applied & evs & w1 & Hevs & Hlog1 & Hrun).
    destruct (ZSTD_CCtx_setParameter c key applied) as [c1 zstd_ret].
    cbn [fst snd] in Hrun.
    destruct (ZSTD_isError zstd_ret).
    + injection Hrun as <- _ <-. split; [exists evs; split; assumption|].
      intros ? ? E. discriminate E.
    + apply IH in Hrun as ((new & Hlog & Hnew) & Hflag).
      split; [|exact Hflag].
      exists (new ++ evs). split; [rewrite Hlog, Hlog1, app_assoc; reflexivity|].
      apply Forall_app. split; assumption.
Qed.

(** X6. On a build of the library without multi-threading
    ([_SUPPORT_MULTITHREAD] false), [_set_c_parameters] with a mapping
    never sets [nbWorkers], [jobSize] or [overlapLog] to a positive value:
    the only events are warnings and [setParameter] calls, and those for
    the three parameters pass a value of at most 0. When it returns, the
    multi-threading flag is false. *)
Theorem X6_no_multithreading_without_support (items : list (Z * Z)) (c : ZSTD_CCtx)
  (w : World) (r : result (Z * bool)) (c' : ZSTD_CCtx) (w' : World) :
  _SUPPORT_MULTITHREAD = false ->
  _set_c_parameters (LO_dict items) (c, w) = Some (r, (c', w')) ->
  (exists new, log w' = new ++ log w /\ Forall single_threaded_call new)
  /\ forall level use_multithread, r = Ok (level, use_multithread) ->
       use_multithread = false.
Proof.
  intros Hmt H. cbn [_set_c_parameters] in H.
  exact (_set_c_parameters_items_single_threaded items Hmt _ _ _ _ _ _ _ H).
Qed.

End Parameters.

Section Dictionaries.
Context {ffi : Ffi} {m : ZstdLib}.

Lemma _set_zstd_error_raises {S A : Type} (type : _ErrorType) (zstd_code : Z) (s : S)
  (a : A) (s' : S) :
  @_set_zstd_error m S A type zstd_code s = Some (Ok a, s') -> False.
Proof.
  unfold _set_zstd_error. mred. destruct (ZSTD_isError zstd_code); discriminate.
Qed.

(** What a successful [_get_cdict] did to the cache. *)
Lemma _get_cdict_spec {S : Type} (self : ZstdDict) (level : Z) (s : S)
  (cdict : ZSTD_CDict) (self' : ZstdDict) (s' : S) :
  _get_cdict self level s = Some (Ok (cdict, self'), s') ->
  s' = s
  /\ cdicts self' !! level = Some cdict
  /\ (forall s2 : S, _get_cdict self' level s2 = Some (Ok (cdict, self'), s2))
  /\ (forall l c, cdicts self !! l = Some c -> cdicts self' !! l = Some c)
  /\ (forall l, l <> level -> cdicts self' !! l = cdicts self !! l)
  /\ (cdicts self !! level = None ->
      ZSTD_createCDict (dict_content self) level = Some cdict)
  /\ dict_content self' = dict_content self
  /\ dict_id self' = dict_id self
  /\ ddict self' = ddict self.
Proof.
  unfold _get_cdict. intros H.
  destruct (cdicts self !! level) as [cd|] eqn:Ec.
  - injection H as <- <- <-.
    split; [reflexivity|]. split; [exact Ec|].
    split; [intros s2; rewrite Ec; reflexivity|].
    split; [intros l c Hl; exact Hl|]. split; [reflexivity|].
    split; [discriminate|]. repeat split.
  - destruct (ZSTD_createCDict (dict_content self) level) as [cd|] eqn:Ecr;
      [|discriminate H].
    injection H as <- <- <-. cbn [cdicts dict_content dict_id ddict].
    split; [reflexivity|]. split; [apply lookup_insert_eq|].
    split; [intros s2; rewrite lookup_insert_eq; reflexivity|].
    split.
    { intros l c Hl. destruct (decide (l = level)) as [->|Hne].
      - rewrite Ec in Hl. discriminate Hl.
      - rewrite lookup_insert_ne by congruence. exact Hl. }
    split; [intros l Hne; apply lookup_insert_ne; congruence|].
    split; [intros _; reflexivity|]. repeat split.
Qed.

(** X7. A [_get_cdict(level)] that returns has the [ZSTD_CDict] in the
    cache under [level]: the next call with that level returns the same
    [ZSTD_CDict] and leaves the dictionary as it is. Entries of the cache
    are never replaced and those of other levels are untouched; a
    [ZSTD_CDict] is created, from the dictionary's content and for
    [level], only when the cache had none for [level]. The content, the
    identifier and the [ZSTD_DDict] stay. *)
Theorem X7_get_cdict_caches {S : Type} (self : ZstdDict) (level : Z) (s : S)
  (cdict : ZSTD_CDict) (self' : ZstdDict) (s' : S) :
  _get_cdict self level s = Some (Ok (cdict, self'), s') ->
  s' = s
  /\ cdicts self' !! level = Some cdict
  /\ (forall s2 : S, _get_cdict self' level s2 = Some (Ok (cdict, self'), s2))
  /\ (forall l c, cdicts self !! l = Some c -> cdicts self' !! l = Some c)
  /\ (forall l, l <> level -> cdicts self' !! l = cdicts self !! l)
  /\ (cdicts self !! level = None ->
      ZSTD_createCDict (dict_content self) level = Some cdict)
  /\ dict_content self' = dict_content self
  /\ dict_id self' = dict_id self
  /\ ddict self' = ddict self.
Proof. apply _get_cdict_spec. Qed.

Lemma _set_c_parameters_items_level (items : list (Z * Z)) :
  forall (posi level : Z) (mt : bool) (s : ZSTD_CCtx * World) level' mt' s',
    _set_c_parameters_items posi items level mt s = Some (Ok (level', mt'), s') ->
    level' = fold_left (fun level kv =>
                          if fst kv =? ZSTD_c_compressionLevel
                          then clamp_compression_level (snd kv) else level) items level.
Proof.
  induction items as [|[key value] items IH]; intros posi level mt s level' mt' s' H.
  - injection H as <- _ _. reflexivity.
  - cbn [_set_c_parameters_items] in H.
    apply bind_Ok_inv in H as (u1 & s1 & _ & H).
    apply bind_Ok_inv in H as (u2 & s2 & _ & H).
    cbn [fold_left fst snd].
    set (t := if key =? ZSTD_c_compressionLevel
              then (clamp_compression_level value, clamp_compression_level value, mt)
              else if key =? ZSTD_c_nbWorkers
              then (if value >? 1 then (value, level, true)
                    else if value =? 1 then (0, level, mt) else (value, level, mt))
              else (value, level, mt)) in H.
    assert (Ht : snd (fst t) = if key =? ZSTD_c_compressionLevel
                               then clamp_compression_level value else level).
    { subst t. destruct (key =? ZSTD_c_compressionLevel); [reflexivity|].
      destruct (key =? ZSTD_c_nbWorkers); [|reflexivity].
      destruct (value >? 1); [reflexivity|]. destruct (value =? 1); reflexivity. }
    destruct t as [[value1 level1] mt1]. cbn [fst snd] in Ht. subst level1.
    apply bind_Ok_inv in H as (vu & s3 & _ & H).
    apply bind_Ok_inv in H as (zstd_ret & s4 & _ & H).
    destruct (ZSTD_isError zstd_ret); [discriminate H|].
    exact (IH _ _ _ _ _ _ _ H).
Qed.

Lemma _set_c_parameters_level (lo : level_or_option_t) (s : ZSTD_CCtx * World)
  level mt s' :
  _set_c_parameters lo s = Some (Ok (level, mt), s') ->
  level = digest_level (Some lo).
Proof.
  destruct lo as [l|items|]; cbn [_set_c_parameters digest_level]; intros H.
  - apply bind_Ok_inv in H as (u & s1 & _ & H).
    apply bind_Ok_inv in H as (zstd_ret & s2 & _ & H).
    destruct (ZSTD_isError zstd_ret); [destruct (_set_zstd_error_raises _ _ _ _ _ H)|].
    injection H as <- _ _. reflexivity.
  - exact (_set_c_parameters_items_level _ _ _ _ _ _ _ _ H).
  - discriminate H.
Qed.

(** X8. A [ZstdCompressor(level_or_option, zstd_dict)] that is
    constructed holds the dictionary with a [ZSTD_CDict] cached for the
    level in force: the clamped [level_or_option] when that is an [int],
    the clamped value of the last [compressionLevel] entry when it is a
    mapping, 0 without either. The [ZSTD_CDict] is created at that level
    when the dictionary had none for it, and no cached entry is replaced.
    The compressor's context is the one the library left when it was
    handed that very [ZSTD_CDict], on the new context as the parameters
    had left it; the library accepted it, and this is the last call
    made. *)
Theorem X8_compressor_digests_dictionary_at_level
  (level_or_option : option level_or_option_t) (zstd_dict : ZstdDict) (w : World)
  (self : ZstdCompressor) (w' : World) :
  ZstdCompressor__init__ level_or_option (Some zstd_dict) w = Some (Ok self, w') ->
  exists d cdict w1 c0 c1,
    c__dict self = Some d
    /\ cdicts d !! digest_level level_or_option = Some cdict
    /\ (cdicts zstd_dict !! digest_level level_or_option = None ->
        ZSTD_createCDict (dict_content zstd_dict) (digest_level level_or_option)
        = Some cdict)
    /\ (forall l c, cdicts zstd_dict !! l = Some c -> cdicts d !! l = Some c)
    /\ dict_content d = dict_content zstd_dict
    /\ ZSTD_createCCtx = Some c0
    /\ match level_or_option with
       | Some lo => exists r, _set_c_parameters lo (c0, w) = Some (Ok r, (c1, w1))
       | None => c1 = c0 /\ w1 = w
       end
    /\ _cctx self = fst (ZSTD_CCtx_refCDict c1 cdict)
    /\ ZSTD_isError (snd (ZSTD_CCtx_refCDict c1 cdict)) = false
    /\ w' = {| heap := heap w1; allocs := allocs w1; log := E_CCtx_refCDict :: log w1 |}
    /\ __last_mode self = FLUSH_FRAME.
Proof.
  unfold ZstdCompressor__init__. intros H.
  destruct ZSTD_createCCtx as [cctx|]; [|unfold raise in H; discriminate H].
  apply bind_Ok_inv in H as ([[mt d] c] & w1 & Hobj & H).
  injection H as <- <-. cbn [fst snd c__dict __last_mode _cctx].
  unfold with_obj in Hobj.
  match type of Hobj with
  | match ?run with _ => _ end = _ => destruct run as [[[a|e] [c2 w2]]|] eqn:Erun
  end; try discriminate Hobj.
  injection Hobj as -> -> ->.
  apply bind_Ok_inv in Erun as ([level mt0] & [c1 w0] & Hset & Erun).
  apply bind_Ok_inv in Erun as (d0 & s2 & Hload & Erun).
  injection Erun as _ <- ->. cbn [fst snd] in *.
  assert (Hlevel : level = digest_level level_or_option).
  { destruct level_or_option as [lo|].
    - exact (_set_c_parameters_level _ _ _ _ _ Hset).
    - injection Hset as <- _ _. reflexivity. }
  subst level.
  apply bind_Ok_inv in Hload as (d1 & s3 & Hload & Hret).
  injection Hret as E1 E2. subst d0 s3.
  unfold _load_c_dict in Hload.
  apply bind_Ok_inv in Hload as ([cd dd] & s4 & Hget & Hload).
  apply bind_Ok_inv in Hload as (zstd_ret & [c5 w5] & Href & Hload).
  destruct (_get_cdict_spec _ _ _ _ _ _ Hget)
    as (E4 & Hin & _ & Hkeep & _ & Hnew & Hcontent & _). subst s4.
  unfold CCtx_refCDict, liftW in Href. mred_in Href. cbn [fst snd] in Href.
  injection Href as Ez Ec Ew. subst zstd_ret c5 w5.
  destruct (ZSTD_isError (snd (ZSTD_CCtx_refCDict c1 cd))) eqn:Eerr;
    [destruct (_set_zstd_error_raises _ _ _ _ _ Hload)|].
  injection Hload as E1 E2 E3. subst d1 c w1. cbn [fst snd] in *.
  exists dd, cd, w0, cctx, c1. split; [reflexivity|]. split; [exact Hin|].
  split; [exact Hnew|]. split; [exact Hkeep|]. split; [exact Hcontent|].
  split; [reflexivity|]. split.
  { destruct level_or_option as [lo|].
    - eexists. exact Hset.
    - injection Hset as _ <- <-. split; reflexivity. }
  split; [reflexivity|]. split; [exact Eerr|].
  split; reflexivity.
Qed.

End Dictionaries.

Section Sessions.
Context {ffi : Ffi} {m : ZstdLib}.

Lemma unread_advance (i : ZSTD_inBuffer) (n : nat) :
  0 <= in_pos i -> unread (advance i n) = drop n (unread i).
Proof.
  intros H. unfold unread, advance. cbn [in_src in_size in_pos].
  rewrite skipn_firstn_comm, drop_drop. f_equal; [lia|]. f_equal. lia.
Qed.

Lemma unread_start (data : bytes) :
  unread {| in_src := data; in_size := len data; in_pos := 0 |} = data.
Proof.
  unfold unread. cbn [in_src in_size in_pos]. rewrite Z.sub_0_r.
  change (Z.to_nat 0) with 0%nat. rewrite drop_0. apply take_ge. unfold len. lia.
Qed.

(** What one call of the compression step does to the caller's state. *)
Lemma compressStream2_run (out_buf : ZSTD_outBuffer) (in_buf : ZSTD_inBuffer)
  (directive : Z) (c : ZSTD_CCtx) (w : World) :
  let r := ZSTD_compressStream2 c (Z.to_nat (out_size out_buf - out_pos out_buf))
             (unread in_buf) directive in
  compressStream2 out_buf in_buf directive (c, w)
  = Some (Ok (st_ret r,
              {| out_dst := out_dst out_buf; out_size := out_size out_buf;
                 out_pos := out_pos out_buf + len (st_written r) |},
              advance in_buf (st_consumed r)),
          (st_ctx r,
           memwrite (out_dst out_buf) (out_pos out_buf) (st_written r)
             {| heap := heap w; allocs := allocs w;
                log := E_compressStream2 directive :: log w |})).
Proof. reflexivity. Qed.

(** After a step of the library the buffer is still one that a run of
    writes and allocations produced. *)
Lemma buffer_run_lib_step w out out_buf data (written : bytes) (e : event) :
  buffer_run w out out_buf data ->
  (length written <= Z.to_nat (out_size out_buf - out_pos out_buf))%nat ->
  buffer_run
    (memwrite (out_dst out_buf) (out_pos out_buf) written
       {| heap := heap w; allocs := allocs w; log := e :: log w |})
    out
    {| out_dst := out_dst out_buf; out_size := out_size out_buf;
       out_pos := out_pos out_buf + len written |}
    (data ++ written).
Proof.
  intros Hrun Hroom.
  pose proof (inv_pos _ _ _ _ (buffer_run_inv _ _ _ _ Hrun)) as Hpos.
  eapply run_write.
  - eapply run_emit; [exact Hrun | reflexivity].
  - unfold len. lia.
  - reflexivity.
Qed.

Lemma _compress_impl_loop_session (fuel : nat) :
  compress_writes_within_room ->
  forall out out_buf in_buf directive c w b c' w' data,
    buffer_run w out out_buf data ->
    0 <= in_pos in_buf ->
    _compress_impl_loop fuel out out_buf in_buf directive (c, w) = Some (Ok b, (c', w')) ->
    exists output rest,
      b = data ++ output
      /\ compress_session directive c (unread in_buf) c' output rest 0.
Proof.
  intros Hb. induction fuel as [|fuel IH];
    intros out out_buf in_buf directive c w b c' w' data Hrun Hpos H.
  - discriminate H.
  - cbn [_compress_impl_loop] in H. unfold bind at 1 in H.
    rewrite compressStream2_run in H. cbv zeta in H. cbv beta iota in H.
    cbn [fst snd] in H.
    set (r := ZSTD_compressStream2 c (Z.to_nat (out_size out_buf - out_pos out_buf))
                (unread in_buf) directive) in *.
    pose proof (buffer_run_lib_step _ _ _ _ (st_written r) (E_compressStream2 directive)
                  Hrun (Hb _ _ _ _)) as Hrun1.
    fold r in Hrun1.
    destruct (ZSTD_isError (st_ret r)) eqn:Eerr;
      [destruct (_set_zstd_error_raises _ _ _ _ _ H)|].
    destruct (Z.eqb_spec (st_ret r) 0) as [Hz|Hz].
    + unfold liftW, zoom in H. cbn [fst snd] in H.
      match type of H with
      | match ?f with _ => _ end = _ => destruct f as [[[bf|e] wf]|] eqn:Ef
      end; try discriminate H.
      injection H as <- <- <-.
      pose proof (finish_returns_data _ _ _ _ _ _ (buffer_run_inv _ _ _ _ Hrun1) Ef) as ->.
      exists (st_written r), (drop (st_consumed r) (unread in_buf)).
      split; [reflexivity|]. rewrite <- Hz. subst r. apply cs_last. exact Eerr.
    + apply bind_Ok_inv in H as (u & s1 & Ha & H).
      match type of Ha with
      | assert ?cond _ = _ => destruct cond eqn:Efull
      end; [|discriminate Ha].
      injection Ha as _ <-.
      apply bind_Ok_inv in H as ([out2 out_buf2] & [c2 w2] & Hg & H).
      unfold liftW, zoom in Hg. cbn [fst snd] in Hg.
      match type of Hg with
      | match ?g with _ => _ end = _ => destruct g as [[[oo|e] wg]|] eqn:Eg
      end; try discriminate Hg.
      injection Hg as -> <- <-.
      pose proof (run_grow _ _ _ _ _ _ _ Hrun1 Eg) as Hrun2.
      cbn [fst snd] in H.
      assert (Hpos1 : 0 <= in_pos (advance in_buf (st_consumed r))).
      { cbn [advance in_pos]. lia. }
      destruct (IH _ _ _ _ _ _ _ _ _ _ Hrun2 Hpos1 H) as (output & rest & Hbo & Hs).
      exists (st_written r ++ output), rest.
      split; [rewrite Hbo, app_assoc; reflexivity|].
      rewrite unread_advance in Hs by exact Hpos.
      subst r. apply cs_more; assumption.
Qed.

Lemma compress_session_app (directive : Z) c input c1 out1 rest1 ret1 c2 out2 rest2 ret2 :
  compress_session directive c input c1 out1 rest1 ret1 ->
  compress_session directive c1 rest1 c2 out2 rest2 ret2 ->
  compress_session directive c input c2 (out1 ++ out2) rest2 ret2.
Proof.
  intros H1 H2. induction H1 as [c input room Herr | c input room c' output rest ret Herr _ IH].
  - apply cs_more; assumption.
  - rewrite <- app_assoc. apply cs_more; [exact Herr | apply IH, H2].
Qed.

Lemma init_buffer_run (rich_mem : bool) (n : Z) (w : World) out out_buf w' :
  (rich_mem = true -> 0 <= n) ->
  (if rich_mem then initWithSize n else initAndGrow (-1)) w = Some (Ok (out, out_buf), w') ->
  buffer_run w' out out_buf [].
Proof.
  intros Hn H. destruct rich_mem.
  - eapply run_initWithSize; [apply Hn; reflexivity | exact H].
  - eapply run_initAndGrow; exact H.
Qed.

Lemma _compress_impl_session (fuel : nat) (data : bytes) (directive : Z) (rich_mem : bool)
  (c : ZSTD_CCtx) (w : World) b c' w' :
  compress_writes_within_room ->
  (rich_mem = true -> 0 <= ZSTD_compressBound (len data)) ->
  _compress_impl fuel data directive rich_mem (c, w) = Some (Ok b, (c', w')) ->
  exists rest, compress_session directive c data c' b rest 0.
Proof.
  intros Hb Hn H. unfold _compress_impl in H.
  apply bind_Ok_inv in H as (ok1 & [c1 w1] & Hok1 & H).
  unfold liftW, zoom, _new_nonzero_struct in Hok1. cbn [fst snd] in Hok1.
  injection Hok1 as <- <- <-.
  destruct (negb (negb (alloc_fails (allocs w)))); [discriminate H|].
  apply bind_Ok_inv in H as (ok2 & [c2 w2] & Hok2 & H).
  unfold liftW, zoom, _new_nonzero_struct in Hok2. cbn [fst snd] in Hok2.
  injection Hok2 as <- <- <-.
  match type of H with
  | (if ?t then _ else _) _ = _ => destruct t
  end; [discriminate H|].
  apply bind_Ok_inv in H as ([out out_buf] & [c3 w3] & Hinit & H).
  unfold liftW, zoom in Hinit. cbn [fst snd] in Hinit.
  match type of Hinit with
  | match ?f with _ => _ end = _ => destruct f as [[[oo|e] wi]|] eqn:Ei
  end; try discriminate Hinit.
  injection Hinit as -> <- <-.
  pose proof (init_buffer_run _ _ _ _ _ _ Hn Ei) as Hrun.
  cbn [fst snd] in H.
  assert (Hp0 : 0 <= in_pos {| in_src := data; in_size := len data; in_pos := 0 |})
    by (cbn; lia).
  destruct (_compress_impl_loop_session fuel Hb _ _ _ _ _ _ _ _ _ _ Hrun Hp0 H)
    as (output & rest & Hbo & Hs).
  exists rest. rewrite unread_start in Hs. cbn [app] in Hbo. subst b. exact Hs.
Qed.

Lemma _compress_mt_continue_inner_session (fuel : nat) :
  compress_writes_within_room ->
  forall out out_buf in_buf c w zr ob ib c' w' data,
    buffer_run w out out_buf data ->
    0 <= in_pos in_buf ->
    _compress_mt_continue_inner fuel out_buf in_buf (c, w) = Some (Ok (zr, ob, ib), (c', w')) ->
    exists output,
      buffer_run w' out ob (data ++ output)
      /\ 0 <= in_pos ib
      /\ in_size ib = in_size in_buf
      /\ (ZSTD_isError zr = false ->
          compress_session ZSTD_e_continue c (unread in_buf) c' output (unread ib) zr).
Proof.
  intros Hb. induction fuel as [|fuel IH];
    intros out out_buf in_buf c w zr ob ib c' w' data Hrun Hpos H.
  - discriminate H.
  - cbn [_compress_mt_continue_inner] in H. unfold bind at 1 in H.
    rewrite compressStream2_run in H. cbv zeta in H. cbv beta iota in H.
    cbn [fst snd] in H.
    set (r := ZSTD_compressStream2 c (Z.to_nat (out_size out_buf - out_pos out_buf))
                (unread in_buf) ZSTD_e_continue) in *.
    pose proof (buffer_run_lib_step _ _ _ _ (st_written r)
                  (E_compressStream2 ZSTD_e_continue) Hrun (Hb _ _ _ _)) as Hrun1.
    fold r in Hrun1.
    assert (Hpos1 : 0 <= in_pos (advance in_buf (st_consumed r))).
    { cbn [advance in_pos]. lia. }
    match type of H with
    | (if ?stop then _ else _) _ = _ => destruct stop eqn:Estop
    end.
    + injection H as <- <- <- <- <-.
      exists (st_written r). split; [exact Hrun1|]. split; [exact Hpos1|].
      split; [reflexivity|].
      intros Herr. rewrite unread_advance by exact Hpos. subst r. apply cs_last. exact Herr.
    + apply orb_false_iff in Estop as (_ & Herr).
      destruct (IH _ _ _ _ _ _ _ _ _ _ _ Hrun1 Hpos1 H) as (output & Hr & Hp & Hsz & Hs).
      exists (st_written r ++ output).
      split; [rewrite app_assoc; exact Hr|]. split; [exact Hp|].
      split; [exact Hsz|].
      intros Hzr. specialize (Hs Hzr). rewrite unread_advance in Hs by exact Hpos.
      subst r. apply cs_more; assumption.
Qed.

Lemma unread_consumed (i : ZSTD_inBuffer) : in_pos i = in_size i -> unread i = [].
Proof. intros H. unfold unread. rewrite H, Z.sub_diag. reflexivity. Qed.

Lemma _compress_mt_continue_loop_session (fuel : nat) :
  compress_writes_within_room ->
  forall out out_buf in_buf c w b c' w' data,
    buffer_run w out out_buf data ->
    0 <= in_pos in_buf ->
    _compress_mt_continue_loop fuel out out_buf in_buf (c, w) = Some (Ok b, (c', w')) ->
    exists output ret,
      b = data ++ output
      /\ compress_session ZSTD_e_continue c (unread in_buf) c' output [] ret.
Proof.
  intros Hb. induction fuel as [|fuel IH];
    intros out out_buf in_buf c w b c' w' data Hrun Hpos H.
  - discriminate H.
  - cbn [_compress_mt_continue_loop] in H.
    apply bind_Ok_inv in H as ([[zr ob] ib] & [c1 w1] & Hin & H).
    destruct (_compress_mt_continue_inner_session fuel Hb _ _ _ _ _ _ _ _ _ _ _
                Hrun Hpos Hin) as (output1 & Hrun1 & Hpos1 & _ & Hs1).
    cbn [fst snd] in H.
    destruct (ZSTD_isError zr) eqn:Eerr;
      [destruct (_set_zstd_error_raises _ _ _ _ _ H)|].
    specialize (Hs1 eq_refl).
    destruct (Z.eqb_spec (in_pos ib) (in_size ib)) as [Hall|Hleft].
    + unfold liftW, zoom in H. cbn [fst snd] in H.
      match type of H with
      | match ?f with _ => _ end = _ => destruct f as [[[bf|e] wf]|] eqn:Ef
      end; try discriminate H.
      injection H as <- <- <-.
      pose proof (finish_returns_data _ _ _ _ _ _ (buffer_run_inv _ _ _ _ Hrun1) Ef) as ->.
      exists output1, zr. split; [reflexivity|].
      rewrite (unread_consumed _ Hall) in Hs1. exact Hs1.
    + apply bind_Ok_inv in H as (u & s1 & Ha & H).
      match type of Ha with
      | assert ?cond _ = _ => destruct cond eqn:Efull
      end; [|discriminate Ha].
      injection Ha as _ <-.
      apply bind_Ok_inv in H as ([out2 out_buf2] & [c2 w2] & Hg & H).
      unfold liftW, zoom in Hg. cbn [fst snd] in Hg.
      match type of Hg with
      | match ?g with _ => _ end = _ => destruct g as [[[oo|e] wg]|] eqn:Eg
      end; try discriminate Hg.
      injection Hg as -> <- <-.
      pose proof (run_grow _ _ _ _ _ _ _ Hrun1 Eg) as Hrun2.
      cbn [fst snd] in H.
      destruct (IH _ _ _ _ _ _ _ _ _ Hrun2 Hpos1 H) as (output & ret & Hbo & Hs).
      exists (output1 ++ output), ret.
      split; [rewrite Hbo, app_assoc; reflexivity|].
      eapply compress_session_app; eassumption.
Qed.

Lemma _compress_mt_continue_impl_session (fuel : nat) (data : bytes)
  (c : ZSTD_CCtx) (w : World) b c' w' :
  compress_writes_within_room ->
  _compress_mt_continue_impl fuel data (c, w) = Some (Ok b, (c', w')) ->
  exists ret, compress_session ZSTD_e_continue c data c' b [] ret.
Proof.
  intros Hb H. unfold _compress_mt_continue_impl in H.
  apply bind_Ok_inv in H as (ok1 & [c1 w1] & Hok1 & H).
  unfold liftW, zoom, _new_nonzero_struct in Hok1. cbn [fst snd] in Hok1.
  injection Hok1 as <- <- <-.
  destruct (negb (negb (alloc_fails (allocs w)))); [discriminate H|].
  apply bind_Ok_inv in H as (ok2 & [c2 w2] & Hok2 & H).
  unfold liftW, zoom, _new_nonzero_struct in Hok2. cbn [fst snd] in Hok2.
  injection Hok2 as <- <- <-.
  match type of H with
  | (if ?t then _ else _) _ = _ => destruct t
  end; [discriminate H|].
  apply bind_Ok_inv in H as ([out out_buf] & [c3 w3] & Hinit & H).
  unfold liftW, zoom in Hinit. cbn [fst snd] in Hinit.
  match type of Hinit with
  | match ?f with _ => _ end = _ => destruct f as [[[oo|e] wi]|] eqn:Ei
  end; try discriminate Hinit.
  injection Hinit as -> <- <-.
  pose proof (run_initAndGrow _ _ _ _ _ Ei) as Hrun.
  cbn [fst snd] in H.
  assert (Hp0 : 0 <= in_pos {| in_src := data; in_size := len data; in_pos := 0 |})
    by (cbn; lia).
  destruct (_compress_mt_continue_loop_session fuel Hb _ _ _ _ _ _ _ _ _ Hrun Hp0 H)
    as (output & ret & Hbo & Hs).
  exists ret. rewrite unread_start in Hs. cbn [app] in Hbo. subst b. exact Hs.
Qed.

(** X9. What [ZstdCompressor.compress] and [ZstdCompressor.flush]
    return is what the library wrote: provided the library never writes
    past the room it is given, a call that returns has made one or more
    compression steps with the directive [mode], none reporting an error,
    each on the context the step before left and fed the input the step
    before did not consume, starting with [data] ([b''] for [flush]); the
    bytes returned are the outputs of these steps, in order, and the
    context is the one the last step left. On the multi-threaded path of
    [compress] (mode [CONTINUE]) the steps consumed all of [data]; on every
    other path the last step returned 0. *)
Theorem X9_compress_returns_what_the_library_wrote :
  compress_writes_within_room ->
  (forall (fuel : nat) (data : bytes) (mode : Z) (self : ZstdCompressor) (w : World)
          (b : bytes) (self' : ZstdCompressor) (w' : World),
     ZstdCompressor_compress fuel data mode (self, w) = Some (Ok b, (self', w')) ->
     exists rest ret,
       compress_session mode (_cctx self) data (_cctx self') b rest ret
       /\ (if _use_multithreaded self && (mode =? CONTINUE)
           then rest = [] else ret = 0))
  /\ (forall (fuel : nat) (mode : Z) (self : ZstdCompressor) (w : World)
             (b : bytes) (self' : ZstdCompressor) (w' : World),
        ZstdCompressor_flush fuel mode (self, w) = Some (Ok b, (self', w')) ->
        exists rest, compress_session mode (_cctx self) [] (_cctx self') b rest 0).
Proof.
  intros Hb. split.
  - intros fuel data mode self w b self' w' H. unfold ZstdCompressor_compress in H.
    destruct (negb _); [discriminate H|].
    apply (try_except_reraise_inv _ _ compress_except) in H;
      [|apply compress_except_run].
    apply bind_Ok_inv in H as (sg & s0 & Hg & H). injection Hg as <- <-.
    apply bind_Ok_inv in H as (r & [self1 w1] & Hrun & H).
    unfold modify in H. mred_in H. injection H as <- <- <-.
    cbn [fst snd set_last_mode _cctx] in *.
    destruct (_use_multithreaded self && (mode =? CONTINUE)) eqn:Emt.
    + apply andb_true_iff in Emt as (_ & Hm). apply Z.eqb_eq in Hm. subst mode.
      unfold on_cctx, zoom in Hrun. cbn [fst snd] in Hrun.
      match type of Hrun with
      | match ?f with _ => _ end = _ => destruct f as [[[bf|e] [c1 wf]]|] eqn:Ef
      end; try discriminate Hrun.
      injection Hrun as -> <- <-. cbn [set_cctx _cctx fst].
      destruct (_compress_mt_continue_impl_session _ _ _ _ _ _ _ Hb Ef) as (ret & Hs).
      exists [], ret. split; [exact Hs | reflexivity].
    + unfold on_cctx, zoom in Hrun. cbn [fst snd] in Hrun.
      match type of Hrun with
      | match ?f with _ => _ end = _ => destruct f as [[[bf|e] [c1 wf]]|] eqn:Ef
      end; try discriminate Hrun.
      injection Hrun as -> <- <-. cbn [set_cctx _cctx fst].
      assert (Hnr : false = true -> 0 <= ZSTD_compressBound (len data)) by discriminate.
      destruct (_compress_impl_session _ _ _ _ _ _ _ _ _ Hb Hnr Ef)
        as (rest & Hs).
      exists rest, 0. split; [exact Hs | reflexivity].
  - intros fuel mode self w b self' w' H. unfold ZstdCompressor_flush in H.
    destruct (negb _); [discriminate H|].
    apply (try_except_reraise_inv _ _ compress_except) in H;
      [|apply compress_except_run].
    apply bind_Ok_inv in H as (r & [self1 w1] & Hrun & H).
    unfold modify in H. mred_in H. injection H as <- <- <-.
    cbn [fst snd set_last_mode _cctx] in *.
    unfold on_cctx, zoom in Hrun. cbn [fst snd] in Hrun.
    match type of Hrun with
    | match ?f with _ => _ end = _ => destruct f as [[[bf|e] [c1 wf]]|] eqn:Ef
    end; try discriminate Hrun.
    injection Hrun as -> <- <-. cbn [set_cctx _cctx fst].
    assert (Hnr : false = true -> 0 <= ZSTD_compressBound (len (@nil byte))) by discriminate.
    exact (_compress_impl_session _ _ _ _ _ _ _ _ _ Hb Hnr Ef).
Qed.

End Sessions.

Section DSessions.
Context {ffi : Ffi} {m : ZstdLib}.

Lemma is_endless_step (self : _Decompressor) (c : ZSTD_DCtx) (a b : bool) :
  is_endless (if is_endless self then set_at_frame_edge a (set_dctx c self)
              else if b then set_eof true (set_dctx c self) else set_dctx c self)
  = is_endless self.
Proof.
  destruct self as [ty ? ? ? ? ? ? ? ? ? ?]. destruct ty, b; reflexivity.
Qed.

Lemma _decompress_impl_loop_session (fuel : nat) :
  writes_within_room ->
  forall out out_buf in_buf self w res self' w' data d0 input0 out0 last0,
    buffer_run w out out_buf data ->
    0 <= in_pos in_buf ->
    decompress_session d0 input0 (_dctx self) out0 (unread in_buf) last0 ->
    _decompress_impl_loop fuel out out_buf in_buf (self, w) = Some (Ok res, (self', w')) ->
    exists output z,
      buffer_run w' (fst (fst res)) (snd (fst res)) (data ++ output)
      /\ decompress_session d0 input0 (_dctx self') (out0 ++ output)
           (unread (snd res)) (Some z)
      /\ (if is_endless self then _at_frame_edge self' = (z =? 0)
          else _eof self' = (z =? 0) || _eof self).
Proof.
  intros Hb. induction fuel as [|fuel IH];
    intros out out_buf in_buf self w res self' w' data d0 input0 out0 last0
           Hrun Hpos Hacc H.
  - discriminate H.
  - rewrite _decompress_impl_loop_unfold in H. cbv zeta in H.
    set (r := ZSTD_decompressStream (_dctx self)
                (Z.to_nat (out_size out_buf - out_pos out_buf)) (unread in_buf)) in *.
    pose proof (buffer_run_step _ _ _ _ (st_written r) Hrun (Hb _ _ _)) as Hrun1.
    fold r in Hrun1.
    set (self2 := if is_endless self
                  then set_at_frame_edge (st_ret r =? 0) (set_dctx (st_ctx r) self)
                  else if st_ret r =? 0 then set_eof true (set_dctx (st_ctx r) self)
                       else set_dctx (st_ctx r) self) in *.
    assert (Hd2 : _dctx self2 = st_ctx r).
    { subst self2. destruct (is_endless self); [|destruct (st_ret r =? 0)]; reflexivity. }
    assert (He2 : is_endless self2 = is_endless self).
    { subst self2. apply is_endless_step. }
    assert (Hf2 : if is_endless self then _at_frame_edge self2 = (st_ret r =? 0)
                  else _eof self2 = (st_ret r =? 0) || _eof self).
    { subst self2. destruct (is_endless self); [reflexivity|].
      destruct (st_ret r =? 0); reflexivity. }
    assert (Hpos1 : 0 <= in_pos (advance in_buf (st_consumed r))).
    { cbn [advance in_pos]. lia. }
    destruct (ZSTD_isError (st_ret r)) eqn:Eerr; [discriminate H|].
    assert (Hone : decompress_session d0 input0 (_dctx self2) (out0 ++ st_written r)
                     (unread (advance in_buf (st_consumed r))) (Some (st_ret r))).
    { rewrite Hd2, unread_advance by exact Hpos. subst r.
      eapply ds_step; [exact Hacc | exact Eerr]. }
    assert (Hdone : exists output z,
               buffer_run
                 (memwrite (out_dst out_buf) (out_pos out_buf) (st_written r)
                    {| heap := heap w; allocs := allocs w;
                       log := E_decompressStream :: log w |})
                 out
                 {| out_dst := out_dst out_buf; out_size := out_size out_buf;
                    out_pos := out_pos out_buf + len (st_written r) |}
                 (data ++ output)
               /\ decompress_session d0 input0 (_dctx self2) (out0 ++ output)
                    (unread (advance in_buf (st_consumed r))) (Some z)
               /\ (if is_endless self then _at_frame_edge self2 = (z =? 0)
                   else _eof self2 = (z =? 0) || _eof self)).
    { exists (st_written r), (st_ret r). split; [exact Hrun1|]. split; [exact Hone | exact Hf2]. }
    assert (Hnext : forall out2 out_buf2 w2,
               buffer_run w2 out2 out_buf2 (data ++ st_written r) ->
               (is_endless self = false -> (st_ret r =? 0) = false) ->
               _decompress_impl_loop fuel out2 out_buf2 (advance in_buf (st_consumed r))
                 (self2, w2) = Some (Ok res, (self', w')) ->
               exists output z,
                 buffer_run w' (fst (fst res)) (snd (fst res)) (data ++ output)
                 /\ decompress_session d0 input0 (_dctx self') (out0 ++ output)
                      (unread (snd res)) (Some z)
                 /\ (if is_endless self then _at_frame_edge self' = (z =? 0)
                     else _eof self' = (z =? 0) || _eof self)).
    { intros out2 out_buf2 w2 Hrun2 Hnz Hl.
      destruct (IH _ _ _ _ _ _ _ _ _ _ _ _ _ Hrun2 Hpos1 Hone Hl)
        as (output & z & Hr & Hs & Hf).
      exists (st_written r ++ output), z. split; [rewrite app_assoc; exact Hr|].
      split; [rewrite app_assoc; exact Hs|].
      rewrite He2 in Hf. destruct (is_endless self); [exact Hf|].
      rewrite Hf, Hf2, (Hnz eq_refl). reflexivity. }
    destruct (is_endless self) eqn:Eend.
    + match type of H with
      | (if ?stop then _ else _) = _ => destruct stop
      end.
      { injection H as <- <- <-. exact Hdone. }
      match type of H with
      | (if ?full then _ else _) = _ => destruct full
      end.
      * destruct (allocated out =? max_length out).
        { injection H as <- <- <-. exact Hdone. }
        match type of H with
        | match ?g with _ => _ end = _ => destruct g as [[[oo|e] w2]|] eqn:Eg
        end; try discriminate H.
        destruct oo as [out2 out_buf2].
        pose proof (run_grow _ _ _ _ _ _ _ Hrun1 Eg) as Hrun2.
        refine (Hnext _ _ _ Hrun2 _ H). discriminate.
      * match type of H with
        | (if ?c then _ else _) = _ => destruct c
        end.
        { injection H as <- <- <-. exact Hdone. }
        refine (Hnext _ _ _ Hrun1 _ H). discriminate.
    + destruct (st_ret r =? 0) eqn:Ez.
      { injection H as <- <- <-. exact Hdone. }
      match type of H with
      | (if ?full then _ else _) = _ => destruct full
      end.
      * destruct (allocated out =? max_length out).
        { injection H as <- <- <-. exact Hdone. }
        match type of H with
        | match ?g with _ => _ end = _ => destruct g as [[[oo|e] w2]|] eqn:Eg
        end; try discriminate H.
        destruct oo as [out2 out_buf2].
        pose proof (run_grow _ _ _ _ _ _ _ Hrun1 Eg) as Hrun2.
        refine (Hnext _ _ _ Hrun2 _ H). reflexivity.
      * match type of H with
        | (if ?c then _ else _) = _ => destruct c
        end.
        { injection H as <- <- <-. exact Hdone. }
        refine (Hnext _ _ _ Hrun1 _ H). reflexivity.
Qed.

Lemma _decompress_impl_session (fuel : nat) (in_buf : ZSTD_inBuffer) (ml ds : Z)
  (self : _Decompressor) (w : World) b in_buf' self' w' :
  writes_within_room ->
  0 <= in_pos in_buf ->
  0 <= ds ->
  _decompress_impl fuel in_buf ml ds (self, w) = Some (Ok (b, in_buf'), (self', w')) ->
  exists last,
    decompress_session (_dctx self) (unread in_buf) (_dctx self') b (unread in_buf') last
    /\ match last with
       | Some z => if is_endless self then _at_frame_edge self' = (z =? 0)
                   else _eof self' = (z =? 0) || _eof self
       | None => is_endless self = true /\ _at_frame_edge self' = true
                 /\ in_pos in_buf' = in_size in_buf'
       end.
Proof.
  intros Hb Hpos Hds H. unfold _decompress_impl in H.
  apply bind_Ok_inv in H as (sg & s0 & Hg & H). injection Hg as <- <-.
  cbn [fst snd] in H.
  destruct (is_endless self && _at_frame_edge self && (in_pos in_buf =? in_size in_buf))
    eqn:Efast.
  { injection H as <- <- <- <-. exists None. split; [apply ds_none|].
    apply andb_true_iff in Efast as (Hea & Hp). apply andb_true_iff in Hea as (He & Ha).
    split; [exact He|]. split; [exact Ha | apply Z.eqb_eq, Hp]. }
  apply bind_Ok_inv in H as (ok & [self0 w1] & Hok & H).
  unfold liftW, zoom, _new_nonzero_struct in Hok. cbn [fst snd] in Hok.
  injection Hok as <- <- <-.
  destruct (negb (negb (alloc_fails (allocs w)))); [discriminate H|].
  apply bind_Ok_inv in H as ([out out_buf] & [self1 w2] & Hinit & H).
  apply bind_Ok_inv in H as (res & [self2 w3] & Hloop & H).
  apply bind_Ok_inv in H as (b' & [self3 w4] & Hfin & H).
  injection H as <- <- <- <-.
  unfold liftW, zoom in Hinit. cbn [fst snd] in Hinit.
  assert (Hrun : buffer_run w2 out out_buf [] /\ self1 = self).
  { destruct (_ || _).
    - destruct (initAndGrow ml _) as [[[[o ob]|e] wi]|] eqn:Ei; try discriminate Hinit.
      injection Hinit as -> -> <- <-.
      split; [eapply run_initAndGrow; exact Ei | reflexivity].
    - destruct (initWithSize ds _) as [[[[o ob]|e] wi]|] eqn:Ei; try discriminate Hinit.
      injection Hinit as -> -> <- <-.
      split; [eapply run_initWithSize; [exact Hds | exact Ei] | reflexivity]. }
  destruct Hrun as (Hrun & ->).
  cbn [fst snd] in Hloop.
  destruct (_decompress_impl_loop_session fuel Hb _ _ _ _ _ _ _ _ _ _ _ _ _
              Hrun Hpos (ds_none _ _) Hloop) as (output & z & Hrun' & Hs & Hf).
  unfold liftW, zoom in Hfin. cbn [fst snd] in Hfin.
  destruct (finish _ _ w3) as [[[bf|e] wf]|] eqn:Ef; try discriminate Hfin.
  injection Hfin as -> <- <-.
  pose proof (finish_returns_data _ _ _ _ _ _ (buffer_run_inv _ _ _ _ Hrun') Ef) as ->.
  exists (Some z). split; [exact Hs | exact Hf].
Qed.

Lemma same_dctx_refl (s : _Decompressor * World) : same_dctx s s.
Proof. reflexivity. Qed.

Lemma same_dctx_trans (s1 s2 s3 : _Decompressor * World) :
  same_dctx s1 s2 -> same_dctx s2 s3 -> same_dctx s1 s3.
Proof. unfold same_dctx. congruence. Qed.

Lemma same_dctx_liftW {A : Type} (c : M World A) : preserves same_dctx (liftW c).
Proof.
  intros s r s'. unfold liftW, zoom. destruct (c (snd s)) as [[r1 w1]|]; [|discriminate].
  intros H. injection H as _ <-. reflexivity.
Qed.

Lemma same_dctx_setattr (f : _Decompressor -> _Decompressor) :
  (forall self, _dctx (f self) = _dctx self) -> preserves same_dctx (setattr f).
Proof. intros Hf. apply preserves_modify. intros s. apply Hf. Qed.

Ltac same_dctx_tac :=
  repeat first
    [ apply same_dctx_liftW
    | apply same_dctx_setattr; intros ?; reflexivity
    | preserves_step same_dctx_refl same_dctx_trans ].

Lemma same_dctx_prepare data max_length :
  preserves same_dctx (_stream_decompress_prepare data max_length).
Proof. unfold _stream_decompress_prepare. same_dctx_tac. Qed.

Lemma same_dctx_finish use_input_buffer in_buf ret_ max_length :
  preserves same_dctx (_stream_decompress_finish use_input_buffer in_buf ret_ max_length).
Proof. unfold _stream_decompress_finish. same_dctx_tac. Qed.

Lemma same_flags_refl (s : _Decompressor * World) : same_flags s s.
Proof. split; reflexivity. Qed.

Lemma same_flags_trans (s1 s2 s3 : _Decompressor * World) :
  same_flags s1 s2 -> same_flags s2 s3 -> same_flags s1 s3.
Proof. unfold same_flags. intros [A1 B1] [A2 B2]. split; congruence. Qed.

Lemma same_flags_liftW {A : Type} (c : M World A) : preserves same_flags (liftW c).
Proof.
  intros s r s'. unfold liftW, zoom. destruct (c (snd s)) as [[r1 w1]|]; [|discriminate].
  intros H. injection H as _ <-. split; reflexivity.
Qed.

Lemma same_flags_setattr (f : _Decompressor -> _Decompressor) :
  (forall self, _eof (f self) = _eof self /\ _at_frame_edge (f self) = _at_frame_edge self) ->
  preserves same_flags (setattr f).
Proof. intros Hf. apply preserves_modify. intros s. apply Hf. Qed.

Ltac same_flags_tac :=
  repeat first
    [ apply same_flags_liftW
    | apply same_flags_setattr; intros ?; split; reflexivity
    | preserves_step same_flags_refl same_flags_trans ].

Lemma same_flags_prepare data max_length :
  preserves same_flags (_stream_decompress_prepare data max_length).
Proof. unfold _stream_decompress_prepare. same_flags_tac. Qed.

(** The first part of the [try] leaves the flags alone, and returns only
    when the frame of a single-frame decompressor has not ended. *)
Lemma prepare_flags data max_length s p s1 :
  _stream_decompress_prepare data max_length s = Some (Ok p, s1) ->
  same_flags s s1 /\ (is_endless (fst s) = false -> _eof (fst s) = false).
Proof.
  intros H. split.
  - exact (same_flags_prepare _ _ _ _ _ H).
  - intros He. unfold _stream_decompress_prepare in H.
    apply bind_Ok_inv in H as (ok & s0 & Hok & H).
    unfold liftW, zoom, _new_nonzero_struct in Hok. cbn [fst snd] in Hok.
    injection Hok as <- <-.
    destruct (negb _); [discriminate H|].
    apply bind_Ok_inv in H as (sg & s0' & Hg & H). injection Hg as <- <-.
    apply bind_Ok_inv in H as (ds & s2 & Hds & _).
    cbn [fst snd] in Hds. rewrite He in Hds. cbn [negb] in Hds.
    destruct (_eof (fst s)); [discriminate Hds | reflexivity].
Qed.

(** What the last part of the [try] does to the flags. *)
Lemma finish_phase_flags (uib : bool) (in_buf : ZSTD_inBuffer) (ret_ : bytes) (ml : Z)
  (self : _Decompressor) (w : World) (u : unit) self' w' :
  _stream_decompress_finish uib in_buf ret_ ml (self, w) = Some (Ok u, (self', w')) ->
  _eof self' = _eof self
  /\ _at_frame_edge self'
     = if in_pos in_buf =? in_size in_buf then _at_frame_edge self
       else if is_endless self then false else _at_frame_edge self.
Proof.
  intros H. unfold _stream_decompress_finish in H.
  apply bind_Ok_inv in H as (sg & s0 & Hg & H). injection Hg as <- <-.
  cbn [fst snd] in H.
  destruct (in_pos in_buf =? in_size in_buf).
  - match type of H with
    | ?c _ = _ => assert (Hp : preserves same_flags c) by same_flags_tac
    end.
    apply Hp in H. exact H.
  - apply bind_Ok_inv in H as (u0 & [selfa wa] & H0 & H).
    unfold setattr in H0. mred_in H0. cbn [fst snd] in H0. injection H0 as _ <- <-.
    apply bind_Ok_inv in H as (u1 & [selfn wn] & H1 & H).
    match type of H with
    | ?c _ = _ => assert (Hp : preserves same_flags c) by same_flags_tac
    end.
    apply Hp in H. destruct H as (He & Ha). cbn [fst] in He, Ha.
    rewrite He, Ha.
    destruct (is_endless self); injection H1 as _ <- <-; split; reflexivity.
Qed.

Lemma prepare_size_nonneg (data : bytes) (max_length : Z) s p s1 :
  content_size_nonneg -> 0 <= ZSTD_CONTENTSIZE_UNKNOWN ->
  _stream_decompress_prepare data max_length s = Some (Ok p, s1) ->
  0 <= fst (fst p).
Proof.
  intros Hc Hu H. unfold _stream_decompress_prepare in H.
  apply bind_Ok_inv in H as (ok & s0 & _ & H).
  destruct (negb ok); [discriminate H|].
  apply bind_Ok_inv in H as (sg & s0' & _ & H).
  apply bind_Ok_inv in H as (ds & s2 & Hds & H).
  apply bind_Ok_inv in H as (ui & s3 & _ & H).
  apply bind_Ok_inv in H as (u & s4 & _ & H).
  injection H as <- _. cbn [fst].
  destruct (negb (is_endless (fst sg))).
  - destruct (_eof (fst sg)); [discriminate Hds|]. injection Hds as <- _. exact Hu.
  - destruct (_ && _); injection Hds as <- _; [apply Hc | exact Hu].
Qed.

(** The session of a returning [_stream_decompress]; [consumed] says
    whether the library was left with no input. *)
Lemma stream_decompress_session_spec (fuel : nat) (data : bytes)
  (max_length : Z) (self : _Decompressor) (w : World) (r : bytes)
  (self' : _Decompressor) (w' : World) :
  writes_within_room ->
  reads_within_input ->
  content_size_nonneg ->
  0 <= ZSTD_CONTENTSIZE_UNKNOWN ->
  carry_over_inv self w ->
  _stream_decompress fuel data max_length (self, w) = Some (Ok r, (self', w')) ->
  exists last,
    decompress_session (_dctx self) (carry_over self w ++ data) (_dctx self') r
      (carry_over self' w') last
    /\ flags_after (_type self) last (carry_over self' w') self'.
Proof.
  intros Hb Hr Hc Hu Hinv H. unfold _stream_decompress in H.
  apply (try_except_reraise_inv _ _ decompress_except) in H;
    [|apply decompress_except_run].
  unfold _stream_decompress_try in H.
  apply bind_Ok_inv in H as ([[ds uib] in_buf] & [self1 w1] & Hprep & H).
  apply bind_Ok_inv in H as ([b in_buf'] & [self2 w2] & Himpl & H).
  apply bind_Ok_inv in H as (u & [self3 w3] & Hfin & H).
  injection H as <- <- <-. cbn [fst snd] in *.
  set (merged := carry_over self w ++ data) in *.
  pose proof (prepare_size_nonneg _ _ _ _ _ Hc Hu Hprep) as Hds. cbn [fst] in Hds.
  pose proof (same_dctx_prepare _ _ _ _ _ Hprep) as Hd1.
  pose proof (same_dctx_finish _ _ _ _ _ _ _ Hfin) as Hd3.
  unfold same_dctx in Hd1, Hd3. cbn [fst] in Hd1, Hd3.
  destruct (prepare_flags _ _ _ _ _ Hprep) as ((Hpe & Hpa) & Hnoeof).
  cbn [fst] in Hpe, Hpa, Hnoeof.
  destruct (finish_phase_flags _ _ _ _ _ _ _ _ _ Hfin) as (Hfe & Hfa).
  destruct (prepare_spec _ _ _ _ _ _ _ _ _ Hinv Hprep)
    as (Hpos & Hsize & Hsrc & Hinv1 & Hty1 & Huib).
  fold merged in Hsize, Hsrc, Huib.
  pose proof (len_nonneg merged) as Hmn.
  assert (Hpos0 : 0 <= in_pos in_buf <= in_size in_buf) by lia.
  destruct (_decompress_impl_frame _ _ _ _ _ _ _ _ _ _ Hr Hpos0 Himpl)
    as (Hun & Hss & Hsrc' & Hsize' & Hpos').
  destruct (carry_over_frame _ _ _ _ Hun Hss Hinv1) as (Hinv2 & Hco2).
  assert (Huib2 : if uib then carry_over self2 w2 = merged
                  else _in_begin self2 = _in_end self2).
  { destruct uib; [rewrite Hco2; exact Huib|].
    destruct Hss as (_ & _ & _ & -> & ->). exact Huib. }
  destruct (finish_phase_spec _ _ _ _ _ _ _ _ _ merged Hfin Hinv2) as (Hcarry & _ & _).
  - lia.
  - rewrite Hsize'. exact Hsize.
  - rewrite Hsize', Hsrc'. exact Hsrc.
  - exact Huib2.
  - destruct (_decompress_impl_session _ _ _ _ _ _ _ _ _ _ Hb (proj1 Hpos0) Hds Himpl)
      as (last & Hs & Hflags).
    assert (Hin : unread in_buf = merged).
    { unfold unread. rewrite Hpos, Z.sub_0_r. change (Z.to_nat 0) with 0%nat.
      rewrite drop_0. exact Hsrc. }
    assert (Hout : unread in_buf' = carry_over self3 w3).
    { rewrite Hcarry. unfold unread. rewrite Hsize', Hsrc', <- Hsrc.
      rewrite skipn_firstn_comm. f_equal. lia. }
    assert (Hend1 : is_endless self1 = is_endless self).
    { unfold is_endless. rewrite Hty1. reflexivity. }
    assert (Hend2 : is_endless self2 = is_endless self).
    { unfold is_endless. destruct Hss as (-> & _). rewrite Hty1. reflexivity. }
    rewrite Hin, Hout, Hd1 in Hs. exists last. split; [rewrite Hd3; exact Hs|].
    (* whether input is left *)
    assert (Hleft : (in_pos in_buf' =? in_size in_buf')
                    = match carry_over self3 w3 with [] => true | _ => false end).
    { rewrite Hcarry. destruct (Z.eqb_spec (in_pos in_buf') (in_size in_buf')) as [E|E].
      - rewrite E, Hsize', Hsize, drop_len_nil. reflexivity.
      - destruct (drop (Z.to_nat (in_pos in_buf')) merged) eqn:Ed; [|reflexivity].
        apply (f_equal (@length byte)) in Ed. rewrite length_drop in Ed.
        unfold len in *. simpl in Ed. lia. }
    unfold flags_after. rewrite Hend1 in Hflags. rewrite Hend2 in Hfa.
    unfold is_endless in Hflags, Hfa, Hnoeof.
    destruct last as [z|].
    + destruct (_type self).
      * rewrite Hfe, Hflags, Hpe, (Hnoeof eq_refl). apply orb_false_r.
      * rewrite Hfa, Hflags, Hleft.
        destruct (carry_over self3 w3); [rewrite andb_true_r | rewrite andb_false_r];
          reflexivity.
    + destruct Hflags as (He & Ha & Hp). destruct (_type self); [discriminate He|].
      rewrite Hfa. apply Z.eqb_eq in Hp. rewrite Hp. exact Ha.
Qed.

(** X10. What [decompress] returns, on either kind of decompressor, is
    what the library wrote: a call that returns has made zero or more
    decompression steps, none reporting an error, each on the context the
    step before left and fed the input the step before did not consume,
    starting with the carry-over followed by [data]; the bytes returned are
    the outputs of these steps, in order, the context is the one the last
    step left and the new carry-over is the input the last step did not
    consume. Afterwards [eof], on a single-frame decompressor, says
    whether the last step returned 0; [at_frame_edge], on an endless one,
    says whether it returned 0 and no input is left, and a call without a
    step leaves it true. The library is assumed to stay within the room and
    the input it is given and to report sizes that are not negative. *)
Theorem X10_decompress_returns_what_the_library_wrote (fuel : nat) (data : bytes)
  (max_length : Z) (self : _Decompressor) (w : World) (r : bytes)
  (self' : _Decompressor) (w' : World) :
  writes_within_room ->
  reads_within_input ->
  content_size_nonneg ->
  0 <= ZSTD_CONTENTSIZE_UNKNOWN ->
  carry_over_inv self w ->
  _stream_decompress fuel data max_length (self, w) = Some (Ok r, (self', w')) ->
  exists last,
    decompress_session (_dctx self) (carry_over self w ++ data) (_dctx self') r
      (carry_over self' w') last
    /\ flags_after (_type self) last (carry_over self' w') self'.
Proof. apply stream_decompress_session_spec. Qed.

(** X1. A [decompress] call that returns, on either kind of decompressor,
    keeps exactly the input the library did not consume: the carry-over it
    leaves is what the last step of the session over the carry-over found
    followed by [data] left unconsumed, no byte more and none less, and the
    window of the carry-over still lies in its storage, so that the next
    call finds it. [needs_input] is false when input is left; when none is
    left it is false on a single-frame decompressor exactly when the output
    has [max_length] bytes or the frame ended, and on an endless one
    exactly when the output has [max_length] bytes and the call did not
    stop at a frame edge. The library is assumed to stay within the room
    and the input it is given and to report sizes that are not negative. *)
Theorem X1_decompress_keeps_unconsumed_input (fuel : nat) (data : bytes) (max_length : Z)
  (self : _Decompressor) (w : World) (r : bytes) (self' : _Decompressor) (w' : World) :
  writes_within_room ->
  reads_within_input ->
  content_size_nonneg ->
  0 <= ZSTD_CONTENTSIZE_UNKNOWN ->
  carry_over_inv self w ->
  _stream_decompress fuel data max_length (self, w) = Some (Ok r, (self', w')) ->
  exists last,
    decompress_session (_dctx self) (carry_over self w ++ data) (_dctx self') r
      (carry_over self' w') last
    /\ carry_over_inv self' w'
    /\ _needs_input self'
       = match carry_over self' w' with
         | [] => needs_input_when_consumed self' r max_length
         | _ => false
         end.
Proof.
  intros Hb Hr Hc Hu Hinv H.
  destruct (stream_decompress_session_spec _ _ _ _ _ _ _ _ Hb Hr Hc Hu Hinv H)
    as (last & Hs & _).
  destruct (stream_decompress_returns_spec _ _ _ _ _ _ _ _ Hr Hinv H)
    as (_ & _ & Hinv' & Hni).
  exists last. split; [exact Hs|]. split; [exact Hinv' | exact Hni].
Qed.

(** X2. After a [decompress] call that returned on a [ZstdDecompressor]
    whose [unused_data] was never read: while the frame has not ended
    ([eof] is false), [unused_data] is [b''] and reading it changes
    nothing; once the frame has ended, the last step of the call's session
    returned 0 and [unused_data] is exactly the input that step left
    unconsumed, the bytes after the frame. Reading it again, whatever the
    memory holds by then, gives the same bytes. The library is assumed to
    stay within the room and the input it is given and to report sizes
    that are not negative. *)
Theorem X2_unused_data_after_decompress (fuel : nat) (data : bytes) (max_length : Z)
  (self : _Decompressor) (w : World) (r : bytes) (self1 : _Decompressor) (w1 : World) :
  writes_within_room ->
  reads_within_input ->
  content_size_nonneg ->
  0 <= ZSTD_CONTENTSIZE_UNKNOWN ->
  carry_over_inv self w ->
  _type self = DECOMPRESSOR ->
  _unused_data self = None ->
  _stream_decompress fuel data max_length (self, w) = Some (Ok r, (self1, w1)) ->
  exists u self2 rest last,
    decompress_session (_dctx self) (carry_over self w ++ data) (_dctx self1) r rest last
    /\ ZstdDecompressor_unused_data (self1, w1) = Some (Ok u, (self2, w1))
    /\ (if _eof self1
        then last = Some 0 /\ u = rest
        else u = [] /\ self2 = self1)
    /\ forall w2, ZstdDecompressor_unused_data (self2, w2) = Some (Ok u, (self2, w2)).
Proof.
  intros Hb Hr Hc Hu Hinv Hty Hnone H.
  destruct (stream_decompress_session_spec _ _ _ _ _ _ _ _ Hb Hr Hc Hu Hinv H)
    as (last & Hs & Hf).
  destruct (stream_decompress_returns_spec _ _ _ _ _ _ _ _ Hr Hinv H)
    as (_ & _ & Hinv1 & _).
  assert (Hu1 : _unused_data self1 = None).
  { unfold _stream_decompress in H.
    apply (try_except_reraise_inv _ _ decompress_except) in H;
      [|apply decompress_except_run].
    apply only_steps_try in H. destruct H as (_ & Hud & _). cbn [fst] in Hud.
    rewrite Hud. exact Hnone. }
  unfold ZstdDecompressor_unused_data, setattr. mred. cbn [fst snd].
  destruct (_eof self1) eqn:Eeof; cbn [negb].
  - rewrite Hu1. rewrite (unused_data_tmp _ _ Hinv1).
    eexists _, _, (carry_over self1 w1), last. split; [exact Hs|].
    split; [reflexivity|]. split.
    + split; [|reflexivity]. unfold flags_after in Hf. rewrite Hty in Hf.
      destruct last as [z|]; [|contradiction].
      rewrite Eeof in Hf. symmetry in Hf. apply Z.eqb_eq in Hf. subst z. reflexivity.
    + intros w2. cbn [fst snd _eof set_unused_data _unused_data]. rewrite Eeof.
      reflexivity.
  - exists [], self1, (carry_over self1 w1), last. split; [exact Hs|].
    split; [reflexivity|]. split; [split; reflexivity|].
    intros w2. rewrite Eeof. reflexivity.
Qed.

(** C7. After a [decompress] call that returns, on either kind of
    decompressor: the input the library left unconsumed, of the carry-over
    found followed by [data], is what the carry-over buffer holds, within
    its storage. When input is left, [needs_input] is false. When all of
    it was consumed, [needs_input] is, on a single-frame decompressor,
    false exactly when the output has [max_length] bytes or the frame has
    ended ([eof]); on an endless decompressor, false exactly when the
    output has [max_length] bytes and the decompressor is not at a frame
    edge. The library is assumed to stay within the room and the input it
    is given and to report sizes that are not negative. *)
Theorem C7_needs_input_after_decompress (fuel : nat) (data : bytes) (max_length : Z)
  (self : _Decompressor) (w : World) (r : bytes) (self' : _Decompressor) (w' : World) :
  writes_within_room ->
  reads_within_input ->
  content_size_nonneg ->
  0 <= ZSTD_CONTENTSIZE_UNKNOWN ->
  carry_over_inv self w ->
  _stream_decompress fuel data max_length (self, w) = Some (Ok r, (self', w')) ->
  exists unconsumed last,
    decompress_session (_dctx self) (carry_over self w ++ data) (_dctx self') r
      unconsumed last
    /\ carry_over self' w' = unconsumed
    /\ carry_over_inv self' w'
    /\ _type self' = _type self
    /\ match unconsumed with
       | [] =>
           match _type self with
           | DECOMPRESSOR =>
               _needs_input self' = negb ((len r =? max_length) || _eof self')
           | ENDLESS_DECOMPRESSOR =>
               _needs_input self'
               = negb ((len r =? max_length) && negb (_at_frame_edge self'))
           end
       | _ :: _ => _needs_input self' = false
       end.
Proof.
  intros Hb Hr Hc Hu Hinv H.
  destruct (stream_decompress_session_spec _ _ _ _ _ _ _ _ Hb Hr Hc Hu Hinv H)
    as (last & Hs & _).
  destruct (stream_decompress_returns_spec _ _ _ _ _ _ _ _ Hr Hinv H)
    as (_ & _ & Hinv' & Hni).
  assert (Hty : _type self' = _type self).
  { unfold _stream_decompress in H.
    apply (try_except_reraise_inv _ _ decompress_except) in H;
      [|apply decompress_except_run].
    apply same_type_try in H. exact H. }
  exists (carry_over self' w'), last.
  split; [exact Hs|]. split; [reflexivity|]. split; [exact Hinv'|].
  split; [exact Hty|].
  destruct (carry_over self' w'); [|exact Hni].
  unfold needs_input_when_consumed in Hni. rewrite Hty in Hni.
  destruct (_type self); exact Hni.
Qed.

End DSessions.

Section RichMem.
Context {ffi : Ffi} {m : ZstdLib}.

Lemma richmem_except_run (s : RichMemZstdCompressor * World) :
  on_r_cctx CCtx_reset s = Some (Ok tt, richmem_except s).
Proof. reflexivity. Qed.

(** In rich memory mode the first step has room for the compression
    bound; when it completes the frame, its output is the result. *)
Lemma _compress_impl_rich_first_step (fuel : nat) (data : bytes) (directive : Z)
  (c : ZSTD_CCtx) (w : World) b c' w' :
  compress_writes_within_room ->
  0 <= ZSTD_compressBound (len data) ->
  _compress_impl fuel data directive true (c, w) = Some (Ok b, (c', w')) ->
  let r := ZSTD_compressStream2 c (Z.to_nat (ZSTD_compressBound (len data))) data
             directive in
  st_ret r = 0 -> b = st_written r /\ c' = st_ctx r.
Proof.
  intros Hb Hn H r Hz. unfold _compress_impl in H.
  apply bind_Ok_inv in H as (ok1 & [c1 w1] & Hok1 & H).
  unfold liftW, zoom, _new_nonzero_struct in Hok1. cbn [fst snd] in Hok1.
  injection Hok1 as <- <- <-.
  destruct (negb (negb (alloc_fails (allocs w)))); [discriminate H|].
  apply bind_Ok_inv in H as (ok2 & [c2 w2] & Hok2 & H).
  unfold liftW, zoom, _new_nonzero_struct in Hok2. cbn [fst snd] in Hok2.
  injection Hok2 as <- <- <-.
  match type of H with
  | (if ?t then _ else _) _ = _ => destruct t
  end; [discriminate H|].
  apply bind_Ok_inv in H as ([out out_buf] & [c3 w3] & Hinit & H).
  unfold liftW, zoom in Hinit. cbn [fst snd] in Hinit.
  match type of Hinit with
  | match ?f with _ => _ end = _ => destruct f as [[[oo|e] wi]|] eqn:Ei
  end; try discriminate Hinit.
  injection Hinit as -> <- <-.
  pose proof (run_initWithSize _ _ _ _ _ Hn Ei) as Hrun.
  assert (Hroom : out_size out_buf - out_pos out_buf = ZSTD_compressBound (len data)).
  { unfold initWithSize, _new_nonzero in Ei. mred_in Ei.
    destruct (alloc_fails _); mred_in Ei; [discriminate Ei|].
    injection Ei as _ <- _. cbn. lia. }
  cbn [fst snd] in H.
  destruct fuel as [|fuel]; [discriminate H|].
  cbn [_compress_impl_loop] in H. unfold bind at 1 in H.
  rewrite compressStream2_run in H. cbv zeta in H. cbv beta iota in H.
  cbn [fst snd] in H.
  rewrite Hroom, unread_start in H. fold r in H.
  pose proof (buffer_run_lib_step _ _ _ _ (st_written r) (E_compressStream2 directive)
                Hrun) as Hrun1.
  rewrite Hroom in Hrun1. specialize (Hrun1 (Hb _ _ _ _)).
  destruct (ZSTD_isError (st_ret r)) eqn:Eerr;
    [destruct (_set_zstd_error_raises _ _ _ _ _ H)|].
  rewrite Hz in H. cbn [Z.eqb] in H.
  unfold liftW, zoom in H. cbn [fst snd] in H.
  match type of H with
  | match ?f with _ => _ end = _ => destruct f as [[[bf|e] wf]|] eqn:Ef
  end; try discriminate H.
  injection H as <- <- <-.
  pose proof (finish_returns_data _ _ _ _ _ _ (buffer_run_inv _ _ _ _ Hrun1) Ef) as ->.
  split; reflexivity.
Qed.

(** X11. [RichMemZstdCompressor.compress(data)] ends the frame: when it
    returns, the bytes returned are the outputs, in order, of one or more
    compression steps with [ZSTD_e_end] that started with [data], the last
    of which returned 0. The first step has room for
    [ZSTD_compressBound(len(data))] bytes, so that when it completes the
    frame its output is the result. When the call raises, the session
    reset is the last thing that happened to the context and to the world.
    The flag and the dictionary stay in both cases. The library is assumed
    not to write past the room it is given and to report a bound that is
    not negative. *)
Theorem X11_richmem_compress_outcome (fuel : nat) (data : bytes)
  (self : RichMemZstdCompressor) (w : World) (r : result bytes)
  (self' : RichMemZstdCompressor) (w' : World) :
  compress_writes_within_room ->
  0 <= ZSTD_compressBound (len data) ->
  RichMemZstdCompressor_compress fuel data (self, w) = Some (r, (self', w')) ->
  r_use_multithreaded self' = r_use_multithreaded self
  /\ r__dict self' = r__dict self
  /\ match r with
     | Ok b =>
         (exists rest,
            compress_session ZSTD_e_end (r_cctx self) data (r_cctx self') b rest 0)
         /\ let first := ZSTD_compressStream2 (r_cctx self)
                           (Z.to_nat (ZSTD_compressBound (len data))) data ZSTD_e_end in
            (st_ret first = 0 -> b = st_written first /\ r_cctx self' = st_ctx first)
     | Raise _ =>
         exists c1 w1,
           r_cctx self' = ZSTD_CCtx_reset c1
           /\ w' = {| heap := heap w1; allocs := allocs w1;
                      log := E_CCtx_reset :: log w1 |}
     end.
Proof.
  intros Hb Hn H. unfold RichMemZstdCompressor_compress in H.
  apply (try_except_reraise_inv _ _ richmem_except) in H;
    [|apply richmem_except_run].
  destruct r as [b|e].
  - unfold on_r_cctx, zoom in H. cbn [fst snd] in H.
    match type of H with
    | match ?f with _ => _ end = _ => destruct f as [[[bf|e] [c1 wf]]|] eqn:Ef
    end; try discriminate H.
    injection H as -> <- <-. cbn [r_use_multithreaded r__dict r_cctx].
    split; [reflexivity|]. split; [reflexivity|]. split.
    + exact (_compress_impl_session _ _ _ _ _ _ _ _ _ Hb (fun _ => Hn) Ef).
    + exact (_compress_impl_rich_first_step _ _ _ _ _ _ _ _ Hb Hn Ef).
  - destruct H as ([self1 w1] & Hbody & Hs).
    unfold on_r_cctx, zoom in Hbody. cbn [fst snd] in Hbody.
    match type of Hbody with
    | match ?f with _ => _ end = _ => destruct f as [[[bf|e1] [c1 wf]]|] eqn:Ef
    end; try discriminate Hbody.
    injection Hbody as _ <- <-. unfold richmem_except in Hs. cbn [fst snd] in Hs.
    injection Hs as -> ->. cbn [r_use_multithreaded r__dict r_cctx].
    split; [reflexivity|]. split; [reflexivity|].
    eexists _, _. split; reflexivity.
Qed.

End RichMem.

Section Unbounded.
Context {ffi : Ffi} {m : ZstdLib}.

Lemma _decompress_impl_loop_consumes_all (fuel : nat) :
  writes_within_room ->
  forall out out_buf in_buf self w res s' data,
    buffer_run w out out_buf data ->
    max_length out < 0 ->
    is_endless self = true ->
    _decompress_impl_loop fuel out out_buf in_buf (self, w) = Some (Ok res, s') ->
    in_pos (snd res) = in_size (snd res).
Proof.
  intros Hb. induction fuel as [|fuel IH];
    intros out out_buf in_buf self w res s' data Hrun Hml Hend H.
  - discriminate H.
  - rewrite _decompress_impl_loop_unfold in H. cbv zeta in H.
    set (r := ZSTD_decompressStream (_dctx self)
                (Z.to_nat (out_size out_buf - out_pos out_buf)) (unread in_buf)) in *.
    pose proof (buffer_run_step _ _ _ _ (st_written r) Hrun (Hb _ _ _)) as Hrun1.
    fold r in Hrun1.
    rewrite Hend in H.
    assert (He2 : is_endless (set_at_frame_edge (st_ret r =? 0)
                                (set_dctx (st_ctx r) self)) = true) by exact Hend.
    destruct (ZSTD_isError (st_ret r)); [discriminate H|].
    destruct ((st_ret r =? 0)
              && (in_pos (advance in_buf (st_consumed r))
                  =? in_size (advance in_buf (st_consumed r)))) eqn:Estop.
    { injection H as <- _. cbn [snd]. apply andb_true_iff in Estop as (_ & Hp).
      apply Z.eqb_eq, Hp. }
    match type of H with
    | (if ?full then _ else _) = _ => destruct full
    end.
    + pose proof (buffer_run_inv _ _ _ _ Hrun1) as Hinv1.
      pose proof (inv_alloc _ _ _ _ Hinv1) as Halloc.
      pose proof (len_nonneg (block_data
                    (memwrite (out_dst out_buf) (out_pos out_buf) (st_written r)
                       {| heap := heap w; allocs := allocs w;
                          log := E_decompressStream :: log w |}) (blist out))) as Hnn.
      destruct (Z.eqb_spec (allocated out) (max_length out)) as [Heq|_]; [lia|].
      match type of H with
      | match ?g with _ => _ end = _ => destruct g as [[[oo|e] w2]|] eqn:Eg
      end; try discriminate H.
      destruct oo as [out2 out_buf2].
      pose proof (run_grow _ _ _ _ _ _ _ Hrun1 Eg) as Hrun2.
      apply grow_ok in Eg as (bs & _ & _ & _ & Hout2 & _ & _).
      refine (IH _ _ _ _ _ _ _ _ Hrun2 _ He2 H). rewrite Hout2. exact Hml.
    + destruct (Z.eqb_spec (in_pos (advance in_buf (st_consumed r)))
                  (in_size (advance in_buf (st_consumed r)))) as [Hp|_].
      { injection H as <- _. exact Hp. }
      exact (IH _ _ _ _ _ _ _ _ Hrun1 Hml He2 H).
Qed.

Lemma _decompress_impl_consumes_all (fuel : nat) (in_buf : ZSTD_inBuffer) (ml ds : Z)
  (self : _Decompressor) (w : World) b in_buf' s' :
  writes_within_room ->
  is_endless self = true ->
  ml < 0 ->
  0 <= ds ->
  _decompress_impl fuel in_buf ml ds (self, w) = Some (Ok (b, in_buf'), s') ->
  in_pos in_buf' = in_size in_buf'.
Proof.
  intros Hb Hend Hml Hds H. unfold _decompress_impl in H.
  apply bind_Ok_inv in H as (sg & s0 & Hg & H). injection Hg as <- <-.
  cbn [fst snd] in H.
  destruct (is_endless self && _at_frame_edge self && (in_pos in_buf =? in_size in_buf))
    eqn:Efast.
  { injection H as _ <- _. apply andb_true_iff in Efast as (_ & Hp).
    apply Z.eqb_eq, Hp. }
  apply bind_Ok_inv in H as (ok & [self0 w1] & Hok & H).
  unfold liftW, zoom, _new_nonzero_struct in Hok. cbn [fst snd] in Hok.
  injection Hok as <- <- <-.
  destruct (negb (negb (alloc_fails (allocs w)))); [discriminate H|].
  apply bind_Ok_inv in H as ([out out_buf] & [self1 w2] & Hinit & H).
  apply bind_Ok_inv in H as (res & [self2 w3] & Hloop & H).
  apply bind_Ok_inv in H as (b' & s4 & Hfin & H).
  injection H as _ <- _.
  unfold liftW, zoom in Hinit. cbn [fst snd] in Hinit.
  assert (Hrun : buffer_run w2 out out_buf [] /\ self1 = self /\ max_length out < 0).
  { destruct (_ || _).
    - destruct (initAndGrow ml _) as [[[[o ob]|e] wi]|] eqn:Ei; try discriminate Hinit.
      injection Hinit as -> -> <- <-.
      split; [eapply run_initAndGrow; exact Ei|]. split; [reflexivity|].
      unfold initAndGrow, _new_nonzero in Ei. mred_in Ei.
      destruct (alloc_fails _); mred_in Ei; [discriminate Ei|].
      injection Ei as <- _ _. exact Hml.
    - destruct (initWithSize ds _) as [[[[o ob]|e] wi]|] eqn:Ei; try discriminate Hinit.
      injection Hinit as -> -> <- <-.
      split; [eapply run_initWithSize; [exact Hds | exact Ei]|]. split; [reflexivity|].
      unfold initWithSize, _new_nonzero in Ei. mred_in Ei.
      destruct (alloc_fails _); mred_in Ei; [discriminate Ei|].
      injection Ei as <- _ _. cbn. lia. }
  destruct Hrun as (Hrun & -> & Hm).
  cbn [fst snd] in Hloop.
  exact (_decompress_impl_loop_consumes_all fuel Hb _ _ _ _ _ _ _ _ Hrun Hm Hend Hloop).
Qed.

(** An endless decompressor called without a cap is left with no input. *)
Lemma endless_unbounded_spec (fuel : nat) (data : bytes) (max_length : Z)
  (self : _Decompressor) (w : World) (r : bytes) (self' : _Decompressor) (w' : World) :
  writes_within_room ->
  reads_within_input ->
  content_size_nonneg ->
  0 <= ZSTD_CONTENTSIZE_UNKNOWN ->
  carry_over_inv self w ->
  _type self = ENDLESS_DECOMPRESSOR ->
  max_length < 0 ->
  _stream_decompress fuel data max_length (self, w) = Some (Ok r, (self', w')) ->
  carry_over self' w' = []
  /\ _needs_input self' = true
  /\ exists last,
       decompress_session (_dctx self) (carry_over self w ++ data) (_dctx self') r [] last
       /\ _at_frame_edge self' = match last with Some z => z =? 0 | None => true end.
Proof.
  intros Hb Hr Hc Hu Hinv Hty Hml H.
  assert (Hcarry : carry_over self' w' = []).
  { unfold _stream_decompress in H.
    apply (try_except_reraise_inv _ _ decompress_except) in H;
      [|apply decompress_except_run].
    unfold _stream_decompress_try in H.
    apply bind_Ok_inv in H as ([[ds uib] in_buf] & [self1 w1] & Hprep & H).
    apply bind_Ok_inv in H as ([b in_buf'] & [self2 w2] & Himpl & H).
    apply bind_Ok_inv in H as (u & [self3 w3] & Hfin & H).
    injection H as <- <- <-. cbn [fst snd] in *.
    set (merged := carry_over self w ++ data) in *.
    pose proof (prepare_size_nonneg _ _ _ _ _ Hc Hu Hprep) as Hds. cbn [fst] in Hds.
    destruct (prepare_spec _ _ _ _ _ _ _ _ _ Hinv Hprep)
      as (Hpos & Hsize & Hsrc & Hinv1 & Hty1 & Huib).
    fold merged in Hsize, Hsrc, Huib.
    pose proof (len_nonneg merged) as Hmn.
    assert (Hpos0 : 0 <= in_pos in_buf <= in_size in_buf) by lia.
    destruct (_decompress_impl_frame _ _ _ _ _ _ _ _ _ _ Hr Hpos0 Himpl)
      as (Hun & Hss & Hsrc' & Hsize' & Hpos').
    destruct (carry_over_frame _ _ _ _ Hun Hss Hinv1) as (Hinv2 & Hco2).
    assert (Huib2 : if uib then carry_over self2 w2 = merged
                    else _in_begin self2 = _in_end self2).
    { destruct uib; [rewrite Hco2; exact Huib|].
      destruct Hss as (_ & _ & _ & -> & ->). exact Huib. }
    assert (Hend1 : is_endless self1 = true).
    { unfold is_endless. rewrite Hty1, Hty. reflexivity. }
    pose proof (_decompress_impl_consumes_all _ _ _ _ _ _ _ _ _ Hb Hend1 Hml Hds Himpl)
      as Hall.
    destruct (finish_phase_spec _ _ _ _ _ _ _ _ _ merged Hfin Hinv2) as (Hcarry & _ & _).
    - lia.
    - rewrite Hsize'. exact Hsize.
    - rewrite Hsize', Hsrc'. exact Hsrc.
    - exact Huib2.
    - rewrite Hcarry, Hall, Hsize', Hsize. apply drop_len_nil. }
  destruct (stream_decompress_returns_spec _ _ _ _ _ _ _ _ Hr Hinv H)
    as (_ & _ & _ & Hni).
  destruct (stream_decompress_session_spec _ _ _ _ _ _ _ _ Hb Hr Hc Hu Hinv H)
    as (last & Hs & Hf).
  assert (Hty' : _type self' = ENDLESS_DECOMPRESSOR).
  { unfold _stream_decompress in H.
    apply (try_except_reraise_inv _ _ decompress_except) in H;
      [|apply decompress_except_run].
    apply same_type_try in H. unfold same_type in H. cbn [fst] in H. congruence. }
  rewrite Hcarry in Hni, Hs, Hf. split; [exact Hcarry|]. split.
  - rewrite Hni. unfold needs_input_when_consumed. rewrite Hty'.
    pose proof (len_nonneg r).
    destruct (Z.eqb_spec (len r) max_length); [lia | reflexivity].
  - exists last. split; [exact Hs|]. unfold flags_after in Hf. rewrite Hty in Hf.
    destruct last as [z|]; [rewrite Hf; apply andb_true_r | exact Hf].
Qed.

(** X12. An [EndlessZstdDecompressor.decompress] call without a length
    cap ([max_length] negative) that returns has handed all its input to
    the library: no carry-over is left and [needs_input] is true. The
    bytes returned are what the library wrote in a session over the old
    carry-over followed by [data], and [at_frame_edge] says whether the
    last step of that session returned 0; it stays true when no step was
    made. The library is assumed to stay within the room and the input it
    is given and to report sizes that are not negative. *)
Theorem X12_endless_unbounded_consumes_all (fuel : nat) (data : bytes) (max_length : Z)
  (self : _Decompressor) (w : World) (r : bytes) (self' : _Decompressor) (w' : World) :
  writes_within_room ->
  reads_within_input ->
  content_size_nonneg ->
  0 <= ZSTD_CONTENTSIZE_UNKNOWN ->
  carry_over_inv self w ->
  _type self = ENDLESS_DECOMPRESSOR ->
  max_length < 0 ->
  _stream_decompress fuel data max_length (self, w) = Some (Ok r, (self', w')) ->
  carry_over self' w' = []
  /\ _needs_input self' = true
  /\ exists last,
       decompress_session (_dctx self) (carry_over self w ++ data) (_dctx self') r [] last
       /\ _at_frame_edge self' = match last with Some z => z =? 0 | None => true end.
Proof. apply endless_unbounded_spec. Qed.

(** What a constructed decompressor is. *)
Lemma _Decompressor__init__returns (type : _Decompressor_type)
  (zstd_dict : option ZstdDict) (option : option (list (Z * Z))) (w : World)
  (self : _Decompressor) (w1 : World) :
  _Decompressor__init__ type zstd_dict option w = Some (Ok self, w1) ->
  _type self = type /\ _needs_input self = true /\ _input_buffer self = None
  /\ _in_begin self = 0 /\ _in_end self = 0 /\ _eof self = false
  /\ _unused_data self = None /\ _at_frame_edge self = true.
Proof.
  unfold _Decompressor__init__. intros H.
  destruct ZSTD_createDCtx as [dctx|]; [|unfold raise in H; discriminate H].
  apply bind_Ok_inv in H as (r & w2 & _ & H). injection H as <- _.
  repeat split.
Qed.

(** X13. The function [decompress(data, zstd_dict, option)], once its
    decompressor is constructed. It returns only when the library has
    consumed all of [data] and the last step, if there was one, returned 0,
    the end of a frame; what it returns is what the library wrote. It
    raises either what the decompressor's [decompress] raised or, when the
    library has consumed all of [data] and its last step did not return 0,
    the incomplete-frame error with the number of bytes decompressed. The
    library is assumed to stay within the room and the input it is given
    and to report sizes that are not negative. *)
Theorem X13_one_shot_decompress (fuel : nat) (data : bytes) (zstd_dict : option ZstdDict)
  (option : option (list (Z * Z))) (w : World) (decomp : _Decompressor) (w1 : World)
  (res : result bytes) (w' : World) :
  writes_within_room ->
  reads_within_input ->
  content_size_nonneg ->
  0 <= ZSTD_CONTENTSIZE_UNKNOWN ->
  EndlessZstdDecompressor__init__ zstd_dict option w = Some (Ok decomp, w1) ->
  decompress fuel data zstd_dict option w = Some (res, w') ->
  match res with
  | Ok r =>
      exists d' last,
        decompress_session (_dctx decomp) data d' r [] last
        /\ match last with Some z => z = 0 | None => True end
  | Raise e =>
      (exists s', EndlessZstdDecompressor_decompress fuel data (-1) (decomp, w1)
                  = Some (Raise e, s'))
      \/ (exists r d' z,
            decompress_session (_dctx decomp) data d' r [] (Some z)
            /\ z <> 0
            /\ e = ZstdError (ZE_incomplete_frame (len r)))
  end.
Proof.
  intros Hb Hr Hc Hu Hinit H. unfold decompress in H. unfold bind at 1 in H.
  rewrite Hinit in H.
  destruct (_Decompressor__init__returns _ _ _ _ _ _ Hinit)
    as (Hty & _ & Hbuf & Hbegin & Hend & _).
  assert (Hinv : carry_over_inv decomp w1).
  { split; [lia|]. rewrite Hbuf. lia. }
  assert (Hco : carry_over decomp w1 = []).
  { apply carry_over_empty. lia. }
  unfold bind at 1, with_obj in H.
  destruct (EndlessZstdDecompressor_decompress fuel data (-1) (decomp, w1))
    as [[[r|e] [decomp' w2]]|] eqn:Erun; [| |discriminate H].
  - cbn [fst snd] in H.
    assert (Hml : -1 < 0) by lia.
    destruct (endless_unbounded_spec _ _ _ _ _ _ _ _ Hb Hr Hc Hu Hinv Hty Hml Erun)
      as (_ & _ & last & Hs & Hafe).
    rewrite Hco in Hs. cbn [app] in Hs.
    destruct (_at_frame_edge decomp') eqn:Ea; cbn [negb] in H.
    + injection H as <- _. exists (_dctx decomp'), last. split; [exact Hs|].
      destruct last as [z|]; [|exact I]. symmetry in Hafe. apply Z.eqb_eq, Hafe.
    + injection H as <- _. right.
      destruct last as [z|]; [|discriminate Hafe].
      exists r, (_dctx decomp'), z. split; [exact Hs|]. split; [|reflexivity].
      intros Hz. rewrite Hz in Hafe. discriminate Hafe.
  - injection H as <- _. left. eexists. reflexivity.
Qed.

End Unbounded.

Section DStream.
Context {ffi : Ffi} {m : ZstdLib} {io : Streams}.

(** What one call of the decompression step does to a context and a world. *)
Lemma decompressStream_raw (out_buf : ZSTD_outBuffer) (in_buf : ZSTD_inBuffer)
  (d : ZSTD_DCtx) (w : World) :
  decompressStream out_buf in_buf (d, w)
  = Some (Ok (st_ret (ZSTD_decompressStream d
                        (Z.to_nat (out_size out_buf - out_pos out_buf)) (unread in_buf)),
              {| out_dst := out_dst out_buf; out_size := out_size out_buf;
                 out_pos := out_pos out_buf
                            + len (st_written (ZSTD_decompressStream d
                                     (Z.to_nat (out_size out_buf - out_pos out_buf))
                                     (unread in_buf))) |},
              advance in_buf (st_consumed (ZSTD_decompressStream d
                                (Z.to_nat (out_size out_buf - out_pos out_buf))
                                (unread in_buf)))),
          (st_ctx (ZSTD_decompressStream d
                     (Z.to_nat (out_size out_buf - out_pos out_buf)) (unread in_buf)),
           memwrite (out_dst out_buf) (out_pos out_buf)
             (st_written (ZSTD_decompressStream d
                            (Z.to_nat (out_size out_buf - out_pos out_buf))
                            (unread in_buf)))
             {| heap := heap w; allocs := allocs w;
                log := E_decompressStream :: log w |})).
Proof. reflexivity. Qed.

Lemma d_write_to_output_dctx (fuel : nat) :
  forall out_buf write_pos (s : dpump) r s',
    d_write_to_output fuel out_buf write_pos s = Some (r, s') -> q_dctx s' = q_dctx s.
Proof.
  induction fuel as [|fuel IH]; intros out_buf write_pos s r s' H.
  - discriminate H.
  - cbn [d_write_to_output] in H.
    destruct (write_pos <? out_pos out_buf); [|injection H as _ <-; reflexivity].
    unfold d_call_write, dpumpW in H. mred_in H. cbn [fst snd q_dctx q_world] in H.
    destruct (snd (write (q_out s) _)) as [n|].
    + match type of H with
      | (if ?c then _ else _) _ = _ => destruct c
      end.
      * injection H as _ <-. reflexivity.
      * apply IH in H. exact H.
    + apply IH in H. exact H.
Qed.

Lemma d_invoke_callback_dctx input_block in_buf crp out_buf ti to (s : dpump) r s' :
  d_invoke_callback input_block in_buf crp out_buf ti to s = Some (r, s') ->
  q_dctx s' = q_dctx s.
Proof.
  unfold d_invoke_callback, dpumpW. mred. intros H. injection H as _ <-. reflexivity.
Qed.

Lemma decompress_stream_write_chain (fuel : nat) :
  forall has_output has_callback input_block out_buf in_buf last crp ti (s : dpump)
         d0 n afe' to' s',
    step_chain d0 (q_dctx s) n last ->
    decompress_stream_write fuel has_output has_callback input_block out_buf in_buf
      (at_edge last) crp ti n s = Some (Ok (afe', to'), s') ->
    exists last', step_chain d0 (q_dctx s') to' last' /\ afe' = at_edge last'.
Proof.
  induction fuel as [|fuel IH];
    intros has_output has_callback input_block out_buf in_buf last crp ti s
           d0 n afe' to' s' Hc H.
  - discriminate H.
  - cbn [decompress_stream_write] in H.
    destruct (at_edge last && (in_pos in_buf =? in_size in_buf)).
    { injection H as <- <- <-. exists last. split; [exact Hc | reflexivity]. }
    apply bind_Ok_inv in H as ([[zstd_ret ob] ib] & s1 & Hstep & H).
    unfold dpumpD, zoom in Hstep. rewrite decompressStream_raw in Hstep.
    cbn [fst snd out_dst out_size out_pos] in Hstep.
    injection Hstep as <- <- <- <-.
    set (r := ZSTD_decompressStream (q_dctx s) (Z.to_nat (out_size out_buf - 0))
                (unread in_buf)) in *.
    cbn [fst snd out_pos] in H.
    destruct (ZSTD_isError (st_ret r)) eqn:Eerr;
      [destruct (_set_zstd_error_raises _ _ _ _ _ H)|].
    apply bind_Ok_inv in H as (u & s2 & Hw & H).
    apply bind_Ok_inv in H as (crp' & s3 & Hcb & H).
    assert (Hd2 : q_dctx s2 = st_ctx r).
    { destruct has_output.
      - apply d_write_to_output_dctx in Hw. rewrite Hw. reflexivity.
      - injection Hw as _ <-. reflexivity. }
    assert (Hd3 : q_dctx s3 = st_ctx r).
    { destruct has_callback.
      - apply d_invoke_callback_dctx in Hcb. rewrite Hcb. exact Hd2.
      - injection Hcb as _ <-. exact Hd2. }
    assert (Hc3 : step_chain d0 (q_dctx s3) (n + (0 + len (st_written r)))
                    (Some (st_ret r))).
    { rewrite Hd3, Z.add_0_l. subst r. eapply sc_step; eassumption. }
    destruct (in_pos (advance in_buf (st_consumed r))
              =? in_size (advance in_buf (st_consumed r))).
    + injection H as <- <- <-. exists (Some (st_ret r)). split; [exact Hc3 | reflexivity].
    + exact (IH _ _ _ _ _ (Some (st_ret r)) _ _ _ _ _ _ _ _ Hc3 H).
Qed.

Lemma d_call_readinto_dctx input_block (s : dpump) r s' :
  d_call_readinto input_block s = Some (r, s') -> q_dctx s' = q_dctx s.
Proof.
  unfold d_call_readinto, dpumpW. mred. intros H. injection H as _ <-. reflexivity.
Qed.

Lemma decompress_stream_read_chain (fuel : nat) :
  forall has_output has_callback read_size input_block out_buf last ti (s : dpump)
         d0 n ti' to' s',
    step_chain d0 (q_dctx s) n last ->
    decompress_stream_read fuel has_output has_callback read_size input_block out_buf
      (at_edge last) ti n s = Some (Ok (ti', to'), s') ->
    exists last', step_chain d0 (q_dctx s') to' last' /\ at_edge last' = true.
Proof.
  induction fuel as [|fuel IH];
    intros has_output has_callback read_size input_block out_buf last ti s
           d0 n ti' to' s' Hc H.
  - discriminate H.
  - cbn [decompress_stream_read] in H.
    apply bind_Ok_inv in H as ([rb block'] & s1 & Hread & H).
    apply d_call_readinto_dctx in Hread. rewrite <- Hread in Hc.
    cbn [fst snd] in H.
    destruct rb as [read_bytes|]; [|exact (IH _ _ _ _ _ _ _ _ _ _ _ _ _ Hc H)].
    match type of H with
    | (if ?c then _ else _) _ = _ => destruct c
    end; [discriminate H|].
    apply bind_Ok_inv in H as ([afe to1] & s2 & Hw & H).
    destruct (decompress_stream_write_chain _ _ _ _ _ _ _ _ _ _ _ _ _ _ _ Hc Hw)
      as (last1 & Hc1 & Hafe).
    cbn [fst snd] in H. subst afe.
    destruct (read_bytes =? 0).
    + destruct (at_edge last1) eqn:Ee; cbn [negb] in H; [|discriminate H].
      injection H as _ <- <-. exists last1. split; [exact Hc1 | exact Ee].
    + exact (IH _ _ _ _ _ _ _ _ _ _ _ _ _ Hc1 H).
Qed.

(** Without a dictionary and without [option], the set-up leaves the
    context as it was created. *)
Lemma decompress_stream_setup_plain (read_size write_size : Z) (s : dpump) r s' :
  decompress_stream_setup None None read_size write_size s = Some (Ok r, s') ->
  q_dctx s' = q_dctx s.
Proof.
  intros H. unfold decompress_stream_setup in H.
  apply bind_Ok_inv in H as (u1 & s1 & H1 & H). injection H1 as _ <-.
  apply bind_Ok_inv in H as (u2 & s2 & H2 & H). injection H2 as _ <-.
  apply bind_Ok_inv in H as (ok1 & s3 & H3 & H).
  unfold dpumpW, zoom, _new_nonzero_struct in H3. injection H3 as <- <-.
  destruct (negb _); [discriminate H|].
  apply bind_Ok_inv in H as (ok2 & s4 & H4 & H).
  unfold dpumpW, zoom, _new_nonzero_struct in H4. injection H4 as <- <-.
  destruct (negb _); [discriminate H|].
  apply bind_Ok_inv in H as (ob & s5 & H5 & H).
  unfold dpumpW, zoom, bytearray in H5. cbn [q_world q_in q_out q_dctx heap] in H5.
  injection H5 as <- <-. injection H as _ <-. reflexivity.
Qed.

(** X14. When [decompress_stream] returns, the output size it reports is
    the number of bytes the library wrote in a chain of decompression
    steps, none of which reported an error, each on the context the step
    before left, and the chain is empty or its last step returned 0: the
    function returns only at the edge of a frame. Without a dictionary and
    without [option] the chain starts on the context as the library
    created it. The last thing the function did was to free its
    context. *)
Theorem X14_decompress_stream_returns_at_frame_edge (fuel : nat)
  (has_output has_callback : bool) (zstd_dict : option ZstdDict)
  (option : option (list (Z * Z))) (read_size write_size : Z)
  (s0 : IStream * OStream * World) (total_input_size total_output_size : Z)
  (s' : IStream * OStream * World) :
  decompress_stream fuel has_output has_callback zstd_dict option read_size write_size s0
  = Some (Ok (total_input_size, total_output_size), s') ->
  exists d0 d d' last,
    ZSTD_createDCtx = Some d0
    /\ (zstd_dict = None -> option = None -> d = d0)
    /\ step_chain d d' total_output_size last
    /\ at_edge last = true
    /\ exists w1, snd s' = {| heap := heap w1; allocs := allocs w1;
                              log := E_freeDCtx :: log w1 |}.
Proof.
  unfold decompress_stream. intros H.
  destruct (negb has_output && negb has_callback); [discriminate H|].
  destruct ((read_size <=? 0) || (write_size <=? 0)); [discriminate H|].
  destruct ZSTD_createDCtx as [dctx|]; [|discriminate H].
  unfold try_finally in H.
  match type of H with
  | match match ?body with _ => _ end with _ => _ end = _ =>
      destruct body as [[r s1]|] eqn:Ebody
  end; [|discriminate H].
  injection H as -> <-. cbn [snd q_world].
  apply bind_Ok_inv in Ebody as ([block out_buf] & s2 & Hsetup & Hread).
  cbn [fst snd] in Hread.
  destruct (decompress_stream_read_chain _ _ _ _ _ _ None _ _ _ _ _ _ _
              (sc_none (q_dctx s2)) Hread) as (last & Hc & He).
  exists dctx, (q_dctx s2), (q_dctx s1), last.
  split; [reflexivity|].
  split.
  { intros -> ->. exact (decompress_stream_setup_plain _ _ _ _ _ Hsetup). }
  split; [exact Hc|]. split; [exact He|].
  exists (q_world s1). reflexivity.
Qed.

End DStream.

Section Freed.
Context {ffi : Ffi} {m : ZstdLib} {io : Streams}.





















(** *** compress_stream *)















(** *** decompress_stream *)















End Freed.

Section DTransfer.
Context {ffi : Ffi} {m : ZstdLib} {io : Streams}.











End DTransfer.

Section CTransfer.
Context {ffi : Ffi} {m : ZstdLib} {io : Streams}.











End CTransfer.

Section OneShot.
Context {ffi : Ffi} {m : ZstdLib}.

(** X18. The functions [compress] and [richmem_compress], once their
    compressor is constructed, end the frame: when one returns, the bytes
    returned are the outputs, in order, of one or more compression steps
    with the directive [ZSTD_e_end] on the compressor's context, none
    reporting an error, that started with [data], and the last of them
    returned 0. When one raises, it raises what the compressor's [compress]
    raised. The library is assumed not to write past the room it is given
    and to report a bound that is not negative, and its two directives to
    differ. *)
Theorem X18_one_shot_compress :
  compress_writes_within_room ->
  ZSTD_e_end <> ZSTD_e_continue ->
  (forall (fuel : nat) (data : bytes) (level_or_option : option level_or_option_t)
          (zstd_dict : option ZstdDict) (w : World) (comp : ZstdCompressor) (w1 : World)
          (res : result bytes) (w' : World),
     ZstdCompressor__init__ level_or_option zstd_dict w = Some (Ok comp, w1) ->
     compress fuel data level_or_option zstd_dict w = Some (res, w') ->
     match res with
     | Ok b => exists c' rest, compress_session ZSTD_e_end (_cctx comp) data c' b rest 0
     | Raise e =>
         exists s', ZstdCompressor_compress fuel data FLUSH_FRAME (comp, w1)
                    = Some (Raise e, s')
     end)
  /\ (forall (fuel : nat) (data : bytes) (level_or_option : option level_or_option_t)
             (zstd_dict : option ZstdDict) (w : World) (comp : RichMemZstdCompressor)
             (w1 : World) (res : result bytes) (w' : World),
        0 <= ZSTD_compressBound (len data) ->
        RichMemZstdCompressor__init__ level_or_option zstd_dict w = Some (Ok comp, w1) ->
        richmem_compress fuel data level_or_option zstd_dict w = Some (res, w') ->
        match res with
        | Ok b => exists c' rest, compress_session ZSTD_e_end (r_cctx comp) data c' b rest 0
        | Raise e =>
            exists s', RichMemZstdCompressor_compress fuel data (comp, w1)
                       = Some (Raise e, s')
        end).
Proof.
  intros Hb Hdir. split.
  - intros fuel data lo zd w comp w1 res w' Hinit H.
    unfold compress in H. unfold bind at 1 in H. rewrite Hinit in H.
    unfold bind at 1, with_obj in H.
    destruct (ZstdCompressor_compress fuel data FLUSH_FRAME (comp, w1))
      as [[[b|e] [self' w2]]|] eqn:Hrun; [| |discriminate H].
    2:{ injection H as <- <-. eexists. reflexivity. }
    injection H as <- <-. cbn [fst].
    unfold ZstdCompressor_compress in Hrun.
    destruct (negb _); [discriminate Hrun|].
    apply (try_except_reraise_inv _ _ compress_except) in Hrun;
      [|apply compress_except_run].
    apply bind_Ok_inv in Hrun as (sg & s0 & Hg & Hrun). injection Hg as <- <-.
    apply bind_Ok_inv in Hrun as (r & [self1 w3] & Hrun & H).
    unfold modify in H. mred_in H. injection H as <- <- <-.
    cbn [fst snd] in Hrun.
    assert (Em : (FLUSH_FRAME =? CONTINUE) = false).
    { apply Z.eqb_neq. exact Hdir. }
    rewrite Em, andb_false_r in Hrun.
    unfold on_cctx, zoom in Hrun. cbn [fst snd] in Hrun.
    match type of Hrun with
    | match ?f with _ => _ end = _ => destruct f as [[[bf|e] [c1 wf]]|] eqn:Ef
    end; try discriminate Hrun.
    injection Hrun as -> <- <-.
    assert (Hnr : false = true -> 0 <= ZSTD_compressBound (len data)) by discriminate.
    destruct (_compress_impl_session _ _ _ _ _ _ _ _ _ Hb Hnr Ef) as (rest & Hs).
    exists c1, rest. exact Hs.
  - intros fuel data lo zd w comp w1 res w' Hn Hinit H.
    unfold richmem_compress in H. unfold bind at 1 in H. rewrite Hinit in H.
    unfold bind at 1, with_obj in H.
    destruct (RichMemZstdCompressor_compress fuel data (comp, w1))
      as [[[b|e] [self' w2]]|] eqn:Hrun; [| |discriminate H].
    2:{ injection H as <- <-. eexists. reflexivity. }
    injection H as <- <-. cbn [fst].
    unfold RichMemZstdCompressor_compress in Hrun.
    apply (try_except_reraise_inv _ _ richmem_except) in Hrun;
      [|apply richmem_except_run].
    unfold on_r_cctx, zoom in Hrun. cbn [fst snd] in Hrun.
    match type of Hrun with
    | match ?f with _ => _ end = _ => destruct f as [[[bf|e] [c1 wf]]|] eqn:Ef
    end; try discriminate Hrun.
    injection Hrun as -> <- <-.
    destruct (_compress_impl_session _ _ _ _ _ _ _ _ _ Hb (fun _ => Hn) Ef) as (rest & Hs).
    exists c1, rest. exact Hs.
Qed.

End OneShot.

Section DDict.
Context {ffi : Ffi} {m : ZstdLib}.

(** What [_get_ddict] returns and leaves. *)
Lemma _get_ddict_spec {S : Type} (self : ZstdDict) (s : S) (dd : ZSTD_DDict)
  (self' : ZstdDict) (s' : S) :
  _get_ddict self s = Some (Ok (dd, self'), s') ->
  s' = s
  /\ ddict self' = Some dd
  /\ match ddict self with
     | Some dd0 => dd = dd0
     | None => ZSTD_createDDict (dict_content self) = Some dd
     end
  /\ cdicts self' = cdicts self
  /\ dict_content self' = dict_content self
  /\ dict_id self' = dict_id self.
Proof.
  unfold _get_ddict. intros H.
  destruct (ddict self) as [dd0|] eqn:Ed.
  - injection H as <- <- <-. rewrite Ed. repeat split.
  - destruct (ZSTD_createDDict (dict_content self)) as [d|];
      [|unfold raise in H; discriminate H].
    injection H as <- <- <-. repeat split.
Qed.

(** X19. A decompressor that is constructed with a dictionary holds the
    dictionary with its one [ZSTD_DDict]: the one the dictionary had, or,
    when it had none, one created from its content. A later [_get_ddict]
    returns the same [ZSTD_DDict] and creates nothing. The content, the
    identifier and the cache of the compression side stay. The new context
    was handed the [ZSTD_DDict], which the library accepted, and without
    [option] that is the last call made and the context is the one it
    left. *)
Theorem X19_decompressor_digests_dictionary (type : _Decompressor_type)
  (zstd_dict : ZstdDict) (option : option (list (Z * Z))) (w : World)
  (self : _Decompressor) (w' : World) :
  _Decompressor__init__ type (Some zstd_dict) option w = Some (Ok self, w') ->
  exists d dd dctx,
    d__dict self = Some d
    /\ ddict d = Some dd
    /\ match ddict zstd_dict with
       | Some dd0 => dd = dd0
       | None => ZSTD_createDDict (dict_content zstd_dict) = Some dd
       end
    /\ (forall (S : Type) (s : S), _get_ddict d s = Some (Ok (dd, d), s))
    /\ cdicts d = cdicts zstd_dict
    /\ dict_content d = dict_content zstd_dict
    /\ dict_id d = dict_id zstd_dict
    /\ ZSTD_createDCtx = Some dctx
    /\ ZSTD_isError (snd (ZSTD_DCtx_refDDict dctx dd)) = false
    /\ (option = None ->
        _dctx self = fst (ZSTD_DCtx_refDDict dctx dd)
        /\ w' = {| heap := heap w; allocs := allocs w;
                   log := E_DCtx_refDDict :: log w |}).
Proof.
  unfold _Decompressor__init__. intros H.
  destruct ZSTD_createDCtx as [dctx|]; [|unfold raise in H; discriminate H].
  apply bind_Ok_inv in H as ([od c] & w1 & Hobj & H).
  injection H as <- <-. cbn [fst snd d__dict _dctx].
  unfold with_obj in Hobj.
  match type of Hobj with
  | match ?run with _ => _ end = _ => destruct run as [[[a|e] [c2 w2]]|] eqn:Erun
  end; try discriminate Hobj.
  injection Hobj as -> -> ->.
  apply bind_Ok_inv in Erun as (od1 & [c3 w3] & Hload & Hopt).
  apply bind_Ok_inv in Hload as (d & [c4 w4] & Hload & Hret).
  injection Hret as <- <- <-.
  unfold _load_d_dict in Hload.
  apply bind_Ok_inv in Hload as ([dd d1] & [c5 w5] & Hget & Hload).
  apply _get_ddict_spec in Hget as (Hs & Hdd & Hfrom & Hcd & Hcont & Hid).
  injection Hs as -> ->.
  apply bind_Ok_inv in Hload as (zstd_ret & [c6 w6] & Href & Hload).
  unfold DCtx_refDDict, liftW in Href. mred_in Href. cbn [fst snd] in Href.
  injection Href as <- <- <-.
  destruct (ZSTD_isError (snd (ZSTD_DCtx_refDDict dctx dd))) eqn:Eerr;
    [destruct (_set_zstd_error_raises _ _ _ _ _ Hload)|].
  injection Hload as <- <- <-. cbn [fst snd] in *.
  apply bind_Ok_inv in Hopt as (u & [c7 w7] & Hopt & Hret).
  injection Hret as <- <- <-.
  exists d1, dd, dctx.
  split; [reflexivity|]. split; [exact Hdd|]. split; [exact Hfrom|].
  split; [intros S s; unfold _get_ddict; rewrite Hdd; reflexivity|].
  split; [exact Hcd|]. split; [exact Hcont|]. split; [exact Hid|].
  split; [reflexivity|]. split; [exact Eerr|].
  intros ->. injection Hopt as _ <- <-. split; reflexivity.
Qed.

End DDict.

(** * The theorems at concrete inputs *)

Lemma toy_decode_within_room (input : bytes) :
  forall payload room,
    (length (snd (fst (Toy.decode payload room input))) <= room)%nat.
Proof.
  induction input as [|x input IH]; intros payload room; cbn [Toy.decode].
  - simpl. lia.
  - destruct payload.
    + destruct room as [|room]; cbn [fst snd length]; [lia|].
      specialize (IH false room). lia.
    + destruct (Byte.eqb x "001").
      * cbn [fst snd]. apply IH.
      * destruct (Byte.eqb x "000"); simpl; lia.
Qed.

Lemma toy_writes_within_room : @writes_within_room Toy.lib.
Proof.
  intros d room inp. cbn. apply toy_decode_within_room.
Qed.

Lemma toy_bounded_run_returns :
  returned (@_stream_decompress plain_ffi Toy.lib 5 hel_frame 2
              (toy_decompressor DECOMPRESSOR, World0)) = true.
Proof. vm_compute. reflexivity. Qed.

(** C2 on a single-frame decompressor, the frame of [hel], a cap of 2. *)
Lemma C2_decompress_bounded_output_witness :
  exists r s',
    @_stream_decompress plain_ffi Toy.lib 5 hel_frame 2
      (toy_decompressor DECOMPRESSOR, World0) = Some (Ok r, s')
    /\ len r <= 2.
Proof.
  pose proof toy_bounded_run_returns as Hret.
  destruct (@_stream_decompress plain_ffi Toy.lib 5 hel_frame 2
              (toy_decompressor DECOMPRESSOR, World0)) as [[[r|e] s']|] eqn:Hrun;
    try discriminate Hret.
  exists r, s'. split; [reflexivity|].
  apply (@C2_decompress_bounded_output plain_ffi Toy.lib 5 hel_frame 2
           (toy_decompressor DECOMPRESSOR) World0 r s' toy_writes_within_room);
    [lia | exact Hrun].
Defined.

Lemma toy_set_c_parameters_run :
  @_set_c_parameters Toy.lib
    (LO_dict [(Toy.c_nbWorkers, 1); (Toy.c_compressionLevel, 3)])
    (_cctx toy_compressor, World0)
  = Some (Ok (3, false),
          (Toy.mkC [] false [(Toy.c_compressionLevel, 3); (Toy.c_nbWorkers, 0)],
           {| heap := []; allocs := 0;
              log := [E_CCtx_setParameter Toy.c_compressionLevel 3;
                      E_CCtx_setParameter Toy.c_nbWorkers 0] |})).
Proof. vm_compute. reflexivity. Qed.

(** C5 on the mapping {nbWorkers: 1, compressionLevel: 3}: the call
    returns level 3 and a false flag, and the library was handed a worker
    count of 0, then the level. *)
Lemma C5_nbWorkers_one_applied_as_zero_witness :
  exists c' w',
    @_set_c_parameters Toy.lib
      (LO_dict [(Toy.c_nbWorkers, 1); (Toy.c_compressionLevel, 3)])
      (_cctx toy_compressor, World0) = Some (Ok (3, false), (c', w'))
    /\ log w' = [E_CCtx_setParameter Toy.c_compressionLevel 3;
                 E_CCtx_setParameter Toy.c_nbWorkers 0]
    /\ c' = @c_applied Toy.lib (_cctx toy_compressor)
              [(Toy.c_nbWorkers, 1); (Toy.c_compressionLevel, 3)]
    /\ ~ exists value,
          (Toy.c_nbWorkers, value) ∈ [(Toy.c_nbWorkers, 1); (Toy.c_compressionLevel, 3)]
          /\ 1 < value.
Proof.
  assert (Hne : @ZSTD_c_nbWorkers Toy.lib <> @ZSTD_c_compressionLevel Toy.lib)
    by (vm_compute; discriminate).
  destruct (@C5_nbWorkers_one_applied_as_zero Toy.lib
              [(Toy.c_nbWorkers, 1); (Toy.c_compressionLevel, 3)]
              (_cctx toy_compressor) World0 eq_refl Hne)
    as (_ & _ & n & r & c' & w' & Hrun & Hlen & Hlog & Hctx & Hiff & Hres).
  rewrite toy_set_c_parameters_run in Hrun. injection Hrun as <- Hc Hw.
  destruct Hres as (Hn & Hflag). subst n. cbn [length take] in Hlog, Hctx.
  exists c', w'. rewrite <- Hc, <- Hw. split; [reflexivity|].
  split; [rewrite Hw; exact Hlog|]. split; [rewrite Hc; exact Hctx|].
  intros H. apply Hflag in H. discriminate H.
Defined.

Lemma toy_flush_frame_ends :
  ended (@ZstdCompressor_compress plain_ffi Toy.lib 5 hel Toy.e_end
           (toy_compressor, World0)) = true.
Proof. vm_compute. reflexivity. Qed.

(** C6 on a fresh compressor: [compress(b'hel', FLUSH_FRAME)]. *)
Lemma C6_compress_flush_outcome_witness :
  match @ZstdCompressor_compress plain_ffi Toy.lib 5 hel Toy.e_end
          (toy_compressor, World0) with
  | Some (r, (self', w')) => compress_outcome Toy.e_end r self' w'
  | None => False
  end.
Proof.
  destruct (@C6_compress_flush_outcome plain_ffi Toy.lib 5 hel Toy.e_end
              toy_compressor World0) as [H _].
  change ((Toy.e_end =? @CONTINUE Toy.lib) || (Toy.e_end =? @FLUSH_BLOCK Toy.lib)
          || (Toy.e_end =? @FLUSH_FRAME Toy.lib)) with true in H.
  cbv iota in H.
  pose proof toy_flush_frame_ends as Hend.
  destruct (@ZstdCompressor_compress plain_ffi Toy.lib 5 hel Toy.e_end
              (toy_compressor, World0)) as [[r [self' w']]|] eqn:Hrun.
  - apply H. reflexivity.
  - discriminate Hend.
Defined.

(** The claim C6 as stated fails: after [compress(b'hel', CONTINUE)], the
    call [compress(b'hel', 7)] raises [ValueError]; [last_mode] is still
    [CONTINUE], not [FLUSH_FRAME], and the only call the library ever saw
    is the compression step of the first call: no session reset. *)
Lemma C6_counterexample :
  match @ZstdCompressor_compress plain_ffi Toy.lib 5 hel Toy.e_continue
          (toy_compressor, World0) with
  | Some (Ok _, (self1, w1)) =>
      match @ZstdCompressor_compress plain_ffi Toy.lib 5 hel 7 (self1, w1) with
      | Some (Raise e, (self2, w2)) =>
          e = ValueError VE_mode
          /\ __last_mode self2 = @CONTINUE Toy.lib
          /\ __last_mode self2 <> @FLUSH_FRAME Toy.lib
          /\ log w2 = [E_compressStream2 Toy.e_continue]
      | _ => False
      end
  | _ => False
  end.
Proof.
  vm_compute. repeat split. discriminate.
Qed.

Lemma toy_garbage_raises :
  raised (@_stream_decompress plain_ffi Toy.lib 5 ["005"%byte] 4
            (toy_decompressor ENDLESS_DECOMPRESSOR, World0)) = true.
Proof. vm_compute. reflexivity. Qed.

(** C8 on an endless decompressor fed the byte 05, which is no frame. *)
Lemma C8_decompress_error_resets_witness :
  exists e self' w',
    @_stream_decompress plain_ffi Toy.lib 5 ["005"%byte] 4
      (toy_decompressor ENDLESS_DECOMPRESSOR, World0) = Some (Raise e, (self', w'))
    /\ _in_begin self' = 0 /\ _in_end self' = 0
    /\ _needs_input self' = true
    /\ _at_frame_edge self' = true.
Proof.
  pose proof toy_garbage_raises as Hr.
  destruct (@_stream_decompress plain_ffi Toy.lib 5 ["005"%byte] 4
              (toy_decompressor ENDLESS_DECOMPRESSOR, World0))
    as [[[r|e] [self' w']]|] eqn:Hrun; try discriminate Hr.
  exists e, self', w'. split; [reflexivity|].
  destruct (@C8_decompress_error_resets plain_ffi Toy.lib _ _ _ _ _ _ _ _ Hrun)
    as (H1 & H2 & H3 & _ & H5 & _).
  repeat split; assumption.
Defined.

(** C9 on an input stream with nothing to read: the call returns
    [(0, 0)], the output stream is still empty and the log holds the one
    [readinto] and the release of the context. *)
Lemma C9_empty_input_no_frame_witness :
  exists w' new,
    @compress_stream plain_ffi Toy.lib Toy.io 1 true false None None None 4 4
      ([], [], World0) = Some (Ok (0, 0), ([], [], w'))
    /\ forallb is_setup_event new = true
    /\ log w' = E_freeCCtx :: E_readinto :: new ++ [].
Proof.
  destruct (@C9_empty_input_no_frame plain_ffi Toy.lib Toy.io 0 true false
              None None None 4 4 [] [] World0 eq_refl)
    as (r & is' & w' & new & Hrun & Hnew & Hres & Hret).
  assert (Hr : r = Ok (0, 0)).
  { refine (Hret eq_refl _ _ _ _ _ _ eq_refl eq_refl); [lia | lia|].
    intros p H. discriminate H. }
  subst r. destruct Hres as (_ & Hlog & His). subst is'.
  exists w', new. split; [exact Hrun|]. split; [exact Hnew | exact Hlog].
Defined.

(** C10 on a fresh endless decompressor. *)
Lemma C10_empty_input_at_frame_edge_witness :
  @_stream_decompress plain_ffi Toy.lib 0 [] (-1)
    (toy_decompressor ENDLESS_DECOMPRESSOR, World0)
  = Some (Ok [], (toy_decompressor ENDLESS_DECOMPRESSOR,
                  {| heap := []; allocs := 1; log := [] |})).
Proof.
  destruct (@C10_empty_input_at_frame_edge plain_ffi Toy.lib 0 (-1)
              (toy_decompressor ENDLESS_DECOMPRESSOR) World0
              eq_refl eq_refl eq_refl eq_refl) as (H & _ & _).
  exact H.
Defined.

Lemma toy_decode_within_input (input : bytes) :
  forall payload room, (snd (Toy.decode payload room input) <= length input)%nat.
Proof.
  induction input as [|x input IH]; intros payload room; cbn [Toy.decode].
  - simpl. lia.
  - destruct payload.
    + destruct room as [|room]; cbn [fst snd length]; [lia|].
      specialize (IH false room). lia.
    + destruct (Byte.eqb x "001").
      * cbn [fst snd length]. specialize (IH true room). lia.
      * destruct (Byte.eqb x "000"); simpl; lia.
Qed.

Lemma toy_reads_within_input : @reads_within_input Toy.lib.
Proof.
  intros d room inp. cbn. apply toy_decode_within_input.
Qed.

Lemma toy_fresh_carry_over_inv (type : _Decompressor_type) :
  carry_over_inv (toy_decompressor type) World0.
Proof. split; [cbn; lia | reflexivity]. Qed.



Lemma toy_frame_run_returns :
  returned (@_stream_decompress plain_ffi Toy.lib 5 hel_frame (-1)
              (toy_decompressor DECOMPRESSOR, World0)) = true.
Proof. vm_compute. reflexivity. Qed.



(** X3 on an endless decompressor fed the byte 05, which is no frame. *)
Lemma X3_decompress_calls_only_steps_witness :
  exists e self' w' (steps : nat),
    @_stream_decompress plain_ffi Toy.lib 5 ["005"%byte] 4
      (toy_decompressor ENDLESS_DECOMPRESSOR, World0) = Some (Raise e, (self', w'))
    /\ log w' = [E_DCtx_reset] ++ repeat E_decompressStream steps ++ []
    /\ d__dict self' = None /\ _unused_data self' = None
    /\ _type self' = ENDLESS_DECOMPRESSOR.
Proof.
  pose proof toy_garbage_raises as Hr.
  destruct (@_stream_decompress plain_ffi Toy.lib 5 ["005"%byte] 4
              (toy_decompressor ENDLESS_DECOMPRESSOR, World0))
    as [[[r|e] [self' w']]|] eqn:Hrun; try discriminate Hr.
  destruct (@X3_decompress_calls_only_steps plain_ffi Toy.lib _ _ _ _ _ _ _ _ Hrun)
    as ((steps & Hlog) & Hd & Hu & Ht).
  exists e, self', w', steps. split; [reflexivity|].
  split; [exact Hlog|]. split; [exact Hd|]. split; [exact Hu | exact Ht].
Defined.

(** X4 on a single-frame decompressor at the end of its frame. *)
Lemma X4_decompress_at_eof_raises_EOFError_witness :
  exists self' w',
    @_stream_decompress plain_ffi Toy.lib 0 hel (-1) (toy_decompressor_at_eof, World0)
    = Some (Raise EOFError, (self', w'))
    /\ log w' = [E_DCtx_reset]
    /\ _eof self' = false.
Proof.
  destruct (@X4_decompress_at_eof_raises_EOFError plain_ffi Toy.lib 0 hel (-1)
              toy_decompressor_at_eof World0 eq_refl eq_refl eq_refl)
    as (self' & w' & Hrun & Hlog & _ & _ & Heof & _).
  exists self', w'. split; [exact Hrun|]. split; [exact Hlog | exact Heof].
Defined.

Lemma toy_d_parameters_ends :
  ended (@_set_d_parameters Toy.lib [(Toy.d_windowLogMax, 20); (7, 1); (8, 1)]
           (Toy.mkD false [], World0)) = true.
Proof. vm_compute. reflexivity. Qed.

(** X5 on the mapping {windowLogMax: 20, 7: 1, 8: 1}. *)
Lemma X5_set_d_parameters_outcome_witness :
  exists r d' w' (n : nat),
    @_set_d_parameters Toy.lib [(Toy.d_windowLogMax, 20); (7, 1); (8, 1)]
      (Toy.mkD false [], World0) = Some (r, (d', w'))
    /\ (n <= 3)%nat
    /\ log w' = rev (map d_call (take n [(Toy.d_windowLogMax, 20); (7, 1); (8, 1)])) ++ []
    /\ d_parameters_outcome [(Toy.d_windowLogMax, 20); (7, 1); (8, 1)] n r.
Proof.
  pose proof toy_d_parameters_ends as Hend.
  destruct (@_set_d_parameters Toy.lib [(Toy.d_windowLogMax, 20); (7, 1); (8, 1)]
              (Toy.mkD false [], World0)) as [[r [d' w']]|] eqn:Hrun;
    [|discriminate Hend].
  destruct (@X5_set_d_parameters_outcome Toy.lib _ _ _ _ _ _ Hrun) as (n & H).
  exists r, d', w', n. split; [reflexivity | exact H].
Defined.

Lemma toy_single_threaded_parameters_ends :
  ended (@_set_c_parameters toy_single_threaded
           (LO_dict [(Toy.c_nbWorkers, 4); (Toy.c_compressionLevel, 3)])
           (Toy.mkC [] false [], World0)) = true.
Proof. vm_compute. reflexivity. Qed.

(** X6 on the mapping {nbWorkers: 4, compressionLevel: 3}. *)
Lemma X6_no_multithreading_without_support_witness :
  exists r c' w' new,
    @_set_c_parameters toy_single_threaded
      (LO_dict [(Toy.c_nbWorkers, 4); (Toy.c_compressionLevel, 3)])
      (Toy.mkC [] false [], World0) = Some (r, (c', w'))
    /\ log w' = new ++ []
    /\ Forall (@single_threaded_call toy_single_threaded) new
    /\ forall level use_multithread, r = Ok (level, use_multithread) ->
         use_multithread = false.
Proof.
  pose proof toy_single_threaded_parameters_ends as Hend.
  destruct (@_set_c_parameters toy_single_threaded
              (LO_dict [(Toy.c_nbWorkers, 4); (Toy.c_compressionLevel, 3)])
              (Toy.mkC [] false [], World0)) as [[r [c' w']]|] eqn:Hrun;
    [|discriminate Hend].
  destruct (@X6_no_multithreading_without_support toy_single_threaded _ _ _ _ _ _
              eq_refl Hrun) as ((new & Hlog & Hnew) & Hflag).
  exists r, c', w', new. split; [reflexivity|].
  split; [exact Hlog|]. split; [exact Hnew | exact Hflag].
Defined.

Lemma toy_get_cdict_returns :
  returned (@_get_cdict Toy.lib unit toy_dict 3 tt) = true.
Proof. vm_compute. reflexivity. Qed.

(** X7 on a dictionary with an empty cache, at level 3. *)
Lemma X7_get_cdict_caches_witness :
  exists cdict self',
    @_get_cdict Toy.lib unit toy_dict 3 tt = Some (Ok (cdict, self'), tt)
    /\ cdicts self' !! 3 = Some cdict
    /\ @_get_cdict Toy.lib unit self' 3 tt = Some (Ok (cdict, self'), tt).
Proof.
  pose proof toy_get_cdict_returns as Hret.
  destruct (@_get_cdict Toy.lib unit toy_dict 3 tt) as [[[[cdict self']|e] []]|] eqn:Hrun;
    try discriminate Hret.
  destruct (@X7_get_cdict_caches Toy.lib unit _ _ _ _ _ _ Hrun)
    as (_ & Hin & Hagain & _).
  exists cdict, self'. split; [reflexivity|]. split; [exact Hin | apply Hagain].
Defined.

Lemma toy_compressor_init_returns :
  returned (@ZstdCompressor__init__ Toy.lib (Some (LO_int 3)) (Some toy_dict) World0)
  = true.
Proof. vm_compute. reflexivity. Qed.

(** X8 on [ZstdCompressor(3, zstd_dict)]. *)
Lemma X8_compressor_digests_dictionary_at_level_witness :
  exists self w' d cdict c1,
    @ZstdCompressor__init__ Toy.lib (Some (LO_int 3)) (Some toy_dict) World0
    = Some (Ok self, w')
    /\ c__dict self = Some d
    /\ cdicts d !! @digest_level Toy.lib (Some (LO_int 3)) = Some cdict
    /\ _cctx self = fst (@ZSTD_CCtx_refCDict Toy.lib c1 cdict)
    /\ @ZSTD_isError Toy.lib (snd (@ZSTD_CCtx_refCDict Toy.lib c1 cdict)) = false.
Proof.
  pose proof toy_compressor_init_returns as Hret.
  destruct (@ZstdCompressor__init__ Toy.lib (Some (LO_int 3)) (Some toy_dict) World0)
    as [[[self|e] w']|] eqn:Hrun; try discriminate Hret.
  destruct (@X8_compressor_digests_dictionary_at_level Toy.lib _ _ _ _ _ Hrun)
    as (d & cdict & w1 & c0 & c1 & Hd & Hin & _ & _ & _ & _ & _ & Hctx & Hacc & _).
  exists self, w', d, cdict, c1. split; [reflexivity|]. split; [exact Hd|].
  split; [exact Hin|]. split; [exact Hctx | exact Hacc].
Defined.

Lemma toy_compress_writes_within_room : @compress_writes_within_room Toy.lib.
Proof.
  intros c room inp directive. cbn. rewrite length_take. lia.
Qed.

Lemma toy_compress_returns :
  returned (@ZstdCompressor_compress plain_ffi Toy.lib 5 hel Toy.e_end
              (toy_compressor, World0)) = true.
Proof. vm_compute. reflexivity. Qed.

(** X9 on a fresh compressor: [compress(b'hel', FLUSH_FRAME)]. *)
Lemma X9_compress_returns_what_the_library_wrote_witness :
  exists b self' w' rest,
    @ZstdCompressor_compress plain_ffi Toy.lib 5 hel Toy.e_end (toy_compressor, World0)
    = Some (Ok b, (self', w'))
    /\ @compress_session Toy.lib Toy.e_end (_cctx toy_compressor) hel (_cctx self') b rest 0.
Proof.
  pose proof toy_compress_returns as Hret.
  destruct (@ZstdCompressor_compress plain_ffi Toy.lib 5 hel Toy.e_end
              (toy_compressor, World0)) as [[[b|e] [self' w']]|] eqn:Hrun;
    try discriminate Hret.
  destruct (@X9_compress_returns_what_the_library_wrote plain_ffi Toy.lib
              toy_compress_writes_within_room) as (Hc & _).
  destruct (Hc _ _ _ _ _ _ _ _ Hrun) as (rest & ret & Hs & Hz).
  cbn in Hz. subst ret.
  exists b, self', w', rest. split; [reflexivity | exact Hs].
Defined.

Lemma toy_content_size_nonneg : @content_size_nonneg Toy.lib.
Proof.
  intros data. cbn. destruct (len data =? 0); vm_compute; discriminate.
Qed.

(** X10 on a single-frame decompressor, the frame of [hel], a cap of 2. *)
Lemma X10_decompress_returns_what_the_library_wrote_witness :
  exists r self' w' last,
    @_stream_decompress plain_ffi Toy.lib 5 hel_frame 2
      (toy_decompressor DECOMPRESSOR, World0) = Some (Ok r, (self', w'))
    /\ @decompress_session Toy.lib (_dctx (toy_decompressor DECOMPRESSOR))
         (carry_over (toy_decompressor DECOMPRESSOR) World0 ++ hel_frame)
         (_dctx self') r (carry_over self' w') last
    /\ flags_after DECOMPRESSOR last (carry_over self' w') self'.
Proof.
  pose proof toy_bounded_run_returns as Hret.
  destruct (@_stream_decompress plain_ffi Toy.lib 5 hel_frame 2
              (toy_decompressor DECOMPRESSOR, World0)) as [[[r|e] [self' w']]|] eqn:Hrun;
    try discriminate Hret.
  destruct (@X10_decompress_returns_what_the_library_wrote plain_ffi Toy.lib 5 hel_frame 2
              (toy_decompressor DECOMPRESSOR) World0 r self' w'
              toy_writes_within_room toy_reads_within_input toy_content_size_nonneg)
    as (last & H).
  - vm_compute. discriminate.
  - apply toy_fresh_carry_over_inv.
  - exact Hrun.
  - exists r, self', w', last. split; [reflexivity | exact H].
Defined.

Lemma toy_richmem_ends :
  ended (@RichMemZstdCompressor_compress plain_ffi Toy.lib 5 hel (toy_richmem, World0))
  = true.
Proof. vm_compute. reflexivity. Qed.

(** X11 on a fresh rich-memory compressor and [b'hel']. *)
Lemma X11_richmem_compress_outcome_witness :
  exists r self' w',
    @RichMemZstdCompressor_compress plain_ffi Toy.lib 5 hel (toy_richmem, World0)
    = Some (r, (self', w'))
    /\ r_use_multithreaded self' = false
    /\ match r with
       | Ok b =>
           exists rest,
             @compress_session Toy.lib Toy.e_end (r_cctx toy_richmem) hel (r_cctx self')
               b rest 0
       | Raise _ => exists c1, r_cctx self' = @ZSTD_CCtx_reset Toy.lib c1
       end.
Proof.
  pose proof toy_richmem_ends as Hend.
  destruct (@RichMemZstdCompressor_compress plain_ffi Toy.lib 5 hel (toy_richmem, World0))
    as [[r [self' w']]|] eqn:Hrun; [|discriminate Hend].
  destruct (@X11_richmem_compress_outcome plain_ffi Toy.lib 5 hel toy_richmem World0
              r self' w' toy_compress_writes_within_room) as (Hmt & _ & Hr).
  - vm_compute. discriminate.
  - exact Hrun.
  - exists r, self', w'. split; [reflexivity|]. split; [exact Hmt|].
    destruct r as [b|e].
    + destruct Hr as (Hs & _). exact Hs.
    + destruct Hr as (c1 & w1 & Hc & _). exists c1. exact Hc.
Defined.

Lemma toy_endless_run_returns :
  returned (@_stream_decompress plain_ffi Toy.lib 5 (hel_frame ++ hel_frame) (-1)
              (toy_decompressor ENDLESS_DECOMPRESSOR, World0)) = true.
Proof. vm_compute. reflexivity. Qed.

(** X12 on a fresh endless decompressor and two frames of [hel]. *)
Lemma X12_endless_unbounded_consumes_all_witness :
  exists r self' w',
    @_stream_decompress plain_ffi Toy.lib 5 (hel_frame ++ hel_frame) (-1)
      (toy_decompressor ENDLESS_DECOMPRESSOR, World0) = Some (Ok r, (self', w'))
    /\ carry_over self' w' = []
    /\ _needs_input self' = true
    /\ exists last,
         @decompress_session Toy.lib (_dctx (toy_decompressor ENDLESS_DECOMPRESSOR))
           (carry_over (toy_decompressor ENDLESS_DECOMPRESSOR) World0
            ++ (hel_frame ++ hel_frame))
           (_dctx self') r [] last
         /\ _at_frame_edge self' = match last with Some z => z =? 0 | None => true end.
Proof.
  pose proof toy_endless_run_returns as Hret.
  destruct (@_stream_decompress plain_ffi Toy.lib 5 (hel_frame ++ hel_frame) (-1)
              (toy_decompressor ENDLESS_DECOMPRESSOR, World0))
    as [[[r|e] [self' w']]|] eqn:Hrun; try discriminate Hret.
  assert (Hu : 0 <= @ZSTD_CONTENTSIZE_UNKNOWN Toy.lib) by (vm_compute; discriminate).
  assert (Hm : -1 < 0) by lia.
  exists r, self', w'. split; [reflexivity|].
  exact (@X12_endless_unbounded_consumes_all plain_ffi Toy.lib 5 (hel_frame ++ hel_frame)
           (-1) (toy_decompressor ENDLESS_DECOMPRESSOR) World0 r self' w'
           toy_writes_within_room toy_reads_within_input toy_content_size_nonneg Hu
           (toy_fresh_carry_over_inv ENDLESS_DECOMPRESSOR) eq_refl Hm Hrun).
Defined.

Lemma toy_endless_init_returns :
  returned (@EndlessZstdDecompressor__init__ Toy.lib None None World0) = true.
Proof. vm_compute. reflexivity. Qed.

Lemma toy_one_shot_ends :
  ended (@decompress plain_ffi Toy.lib 5 (take 5 hel_frame) None None World0) = true.
Proof. vm_compute. reflexivity. Qed.

(** X13 on the frame of [hel] cut after five bytes. *)
Lemma X13_one_shot_decompress_witness :
  exists decomp w1 res w',
    @EndlessZstdDecompressor__init__ Toy.lib None None World0
    = Some (Ok decomp, w1)
    /\ @decompress plain_ffi Toy.lib 5 (take 5 hel_frame) None None World0
       = Some (res, w')
    /\ match res with
       | Ok r =>
           exists d' last,
             @decompress_session Toy.lib (_dctx decomp) (take 5 hel_frame) d' r [] last
             /\ match last with Some z => z = 0 | None => True end
       | Raise e =>
           (exists s', @EndlessZstdDecompressor_decompress plain_ffi Toy.lib 5
                         (take 5 hel_frame) (-1) (decomp, w1) = Some (Raise e, s'))
           \/ (exists r d' z,
                 @decompress_session Toy.lib (_dctx decomp) (take 5 hel_frame) d' r []
                   (Some z)
                 /\ z <> 0
                 /\ e = ZstdError (ZE_incomplete_frame (len r)))
       end.
Proof.
  pose proof toy_endless_init_returns as Hret.
  destruct (@EndlessZstdDecompressor__init__ Toy.lib None None World0)
    as [[[decomp|e] w1]|] eqn:Hinit; try discriminate Hret.
  pose proof toy_one_shot_ends as Hend.
  destruct (@decompress plain_ffi Toy.lib 5 (take 5 hel_frame) None None World0)
    as [[res w']|] eqn:Hrun; [|discriminate Hend].
  assert (Hu : 0 <= @ZSTD_CONTENTSIZE_UNKNOWN Toy.lib) by (vm_compute; discriminate).
  exists decomp, w1, res, w'. split; [reflexivity|]. split; [reflexivity|].
  exact (@X13_one_shot_decompress plain_ffi Toy.lib 5 (take 5 hel_frame) None None World0
           decomp w1 res w' toy_writes_within_room toy_reads_within_input
           toy_content_size_nonneg Hu Hinit Hrun).
Defined.

Lemma toy_decompress_stream_returns :
  returned (@decompress_stream plain_ffi Toy.lib Toy.io 20 true false None None 8 4
              ([hel_frame], [], World0)) = true.
Proof. vm_compute. reflexivity. Qed.

(** X14 on a stream that hands out the frame of [hel] in one piece. *)
Lemma X14_decompress_stream_returns_at_frame_edge_witness :
  exists total_input_size total_output_size s',
    @decompress_stream plain_ffi Toy.lib Toy.io 20 true false None None 8 4
      ([hel_frame], [], World0) = Some (Ok (total_input_size, total_output_size), s')
    /\ exists d0 d d' last,
         @ZSTD_createDCtx Toy.lib = Some d0
         /\ (@None (@ZstdDict Toy.lib) = None -> @None (list (Z * Z)) = None -> d = d0)
         /\ @step_chain Toy.lib d d' total_output_size last
         /\ at_edge last = true
         /\ exists w1, snd s' = {| heap := heap w1; allocs := allocs w1;
                                   log := E_freeDCtx :: log w1 |}.
Proof.
  pose proof toy_decompress_stream_returns as Hret.
  destruct (@decompress_stream plain_ffi Toy.lib Toy.io 20 true false None None 8 4
              ([hel_frame], [], World0)) as [[[[ti to]|e] s']|] eqn:Hrun;
    try discriminate Hret.
  exists ti, to, s'. split; [reflexivity|].
  exact (@X14_decompress_stream_returns_at_frame_edge plain_ffi Toy.lib Toy.io 20 true
           false None None 8 4 ([hel_frame], [], World0) ti to s' Hrun).
Defined.









Lemma toy_directives_differ : @ZSTD_e_end Toy.lib <> @ZSTD_e_continue Toy.lib.
Proof. discriminate. Qed.


Lemma toy_one_shot_init_returns :
  returned (@ZstdCompressor__init__ Toy.lib (Some (LO_int 3)) None World0) = true.
Proof. vm_compute. reflexivity. Qed.

Lemma toy_one_shot_compress_ends :
  ended (@compress plain_ffi Toy.lib 5 hel (Some (LO_int 3)) None World0) = true.
Proof. vm_compute. reflexivity. Qed.

Lemma toy_richmem_init_returns :
  returned (@RichMemZstdCompressor__init__ Toy.lib (Some (LO_int 3)) None World0) = true.
Proof. vm_compute. reflexivity. Qed.

Lemma toy_richmem_compress_ends :
  ended (@richmem_compress plain_ffi Toy.lib 5 hel (Some (LO_int 3)) None World0) = true.
Proof. vm_compute. reflexivity. Qed.

(** X18 on [compress(b'hel', 3)] and [richmem_compress(b'hel', 3)]. *)
Lemma X18_one_shot_compress_witness :
  (exists comp w1 res w',
     @ZstdCompressor__init__ Toy.lib (Some (LO_int 3)) None World0 = Some (Ok comp, w1)
     /\ @compress plain_ffi Toy.lib 5 hel (Some (LO_int 3)) None World0 = Some (res, w')
     /\ match res with
        | Ok b =>
            exists c' rest,
              @compress_session Toy.lib Toy.e_end (_cctx comp) hel c' b rest 0
        | Raise e =>
            exists s', @ZstdCompressor_compress plain_ffi Toy.lib 5 hel (@FLUSH_FRAME Toy.lib)
                         (comp, w1) = Some (Raise e, s')
        end)
  /\ (exists comp w1 res w',
        @RichMemZstdCompressor__init__ Toy.lib (Some (LO_int 3)) None World0
        = Some (Ok comp, w1)
        /\ @richmem_compress plain_ffi Toy.lib 5 hel (Some (LO_int 3)) None World0
           = Some (res, w')
        /\ match res with
           | Ok b =>
               exists c' rest,
                 @compress_session Toy.lib Toy.e_end (r_cctx comp) hel c' b rest 0
           | Raise e =>
               exists s', @RichMemZstdCompressor_compress plain_ffi Toy.lib 5 hel
                            (comp, w1) = Some (Raise e, s')
           end).
Proof.
  split.
  - pose proof toy_one_shot_init_returns as Hret.
    destruct (@ZstdCompressor__init__ Toy.lib (Some (LO_int 3)) None World0)
      as [[[comp|e] w1]|] eqn:Hinit; try discriminate Hret.
    pose proof toy_one_shot_compress_ends as Hend.
    destruct (@compress plain_ffi Toy.lib 5 hel (Some (LO_int 3)) None World0)
      as [[res w']|] eqn:Hrun; [|discriminate Hend].
    exists comp, w1, res, w'. split; [reflexivity|]. split; [reflexivity|].
    exact (proj1 (@X18_one_shot_compress plain_ffi Toy.lib
                    toy_compress_writes_within_room toy_directives_differ)
             5%nat hel (Some (LO_int 3)) None World0 comp w1 res w' Hinit Hrun).
  - pose proof toy_richmem_init_returns as Hret.
    destruct (@RichMemZstdCompressor__init__ Toy.lib (Some (LO_int 3)) None World0)
      as [[[comp|e] w1]|] eqn:Hinit; try discriminate Hret.
    pose proof toy_richmem_compress_ends as Hend.
    destruct (@richmem_compress plain_ffi Toy.lib 5 hel (Some (LO_int 3)) None World0)
      as [[res w']|] eqn:Hrun; [|discriminate Hend].
    assert (Hn : 0 <= @ZSTD_compressBound Toy.lib (len hel)) by (vm_compute; discriminate).
    exists comp, w1, res, w'. split; [reflexivity|]. split; [reflexivity|].
    exact (proj2 (@X18_one_shot_compress plain_ffi Toy.lib
                    toy_compress_writes_within_room toy_directives_differ)
             5%nat hel (Some (LO_int 3)) None World0 comp w1 res w' Hn Hinit Hrun).
Defined.

Lemma toy_decompressor_init_returns :
  returned (@_Decompressor__init__ Toy.lib DECOMPRESSOR (Some toy_dict) None World0)
  = true.
Proof. vm_compute. reflexivity. Qed.

(** X19 on [ZstdDecompressor(zstd_dict)]. *)
Lemma X19_decompressor_digests_dictionary_witness :
  exists self w' d dd,
    @_Decompressor__init__ Toy.lib DECOMPRESSOR (Some toy_dict) None World0
    = Some (Ok self, w')
    /\ d__dict self = Some d
    /\ ddict d = Some dd
    /\ @ZSTD_createDDict Toy.lib (dict_content toy_dict) = Some dd.
Proof.
  pose proof toy_decompressor_init_returns as Hret.
  destruct (@_Decompressor__init__ Toy.lib DECOMPRESSOR (Some toy_dict) None World0)
    as [[[self|e] w']|] eqn:Hrun; try discriminate Hret.
  destruct (@X19_decompressor_digests_dictionary Toy.lib _ _ _ _ _ _ Hrun)
    as (d & dd & dctx & Hd & Hdd & Hfrom & _).
  exists self, w', d, dd. split; [reflexivity|]. split; [exact Hd|].
  split; [exact Hdd | exact Hfrom].
Defined.

(** X1 on a single-frame decompressor, the frame of [hel], a cap of 2. *)
Lemma X1_decompress_keeps_unconsumed_input_witness :
  exists r self' w' last,
    @_stream_decompress plain_ffi Toy.lib 5 hel_frame 2
      (toy_decompressor DECOMPRESSOR, World0) = Some (Ok r, (self', w'))
    /\ @decompress_session Toy.lib (_dctx (toy_decompressor DECOMPRESSOR))
         (carry_over (toy_decompressor DECOMPRESSOR) World0 ++ hel_frame)
         (_dctx self') r (carry_over self' w') last
    /\ carry_over_inv self' w'
    /\ _needs_input self'
       = match carry_over self' w' with
         | [] => needs_input_when_consumed self' r 2
         | _ => false
         end.
Proof.
  pose proof toy_bounded_run_returns as Hret.
  destruct (@_stream_decompress plain_ffi Toy.lib 5 hel_frame 2
              (toy_decompressor DECOMPRESSOR, World0)) as [[[r|e] [self' w']]|] eqn:Hrun;
    try discriminate Hret.
  assert (Hu : 0 <= @ZSTD_CONTENTSIZE_UNKNOWN Toy.lib) by (vm_compute; discriminate).
  destruct (@X1_decompress_keeps_unconsumed_input plain_ffi Toy.lib 5 hel_frame 2
              (toy_decompressor DECOMPRESSOR) World0 r self' w'
              toy_writes_within_room toy_reads_within_input toy_content_size_nonneg Hu
              (toy_fresh_carry_over_inv DECOMPRESSOR) Hrun)
    as (last & H).
  exists r, self', w', last. split; [reflexivity | exact H].
Defined.

Lemma toy_frame_and_more_returns :
  returned (@_stream_decompress plain_ffi Toy.lib 5 (hel_frame ++ ["x"; "y"]%byte) (-1)
              (toy_decompressor DECOMPRESSOR, World0)) = true.
Proof. vm_compute. reflexivity. Qed.

(** X2 on a fresh single-frame decompressor and the frame of [hel]
    followed by two more bytes. *)
Lemma X2_unused_data_after_decompress_witness :
  exists r self1 w1 u self2 rest last,
    @_stream_decompress plain_ffi Toy.lib 5 (hel_frame ++ ["x"; "y"]%byte) (-1)
      (toy_decompressor DECOMPRESSOR, World0) = Some (Ok r, (self1, w1))
    /\ @decompress_session Toy.lib (_dctx (toy_decompressor DECOMPRESSOR))
         (carry_over (toy_decompressor DECOMPRESSOR) World0
          ++ (hel_frame ++ ["x"; "y"]%byte))
         (_dctx self1) r rest last
    /\ ZstdDecompressor_unused_data (self1, w1) = Some (Ok u, (self2, w1))
    /\ (if _eof self1
        then last = Some 0 /\ u = rest
        else u = [] /\ self2 = self1)
    /\ forall w2, ZstdDecompressor_unused_data (self2, w2) = Some (Ok u, (self2, w2)).
Proof.
  pose proof toy_frame_and_more_returns as Hret.
  destruct (@_stream_decompress plain_ffi Toy.lib 5 (hel_frame ++ ["x"; "y"]%byte) (-1)
              (toy_decompressor DECOMPRESSOR, World0)) as [[[r|e] [self1 w1]]|] eqn:Hrun;
    try discriminate Hret.
  assert (Hu : 0 <= @ZSTD_CONTENTSIZE_UNKNOWN Toy.lib) by (vm_compute; discriminate).
  destruct (@X2_unused_data_after_decompress plain_ffi Toy.lib 5
              (hel_frame ++ ["x"; "y"]%byte) (-1)
              (toy_decompressor DECOMPRESSOR) World0 r self1 w1
              toy_writes_within_room toy_reads_within_input toy_content_size_nonneg Hu
              (toy_fresh_carry_over_inv DECOMPRESSOR)
              eq_refl eq_refl Hrun) as (u & self2 & rest & last & H).
  exists r, self1, w1, u, self2, rest, last. split; [reflexivity | exact H].
Defined.

(** C7 on a single-frame decompressor, the frame of [hel], a cap of 2. *)
Lemma C7_needs_input_after_decompress_witness :
  exists r self' w' unconsumed last,
    @_stream_decompress plain_ffi Toy.lib 5 hel_frame 2
      (toy_decompressor DECOMPRESSOR, World0) = Some (Ok r, (self', w'))
    /\ @decompress_session Toy.lib (_dctx (toy_decompressor DECOMPRESSOR))
         (carry_over (toy_decompressor DECOMPRESSOR) World0 ++ hel_frame)
         (_dctx self') r unconsumed last
    /\ carry_over self' w' = unconsumed
    /\ match unconsumed with
       | [] => _needs_input self' = negb ((len r =? 2) || _eof self')
       | _ :: _ => _needs_input self' = false
       end.
Proof.
  pose proof toy_bounded_run_returns as Hret.
  destruct (@_stream_decompress plain_ffi Toy.lib 5 hel_frame 2
              (toy_decompressor DECOMPRESSOR, World0)) as [[[r|e] [self' w']]|] eqn:Hrun;
    try discriminate Hret.
  assert (Hu : 0 <= @ZSTD_CONTENTSIZE_UNKNOWN Toy.lib) by (vm_compute; discriminate).
  destruct (@C7_needs_input_after_decompress plain_ffi Toy.lib 5 hel_frame 2
              (toy_decompressor DECOMPRESSOR) World0 r self' w'
              toy_writes_within_room toy_reads_within_input toy_content_size_nonneg Hu
              (toy_fresh_carry_over_inv DECOMPRESSOR) Hrun)
    as (unconsumed & last & Hs & Hc & _ & _ & Hni).
  exists r, self', w', unconsumed, last.
  split; [reflexivity|]. split; [exact Hs|]. split; [exact Hc | exact Hni].
Defined.

(** The claim C7 as stated fails on a single-frame decompressor whose
    frame has ended: [decompress] of the whole frame of [hel], without a
    cap, consumes all its input and returns 3 bytes, which is not
    [max_length], so that the claim has [needs_input] true; the code sets
    it to false, because [eof] is true. *)
Lemma C7_counterexample :
  match @_stream_decompress plain_ffi Toy.lib 5 hel_frame (-1)
          (toy_decompressor DECOMPRESSOR, World0) with
  | Some (Ok r, (self', w')) =>
      carry_over self' w' = []
      /\ len r = 3
      /\ len r <> -1
      /\ _eof self' = true
      /\ _needs_input self' = false
  | _ => False
  end.
Proof.
  vm_compute. repeat split. discriminate.
Qed.

(** The length test of [ZstdDict.__init__] counts items, not bytes:
    [array.array('Q', [0x1EC30A437])] holds the eight bytes of a dictionary
    with the identifier 1 and is refused as too short, while the same
    eight bytes as a [bytes] object make a dictionary. *)
Lemma toy_dict_of_wide_items :
  @ZstdDict__init__ Toy.lib
    {| py_len := 1;
       py_bytes := ["7"; "164"; "0"; "236"; "001"; "000"; "000"; "000"]%byte |} false
  = Raise (ValueError VE_dict_too_short)
  /\ match @ZstdDict__init__ Toy.lib
            (of_bytes ["7"; "164"; "0"; "236"; "001"; "000"; "000"; "000"]%byte) false
     with
     | Ok d => dict_id d = 1
     | Raise _ => False
     end.
Proof.
  split; [reflexivity|].
  unfold ZstdDict__init__, of_bytes. cbn [py_len py_bytes].
  change (len ["7"; "164"; "0"; "236"; "001"; "000"; "000"; "000"]%byte) with 8.
  cbn [Z.ltb Z.compare Pos.compare Pos.compare_cont negb andb].
  change (Z.to_nat 8) with 8%nat. cbn [take].
  change (@ZDICT_getDictID Toy.lib
            ["7"; "164"; "0"; "236"; "001"; "000"; "000"; "000"]%byte) with 1.
  cbn [Z.eqb dict_id]. reflexivity.
Qed.
